(** * PG-Strom: the chunked data store (src/datastore.c) and the completion
      callback of GpuScan (src/gpuscan.c)

    A shallow embedding of the routines that manage a [pgstrom_data_store]
    and of [pgstrom_respond_gpuscan], followed by the properties stated for
    them.  The buffer of a chunk is modelled byte by byte; every offset is
    relative to the head of the [kern_data_store]. *)

From Stdlib Require Import ZArith List Lia Bool String.
Import ListNotations.
Local Open Scope Z_scope.

(* ================================================================== *)
(** * Part I.  Definitions                                             *)
(* ================================================================== *)

(** ** Outcome of a routine

    A routine either returns, leaves through [elog(ERROR, ...)], or has no
    result the language defines: it hits a failed [Assert()] when the build
    has assertion checking, or it reads or writes outside the buffer it was
    given ([Trap] in both cases). *)

Inductive outcome (A : Type) : Type :=
| Done (a : A)
| Elog (msg : string)
| Trap.

Arguments Done {A} a.
Arguments Elog {A} msg.
Arguments Trap {A}.

Definition bind {A B : Type} (c : outcome A) (k : A -> outcome B) : outcome B :=
  match c with
  | Done a => k a
  | Elog msg => Elog msg
  | Trap => Trap
  end.

Notation "x <- c ;; k" := (bind c (fun x => k))
  (at level 61, c at next level, right associativity).
Notation "c ;;; k" := (bind c (fun _ => k))
  (at level 61, right associativity).

(** ** c.h: alignment macros

    [TYPEALIGN(ALIGNVAL,LEN)] is
    [(((uintptr_t)(LEN) + ((ALIGNVAL) - 1)) & ~((uintptr_t)((ALIGNVAL) - 1)))]
    and [TYPEALIGN_DOWN(ALIGNVAL,LEN)] is
    [(((uintptr_t)(LEN)) & ~((uintptr_t)((ALIGNVAL) - 1)))].  Their operands
    here are buffer sizes built from 32-bit quantities, far below 2^64, so
    the 64-bit wrap-around of [uintptr_t] is not written out. *)

Definition TYPEALIGN (ALIGNVAL LEN : Z) : Z :=
  Z.land (LEN + (ALIGNVAL - 1)) (Z.lnot (ALIGNVAL - 1)).

Definition TYPEALIGN_DOWN (ALIGNVAL LEN : Z) : Z :=
  Z.land LEN (Z.lnot (ALIGNVAL - 1)).

Definition INT_MAX : Z := 2147483647.

(** Wrap-around of a [size_t] expression.  A store into a [cl_uint] wraps
    modulo 2^32 through [store_uint] below. *)
Definition size_t_wrap (v : Z) : Z := v mod 2 ^ 64.

(** ** Memory

    A buffer is addressed by byte offset; a byte is a [Z] in [0, 256). *)

Definition memory := Z -> Z.

Definition in_range (lo n x : Z) : bool := (lo <=? x) && (x <? lo + n).

(** [memcpy(dst + d, src + s, n)]; [memmove] when [dst] and [src] are the
    same buffer (the source bytes are those before the call). *)
Definition memcpy (dst : memory) (d : Z) (src : memory) (s n : Z) : memory :=
  fun x => if in_range d n x then src (s + (x - d)) else dst x.

Definition memmove (m : memory) (d s n : Z) : memory := memcpy m d m s n.

(** [memmove] inside a buffer of [size] bytes, the offsets counted from its
    head: C defines the call only when the source range and the destination
    range lie inside the buffer. *)
Definition memmove_within (size : Z) (m : memory) (d s n : Z)
  : outcome memory :=
  if (0 <=? d) && (d + n <=? size) && (0 <=? s) && (s + n <=? size)
  then Done (memmove m d s n)
  else Trap.

Definition memset (m : memory) (d c n : Z) : memory :=
  fun x => if in_range d n x then c else m x.

Definition store_bytes (m : memory) (d : Z) (bs : list Z) : memory :=
  fun x => if in_range d (Z.of_nat (List.length bs)) x
           then nth (Z.to_nat (x - d)) bs 0 else m x.

Fixpoint load_bytes (m : memory) (a : Z) (n : nat) : list Z :=
  match n with
  | O => []
  | S k => m a :: load_bytes m (a + 1) k
  end.

(** Little-endian integers of [n] bytes (host and device are little-endian). *)
Fixpoint encode_uint (n : nat) (v : Z) : list Z :=
  match n with
  | O => []
  | S k => v mod 256 :: encode_uint k (v / 256)
  end.

Fixpoint decode_uint (bs : list Z) : Z :=
  match bs with
  | [] => 0
  | b :: r => b + 256 * decode_uint r
  end.

Definition store_uint (n : nat) (m : memory) (a v : Z) : memory :=
  store_bytes m a (encode_uint n v).

Definition load_uint (n : nat) (m : memory) (a : Z) : Z :=
  decode_uint (load_bytes m a n).

(** A pointer into a buffer, seen as the memory that starts there. *)
Definition ptr_at (m : memory) (base : Z) : memory := fun x => m (base + x).

(** ** Constants and layouts declared outside the two source files

    [pg_strom.h], [cuda_common.h] and PostgreSQL's [pg_config.h] are not part
    of the sources at hand.  What the routines need from them is collected in
    one class: the values are parameters, the laws are what the layout of a C
    struct and the definition of the macros guarantee. *)

Class KdsLayout : Type := {
  (** built with assertion checking? *)
  USE_ASSERT_CHECKING : bool;
  (** alignment units *)
  STROMALIGN_LEN : Z;
  MAXIMUM_ALIGNOF : Z;
  ALIGNOF_LONG : Z;
  (** size of a storage page, [sizeof(Datum)] *)
  BLCKSZ : Z;
  sizeof_Datum : Z;
  (** [offsetof(kern_data_store, colmeta)] and [sizeof(kern_colmeta)] *)
  offsetof_colmeta : Z;
  sizeof_colmeta : Z;
  (** [kern_tupitem]: [t_len] at offset 0 on [sizeof_t_len] bytes, then
      [t_self] (an [ItemPointerData], three 16-bit words), then [htup] *)
  sizeof_t_len : nat;
  offsetof_t_self : Z;
  offsetof_htup : Z;
  (** [kern_hashitem]: the 32-bit words [hash], [next], [rowid], then the
      embedded [kern_tupitem t] *)
  offsetof_hash : Z;
  offsetof_next : Z;
  offsetof_rowid : Z;
  offsetof_t : Z;
  (** [__KDS_NSLOTS(nitems)], the width of the hash-slot array *)
  __KDS_NSLOTS : Z -> Z;
  (** [MaxHeapTuplesPerPage] of [htup_details.h] *)
  MaxHeapTuplesPerPage : Z;
  (** laws *)
  STROMALIGN_LEN_pow2 : exists k, 0 <= k /\ STROMALIGN_LEN = 2 ^ k;
  MAXIMUM_ALIGNOF_pow2 : exists k, 0 <= k /\ MAXIMUM_ALIGNOF = 2 ^ k;
  ALIGNOF_LONG_pow2 : exists k, 0 <= k /\ ALIGNOF_LONG = 2 ^ k;
  BLCKSZ_pos : 0 < BLCKSZ;
  sizeof_Datum_pos : 0 < sizeof_Datum;
  colmeta_layout : 0 <= offsetof_colmeta /\ 0 <= sizeof_colmeta;
  tupitem_layout :
    (0 < sizeof_t_len)%nat /\ Z.of_nat sizeof_t_len <= offsetof_t_self /\
    offsetof_t_self + 6 <= offsetof_htup;
  hashitem_layout :
    0 <= offsetof_hash /\ offsetof_hash + 4 <= offsetof_next /\
    offsetof_next + 4 <= offsetof_rowid /\ offsetof_rowid + 4 <= offsetof_t;
  KDS_NSLOTS_ge : forall n, 0 <= n -> n <= __KDS_NSLOTS n
}.

Section DataStore.

Context {L : KdsLayout}.

(** Modelled from the spec: [STROMALIGN] and [STROMALIGN_DOWN] of
    [cuda_common.h], which round a length up or down "to an alignment
    boundary", here [STROMALIGN_LEN]. *)
Definition STROMALIGN (LEN : Z) : Z := TYPEALIGN STROMALIGN_LEN LEN.
Definition STROMALIGN_DOWN (LEN : Z) : Z := TYPEALIGN_DOWN STROMALIGN_LEN LEN.

(** [MAXALIGN] and [LONGALIGN] of PostgreSQL's [c.h] *)
Definition MAXALIGN (LEN : Z) : Z := TYPEALIGN MAXIMUM_ALIGNOF LEN.
Definition LONGALIGN (LEN : Z) : Z := TYPEALIGN ALIGNOF_LONG LEN.

Definition Assert (cond : bool) : outcome unit :=
  if USE_ASSERT_CHECKING && negb cond then Trap else Done tt.

(** ** Data model *)

Inductive kds_format : Type :=
| KDS_FORMAT_ROW
| KDS_FORMAT_SLOT
| KDS_FORMAT_HASH
| KDS_FORMAT_BLOCK.

Definition format_eqb (a b : kds_format) : bool :=
  match a, b with
  | KDS_FORMAT_ROW, KDS_FORMAT_ROW
  | KDS_FORMAT_SLOT, KDS_FORMAT_SLOT
  | KDS_FORMAT_HASH, KDS_FORMAT_HASH
  | KDS_FORMAT_BLOCK, KDS_FORMAT_BLOCK => true
  | _, _ => false
  end.

(** The header fields of [kern_data_store] that the routines read or write,
    and [body], the bytes of the buffer (offsets from the head of the
    structure; the header itself lives in the record fields).  The column
    metadata filled by the loop of [init_kernel_data_store] is read by none
    of the routines below and is left out. *)
Record kern_data_store : Type := mk_kds {
  length : Z;
  usage : Z;
  ncols : Z;
  nitems : Z;
  nrooms : Z;
  format : kds_format;
  nslots : Z;
  nrows_per_block : Z;
  body : memory
}.

Record pgstrom_data_store : Type := mk_pds {
  refcnt : Z;
  kds : kern_data_store
}.

Record ItemPointerData : Type := mk_itemptr {
  bi_hi : Z;
  bi_lo : Z;
  ip_posid : Z
}.

(** A [HeapTupleData]: [t_data] is the memory its pointer designates, of
    which [t_len] bytes belong to the tuple. *)
Record HeapTupleData : Type := mk_heaptuple {
  t_len : Z;
  t_self : ItemPointerData;
  t_data : memory
}.

Definition tuple_bytes (tup : HeapTupleData) : list Z :=
  load_bytes (t_data tup) 0 (Z.to_nat (t_len tup)).

(** What a [TupleTableSlot] holds after a fetch. *)
Inductive slot_content : Type :=
| TTS_EMPTY
| TTS_TUPLE (tuple : HeapTupleData)
| TTS_VIRTUAL (tts_values tts_isnull : list Z).

Record TupleTableSlot : Type := mk_slot {
  tts_natts : Z;
  tts_content : slot_content
}.

Record TupleDesc : Type := mk_tupdesc {
  natts : Z
}.

(** ** Length arithmetic of a chunk

    The macros [KDS_CALCULATE_*] and [KERN_DATA_STORE_*] belong to
    [cuda_common.h].  By the specification a buffer grows "from the front
    (header + index array) and from the back (variable-length payload)", the
    index array of a Row or Hash chunk holds a "per-record byte offset into
    payload region", a Hash chunk adds an "open-hash bucket table", and
    [length_for] "must account for the index array, and for Hash format,
    the bucket table sized to the next hash-friendly count >=
    record_count". *)

(** Modelled from the spec: [KDS_CALCULATE_HEAD_LENGTH(ncols)], the aligned
    size of the header with its [ncols] column entries. *)
Definition KDS_CALCULATE_HEAD_LENGTH (ncols : Z) : Z :=
  STROMALIGN (offsetof_colmeta + sizeof_colmeta * ncols).

(** Modelled from the spec: [KDS_CALCULATE_ROW_FRONTLEN(ncols,nitems)], the
    header and the index array of [nitems] 32-bit offsets. *)
Definition KDS_CALCULATE_ROW_FRONTLEN (ncols nitems : Z) : Z :=
  KDS_CALCULATE_HEAD_LENGTH ncols + STROMALIGN (4 * nitems).

(** Modelled from the spec: [KDS_CALCULATE_ROW_LENGTH(ncols,nitems,data_len)],
    the [length_for] of the Row format. *)
Definition KDS_CALCULATE_ROW_LENGTH (ncols nitems data_len : Z) : Z :=
  KDS_CALCULATE_ROW_FRONTLEN ncols nitems + STROMALIGN data_len.

(** Modelled from the spec: [KDS_CALCULATE_HASH_FRONTLEN(ncols,nitems)], the
    header, the index array and the bucket table of [__KDS_NSLOTS(nitems)]
    32-bit slots. *)
Definition KDS_CALCULATE_HASH_FRONTLEN (ncols nitems : Z) : Z :=
  KDS_CALCULATE_HEAD_LENGTH ncols + STROMALIGN (4 * nitems) +
  STROMALIGN (4 * __KDS_NSLOTS nitems).

(** Modelled from the spec:
    [KDS_CALCULATE_HASH_LENGTH(ncols,nitems,data_len)], the [length_for] of
    the Hash format. *)
Definition KDS_CALCULATE_HASH_LENGTH (ncols nitems data_len : Z) : Z :=
  KDS_CALCULATE_HASH_FRONTLEN ncols nitems + STROMALIGN data_len.

(** Modelled from the spec: [KERN_DATA_STORE_HEAD_LENGTH(kds)], the head
    length for the column count of [kds]. *)
Definition KERN_DATA_STORE_HEAD_LENGTH (k : kern_data_store) : Z :=
  KDS_CALCULATE_HEAD_LENGTH (ncols k).

(** Modelled from the spec: the offset of [KERN_DATA_STORE_BODY(kds)], what
    follows the header. *)
Definition KERN_DATA_STORE_BODY (k : kern_data_store) : Z :=
  KERN_DATA_STORE_HEAD_LENGTH k.

(** Modelled from the spec: the offset of [KERN_DATA_STORE_ROWINDEX(kds)],
    the index array, first thing of the body. *)
Definition KERN_DATA_STORE_ROWINDEX (k : kern_data_store) : Z :=
  KERN_DATA_STORE_BODY k.

(** Modelled from the spec: the offset of [KERN_DATA_STORE_HASHSLOT(kds)],
    the bucket table, which follows the index array. *)
Definition KERN_DATA_STORE_HASHSLOT (k : kern_data_store) : Z :=
  KERN_DATA_STORE_BODY k + STROMALIGN (4 * nitems k).

(** [row_index[i]], a [cl_uint] *)
Definition row_index_get (m : memory) (rowindex i : Z) : Z :=
  load_uint 4 m (rowindex + 4 * i).

Definition row_index_set (m : memory) (rowindex i v : Z) : memory :=
  store_uint 4 m (rowindex + 4 * i) v.

(** Modelled from the spec: the offset of [KERN_DATA_STORE_TUPITEM(kds,i)],
    the item the i-th index entry designates. *)
Definition KERN_DATA_STORE_TUPITEM (k : kern_data_store) (i : Z) : Z :=
  row_index_get (body k) (KERN_DATA_STORE_ROWINDEX k) i.

(** Modelled from the spec: the offset of [KERN_DATA_STORE_HASHITEM(kds,i)],
    the [kern_hashitem] whose member [t] that item is. *)
Definition KERN_DATA_STORE_HASHITEM (k : kern_data_store) (i : Z) : Z :=
  KERN_DATA_STORE_TUPITEM k i - offsetof_t.

(** Modelled from the spec: the width of a Slot-format row, a "fixed array
    of (value, null-flag) pairs per record": [ncols] values, then [ncols]
    null flags of one byte. *)
Definition slot_row_width (ncols : Z) : Z :=
  LONGALIGN ((sizeof_Datum + 1) * ncols).

(** Modelled from the spec: [KERN_DATA_STORE_SLOT_LENGTH(kds,nitems)], the
    aligned size of [nitems] rows. *)
Definition KERN_DATA_STORE_SLOT_LENGTH (k : kern_data_store) (nitems : Z) : Z :=
  STROMALIGN (slot_row_width (ncols k) * nitems).

(** Modelled from the spec: the offsets of [KERN_DATA_STORE_VALUES(kds,i)]
    and [KERN_DATA_STORE_ISNULL(kds,i)], the values and the null flags of
    row [i]. *)
Definition KERN_DATA_STORE_VALUES (k : kern_data_store) (i : Z) : Z :=
  KERN_DATA_STORE_BODY k + slot_row_width (ncols k) * i.

Definition KERN_DATA_STORE_ISNULL (k : kern_data_store) (i : Z) : Z :=
  KERN_DATA_STORE_VALUES k i + sizeof_Datum * ncols k.

(** ** Items in the buffer *)

Definition store_itemptr (m : memory) (a : Z) (ip : ItemPointerData) : memory :=
  store_uint 2 (store_uint 2 (store_uint 2 m a (bi_hi ip)) (a + 2) (bi_lo ip))
             (a + 4) (ip_posid ip).

Definition load_itemptr (m : memory) (a : Z) : ItemPointerData :=
  {| bi_hi := load_uint 2 m a;
     bi_lo := load_uint 2 m (a + 2);
     ip_posid := load_uint 2 m (a + 4) |}.

(** [tup_item->t_len = t_len; tup_item->t_self = t_self;
     memcpy(&tup_item->htup, t_data, t_len)] for the item at offset [off] *)
Definition write_tupitem (m : memory) (off : Z) (tup : HeapTupleData) : memory :=
  let m1 := store_uint sizeof_t_len m off (t_len tup) in
  let m2 := store_itemptr m1 (off + offsetof_t_self) (t_self tup) in
  memcpy m2 (off + offsetof_htup) (t_data tup) 0 (t_len tup).

(** [tuple->t_len = tup_item->t_len; tuple->t_self = tup_item->t_self;
     tuple->t_data = &tup_item->htup] *)
Definition read_tupitem (m : memory) (off : Z) : HeapTupleData :=
  {| t_len := load_uint sizeof_t_len m off;
     t_self := load_itemptr m (off + offsetof_t_self);
     t_data := ptr_at m (off + offsetof_htup) |}.

(** the indices [0 .. n-1] a loop over the records runs through *)
Definition index_range (n : Z) : list Z := map Z.of_nat (seq 0 (Z.to_nat n)).

(** ** kern_fetch_data_store, pgstrom_fetch_data_store (lines 183-240) *)

Definition kern_fetch_data_store (slot : TupleTableSlot) (k : kern_data_store)
    (row_index : Z) (tuple : HeapTupleData)
  : outcome (bool * TupleTableSlot * HeapTupleData) :=
  if nitems k <=? row_index then
    Done (false, slot, tuple)
  else
    match format k with
    | KDS_FORMAT_ROW =>
        let tup_item := KERN_DATA_STORE_TUPITEM k row_index in
        let tuple' := read_tupitem (body k) tup_item in
        Done (true,
              {| tts_natts := tts_natts slot; tts_content := TTS_TUPLE tuple' |},
              tuple')
    | KDS_FORMAT_SLOT =>
        let n := Z.to_nat (tts_natts slot) in
        let vals := load_bytes (body k) (KERN_DATA_STORE_VALUES k row_index)
                               (Z.to_nat (sizeof_Datum * tts_natts slot)) in
        let nulls := load_bytes (body k) (KERN_DATA_STORE_ISNULL k row_index) n in
        Done (true,
              {| tts_natts := tts_natts slot;
                 tts_content := TTS_VIRTUAL vals nulls |},
              tuple)
    | _ => Elog "Bug? unexpected data-store format"
    end.

Definition pgstrom_fetch_data_store (slot : TupleTableSlot)
    (pds : pgstrom_data_store) (row_index : Z) (tuple : HeapTupleData)
  : outcome (bool * TupleTableSlot * HeapTupleData) :=
  kern_fetch_data_store slot (kds pds) row_index tuple.

(** ** init_kernel_data_store (lines 260-333), PDS_create_row (493-510),
       PDS_create_hash (536-554), PDS_create_slot (512-534)

    [fresh] is the content of the buffer [dmaBufferAlloc] hands out. *)

Definition init_kernel_data_store (fresh : memory) (tupdesc : TupleDesc)
    (length : Z) (format : kds_format) (nrooms : Z) : kern_data_store :=
  {| length := length;
     usage := 0;
     ncols := natts tupdesc;
     nitems := 0;
     nrooms := nrooms;
     format := format;
     nslots := 0;
     nrows_per_block := 0;
     body := fresh |}.

Definition PDS_create_row (fresh : memory) (tupdesc : TupleDesc) (length : Z)
  : pgstrom_data_store :=
  let kds_length := STROMALIGN_DOWN length in
  {| refcnt := 1;
     kds := init_kernel_data_store fresh tupdesc kds_length
              KDS_FORMAT_ROW INT_MAX |}.

Definition PDS_create_hash (fresh : memory) (tupdesc : TupleDesc) (length : Z)
  : outcome pgstrom_data_store :=
  let kds_length := STROMALIGN_DOWN length in
  if kds_length <? KDS_CALCULATE_HEAD_LENGTH (natts tupdesc) then
    Elog "Required length for KDS-Hash is too short"
  else
    Done {| refcnt := 1;
            kds := init_kernel_data_store fresh tupdesc kds_length
                     KDS_FORMAT_HASH INT_MAX |}.

Definition PDS_create_slot (fresh : memory) (tupdesc : TupleDesc)
    (nrooms extra_length : Z) : pgstrom_data_store :=
  let kds_length :=
    STROMALIGN (offsetof_colmeta + sizeof_colmeta * natts tupdesc) +
    STROMALIGN (LONGALIGN ((sizeof_Datum + 1) * natts tupdesc) * nrooms) +
    STROMALIGN extra_length in
  {| refcnt := 1;
     kds := init_kernel_data_store fresh tupdesc kds_length
              KDS_FORMAT_SLOT nrooms |}.

(** ** PDS_insert_tuple (lines 943-981)

    The slot is given by the number of attributes of its descriptor and by
    the tuple [ExecFetchSlotTuple(slot)] returns. *)

Definition PDS_insert_tuple (pds : pgstrom_data_store)
    (slot_natts : Z) (tuple : HeapTupleData)
  : outcome (bool * pgstrom_data_store) :=
  let k := kds pds in
  if nrooms k <=? nitems k then
    Done (false, pds)
  else
    Assert (ncols k =? slot_natts) ;;;
    if negb (format_eqb (format k) KDS_FORMAT_ROW) then
      Elog "Bug? unexpected data-store format"
    else
      let tup_index := KERN_DATA_STORE_ROWINDEX k in
      let required := LONGALIGN (offsetof_htup + t_len tuple) in
      if length k <? KDS_CALCULATE_ROW_LENGTH (ncols k) (nitems k + 1)
                                              (required + usage k) then
        Done (false, pds)
      else
        let usage' := usage k + required in
        let tup_item := length k - usage' in
        let m1 := write_tupitem (body k) tup_item tuple in
        let m2 := row_index_set m1 tup_index (nitems k) tup_item in
        Done (true,
              {| refcnt := refcnt pds;
                 kds := {| length := length k;
                           usage := usage';
                           ncols := ncols k;
                           nitems := nitems k + 1;
                           nrooms := nrooms k;
                           format := format k;
                           nslots := nslots k;
                           nrows_per_block := nrows_per_block k;
                           body := m2 |} |}).

(** ** PDS_insert_hashitem (lines 989-1034) *)

Definition PDS_insert_hashitem (pds : pgstrom_data_store)
    (slot_natts : Z) (tuple : HeapTupleData) (hash_value : Z)
  : outcome (bool * pgstrom_data_store) :=
  let k := kds pds in
  let row_index := KERN_DATA_STORE_ROWINDEX k in
  if nrooms k <=? nitems k then
    Done (false, pds)
  else
    Assert (ncols k =? slot_natts) ;;;
    if negb (format_eqb (format k) KDS_FORMAT_HASH) then
      Elog "Bug? unexpected data-store format"
    else
      let required := MAXALIGN (offsetof_t + offsetof_htup + t_len tuple) in
      Assert (usage k =? MAXALIGN (usage k)) ;;;
      if length k <? KDS_CALCULATE_HASH_LENGTH (ncols k) (nitems k + 1)
                                               (required + usage k) then
        Done (false, pds)
      else
        Assert (usage k =? MAXALIGN (usage k)) ;;;
        let khitem := length k - (usage k + required) in
        let usage' := usage k + required in
        let m1 := store_uint 4 (body k) (khitem + offsetof_hash) hash_value in
        let m2 := store_uint 4 m1 (khitem + offsetof_next) 2139062143 in
        let rowid := nitems k in
        let m3 := store_uint 4 m2 (khitem + offsetof_rowid) rowid in
        let m4 := write_tupitem m3 (khitem + offsetof_t) tuple in
        let m5 := row_index_set m4 row_index rowid (khitem + offsetof_t) in
        Done (true,
              {| refcnt := refcnt pds;
                 kds := {| length := length k;
                           usage := usage';
                           ncols := ncols k;
                           nitems := nitems k + 1;
                           nrooms := nrooms k;
                           format := format k;
                           nslots := nslots k;
                           nrows_per_block := nrows_per_block k;
                           body := m5 |} |}).

(** ** PDS_retain, PDS_release (lines 242-258)

    The DMA buffers live in a heap addressed by pointer; [frees p] counts
    the calls of [dmaBufferFree] on the buffer at [p].  [refcnt] is a C
    [int]; its overflow, undefined in C, is outside the model. *)

Definition pds_ptr := Z.

Record dma_heap : Type := mk_heap {
  cell : pds_ptr -> pgstrom_data_store;
  frees : pds_ptr -> nat
}.

Definition set_refcnt (h : dma_heap) (p : pds_ptr) (v : Z) : dma_heap :=
  {| cell := fun q => if q =? p
                      then {| refcnt := v; kds := kds (cell h p) |}
                      else cell h q;
     frees := frees h |}.

Definition dmaBufferFree (h : dma_heap) (p : pds_ptr) : dma_heap :=
  {| cell := cell h;
     frees := fun q => if q =? p then S (frees h p) else frees h q |}.

Definition PDS_retain (h : dma_heap) (pds : pds_ptr)
  : outcome (dma_heap * pds_ptr) :=
  Assert (0 <? refcnt (cell h pds)) ;;;
  Done (set_refcnt h pds (refcnt (cell h pds) + 1), pds).

Definition PDS_release (h : dma_heap) (pds : pds_ptr) : outcome dma_heap :=
  Assert (0 <? refcnt (cell h pds)) ;;;
  let h' := set_refcnt h pds (refcnt (cell h pds) - 1) in
  if refcnt (cell h' pds) =? 0 then Done (dmaBufferFree h' pds) else Done h'.

(** [dmaBufferAlloc] followed by the body of [PDS_create_row], at pointer
    [p] of the heap. *)
Definition PDS_create_row_at (h : dma_heap) (p : pds_ptr) (fresh : memory)
    (tupdesc : TupleDesc) (length : Z) : dma_heap :=
  {| cell := fun q => if q =? p then PDS_create_row fresh tupdesc length
                      else cell h q;
     frees := fun q => if q =? p then O else frees h q |}.

(** ** PDS_expand_size (lines 335-412)

    The routine returns either the pointer it was given or the pointer of a
    new buffer, the old one having been freed. *)

Inductive pds_result : Type :=
| SamePds (pds : pgstrom_data_store)
| NewPds (pds : pgstrom_data_store).

Definition set_length_body (pds : pgstrom_data_store) (len : Z) (m : memory)
  : pgstrom_data_store :=
  {| refcnt := refcnt pds;
     kds := {| length := len;
               usage := usage (kds pds);
               ncols := ncols (kds pds);
               nitems := nitems (kds pds);
               nrooms := nrooms (kds pds);
               format := format (kds pds);
               nslots := nslots (kds pds);
               nrows_per_block := nrows_per_block (kds pds);
               body := m |} |}.

Definition PDS_expand_size (fresh : memory) (pds_old : pgstrom_data_store)
    (kds_length_new : Z) : outcome pds_result :=
  let k := kds pds_old in
  let kds_length_old := length k in
  let kds_usage := usage k in
  Assert (format_eqb (format k) KDS_FORMAT_ROW ||
          format_eqb (format k) KDS_FORMAT_HASH) ;;;
  Assert (nslots k =? 0) ;;;
  let kds_length_new := STROMALIGN_DOWN kds_length_new in
  if kds_length_new <=? length k then
    Done (SamePds pds_old)
  else
    (* memcpy of the header part into the new buffer *)
    let m0 := memcpy fresh 0 (body k) 0 (KERN_DATA_STORE_HEAD_LENGTH k) in
    match format k with
    | KDS_FORMAT_ROW | KDS_FORMAT_HASH =>
        let row_index_old := KERN_DATA_STORE_ROWINDEX k in
        let row_index_new := KERN_DATA_STORE_ROWINDEX k in
        let shift := STROMALIGN_DOWN (size_t_wrap (kds_length_new - kds_length_old)) in
        let offset := size_t_wrap (kds_length_old - kds_usage) in
        if kds_length_new <=?
           (if format_eqb (format k) KDS_FORMAT_HASH
            then KDS_CALCULATE_HASH_LENGTH (ncols k) (nitems k) (usage k)
            else KDS_CALCULATE_ROW_LENGTH (ncols k) (nitems k) (usage k))
        then Elog "New nslots consumed larger than expanded"
        else
          let m1 := memcpy m0 (offset + shift) (body k) offset
                           (size_t_wrap (kds_length_old - offset)) in
          let m2 := fold_left
                      (fun m i =>
                         row_index_set m row_index_new i
                           (row_index_get (body k) row_index_old i + shift))
                      (index_range (nitems k)) m1 in
          Done (NewPds (set_length_body pds_old kds_length_new m2))
    | KDS_FORMAT_SLOT =>
        if 0 <? usage k then
          Elog "cannot expand KDS_FORMAT_SLOT with extra area"
        else
          let m1 := memcpy m0 (KERN_DATA_STORE_BODY k) (body k)
                           (KERN_DATA_STORE_BODY k)
                           (KERN_DATA_STORE_SLOT_LENGTH k (nitems k)) in
          Done (NewPds (set_length_body pds_old kds_length_new m1))
    | KDS_FORMAT_BLOCK => Elog "unexpected KDS format"
    end.

(** ** PDS_shrink_size (lines 414-491)

    The buffer of a chunk is the one [dmaBufferAlloc] gave for it: [length]
    bytes from the head of the structure ([PDS_create_row] and its siblings
    and [PDS_expand_size] allocate [offsetof(pgstrom_data_store, kds)] plus
    the length they store in [length]).  The [memmove] of line 448 copies
    [length - shift] bytes from [baseptr + shift] to [baseptr]; it is
    defined when both ranges lie in these [length] bytes. *)

(** one turn of the loop "adjust row_index and hash_slot" *)
Definition shrink_step (row_index hash_slot nslots shift : Z)
    (m : memory) (i : Z) : outcome memory :=
  let m1 := row_index_set m row_index i (row_index_get m row_index i - shift) in
  if 0 <? nslots then
    let khitem := row_index_get m1 row_index i - offsetof_t in
    Assert (load_uint 4 m1 (khitem + offsetof_rowid) =? i) ;;;
    let khindex := load_uint 4 m1 (khitem + offsetof_hash) mod nslots in
    let m2 := store_uint 4 m1 (khitem + offsetof_next)
                         (load_uint 4 m1 (hash_slot + 4 * khindex)) in
    Done (store_uint 4 m2 (hash_slot + 4 * khindex) khitem)
  else
    Done m1.

Fixpoint shrink_loop (row_index hash_slot nslots shift : Z)
    (idx : list Z) (m : memory) : outcome memory :=
  match idx with
  | [] => Done m
  | i :: rest =>
      m' <- shrink_step row_index hash_slot nslots shift m i ;;
      shrink_loop row_index hash_slot nslots shift rest m'
  end.

(** the slack [shift] that [PDS_shrink_size] computes for Row and Hash *)
Definition shrink_shift (k : kern_data_store) : Z :=
  STROMALIGN_DOWN
    (size_t_wrap
       (length k -
        (if format_eqb (format k) KDS_FORMAT_HASH
         then KDS_CALCULATE_HASH_LENGTH (ncols k) (nitems k) (usage k)
         else KDS_CALCULATE_ROW_LENGTH (ncols k) (nitems k) (usage k)))).

Definition PDS_shrink_size (pds : pgstrom_data_store)
  : outcome pgstrom_data_store :=
  let k := kds pds in
  match format k with
  | KDS_FORMAT_ROW | KDS_FORMAT_HASH =>
      let hash_slot := KERN_DATA_STORE_HASHSLOT k in
      let row_index := KERN_DATA_STORE_ROWINDEX k in
      let nslots := nslots k in
      let shift := shrink_shift k in
      if (shift <? BLCKSZ) || (shift <? sizeof_Datum * nitems k) then
        Done pds
      else
        let baseptr :=
          if format_eqb (format k) KDS_FORMAT_HASH
          then KDS_CALCULATE_HASH_FRONTLEN (ncols k) (nitems k)
          else KDS_CALCULATE_ROW_FRONTLEN (ncols k) (nitems k) in
        m1 <- memmove_within (length k) (body k) baseptr (baseptr + shift)
                             (size_t_wrap (length k - shift)) ;;
        m2 <- (if 0 <? nslots then
                 Assert (format_eqb (format k) KDS_FORMAT_HASH) ;;;
                 Done (memset m1 hash_slot 0 (4 * nslots))
               else Done m1) ;;
        m3 <- shrink_loop row_index hash_slot nslots shift
                          (index_range (nitems k)) m2 ;;
        let new_length := size_t_wrap (length k - shift) in
        Assert (new_length <=? length k) ;;;
        Done (set_length_body pds new_length m3)
  | KDS_FORMAT_SLOT =>
      let new_length := KERN_DATA_STORE_SLOT_LENGTH k (nitems k) in
      if 0 <? usage k then
        Elog "cannot shirink KDS_SLOT with extra region"
      else
        Assert (new_length <=? length k) ;;;
        Done (set_length_body pds new_length (body k))
  | KDS_FORMAT_BLOCK => Elog "Bug? unexpected PDS to be shrinked"
  end.

(** ** PDS_build_hashtable (lines 1036-1066) *)

(** one turn of the loop that links the items into their buckets *)
Definition build_step (row_index hash_slot nslots : Z)
    (m : memory) (i : Z) : outcome memory :=
  let khitem := row_index_get m row_index i - offsetof_t in
  Assert (load_uint 4 m (khitem + offsetof_rowid) =? i) ;;;
  let j := load_uint 4 m (khitem + offsetof_hash) mod nslots in
  let m1 := store_uint 4 m (khitem + offsetof_next)
                       (load_uint 4 m (hash_slot + 4 * j)) in
  Done (store_uint 4 m1 (hash_slot + 4 * j) khitem).

Fixpoint build_loop (row_index hash_slot nslots : Z)
    (idx : list Z) (m : memory) : outcome memory :=
  match idx with
  | [] => Done m
  | i :: rest =>
      m' <- build_step row_index hash_slot nslots m i ;;
      build_loop row_index hash_slot nslots rest m'
  end.

Definition PDS_build_hashtable (pds : pgstrom_data_store)
  : outcome pgstrom_data_store :=
  let k := kds pds in
  let row_index := KERN_DATA_STORE_ROWINDEX k in
  let hash_slot := KERN_DATA_STORE_HASHSLOT k in
  let nslots' := __KDS_NSLOTS (nitems k) in
  if negb (format_eqb (format k) KDS_FORMAT_HASH) then
    Elog "Bug? Only KDS_FORMAT_HASH can build a hash table"
  else if 0 <? nslots k then
    Elog "Bug? hash table is already built"
  else
    let m0 := memset (body k) hash_slot 0 (4 * nslots') in
    m <- build_loop row_index hash_slot nslots' (index_range (nitems k)) m0 ;;
    Done {| refcnt := refcnt pds;
            kds := {| length := length k;
                      usage := usage k;
                      ncols := ncols k;
                      nitems := nitems k;
                      nrooms := nrooms k;
                      format := format k;
                      nslots := nslots';
                      nrows_per_block := nrows_per_block k;
                      body := m |} |}.

(** ** PDS_insert_block (lines 826-935)

    The page read by [ReadBufferExtended]: its line pointers in order, each
    with what [ItemIdIsNormal], [ItemIdGetLength], [PageGetItem] and
    [HeapTupleSatisfiesVisibility] give for it under the snapshot.  The
    buffer manager calls and [CheckForSerializableConflictOut] belong to
    PostgreSQL and have no effect on the chunk. *)

Record ItemIdData : Type := mk_itemid {
  lp_normal : bool;
  lp_len : Z;
  lp_item : memory;
  lp_visible : bool
}.

Record Page : Type := mk_page {
  PageIsAllVisible : bool;
  page_items : list ItemIdData
}.

Record Snapshot : Type := mk_snapshot {
  takenDuringRecovery : bool
}.

Definition PageGetMaxOffsetNumber (page : Page) : Z :=
  Z.of_nat (List.length (page_items page)).

(** [ItemPointerSet(&t_self, blknum, lineoff)] *)
Definition ItemPointerSet (blknum lineoff : Z) : ItemPointerData :=
  {| bi_hi := Z.shiftr blknum 16;
     bi_lo := Z.land blknum 65535;
     ip_posid := lineoff |}.

(** the tuple a visible line pointer designates *)
Definition heap_tuple_of (blknum lineoff : Z) (lpp : ItemIdData) : HeapTupleData :=
  {| t_len := lp_len lpp;
     t_self := ItemPointerSet blknum lineoff;
     t_data := lp_item lpp |}.

Definition item_valid (all_visible : bool) (lpp : ItemIdData) : bool :=
  lp_normal lpp && (if all_visible then true else lp_visible lpp).

(** state of the loop over the line pointers: [kds->usage], [ntup], buffer *)
Record block_loop_state : Type := mk_bls {
  bls_usage : Z;
  bls_ntup : Z;
  bls_body : memory
}.

Definition insert_block_step (k : kern_data_store) (blknum : Z)
    (all_visible : bool) (st : block_loop_state)
    (lineoff : Z) (lpp : ItemIdData) : block_loop_state :=
  if negb (lp_normal lpp) then st
  else
    let tup := heap_tuple_of blknum lineoff lpp in
    let valid := if all_visible then true else lp_visible lpp in
    if negb valid then st
    else
      let tup_index := KERN_DATA_STORE_ROWINDEX k + 4 * nitems k in
      let usage' := bls_usage st + LONGALIGN (offsetof_htup + t_len tup) in
      let tup_item := length k - usage' in
      let m1 := row_index_set (bls_body st) tup_index (bls_ntup st) tup_item in
      let m2 := write_tupitem m1 tup_item tup in
      {| bls_usage := usage'; bls_ntup := bls_ntup st + 1; bls_body := m2 |}.

Fixpoint insert_block_loop (k : kern_data_store) (blknum : Z)
    (all_visible : bool) (lineoff : Z) (items : list ItemIdData)
    (st : block_loop_state) : block_loop_state :=
  match items with
  | [] => st
  | lpp :: rest =>
      insert_block_loop k blknum all_visible (lineoff + 1) rest
        (insert_block_step k blknum all_visible st lineoff lpp)
  end.

(** the chunk with the usage, the record count and the buffer of a loop
    state *)
Definition block_state_kds (k : kern_data_store) (st : block_loop_state)
  : kern_data_store :=
  {| length := length k;
     usage := bls_usage st;
     ncols := ncols k;
     nitems := nitems k + bls_ntup st;
     nrooms := nrooms k;
     format := format k;
     nslots := nslots k;
     nrows_per_block := nrows_per_block k;
     body := bls_body st |}.

Definition PDS_insert_block (pds : pgstrom_data_store) (blknum : Z)
    (snapshot : Snapshot) (page : Page)
  : outcome (Z * pgstrom_data_store) :=
  let k := kds pds in
  Assert (format_eqb (format k) KDS_FORMAT_ROW && (nslots k =? 0)) ;;;
  let lines := PageGetMaxOffsetNumber page in
  let max_consume :=
    KDS_CALCULATE_HASH_LENGTH (ncols k) (nitems k + lines)
      (offsetof_htup * lines + BLCKSZ + usage k) in
  if length k <? max_consume then
    Done (-1, pds)
  else
    let all_visible :=
      PageIsAllVisible page && negb (takenDuringRecovery snapshot) in
    let st := insert_block_loop k blknum all_visible 1 (page_items page)
                {| bls_usage := usage k; bls_ntup := 0; bls_body := body k |} in
    let ntup := bls_ntup st in
    Assert (ntup <=? MaxHeapTuplesPerPage) ;;;
    Assert (nitems k + ntup <=? nrooms k) ;;;
    (* kds->nitems += ntup, the usage and the buffer being those the loop
       left *)
    Done (ntup, {| refcnt := refcnt pds; kds := block_state_kds k st |}).

End DataStore.

(** ** pgstrom_respond_gpuscan (gpuscan.c, lines 2310-2386)

    The status codes come from [cuda.h] and [cuda_common.h]. *)

Section GpuScan.

Variables CUDA_SUCCESS CUDA_ERROR_INVALID_CONTEXT : Z.
Variables StromError_Success StromError_CpuReCheck : Z.
Variable StromError_DataStoreNoSpace : Z.
Variable StromKernel_CudaRuntime : Z.

Record kern_errorbuf : Type := mk_kerror {
  errcode : Z;
  kernel : Z;
  lineno : Z
}.

(** A [pgstrom_gpuscan]: [task_ptr] identifies the object, [chain_linked]
    tells whether [task.chain.prev] and [task.chain.next] are both set,
    [kern_kerror] is the error buffer the device wrote back. *)
Record pgstrom_gpuscan : Type := mk_gpuscan {
  task_ptr : Z;
  task_kerror : kern_errorbuf;
  task_cpu_fallback : bool;
  chain_linked : bool;
  kern_kerror : kern_errorbuf
}.

(** The lists of a [GpuTaskState]; the head of a list comes first. *)
Record GpuTaskState : Type := mk_gts {
  running_tasks : list Z;
  num_running_tasks : Z;
  completed_tasks : list pgstrom_gpuscan;
  num_completed_tasks : Z
}.

Definition set_kerror (g : pgstrom_gpuscan) (e : kern_errorbuf)
    (fallback : bool) : pgstrom_gpuscan :=
  {| task_ptr := task_ptr g;
     task_kerror := e;
     task_cpu_fallback := fallback;
     chain_linked := chain_linked g;
     kern_kerror := kern_kerror g |}.

Definition dlist_delete (l : list Z) (p : Z) : list Z :=
  filter (fun q => negb (q =? p)) l.

Definition dlist_push_head {A : Type} (l : list A) (a : A) : list A := a :: l.
Definition dlist_push_tail {A : Type} (l : list A) (a : A) : list A := l ++ [a].

(** [pgstrom_cpu_fallback_enabled] and [IsTransactionState()] are read from
    the process; the callback updates the task and its [GpuTaskState]. *)
Definition pgstrom_respond_gpuscan
    (pgstrom_cpu_fallback_enabled IsTransactionState : bool)
    (status : Z) (gpuscan : pgstrom_gpuscan) (gts : GpuTaskState)
  : pgstrom_gpuscan * GpuTaskState :=
  if (status =? CUDA_ERROR_INVALID_CONTEXT) || negb IsTransactionState then
    (gpuscan, gts)
  else
    let gpuscan1 :=
      if status =? CUDA_SUCCESS then
        let g := set_kerror gpuscan (kern_kerror gpuscan)
                            (task_cpu_fallback gpuscan) in
        if pgstrom_cpu_fallback_enabled &&
           ((errcode (task_kerror g) =? StromError_CpuReCheck) ||
            (errcode (task_kerror g) =? StromError_DataStoreNoSpace))
        then
          set_kerror g {| errcode := StromError_Success;
                          kernel := kernel (task_kerror g);
                          lineno := lineno (task_kerror g) |} true
        else g
      else
        set_kerror gpuscan {| errcode := status;
                              kernel := StromKernel_CudaRuntime;
                              lineno := 0 |}
                   (task_cpu_fallback gpuscan) in
    let gts1 :=
      if chain_linked gpuscan1 then
        {| running_tasks := dlist_delete (running_tasks gts) (task_ptr gpuscan1);
           num_running_tasks := num_running_tasks gts - 1;
           completed_tasks := completed_tasks gts;
           num_completed_tasks := num_completed_tasks gts |}
      else gts in
    let completed :=
      if errcode (task_kerror gpuscan1) =? StromError_Success
      then dlist_push_tail (completed_tasks gts1) gpuscan1
      else dlist_push_head (completed_tasks gts1) gpuscan1 in
    (gpuscan1,
     {| running_tasks := running_tasks gts1;
        num_running_tasks := num_running_tasks gts1;
        completed_tasks := completed;
        num_completed_tasks := num_completed_tasks gts1 + 1 |}).

End GpuScan.

(** ** A concrete layout

    The values of a 64-bit little-endian build with 8kB pages, with or
    without assertion checking; used to run the routines on examples. *)

Definition sample_nslots (n : Z) : Z := Z.max 16 (n + n / 4).

Definition sample_layout (assert_checking : bool) : KdsLayout.
Proof.
  refine {| USE_ASSERT_CHECKING := assert_checking;
            STROMALIGN_LEN := 16;
            MAXIMUM_ALIGNOF := 8;
            ALIGNOF_LONG := 8;
            BLCKSZ := 8192;
            sizeof_Datum := 8;
            offsetof_colmeta := 64;
            sizeof_colmeta := 24;
            sizeof_t_len := 2;
            offsetof_t_self := 2;
            offsetof_htup := 8;
            offsetof_hash := 0;
            offsetof_next := 4;
            offsetof_rowid := 8;
            offsetof_t := 16;
            __KDS_NSLOTS := sample_nslots;
            MaxHeapTuplesPerPage := 291 |}.
  - exists 4; split; [lia | reflexivity].
  - exists 3; split; [lia | reflexivity].
  - exists 3; split; [lia | reflexivity].
  - lia.
  - lia.
  - lia.
  - repeat split; lia.
  - lia.
  - intros n Hn; unfold sample_nslots.
    assert (0 <= n / 4) by (apply Z.div_pos; lia). lia.
Defined.

(** ** Vocabulary of the properties *)

Section Vocabulary.

Context {L : KdsLayout}.

(** the three words of an [ItemPointerData] are 16-bit *)
Definition itemptr_fits (ip : ItemPointerData) : Prop :=
  0 <= bi_hi ip < 65536 /\ 0 <= bi_lo ip < 65536 /\ 0 <= ip_posid ip < 65536.

(** the length of the tuple is representable in [kern_tupitem.t_len] *)
Definition tuple_fits (tup : HeapTupleData) : Prop :=
  0 <= t_len tup < 256 ^ Z.of_nat sizeof_t_len /\ itemptr_fits (t_self tup).

(** two tuples carry the same record: length, identifier and bytes *)
Definition same_tuple (a b : HeapTupleData) : Prop :=
  t_len a = t_len b /\ t_self a = t_self b /\ tuple_bytes a = tuple_bytes b.

(** the chunk [k] holds the records [tuples], in this order: the i-th
    index entry designates an item that lies in the used part of the
    payload and carries the i-th record *)
Definition holds_rows (k : kern_data_store) (tuples : list HeapTupleData)
  : Prop :=
  nitems k = Z.of_nat (List.length tuples) /\
  forall (i : nat) (tup : HeapTupleData),
    nth_error tuples i = Some tup ->
    let off := KERN_DATA_STORE_TUPITEM k (Z.of_nat i) in
    0 <= t_len tup /\
    length k - usage k <= off /\
    off + offsetof_htup + t_len tup <= length k /\
    same_tuple (read_tupitem (body k) off) tup.

(** the bytes [PDS_insert_tuple] needs for a tuple *)
Definition row_required (tup : HeapTupleData) : Z :=
  LONGALIGN (offsetof_htup + t_len tup).

(** the bytes [PDS_insert_hashitem] needs for a tuple *)
Definition hash_required (tup : HeapTupleData) : Z :=
  MAXALIGN (offsetof_t + offsetof_htup + t_len tup).

(** offset at which the item of record [i] starts: its [kern_tupitem] in a
    Row-format chunk, its [kern_hashitem] in a Hash-format chunk *)
Definition item_start (k : kern_data_store) (i : Z) : Z :=
  KERN_DATA_STORE_TUPITEM k i -
  (if format_eqb (format k) KDS_FORMAT_HASH then offsetof_t else 0).

(** the tuple stored as record [i] *)
Definition stored_tuple (k : kern_data_store) (i : Z) : HeapTupleData :=
  read_tupitem (body k) (KERN_DATA_STORE_TUPITEM k i).

(** the least length that holds the records of the chunk *)
Definition kds_min_length (k : kern_data_store) : Z :=
  if format_eqb (format k) KDS_FORMAT_HASH
  then KDS_CALCULATE_HASH_LENGTH (ncols k) (nitems k) (usage k)
  else KDS_CALCULATE_ROW_LENGTH (ncols k) (nitems k) (usage k).

(** the length of the front part: header, index array and hash slots *)
Definition kds_front_length (k : kern_data_store) : Z :=
  if format_eqb (format k) KDS_FORMAT_HASH
  then KDS_CALCULATE_HASH_FRONTLEN (ncols k) (nitems k)
  else KDS_CALCULATE_ROW_FRONTLEN (ncols k) (nitems k).

(** every item lies in the used part of the payload, at the end of the
    buffer *)
Definition items_in_payload (k : kern_data_store) : Prop :=
  forall i, 0 <= i < nitems k ->
    0 <= t_len (stored_tuple k i) /\
    length k - usage k <= item_start k i /\
    KERN_DATA_STORE_TUPITEM k i + offsetof_htup + t_len (stored_tuple k i)
      <= length k.

(** a Row- or Hash-format chunk in a consistent state *)
Definition chunk_wf (k : kern_data_store) : Prop :=
  (format k = KDS_FORMAT_ROW \/ format k = KDS_FORMAT_HASH) /\
  0 <= ncols k /\ 0 <= nitems k /\ 0 <= usage k /\
  kds_min_length k <= length k /\
  length k < 2 ^ 32 /\
  items_in_payload k.

(** the tuples [PDS_insert_block] takes from the line pointers [items], the
    first of which has offset number [lineoff]: those that are normal and
    visible, in page order *)
Fixpoint visible_tuples (blknum : Z) (all_visible : bool) (lineoff : Z)
    (items : list ItemIdData) : list HeapTupleData :=
  match items with
  | [] => []
  | lpp :: rest =>
      (if item_valid all_visible lpp
       then [heap_tuple_of blknum lineoff lpp] else []) ++
      visible_tuples blknum all_visible (lineoff + 1) rest
  end.

Definition page_tuples (blknum : Z) (snapshot : Snapshot) (page : Page)
  : list HeapTupleData :=
  visible_tuples blknum
    (PageIsAllVisible page && negb (takenDuringRecovery snapshot))
    1 (page_items page).

(** the bytes a list of tuples needs in a Row-format chunk *)
Fixpoint rows_required (tuples : list HeapTupleData) : Z :=
  match tuples with
  | [] => 0
  | tup :: rest => row_required tup + rows_required rest
  end.

(** the worst-case length [PDS_insert_block] computes for a page *)
Definition block_max_consume (k : kern_data_store) (page : Page) : Z :=
  KDS_CALCULATE_HASH_LENGTH (ncols k)
    (nitems k + PageGetMaxOffsetNumber page)
    (offsetof_htup * PageGetMaxOffsetNumber page + BLCKSZ + usage k).

(** the fields of the [kern_hashitem] of record [i], and the hash slot [b] *)
Definition item_hash (k : kern_data_store) (i : Z) : Z :=
  load_uint 4 (body k) (item_start k i + offsetof_hash).

Definition item_next (k : kern_data_store) (i : Z) : Z :=
  load_uint 4 (body k) (item_start k i + offsetof_next).

Definition item_rowid (k : kern_data_store) (i : Z) : Z :=
  load_uint 4 (body k) (item_start k i + offsetof_rowid).

Definition hash_slot_get (k : kern_data_store) (b : Z) : Z :=
  load_uint 4 (body k) (KERN_DATA_STORE_HASHSLOT k + 4 * b).

(** where the item of record [i] ends *)
Definition item_end (k : kern_data_store) (i : Z) : Z :=
  KERN_DATA_STORE_TUPITEM k i + offsetof_htup + t_len (stored_tuple k i).

(** the items of a Hash-format chunk carry their own index and do not
    overlap *)
Definition hash_items_wf (k : kern_data_store) : Prop :=
  (forall i, 0 <= i < nitems k -> item_rowid k i = i) /\
  (forall i j, 0 <= i < nitems k -> 0 <= j < nitems k -> i <> j ->
               item_end k i <= item_start k j \/
               item_end k j <= item_start k i).

(** among the records before [j], the start of the last one whose hash
    falls into bucket [b] of [ns]; 0 when there is none *)
Fixpoint bucket_last (hash_of start_of : Z -> Z) (ns b : Z) (j : nat) : Z :=
  match j with
  | O => 0
  | S j' =>
      if hash_of (Z.of_nat j') mod ns =? b
      then start_of (Z.of_nat j')
      else bucket_last hash_of start_of ns b j'
  end.

(** following the [next] words from the item at [off] reaches the item at
    [target] within [fuel] steps; offset 0 ends a chain *)
Fixpoint chain_reaches (m : memory) (fuel : nat) (off target : Z) : Prop :=
  match fuel with
  | O => False
  | S f =>
      off <> 0 /\
      (off = target \/
       chain_reaches m f (load_uint 4 m (off + offsetof_next)) target)
  end.

(** a run of [PDS_insert_tuple] calls, every one of which returns true *)
Fixpoint insert_tuples (pds : pgstrom_data_store) (slot_natts : Z)
    (tuples : list HeapTupleData) : option pgstrom_data_store :=
  match tuples with
  | [] => Some pds
  | tup :: rest =>
      match PDS_insert_tuple pds slot_natts tup with
      | Done (true, pds') => insert_tuples pds' slot_natts rest
      | _ => None
      end
  end.

(** retain and release calls on one buffer *)
Inductive ref_op : Type := OpRetain | OpRelease.

Definition apply_op (h : dma_heap) (p : pds_ptr) (op : ref_op)
  : outcome dma_heap :=
  match op with
  | OpRetain => r <- PDS_retain h p ;; Done (fst r)
  | OpRelease => PDS_release h p
  end.

Fixpoint run_ops (ops : list ref_op) (h : dma_heap) (p : pds_ptr)
  : outcome dma_heap :=
  match ops with
  | [] => Done h
  | op :: rest => h' <- apply_op h p op ;; run_ops rest h' p
  end.

Definition count_op (o : ref_op) (ops : list ref_op) : Z :=
  Z.of_nat (List.length (filter (fun x => match x, o with
                                          | OpRetain, OpRetain
                                          | OpRelease, OpRelease => true
                                          | _, _ => false
                                          end) ops)).

(** the precondition [refcnt > 0] holds before every call of the run,
    [r] being the count before the first one *)
Fixpoint preconditions_hold (ops : list ref_op) (r : Z) : Prop :=
  match ops with
  | [] => True
  | OpRetain :: rest => 0 < r /\ preconditions_hold rest (r + 1)
  | OpRelease :: rest => 0 < r /\ preconditions_hold rest (r - 1)
  end.

End Vocabulary.

(** ** Sample data *)

Definition zero_memory : memory := fun _ => 0.

Definition sample_tupdesc : TupleDesc := {| natts := 2 |}.

(** a tuple of [len] bytes whose content depends on [seed] *)
Definition sample_tuple (len seed : Z) : HeapTupleData :=
  {| t_len := len;
     t_self := {| bi_hi := 0; bi_lo := 7; ip_posid := seed |};
     t_data := fun x => (x + seed) mod 256 |}.

Definition empty_slot : TupleTableSlot :=
  {| tts_natts := 2; tts_content := TTS_EMPTY |}.

(** a Hash-format chunk of 4kB holding one record, built by
    [PDS_create_hash] and [PDS_insert_hashitem] *)
Definition sample_hash_chunk (assert_checking : bool) : pgstrom_data_store :=
  let L := sample_layout assert_checking in
  let empty := PDS_create_row zero_memory sample_tupdesc 0 in
  match PDS_create_hash zero_memory sample_tupdesc 4096 with
  | Done pds =>
      match PDS_insert_hashitem pds 2 (sample_tuple 64 1) 12345 with
      | Done (_, pds') => pds'
      | _ => empty
      end
  | _ => empty
  end.

(** a Row-format chunk of 352 bytes, which three records of 64 bytes fill *)
Definition sample_row_chunk (assert_checking : bool) : pgstrom_data_store :=
  let L := sample_layout assert_checking in
  let empty := PDS_create_row zero_memory sample_tupdesc 360 in
  match insert_tuples empty 2
          [sample_tuple 64 1; sample_tuple 64 2; sample_tuple 64 3] with
  | Some pds => pds
  | None => empty
  end.

(** a Hash-format chunk of 128 bytes, too short for any record *)
Definition sample_short_hash_chunk (assert_checking : bool)
  : pgstrom_data_store :=
  let L := sample_layout assert_checking in
  match PDS_create_hash zero_memory sample_tupdesc 128 with
  | Done pds => pds
  | _ => PDS_create_row zero_memory sample_tupdesc 0
  end.

(** a Hash-format chunk of 16kB with three records and its hash table
    built; the first two records fall into the same bucket *)
Definition sample_built_hash_chunk (assert_checking : bool)
  : pgstrom_data_store :=
  let L := sample_layout assert_checking in
  let empty := PDS_create_row zero_memory sample_tupdesc 0 in
  match PDS_create_hash zero_memory sample_tupdesc 16384 with
  | Done p0 =>
      match PDS_insert_hashitem p0 2 (sample_tuple 64 1) 5 with
      | Done (_, p1) =>
          match PDS_insert_hashitem p1 2 (sample_tuple 64 2) 21 with
          | Done (_, p2) =>
              match PDS_insert_hashitem p2 2 (sample_tuple 64 3) 7 with
              | Done (_, p3) =>
                  match PDS_build_hashtable p3 with
                  | Done p4 => p4
                  | _ => empty
                  end
              | _ => empty
              end
          | _ => empty
          end
      | _ => empty
      end
  | _ => empty
  end.

(** a Slot-format chunk with room for four rows *)
Definition sample_slot_chunk (assert_checking : bool) (extra : Z)
  : pgstrom_data_store :=
  let L := sample_layout assert_checking in
  let pds := PDS_create_slot zero_memory sample_tupdesc 4 extra in
  {| refcnt := refcnt pds;
     kds := {| length := length (kds pds);
               usage := extra;
               ncols := ncols (kds pds);
               nitems := 2;
               nrooms := nrooms (kds pds);
               format := format (kds pds);
               nslots := nslots (kds pds);
               nrows_per_block := nrows_per_block (kds pds);
               body := fun x => x mod 256 |} |}.

(** a heap holding no buffer of interest *)
Definition sample_heap : dma_heap :=
  {| cell := fun _ => {| refcnt := 0;
                         kds := kds (PDS_create_row (L := sample_layout true)
                                       zero_memory sample_tupdesc 0) |};
     frees := fun _ => 0%nat |}.

(** a task whose device run reported [errcode], and an idle task state *)
Definition sample_task (errcode : Z) : pgstrom_gpuscan :=
  {| task_ptr := 1;
     task_kerror := {| errcode := 0; kernel := 0; lineno := 0 |};
     task_cpu_fallback := false;
     chain_linked := true;
     kern_kerror := {| errcode := errcode; kernel := 3; lineno := 120 |} |}.

Definition sample_gts : GpuTaskState :=
  {| running_tasks := [1; 2];
     num_running_tasks := 2;
     completed_tasks := [sample_task 0];
     num_completed_tasks := 1 |}.

(** a Row-format chunk of 38304 bytes into which [PDS_insert_tuple] has put
    1500 records of 8 bytes; 8192 bytes are left between the index array
    and the payload *)
Definition sample_wide_row_chunk (assert_checking : bool)
  : pgstrom_data_store :=
  let L := sample_layout assert_checking in
  let empty := PDS_create_row zero_memory sample_tupdesc 38304 in
  match insert_tuples empty 2 (repeat (sample_tuple 8 1) 1500) with
  | Some pds => pds
  | None => empty
  end.

(** a page with four line pointers: a visible tuple, an unused pointer, a
    tuple the snapshot does not see, and another visible tuple *)
Definition sample_page : Page :=
  {| PageIsAllVisible := false;
     page_items :=
       [ {| lp_normal := true; lp_len := 40;
            lp_item := fun x => (3 * x + 1) mod 256; lp_visible := true |};
         {| lp_normal := false; lp_len := 0;
            lp_item := zero_memory; lp_visible := false |};
         {| lp_normal := true; lp_len := 24;
            lp_item := fun x => (5 * x) mod 256; lp_visible := false |};
         {| lp_normal := true; lp_len := 32;
            lp_item := fun x => (7 * x + 2) mod 256; lp_visible := true |} ] |}.

Definition sample_snapshot : Snapshot := {| takenDuringRecovery := false |}.

(* ================================================================== *)
(** * Part I, continued.  Further routines of the two files            *)
(* ================================================================== *)

(** Wrap-around of a [cl_uint] (or [uint32], [BlockNumber]) expression. *)
Definition cl_uint_wrap (v : Z) : Z := v mod 2 ^ 32.

Section BlockStore.

Context {L : KdsLayout}.

(** ** PDS_create_block (lines 556-587)

    [nrooms] is a [cl_uint]: the quotient is truncated when it is assigned,
    [BLCKSZ * nrooms] is a product of 32-bit operands, and [nrooms--] wraps
    around at zero.  [sizeof(BlockNumber)] is 4.  The [while] loop is run
    with [fuel] turns at most. *)

(** the condition of the loop: [nrooms] block numbers and as many pages
    exceed what follows the header *)
Definition block_rooms_exceed (natts kds_length nrooms : Z) : bool :=
  kds_length <?
  KDS_CALCULATE_HEAD_LENGTH natts + STROMALIGN (4 * nrooms) +
  cl_uint_wrap (BLCKSZ * nrooms).

Fixpoint block_rooms_loop (fuel : nat) (natts kds_length nrooms : Z)
  : option Z :=
  match fuel with
  | O => None
  | S fuel' =>
      if block_rooms_exceed natts kds_length nrooms
      then block_rooms_loop fuel' natts kds_length (cl_uint_wrap (nrooms - 1))
      else Some nrooms
  end.

Definition PDS_create_block (fuel : nat) (fresh : memory) (tupdesc : TupleDesc)
    (len nrows_per_tuple : Z) : option (outcome pgstrom_data_store) :=
  let kds_length := STROMALIGN_DOWN len in
  if kds_length <? KDS_CALCULATE_HEAD_LENGTH (natts tupdesc) then
    Some (Elog "Required length for KDS-Block is too short")
  else
    let nrooms0 :=
      cl_uint_wrap
        (size_t_wrap (kds_length - KDS_CALCULATE_HEAD_LENGTH (natts tupdesc))
         / (4 + BLCKSZ)) in
    match block_rooms_loop fuel (natts tupdesc) kds_length nrooms0 with
    | None => None
    | Some nr =>
        if nr <? 1 then
          Some (Elog "Required length for KDS-Block is too short")
        else
          let k := init_kernel_data_store fresh tupdesc kds_length
                     KDS_FORMAT_BLOCK nr in
          Some (Done {| refcnt := 1;
                        kds := {| length := length k;
                                  usage := usage k;
                                  ncols := ncols k;
                                  nitems := nitems k;
                                  nrooms := nrooms k;
                                  format := format k;
                                  nslots := nslots k;
                                  nrows_per_block := nrows_per_tuple;
                                  body := body k |} |})
    end.

(** [n] block numbers and [n] pages fit behind the header of a chunk of
    [kds_length] bytes *)
Definition block_rooms_fit (natts kds_length n : Z) : Prop :=
  KDS_CALCULATE_HEAD_LENGTH natts + STROMALIGN (4 * n) + BLCKSZ * n
  <= kds_length.

End BlockStore.

(** ** The column loop of init_kernel_data_store (lines 287-328)

    The loop fills one [kern_colmeta] per attribute of the tuple descriptor
    and sets the flags [has_notbyval] and [has_numeric], which the [memset]
    before it has cleared.  [attcacheoff] is a C [int]; the offsets it takes
    stay far below 2^31 and its overflow is not written out. *)

(** The fields of a [pg_attribute] row that the two files read. *)
Record Form_pg_attribute : Type := mk_attr {
  attnum : Z;
  atttypid : Z;
  atttypmod : Z;
  attlen : Z;
  attbyval : bool;
  attalign : Z;
  attisdropped : bool
}.

Record kern_colmeta : Type := mk_colmeta {
  colmeta_attbyval : bool;
  colmeta_attalign : Z;
  colmeta_attlen : Z;
  colmeta_attnum : Z;
  colmeta_attcacheoff : Z;
  colmeta_atttypid : Z;
  colmeta_atttypmod : Z
}.

(** the variables of the loop: [attcacheoff], the two flags and the entries
    [colmeta[0 .. i-1]] written so far *)
Record colmeta_state : Type := mk_colmeta_state {
  cs_attcacheoff : Z;
  cs_has_notbyval : bool;
  cs_has_numeric : bool;
  cs_colmeta : list kern_colmeta
}.

Section ColumnMeta.

Context {L : KdsLayout}.

(** [typealign_get_width] of [pg_strom.h] gives the width in bytes for the
    alignment code of an attribute; [NUMERICOID] comes from [pg_type.h] and
    [offsetof_t_bits] is [offsetof(HeapTupleHeaderData, t_bits)].
    [sizeof(Oid)] is 4 and [sizeof(cl_long)] is 8. *)
Variable typealign_get_width : Z -> Z.
Variable NUMERICOID : Z.
Variable offsetof_t_bits : Z.

Definition colmeta_step (use_internal : bool) (st : colmeta_state)
    (attr : Form_pg_attribute) : colmeta_state :=
  let attalign' := typealign_get_width (attalign attr) in
  let has_notbyval' :=
    if negb (attbyval attr) then true else cs_has_notbyval st in
  let is_numeric := atttypid attr =? NUMERICOID in
  let has_numeric' := if is_numeric then true else cs_has_numeric st in
  let attbyval' := if is_numeric && use_internal then true else attbyval attr in
  let attlen' := if is_numeric && use_internal then 8 else attlen attr in
  let attcacheoff1 :=
    if 0 <? cs_attcacheoff st then
      if 0 <? attlen' then TYPEALIGN attalign' (cs_attcacheoff st) else -1
    else cs_attcacheoff st in
  let entry := {| colmeta_attbyval := attbyval';
                  colmeta_attalign := attalign';
                  colmeta_attlen := attlen';
                  colmeta_attnum := attnum attr;
                  colmeta_attcacheoff := attcacheoff1;
                  colmeta_atttypid := atttypid attr;
                  colmeta_atttypmod := atttypmod attr |} in
  let attcacheoff2 :=
    if 0 <=? attcacheoff1 then attcacheoff1 + attlen attr else attcacheoff1 in
  {| cs_attcacheoff := attcacheoff2;
     cs_has_notbyval := has_notbyval';
     cs_has_numeric := has_numeric';
     cs_colmeta := cs_colmeta st ++ [entry] |}.

(** the value of [attcacheoff] before the loop *)
Definition first_attcacheoff (tdhasoid : bool) : Z :=
  MAXALIGN (offsetof_t_bits + (if tdhasoid then 4 else 0)).

Definition init_colmeta (tdhasoid use_internal : bool)
    (attrs : list Form_pg_attribute) : colmeta_state :=
  fold_left (colmeta_step use_internal) attrs
    {| cs_attcacheoff := first_attcacheoff tdhasoid;
       cs_has_notbyval := false;
       cs_has_numeric := false;
       cs_colmeta := [] |}.

(** an attribute of fixed positive length whose alignment is a power of
    two *)
Definition fixed_width_attr (attr : Form_pg_attribute) : Prop :=
  0 < attlen attr /\
  exists k, 0 <= k /\ typealign_get_width (attalign attr) = 2 ^ k.

(** where the attribute before column [i] ends, by the entries [cms]: the
    first offset for column 0 *)
Definition previous_end (tdhasoid : bool) (attrs : list Form_pg_attribute)
    (cms : list kern_colmeta) (i : nat) : Z :=
  match i with
  | O => first_attcacheoff tdhasoid
  | S i' =>
      match nth_error cms i', nth_error attrs i' with
      | Some cm, Some attr => colmeta_attcacheoff cm + attlen attr
      | _, _ => 0
      end
  end.

End ColumnMeta.

(** the alignment codes of [pg_attribute.attalign]: 'c', 's', 'i', 'd' *)
Definition sample_typealign_width (code : Z) : Z :=
  if code =? 99 then 1
  else if code =? 115 then 2
  else if code =? 105 then 4
  else 8.

(** an [int4], an [int8], a [text] and an [int2] column *)
Definition sample_attrs : list Form_pg_attribute :=
  [ {| attnum := 1; atttypid := 23; atttypmod := -1; attlen := 4;
       attbyval := true; attalign := 105;
       attisdropped := false |};
    {| attnum := 2; atttypid := 20; atttypmod := -1; attlen := 8;
       attbyval := true; attalign := 100;
       attisdropped := false |};
    {| attnum := 3; atttypid := 25; atttypmod := -1; attlen := -1;
       attbyval := false; attalign := 105;
       attisdropped := false |};
    {| attnum := 4; atttypid := 21; atttypmod := -1; attlen := 2;
       attbyval := true; attalign := 115;
       attisdropped := false |} ].

Section HashStore.

Context {L : KdsLayout}.

(** a run of [PDS_insert_hashitem] calls, every one of which returns true *)
Fixpoint insert_hashitems (pds : pgstrom_data_store) (slot_natts : Z)
    (items : list (HeapTupleData * Z)) : option pgstrom_data_store :=
  match items with
  | [] => Some pds
  | (tup, hash_value) :: rest =>
      match PDS_insert_hashitem pds slot_natts tup hash_value with
      | Done (true, pds') => insert_hashitems pds' slot_natts rest
      | _ => None
      end
  end.

(** the tuple fits the fields of an item and the hash value is a
    [cl_uint] *)
Definition hashitem_fits (item : HeapTupleData * Z) : Prop :=
  tuple_fits (fst item) /\ 0 <= snd item < 2 ^ 32.

(** the chunk [k] holds the records [items] with their hash values, in this
    order *)
Definition holds_hashitems (k : kern_data_store)
    (items : list (HeapTupleData * Z)) : Prop :=
  nitems k = Z.of_nat (List.length items) /\
  forall (i : nat) (tup : HeapTupleData) (hash_value : Z),
    nth_error items i = Some (tup, hash_value) ->
    same_tuple (stored_tuple k (Z.of_nat i)) tup /\
    item_hash k (Z.of_nat i) = hash_value.

End HashStore.

(** three records with their hash values, the Hash-format chunk of 16kB
    that [PDS_create_hash] makes, and that chunk once the records are
    inserted *)
Definition sample_hash_items : list (HeapTupleData * Z) :=
  [(sample_tuple 64 1, 5); (sample_tuple 64 2, 21); (sample_tuple 64 3, 7)].

Definition sample_hash_store0 : pgstrom_data_store :=
  match PDS_create_hash (L := sample_layout true) zero_memory sample_tupdesc
          16384 with
  | Done pds => pds
  | _ => PDS_create_row (L := sample_layout true) zero_memory sample_tupdesc 0
  end.

Definition sample_hash_store1 : pgstrom_data_store :=
  match insert_hashitems (L := sample_layout true) sample_hash_store0 2
          sample_hash_items with
  | Some pds => pds
  | None => sample_hash_store0
  end.

(** ** gpuscan_next_tuple (gpuscan.c, lines 1911-2020)

    A task with its chunks: [gs_task] is the part the completion callback
    works on, [pds_dst] is absent when the task has no destination buffer,
    [kresults] is the result buffer the device wrote back ([results[i]] is
    the offset of a visible row from the head of the source chunk). *)

Record kern_resultbuf : Type := mk_kresults {
  kresults_all_visible : bool;
  kresults_nitems : Z;
  kresults_results : Z -> Z
}.

Record gpuscan_chunks : Type := mk_gpuscan_chunks {
  gs_task : pgstrom_gpuscan;
  pds_src : pgstrom_data_store;
  pds_dst : option pgstrom_data_store;
  kresults : kern_resultbuf
}.

(** What [gpuscan_next_tuple] reads and writes of a [GpuScanState]:
    [curr_index] is [gts.curr_index], [has_dev_quals] tells whether
    [dev_quals] is not [NIL], [has_base_proj] whether [base_proj] is not
    [NULL]. *)
Record GpuScanState : Type := mk_gss {
  curr_index : Z;
  scan_tuple : HeapTupleData;
  ss_ScanTupleSlot : TupleTableSlot;
  base_slot : TupleTableSlot;
  has_dev_quals : bool;
  has_base_proj : bool
}.

Definition ExecClearTuple (slot : TupleTableSlot) : TupleTableSlot :=
  {| tts_natts := tts_natts slot; tts_content := TTS_EMPTY |}.

Definition ExecStoreTuple (tuple : HeapTupleData) (slot : TupleTableSlot)
  : TupleTableSlot :=
  {| tts_natts := tts_natts slot; tts_content := TTS_TUPLE tuple |}.

Section NextTuple.

Context {L : KdsLayout}.

(** [ExecQual(gss->dev_quals, econtext, false)] with the slot that
    [econtext->ecxt_scantuple] designates, and
    [ExecProject(gss->base_proj, &is_done)], which gives the projected slot
    and tells whether [is_done == ExprEndResult]: the executor of
    PostgreSQL. *)
Variable ExecQual : TupleTableSlot -> bool.
Variable ExecProject : TupleTableSlot -> TupleTableSlot * bool.

(** the [while] loop of the CPU fallback, run with [fuel] turns at most *)
Fixpoint fallback_loop (fuel : nat) (pds_src : pgstrom_data_store)
    (gss : GpuScanState)
  : option (outcome (option TupleTableSlot * GpuScanState)) :=
  match fuel with
  | O => None
  | S fuel' =>
      if curr_index gss <? nitems (kds pds_src) then
        let index := curr_index gss in
        match pgstrom_fetch_data_store (ExecClearTuple (base_slot gss))
                pds_src index (scan_tuple gss) with
        | Done (fetched, slot', tuple') =>
            let gss1 := {| curr_index := cl_uint_wrap (index + 1);
                           scan_tuple := tuple';
                           ss_ScanTupleSlot := ss_ScanTupleSlot gss;
                           base_slot := slot';
                           has_dev_quals := has_dev_quals gss;
                           has_base_proj := has_base_proj gss |} in
            if negb fetched then
              Some (Elog "failed to fetch a record from pds")
            else if has_dev_quals gss && negb (ExecQual slot') then
              fallback_loop fuel' pds_src gss1
            else if negb (has_base_proj gss) then
              Some (Done (Some slot', gss1))
            else
              let (slot, end_result) := ExecProject slot' in
              if end_result then fallback_loop fuel' pds_src gss1
              else Some (Done (Some slot, gss1))
        | Elog msg => Some (Elog msg)
        | Trap => Some Trap
        end
      else Some (Done (None, gss))
  end.

Definition gpuscan_next_tuple (fuel : nat) (gpuscan : gpuscan_chunks)
    (gss : GpuScanState)
  : option (outcome (option TupleTableSlot * GpuScanState)) :=
  if negb (task_cpu_fallback (gs_task gpuscan)) then
    match pds_dst gpuscan with
    | Some pds_dst =>
        if curr_index gss <? nitems (kds pds_dst) then
          let slot := ExecClearTuple (ss_ScanTupleSlot gss) in
          match pgstrom_fetch_data_store slot pds_dst (curr_index gss)
                  (scan_tuple gss) with
          | Done (fetched, slot', tuple') =>
              if negb fetched then
                Some (Elog "failed to fetch a record from pds")
              else
                Some (Done (Some slot',
                            {| curr_index := cl_uint_wrap (curr_index gss + 1);
                               scan_tuple := tuple';
                               ss_ScanTupleSlot := slot';
                               base_slot := base_slot gss;
                               has_dev_quals := has_dev_quals gss;
                               has_base_proj := has_base_proj gss |}))
          | Elog msg => Some (Elog msg)
          | Trap => Some Trap
          end
        else Some (Done (None, gss))
    | None =>
        match Assert (negb (kresults_all_visible (kresults gpuscan))) with
        | Done _ =>
            if curr_index gss <? kresults_nitems (kresults gpuscan) then
              let tupitem :=
                kresults_results (kresults gpuscan) (curr_index gss) in
              let tuple := read_tupitem (body (kds (pds_src gpuscan))) tupitem in
              let slot := ExecStoreTuple tuple (ss_ScanTupleSlot gss) in
              Some (Done (Some slot,
                          {| curr_index := cl_uint_wrap (curr_index gss + 1);
                             scan_tuple := tuple;
                             ss_ScanTupleSlot := slot;
                             base_slot := base_slot gss;
                             has_dev_quals := has_dev_quals gss;
                             has_base_proj := has_base_proj gss |}))
            else Some (Done (None, gss))
        | Elog msg => Some (Elog msg)
        | Trap => Some Trap
        end
    end
  else
    fallback_loop fuel (pds_src gpuscan) gss.

(** the slot the CPU fallback evaluates for record [i] of the source
    chunk, whether the record passes, and the slot returned for it *)
Definition fallback_slot (gpuscan : gpuscan_chunks) (gss : GpuScanState)
    (i : Z) : TupleTableSlot :=
  ExecStoreTuple (stored_tuple (kds (pds_src gpuscan)) i) (base_slot gss).

Definition fallback_passes (gpuscan : gpuscan_chunks) (gss : GpuScanState)
    (i : Z) : bool :=
  (negb (has_dev_quals gss) || ExecQual (fallback_slot gpuscan gss i)) &&
  (negb (has_base_proj gss) ||
   negb (snd (ExecProject (fallback_slot gpuscan gss i)))).

Definition fallback_output (gpuscan : gpuscan_chunks) (gss : GpuScanState)
    (i : Z) : TupleTableSlot :=
  if has_base_proj gss then fst (ExecProject (fallback_slot gpuscan gss i))
  else fallback_slot gpuscan gss i.

(** calling [gpuscan_next_tuple] until it returns [NULL], [calls] times at
    most: the slots returned, in order *)
Fixpoint scan_tuples (fuel calls : nat) (gpuscan : gpuscan_chunks)
    (gss : GpuScanState)
  : option (outcome (list TupleTableSlot * GpuScanState)) :=
  match calls with
  | O => Some (Done ([], gss))
  | S calls' =>
      match gpuscan_next_tuple fuel gpuscan gss with
      | None => None
      | Some (Done (None, gss')) => Some (Done ([], gss'))
      | Some (Done (Some slot, gss')) =>
          match scan_tuples fuel calls' gpuscan gss' with
          | Some (Done (slots, gss'')) => Some (Done (slot :: slots, gss''))
          | other => other
          end
      | Some (Elog msg) => Some (Elog msg)
      | Some Trap => Some Trap
      end
  end.

End NextTuple.

(** a qualifier that keeps the tuples whose item pointer has an odd offset
    number, and a projection that hands every slot back *)
Definition sample_qual (slot : TupleTableSlot) : bool :=
  match tts_content slot with
  | TTS_TUPLE tup => Z.odd (ip_posid (t_self tup))
  | _ => false
  end.

Definition sample_project (slot : TupleTableSlot) : TupleTableSlot * bool :=
  (slot, false).

(** a task over the Row-format chunk of three records, with that chunk as
    destination or with a result buffer that designates its last record *)
Definition sample_scan_task (fallback with_dst : bool) : gpuscan_chunks :=
  {| gs_task := {| task_ptr := 1;
                   task_kerror := {| errcode := 0; kernel := 0; lineno := 0 |};
                   task_cpu_fallback := fallback;
                   chain_linked := false;
                   kern_kerror := {| errcode := 0; kernel := 0; lineno := 0 |} |};
     pds_src := sample_row_chunk true;
     pds_dst := if with_dst then Some (sample_row_chunk true) else None;
     kresults := {| kresults_all_visible := false;
                    kresults_nitems := 1;
                    kresults_results := fun _ => 112 |} |}.

Definition sample_gss : GpuScanState :=
  {| curr_index := 0;
     scan_tuple := sample_tuple 0 0;
     ss_ScanTupleSlot := empty_slot;
     base_slot := empty_slot;
     has_dev_quals := true;
     has_base_proj := false |}.

(** ** add_unique_expression, build_gpuscan_projection
       (gpuscan.c, lines 1205-1371)

    Expression nodes belong to PostgreSQL: [Expr] is their type, [equal] is
    [equal()] of [nodes/equalfuncs.c], [as_Var] tells whether a node is a
    [Var] and gives its fields, [Var_expr] is the cast [(Expr * ) var],
    [pull_vars_of_level] collects the [Var] nodes of level 0 of an
    expression or of a list of qualifiers, [pgstrom_device_expression]
    belongs to [codegen.c].  [copyObject] gives a node [equal] to its
    argument and is not written out.  [InvalidAttrNumber] is 0. *)

Record Var : Type := mk_Var {
  varno : Z;
  varattno : Z;
  vartype : Z;
  vartypmod : Z;
  varlevelsup : Z
}.

(** a relation: the attributes of its tuple descriptor and
    [RelationGetNumberOfAttributes], which reads [rd_rel->relnatts] *)
Record Relation : Type := mk_Relation {
  rd_att : list Form_pg_attribute;
  relnatts : Z
}.

Section Projection.

Context {L : KdsLayout}.

Variable Expr : Type.
Variable equal : Expr -> Expr -> bool.
Variable as_Var : Expr -> option Var.
Variable Var_expr : Var -> Expr.
Variable pgstrom_device_expression : Expr -> bool.
Variable pull_vars_of_level : Expr -> list Var.
Variable pull_vars_of_quals : list Expr -> list Var.

Record TargetEntry : Type := mk_tle {
  tle_expr : Expr;
  resno : Z;
  resjunk : bool
}.

Definition add_unique_expression (expr : Expr) (targetlist : list TargetEntry)
    (junk : bool) : bool * list TargetEntry :=
  if existsb (fun tle => equal expr (tle_expr tle)) targetlist then
    (false, targetlist)
  else
    (true,
     targetlist ++
     [{| tle_expr := expr;
         resno := Z.of_nat (List.length targetlist) + 1;
         resjunk := junk |}]).

(** [foreach (cell, vars_list)]: a whole-row reference makes the routine
    return [NIL], every other variable is added when it is not there yet;
    [None] stands for that return *)
Fixpoint add_vars (vars_list : list Var) (tlist_dev : list TargetEntry)
    (junk : bool) : option (list TargetEntry) :=
  match vars_list with
  | [] => Some tlist_dev
  | var :: rest =>
      if varattno var =? 0 then None
      else add_vars rest
             (snd (add_unique_expression (Var_expr var) tlist_dev junk)) junk
  end.

(** the variables of the loop over the target list *)
Record projection_state : Type := mk_projection_state {
  ps_tlist_dev : list TargetEntry;
  ps_attnum : Z;
  ps_compatible_tlist : bool
}.

(** one turn of [foreach (lc, tlist)]; [None] when the routine returns
    [NIL] from inside the loop *)
Definition projection_step (scanrelid : Z) (attrs : list Form_pg_attribute)
    (st : projection_state) (tle : TargetEntry)
  : outcome (option projection_state) :=
  let attnum := ps_attnum st in
  match as_Var (tle_expr tle) with
  | Some var =>
      Assert (varno var =? scanrelid) ;;;
      Assert (varlevelsup var =? 0) ;;;
      if varattno var =? 0 then Done None
      else
        compatible1 <-
          (if negb (varattno var =? attnum) ||
              (Z.of_nat (List.length attrs) <? attnum)
           then Done false
           else
             match nth_error attrs (Z.to_nat (attnum - 1)) with
             | Some attr =>
                 Assert (negb (attisdropped attr)) ;;;
                 if negb (vartype var =? atttypid attr) ||
                    (negb (vartypmod var =? atttypmod attr) &&
                     negb (vartypmod var =? -1))
                 then Done false
                 else Done (ps_compatible_tlist st)
             | None => Trap
             end) ;;
        let (added, tlist_dev) :=
          add_unique_expression (tle_expr tle) (ps_tlist_dev st) false in
        Done (Some {| ps_tlist_dev := tlist_dev;
                      ps_attnum := attnum + 1;
                      ps_compatible_tlist :=
                        if negb added then false else compatible1 |})
  | None =>
      if pgstrom_device_expression (tle_expr tle) then
        let tlist_dev :=
          snd (add_unique_expression (tle_expr tle) (ps_tlist_dev st) false) in
        Done (Some {| ps_tlist_dev := tlist_dev;
                      ps_attnum := attnum + 1;
                      ps_compatible_tlist := false |})
      else
        match add_vars (pull_vars_of_level (tle_expr tle)) (ps_tlist_dev st)
                false with
        | None => Done None
        | Some tlist_dev =>
            Done (Some {| ps_tlist_dev := tlist_dev;
                          ps_attnum := attnum + 1;
                          ps_compatible_tlist := false |})
        end
  end.

Fixpoint projection_loop (scanrelid : Z) (attrs : list Form_pg_attribute)
    (tlist : list TargetEntry) (st : projection_state)
  : outcome (option projection_state) :=
  match tlist with
  | [] => Done (Some st)
  | tle :: rest =>
      r <- projection_step scanrelid attrs st tle ;;
      match r with
      | None => Done None
      | Some st' => projection_loop scanrelid attrs rest st'
      end
  end.

Definition build_gpuscan_projection (scanrelid : Z) (relation : Relation)
    (tlist : list TargetEntry) (host_quals dev_quals : list Expr)
  : outcome (list TargetEntry) :=
  r <- projection_loop scanrelid (rd_att relation) tlist
         {| ps_tlist_dev := []; ps_attnum := 1; ps_compatible_tlist := true |} ;;
  match r with
  | None => Done []
  | Some st =>
      let compatible_tlist :=
        if negb (relnatts relation =? ps_attnum st) then false
        else ps_compatible_tlist st in
      match (match host_quals with
             | [] => Some (ps_tlist_dev st)
             | _ => add_vars (pull_vars_of_quals host_quals) (ps_tlist_dev st)
                      false
             end) with
      | None => Done []
      | Some tlist_dev1 =>
          match (match dev_quals with
                 | [] => Some tlist_dev1
                 | _ => add_vars (pull_vars_of_quals dev_quals) tlist_dev1 true
                 end) with
          | None => Done []
          | Some tlist_dev2 =>
              if compatible_tlist then Done [] else Done tlist_dev2
          end
      end
  end.

(** no two entries of a target list have [equal] expressions, and the
    entries are numbered from 1 on *)
Definition tlist_unique (tl : list TargetEntry) : Prop :=
  (forall (i j : nat) (a b : TargetEntry),
      nth_error tl i = Some a -> nth_error tl j = Some b ->
      equal (tle_expr a) (tle_expr b) = true -> i = j) /\
  (forall (i : nat) (a : TargetEntry),
      nth_error tl i = Some a -> resno a = Z.of_nat i + 1).

(** the target list has an entry for the expression *)
Definition tlist_has (tl : list TargetEntry) (expr : Expr) : Prop :=
  exists tle, In tle tl /\ equal expr (tle_expr tle) = true.

(** what the device target list has to provide for an entry of the target
    list of the plan: the entry itself when it is a [Var] or runs on the
    device, the variables it refers to otherwise *)
Definition tle_needs (tle : TargetEntry) : list Expr :=
  match as_Var (tle_expr tle) with
  | Some _ => [tle_expr tle]
  | None =>
      if pgstrom_device_expression (tle_expr tle) then [tle_expr tle]
      else map Var_expr (pull_vars_of_level (tle_expr tle))
  end.

End Projection.

Arguments tle_expr {Expr}.
Arguments resno {Expr}.
Arguments resjunk {Expr}.
Arguments mk_tle {Expr}.
Arguments add_unique_expression {Expr}.
Arguments add_vars {Expr}.
Arguments ps_tlist_dev {Expr}.
Arguments ps_attnum {Expr}.
Arguments ps_compatible_tlist {Expr}.
Arguments mk_projection_state {Expr}.
Arguments projection_step {L Expr}.
Arguments projection_loop {L Expr}.
Arguments build_gpuscan_projection {L Expr}.
Arguments tlist_unique {Expr}.
Arguments tlist_has {Expr}.
Arguments tle_needs {Expr}.

(** expression nodes for the examples: a column reference, a sum of two
    columns, which the device can compute, and a call of a host-only function
    on a column *)
Inductive sample_expr : Type :=
| SampleVar (v : Var)
| SamplePlus (a b : Var)
| SampleHostFunc (a : Var).

Definition sample_var_equal (a b : Var) : bool :=
  (varno a =? varno b) && (varattno a =? varattno b) &&
  (vartype a =? vartype b) && (vartypmod a =? vartypmod b) &&
  (varlevelsup a =? varlevelsup b).

Definition sample_equal (a b : sample_expr) : bool :=
  match a, b with
  | SampleVar v, SampleVar w => sample_var_equal v w
  | SamplePlus v1 v2, SamplePlus w1 w2 =>
      sample_var_equal v1 w1 && sample_var_equal v2 w2
  | SampleHostFunc v, SampleHostFunc w => sample_var_equal v w
  | _, _ => false
  end.

Definition sample_as_Var (e : sample_expr) : option Var :=
  match e with
  | SampleVar v => Some v
  | _ => None
  end.

Definition sample_device_expression (e : sample_expr) : bool :=
  match e with
  | SamplePlus _ _ => true
  | _ => false
  end.

Definition sample_pull_vars (e : sample_expr) : list Var :=
  match e with
  | SampleVar v => if varlevelsup v =? 0 then [v] else []
  | SamplePlus a b =>
      (if varlevelsup a =? 0 then [a] else []) ++
      (if varlevelsup b =? 0 then [b] else [])
  | SampleHostFunc a => if varlevelsup a =? 0 then [a] else []
  end.

Definition sample_pull_quals (quals : list sample_expr) : list Var :=
  flat_map sample_pull_vars quals.

(** the columns 1 ([int4]) and 2 ([int8]) of relation 1 *)
Definition sample_column (n typid : Z) : Var :=
  {| varno := 1; varattno := n; vartype := typid; vartypmod := -1;
     varlevelsup := 0 |}.

Definition sample_relation : Relation :=
  {| rd_att := firstn 2 sample_attrs; relnatts := 2 |}.

(** [SELECT a, hostfunc(b) ... WHERE hostfunc(b) AND a + b] *)
Definition sample_tlist : list (TargetEntry sample_expr) :=
  [ {| tle_expr := SampleVar (sample_column 1 23); resno := 1;
       resjunk := false |};
    {| tle_expr := SampleHostFunc (sample_column 2 20); resno := 2;
       resjunk := false |} ].

(** ** pgstrom_exec_scan_chunk (gpuscan.c, lines 1812-1886)

    The fields of the heap scan descriptor that the routine reads and
    writes.  Block numbers are [uint32]; [InvalidBlockNumber] is
    [0xFFFFFFFF].  The instrumentation and [ss_report_location] keep
    statistics and do not touch the scan or the chunk; the field [table_oid]
    of the chunk is read by no routine modelled here and is not written
    out. *)

Definition InvalidBlockNumber : Z := 4294967295.

Record HeapScanDescData : Type := mk_heapscan {
  rs_nblocks : Z;
  rs_numblocks : Z;
  rs_cblock : Z;
  rs_startblock : Z;
  rs_syncscan : bool;
  rs_snapshot : Snapshot
}.

Definition set_rs_cblock (scan : HeapScanDescData) (blknum : Z)
  : HeapScanDescData :=
  {| rs_nblocks := rs_nblocks scan;
     rs_numblocks := rs_numblocks scan;
     rs_cblock := blknum;
     rs_startblock := rs_startblock scan;
     rs_syncscan := rs_syncscan scan;
     rs_snapshot := rs_snapshot scan |}.

Definition set_rs_numblocks (scan : HeapScanDescData) (n : Z)
  : HeapScanDescData :=
  {| rs_nblocks := rs_nblocks scan;
     rs_numblocks := n;
     rs_cblock := rs_cblock scan;
     rs_startblock := rs_startblock scan;
     rs_syncscan := rs_syncscan scan;
     rs_snapshot := rs_snapshot scan |}.

Section ScanChunk.

Context {L : KdsLayout}.

(** the page [ReadBufferExtended] gives for a block of the base relation *)
Variable pages : Z -> Page.

(** "move to the next block" and "end of the scan?": the scan with the
    cursor moved, and whether the loop is left *)
Definition scan_next_block (scan : HeapScanDescData)
  : HeapScanDescData * bool :=
  let c1 := cl_uint_wrap (rs_cblock scan + 1) in
  let scan1 :=
    set_rs_cblock scan (if rs_nblocks scan <=? c1 then 0 else c1) in
  if rs_cblock scan1 =? rs_startblock scan1 then (scan1, true)
  else if negb (rs_numblocks scan1 =? InvalidBlockNumber) then
    let scan2 :=
      set_rs_numblocks scan1 (cl_uint_wrap (rs_numblocks scan1 - 1)) in
    (scan2, rs_numblocks scan2 =? 0)
  else (scan1, false).

(** [while (!finished)], with [fuel] turns at most *)
Fixpoint scan_chunk_loop (fuel : nat) (scan : HeapScanDescData)
    (pds : pgstrom_data_store)
  : option (outcome (HeapScanDescData * pgstrom_data_store)) :=
  match fuel with
  | O => None
  | S fuel' =>
      match PDS_insert_block pds (rs_cblock scan) (rs_snapshot scan)
              (pages (rs_cblock scan)) with
      | Done (ntup, pds') =>
          if ntup <? 0 then Some (Done (scan, pds'))
          else
            let (scan', leave) := scan_next_block scan in
            if leave then Some (Done (scan', pds'))
            else scan_chunk_loop fuel' scan' pds'
      | Elog msg => Some (Elog msg)
      | Trap => Some Trap
      end
  end.

Definition pgstrom_exec_scan_chunk (fuel : nat) (fresh : memory)
    (tupdesc : TupleDesc) (scan : HeapScanDescData) (chunk_length : Z)
  : option (outcome (option pgstrom_data_store * HeapScanDescData)) :=
  if (rs_nblocks scan =? 0) || (rs_numblocks scan =? 0) then
    Some (Done (None, scan))
  else
    let entered :=
      if rs_cblock scan =? InvalidBlockNumber then
        Some (set_rs_cblock scan (rs_startblock scan))
      else if rs_cblock scan =? rs_startblock scan then None
      else Some scan in
    match entered with
    | None => Some (Done (None, scan))
    | Some scan1 =>
        match Assert (rs_cblock scan1 <? rs_nblocks scan1) with
        | Done _ =>
            let pds := PDS_create_row fresh tupdesc chunk_length in
            match scan_chunk_loop fuel scan1 pds with
            | None => None
            | Some (Done (scan2, pds2)) =>
                if nitems (kds pds2) =? 0 then
                  (* PDS_release(pds) of the chunk just created *)
                  match Assert (0 <? refcnt pds2) with
                  | Done _ => Some (Done (None, scan2))
                  | Elog msg => Some (Elog msg)
                  | Trap => Some Trap
                  end
                else Some (Done (Some pds2, scan2))
            | Some (Elog msg) => Some (Elog msg)
            | Some Trap => Some Trap
            end
        | Elog msg => Some (Elog msg)
        | Trap => Some Trap
        end
    end.

(** [gpuscan_next_chunk] calls the routine once for every task, chunk after
    chunk until it returns [NULL]; every chunk is allocated anew, [fresh]
    gives the bytes of the allocation by the number of calls that remain *)
Fixpoint scan_chunks (calls fuel : nat) (fresh : nat -> memory)
    (tupdesc : TupleDesc) (scan : HeapScanDescData) (chunk_length : Z)
  : option (outcome (list pgstrom_data_store * HeapScanDescData)) :=
  match calls with
  | O => None
  | S calls' =>
      match pgstrom_exec_scan_chunk fuel (fresh calls') tupdesc scan
              chunk_length with
      | None => None
      | Some (Done (None, scan')) => Some (Done ([], scan'))
      | Some (Done (Some pds, scan')) =>
          match scan_chunks calls' fuel fresh tupdesc scan' chunk_length with
          | Some (Done (rest, scan'')) => Some (Done (pds :: rest, scan''))
          | other => other
          end
      | Some (Elog msg) => Some (Elog msg)
      | Some Trap => Some Trap
      end
  end.

(** the block [i] steps after block [c] of a relation of [nblocks] blocks
    that is read in a circle *)
Definition block_after (nblocks c : Z) (i : nat) : Z :=
  (c + Z.of_nat i) mod nblocks.

(** the tuples [PDS_insert_block] takes from the [n] blocks that begin with
    block [c], in the order of the scan *)
Definition run_tuples (snapshot : Snapshot) (nblocks c : Z) (n : nat)
  : list HeapTupleData :=
  flat_map (fun i => page_tuples (block_after nblocks c i) snapshot
                       (pages (block_after nblocks c i)))
           (seq 0 n).

(** what a heap page guarantees for its visible tuples: they fit the fields
    of an item, they take no more room than a page with as many item
    headers, and there are no more line pointers than a page can have *)
Definition page_ok (snapshot : Snapshot) (blknum : Z) : Prop :=
  let page := pages blknum in
  let tuples := page_tuples blknum snapshot page in
  Forall tuple_fits tuples /\
  rows_required tuples
  <= offsetof_htup * PageGetMaxOffsetNumber page + BLCKSZ /\
  PageGetMaxOffsetNumber page <= MaxHeapTuplesPerPage.

(** a scan descriptor as [heap_beginscan] and the routine leave it *)
Definition scan_wf (scan : HeapScanDescData) : Prop :=
  0 <= rs_nblocks scan < InvalidBlockNumber /\
  (rs_nblocks scan = 0 \/ 0 <= rs_startblock scan < rs_nblocks scan) /\
  (rs_cblock scan = InvalidBlockNumber \/
   0 <= rs_cblock scan < rs_nblocks scan) /\
  0 <= rs_numblocks scan <= InvalidBlockNumber.

(** the conditions under which the routine returns [NULL] at once *)
Definition scan_over (scan : HeapScanDescData) : Prop :=
  rs_nblocks scan = 0 \/ rs_numblocks scan = 0 \/
  rs_cblock scan = rs_startblock scan.

End ScanChunk.

(** a Row-format chunk as [PDS_create_row] and [PDS_insert_block] leave it,
    with the records [tuples] in this order and nothing else in its
    payload *)
Definition row_chunk_holds {L : KdsLayout} (pds : pgstrom_data_store)
    (tuples : list HeapTupleData) : Prop :=
  format (kds pds) = KDS_FORMAT_ROW /\
  nslots (kds pds) = 0 /\
  nrooms (kds pds) = INT_MAX /\
  0 <= ncols (kds pds) /\
  length (kds pds) < 2 ^ 32 /\
  0 <= usage (kds pds) /\
  usage (kds pds) = rows_required tuples /\
  holds_rows (kds pds) tuples.

(** the worst-case length [PDS_insert_block] computes for the page and a
    chunk without records does not exceed the length of the chunks the scan
    creates *)
Definition page_fits_empty_chunk {L : KdsLayout} (tupdesc : TupleDesc)
    (chunk_length : Z) (page : Page) : Prop :=
  KDS_CALCULATE_HASH_LENGTH (natts tupdesc) (PageGetMaxOffsetNumber page)
    (offsetof_htup * PageGetMaxOffsetNumber page + BLCKSZ)
  <= STROMALIGN_DOWN chunk_length.

(** a relation of three blocks, each with the page of the example, and a
    scan of it that begins at block 1 and has not read anything yet *)
Definition sample_pages (blknum : Z) : Page := sample_page.

Definition sample_scan : HeapScanDescData :=
  {| rs_nblocks := 3;
     rs_numblocks := InvalidBlockNumber;
     rs_cblock := InvalidBlockNumber;
     rs_startblock := 1;
     rs_syncscan := false;
     rs_snapshot := sample_snapshot |}.

(** [SELECT a, b] over the relation of the two columns [a] and [b] *)
Definition sample_identity_tlist : list (TargetEntry sample_expr) :=
  [ {| tle_expr := SampleVar (sample_column 1 23); resno := 1;
       resjunk := false |};
    {| tle_expr := SampleVar (sample_column 2 20); resno := 2;
       resjunk := false |} ].
(** * Part II.  Properties *)

(** ** Alignment *)

Section Align.

Variable a : Z.
Hypothesis Ha : exists k, 0 <= k /\ a = 2 ^ k.

Lemma align_pos : 0 < a.
Proof. destruct Ha as (k & Hk & ->). apply Z.pow_pos_nonneg; lia. Qed.

Lemma TYPEALIGN_DOWN_div (x : Z) : TYPEALIGN_DOWN a x = a * (x / a).
Proof.
  destruct Ha as (k & Hk & ->). unfold TYPEALIGN_DOWN.
  replace (2 ^ k - 1) with (Z.ones k) by (rewrite Z.ones_equiv; lia).
  rewrite <- Z.ldiff_land, Z.ldiff_ones_r by lia.
  rewrite Z.shiftl_mul_pow2, Z.shiftr_div_pow2 by lia. ring.
Qed.

Lemma TYPEALIGN_div (x : Z) : TYPEALIGN a x = a * ((x + (a - 1)) / a).
Proof. apply (TYPEALIGN_DOWN_div (x + (a - 1))). Qed.

Lemma TYPEALIGN_DOWN_bounds (x : Z) :
  x - a < TYPEALIGN_DOWN a x <= x.
Proof.
  rewrite TYPEALIGN_DOWN_div. pose proof align_pos.
  pose proof (Z.div_mod x a ltac:(lia)).
  pose proof (Z.mod_pos_bound x a ltac:(lia)). lia.
Qed.

Lemma TYPEALIGN_bounds (x : Z) : x <= TYPEALIGN a x < x + a.
Proof.
  rewrite TYPEALIGN_div. pose proof align_pos.
  pose proof (Z.div_mod (x + (a - 1)) a ltac:(lia)).
  pose proof (Z.mod_pos_bound (x + (a - 1)) a ltac:(lia)). lia.
Qed.

Lemma TYPEALIGN_mono (x y : Z) : x <= y -> TYPEALIGN a x <= TYPEALIGN a y.
Proof.
  intros Hxy. rewrite !TYPEALIGN_div. pose proof align_pos.
  apply Z.mul_le_mono_nonneg_l; [lia|]. apply Z.div_le_mono; lia.
Qed.

Lemma TYPEALIGN_DOWN_mono (x y : Z) :
  x <= y -> TYPEALIGN_DOWN a x <= TYPEALIGN_DOWN a y.
Proof.
  intros Hxy. rewrite !TYPEALIGN_DOWN_div. pose proof align_pos.
  apply Z.mul_le_mono_nonneg_l; [lia|]. apply Z.div_le_mono; lia.
Qed.

Lemma TYPEALIGN_DOWN_mult (q : Z) : TYPEALIGN_DOWN a (a * q) = a * q.
Proof.
  rewrite TYPEALIGN_DOWN_div. pose proof align_pos.
  rewrite (Z.mul_comm a q), Z.div_mul by lia. ring.
Qed.

Lemma TYPEALIGN_mult (q : Z) : TYPEALIGN a (a * q) = a * q.
Proof.
  rewrite TYPEALIGN_div. pose proof align_pos.
  replace (a * q + (a - 1)) with ((a - 1) + q * a) by ring.
  rewrite Z.div_add by lia. rewrite Z.div_small by lia. ring.
Qed.

(** the difference of two aligned lengths is aligned *)
Lemma TYPEALIGN_DOWN_sub (x y : Z) :
  TYPEALIGN_DOWN a (TYPEALIGN_DOWN a x - TYPEALIGN_DOWN a y)
  = TYPEALIGN_DOWN a x - TYPEALIGN_DOWN a y.
Proof.
  rewrite (TYPEALIGN_DOWN_div x), (TYPEALIGN_DOWN_div y).
  rewrite <- Z.mul_sub_distr_l. apply TYPEALIGN_DOWN_mult.
Qed.

End Align.

(** ** Memory *)

Lemma in_range_true (lo n x : Z) : lo <= x < lo + n -> in_range lo n x = true.
Proof. unfold in_range; intros; apply andb_true_iff; split; lia. Qed.

Lemma in_range_false (lo n x : Z) :
  x < lo \/ lo + n <= x -> in_range lo n x = false.
Proof. unfold in_range; intros; apply andb_false_iff; lia. Qed.

Lemma memcpy_inside dst d src s n x :
  d <= x < d + n -> memcpy dst d src s n x = src (s + (x - d)).
Proof. intros; unfold memcpy; now rewrite in_range_true. Qed.

Lemma memcpy_outside dst d src s n x :
  x < d \/ d + n <= x -> memcpy dst d src s n x = dst x.
Proof. intros; unfold memcpy; now rewrite in_range_false. Qed.

Lemma memset_inside m d c n x : d <= x < d + n -> memset m d c n x = c.
Proof. intros; unfold memset; now rewrite in_range_true. Qed.

Lemma memset_outside m d c n x :
  x < d \/ d + n <= x -> memset m d c n x = m x.
Proof. intros; unfold memset; now rewrite in_range_false. Qed.

Lemma store_bytes_outside m d bs x :
  x < d \/ d + Z.of_nat (List.length bs) <= x -> store_bytes m d bs x = m x.
Proof. intros; unfold store_bytes; now rewrite in_range_false. Qed.

Lemma load_bytes_length m a n : List.length (load_bytes m a n) = n.
Proof. revert a; induction n; intros; simpl; [reflexivity | now rewrite IHn]. Qed.

Lemma load_bytes_nth m a n i :
  (i < n)%nat -> nth i (load_bytes m a n) 0 = m (a + Z.of_nat i).
Proof.
  revert a i; induction n; intros a i Hi; [lia|].
  destruct i; simpl.
  - f_equal; lia.
  - rewrite IHn by lia. f_equal; lia.
Qed.

Lemma load_bytes_ext m m' a n :
  (forall x, a <= x < a + Z.of_nat n -> m' x = m x) ->
  load_bytes m' a n = load_bytes m a n.
Proof.
  revert a; induction n; intros a H; simpl; [reflexivity|].
  rewrite H by lia. f_equal. apply IHn. intros; apply H; lia.
Qed.

Lemma load_store_bytes m a bs :
  load_bytes (store_bytes m a bs) a (List.length bs) = bs.
Proof.
  apply (nth_ext _ _ 0 0); [apply load_bytes_length|].
  intros i Hi. rewrite load_bytes_length in Hi.
  rewrite load_bytes_nth by assumption.
  unfold store_bytes. rewrite in_range_true by lia.
  f_equal. lia.
Qed.

Lemma load_bytes_ptr_at m base a n :
  load_bytes (ptr_at m base) a n = load_bytes m (base + a) n.
Proof.
  revert a; induction n; intros; simpl; [reflexivity|].
  unfold ptr_at at 1. f_equal. rewrite IHn. f_equal. lia.
Qed.

Lemma load_bytes_memcpy dst d src n :
  load_bytes (memcpy dst d src 0 (Z.of_nat n)) d n = load_bytes src 0 n.
Proof.
  apply (nth_ext _ _ 0 0); [now rewrite !load_bytes_length|].
  intros i Hi. rewrite load_bytes_length in Hi.
  rewrite !load_bytes_nth by assumption.
  rewrite memcpy_inside by lia. f_equal. lia.
Qed.

Lemma encode_uint_length n v : List.length (encode_uint n v) = n.
Proof. revert v; induction n; intros; simpl; [reflexivity | now rewrite IHn]. Qed.

Lemma decode_encode_uint n v :
  decode_uint (encode_uint n v) = v mod 256 ^ Z.of_nat n.
Proof.
  revert v; induction n; intros v.
  - simpl. now rewrite Z.mod_1_r.
  - cbn [encode_uint decode_uint]. rewrite IHn.
    rewrite Nat2Z.inj_succ, Z.pow_succ_r by lia.
    rewrite Z.rem_mul_r; [reflexivity | lia | apply Z.pow_pos_nonneg; lia].
Qed.

Lemma store_uint_outside n m a v x :
  x < a \/ a + Z.of_nat n <= x -> store_uint n m a v x = m x.
Proof.
  intros; unfold store_uint. apply store_bytes_outside.
  now rewrite encode_uint_length.
Qed.

Lemma load_store_uint n m a v :
  load_uint n (store_uint n m a v) a = v mod 256 ^ Z.of_nat n.
Proof.
  unfold load_uint, store_uint.
  rewrite <- (encode_uint_length n v) at 2.
  now rewrite load_store_bytes, decode_encode_uint.
Qed.

Lemma load_uint_ext n m m' a :
  (forall x, a <= x < a + Z.of_nat n -> m' x = m x) ->
  load_uint n m' a = load_uint n m a.
Proof. intros; unfold load_uint; f_equal; now apply load_bytes_ext. Qed.

Lemma load_store_uint_small n m a v :
  0 <= v < 256 ^ Z.of_nat n -> load_uint n (store_uint n m a v) a = v.
Proof. intros; rewrite load_store_uint; now apply Z.mod_small. Qed.

(** ** The data store *)

Section DataStoreFacts.

Context {L : KdsLayout}.

Lemma Assert_cases (cond : bool) :
  Assert cond = Done tt \/ (Assert cond = Trap /\ USE_ASSERT_CHECKING = true /\ cond = false).
Proof.
  unfold Assert. destruct USE_ASSERT_CHECKING, cond; simpl; auto.
Qed.

Lemma Assert_true : Assert true = Done tt.
Proof. unfold Assert. now rewrite andb_false_r. Qed.

Ltac case_assert c :=
  let H := fresh "HA" in
  destruct (Assert_cases c) as [H | (H & _ & _)]; rewrite H; cbn [bind].

Lemma Assert_off (cond : bool) :
  USE_ASSERT_CHECKING = false -> Assert cond = Done tt.
Proof. intros H; unfold Assert; now rewrite H. Qed.

Lemma STROMALIGN_LEN_pos : 0 < STROMALIGN_LEN.
Proof. apply align_pos, STROMALIGN_LEN_pow2. Qed.

Lemma STROMALIGN_bounds x : x <= STROMALIGN x < x + STROMALIGN_LEN.
Proof. apply TYPEALIGN_bounds, STROMALIGN_LEN_pow2. Qed.

Lemma STROMALIGN_mono x y : x <= y -> STROMALIGN x <= STROMALIGN y.
Proof. apply TYPEALIGN_mono, STROMALIGN_LEN_pow2. Qed.

Lemma STROMALIGN_DOWN_bounds x :
  x - STROMALIGN_LEN < STROMALIGN_DOWN x <= x.
Proof. apply TYPEALIGN_DOWN_bounds, STROMALIGN_LEN_pow2. Qed.

Lemma STROMALIGN_DOWN_mono x y : x <= y -> STROMALIGN_DOWN x <= STROMALIGN_DOWN y.
Proof. apply TYPEALIGN_DOWN_mono, STROMALIGN_LEN_pow2. Qed.

Lemma LONGALIGN_bounds x : x <= LONGALIGN x < x + ALIGNOF_LONG.
Proof. apply TYPEALIGN_bounds, ALIGNOF_LONG_pow2. Qed.

Lemma MAXALIGN_bounds x : x <= MAXALIGN x < x + MAXIMUM_ALIGNOF.
Proof. apply TYPEALIGN_bounds, MAXIMUM_ALIGNOF_pow2. Qed.

Lemma HEAD_LENGTH_nonneg n : 0 <= n -> 0 <= KDS_CALCULATE_HEAD_LENGTH n.
Proof.
  intros Hn. unfold KDS_CALCULATE_HEAD_LENGTH.
  pose proof (STROMALIGN_bounds (offsetof_colmeta + sizeof_colmeta * n)).
  pose proof colmeta_layout. nia.
Qed.

Lemma size_t_wrap_small x : 0 <= x < 2 ^ 64 -> size_t_wrap x = x.
Proof. intros; unfold size_t_wrap; now apply Z.mod_small. Qed.

(** *** C10: a rejected insertion changes nothing *)

(** C10.  Whenever [PDS_insert_tuple] or [PDS_insert_hashitem] returns
    false, the data store it returns is the one it was given: record count,
    used bytes, index array and stored records keep their prior values,
    both capacity checks coming before the first write. *)
Theorem insert_false_leaves_chunk_unchanged :
  forall (pds pds' : pgstrom_data_store) (slot_natts : Z)
         (tuple : HeapTupleData) (hash_value : Z),
    (PDS_insert_tuple pds slot_natts tuple = Done (false, pds') -> pds' = pds) /\
    (PDS_insert_hashitem pds slot_natts tuple hash_value = Done (false, pds') ->
     pds' = pds).
Proof.
  intros pds pds' slot_natts tuple hash_value. split.
  - unfold PDS_insert_tuple.
    destruct (nrooms (kds pds) <=? nitems (kds pds)); [congruence|].
    case_assert (ncols (kds pds) =? slot_natts); [|discriminate].
    destruct (negb _); [discriminate|].
    destruct (length (kds pds) <? _); [congruence | discriminate].
  - unfold PDS_insert_hashitem.
    destruct (nrooms (kds pds) <=? nitems (kds pds)); [congruence|].
    case_assert (ncols (kds pds) =? slot_natts); [|discriminate].
    destruct (negb _); [discriminate|].
    case_assert (usage (kds pds) =? MAXALIGN (usage (kds pds))); [|discriminate].
    destruct (length (kds pds) <? _); [congruence |].
    cbn [bind]. discriminate.
Qed.

End DataStoreFacts.

Lemma insert_false_leaves_chunk_unchanged_witness :
  let L := sample_layout true in
  (PDS_insert_tuple (sample_row_chunk true) 2 (sample_tuple 64 4)
     = Done (false, sample_row_chunk true) /\
   sample_row_chunk true = sample_row_chunk true) /\
  (PDS_insert_hashitem (sample_short_hash_chunk true) 2 (sample_tuple 64 4) 99
     = Done (false, sample_short_hash_chunk true) /\
   sample_short_hash_chunk true = sample_short_hash_chunk true).
Proof.
  intros L.
  assert (H1 : PDS_insert_tuple (sample_row_chunk true) 2 (sample_tuple 64 4)
               = Done (false, sample_row_chunk true))
    by (vm_compute; reflexivity).
  assert (H2 : PDS_insert_hashitem (sample_short_hash_chunk true) 2
                 (sample_tuple 64 4) 99
               = Done (false, sample_short_hash_chunk true))
    by (vm_compute; reflexivity).
  split; (split; [assumption|]).
  - exact (proj1 (insert_false_leaves_chunk_unchanged (L := L) _ _ _ _ 0) H1).
  - exact (proj2 (insert_false_leaves_chunk_unchanged (L := L) _ _ _ _ _) H2).
Defined.

(** *** C7: fetch *)

Section Fetch.

Context {L : KdsLayout}.

Lemma fetch_out_of_range slot k idx tuple :
  nitems k <= idx ->
  kern_fetch_data_store slot k idx tuple = Done (false, slot, tuple).
Proof.
  intros H. unfold kern_fetch_data_store. apply Z.leb_le in H. now rewrite H.
Qed.

Lemma fetch_row slot k idx tuple :
  idx < nitems k -> format k = KDS_FORMAT_ROW ->
  kern_fetch_data_store slot k idx tuple =
  Done (true,
        {| tts_natts := tts_natts slot;
           tts_content :=
             TTS_TUPLE (read_tupitem (body k) (KERN_DATA_STORE_TUPITEM k idx)) |},
        read_tupitem (body k) (KERN_DATA_STORE_TUPITEM k idx)).
Proof.
  intros H Hf. unfold kern_fetch_data_store.
  apply Z.leb_gt in H. now rewrite H, Hf.
Qed.

Lemma fetch_slot slot k idx tuple :
  idx < nitems k -> format k = KDS_FORMAT_SLOT ->
  kern_fetch_data_store slot k idx tuple =
  Done (true,
        {| tts_natts := tts_natts slot;
           tts_content :=
             TTS_VIRTUAL
               (load_bytes (body k) (KERN_DATA_STORE_VALUES k idx)
                  (Z.to_nat (sizeof_Datum * tts_natts slot)))
               (load_bytes (body k) (KERN_DATA_STORE_ISNULL k idx)
                  (Z.to_nat (tts_natts slot))) |},
        tuple).
Proof.
  intros H Hf. unfold kern_fetch_data_store.
  apply Z.leb_gt in H. now rewrite H, Hf.
Qed.

Lemma fetch_hash_block slot k idx tuple :
  idx < nitems k ->
  format k = KDS_FORMAT_HASH \/ format k = KDS_FORMAT_BLOCK ->
  kern_fetch_data_store slot k idx tuple
  = Elog "Bug? unexpected data-store format".
Proof.
  intros H Hf. unfold kern_fetch_data_store.
  apply Z.leb_gt in H. rewrite H. now destruct Hf as [-> | ->].
Qed.

(** C7 (amended).  For every chunk of any format and every index at or
    beyond the record count, the fetch returns false and hands back the slot
    and the tuple as they were.  For every Row-format chunk and every index
    below the record count it returns true with the slot holding the tuple
    read in place from the item the row index designates; for every
    Slot-format chunk and such an index it returns true with the slot
    holding the values and null flags of that row; for every Hash- or
    Block-format chunk and such an index it leaves through
    [elog(ERROR)]. *)
Theorem fetch_row_slot_or_out_of_range :
  forall (slot : TupleTableSlot) (pds : pgstrom_data_store) (idx : Z)
         (tuple : HeapTupleData),
    (nitems (kds pds) <= idx ->
     pgstrom_fetch_data_store slot pds idx tuple = Done (false, slot, tuple)) /\
    (idx < nitems (kds pds) -> format (kds pds) = KDS_FORMAT_ROW ->
     let view := read_tupitem (body (kds pds))
                              (KERN_DATA_STORE_TUPITEM (kds pds) idx) in
     pgstrom_fetch_data_store slot pds idx tuple =
     Done (true,
           {| tts_natts := tts_natts slot; tts_content := TTS_TUPLE view |},
           view)) /\
    (idx < nitems (kds pds) -> format (kds pds) = KDS_FORMAT_SLOT ->
     pgstrom_fetch_data_store slot pds idx tuple =
     Done (true,
           {| tts_natts := tts_natts slot;
              tts_content :=
                TTS_VIRTUAL
                  (load_bytes (body (kds pds))
                     (KERN_DATA_STORE_VALUES (kds pds) idx)
                     (Z.to_nat (sizeof_Datum * tts_natts slot)))
                  (load_bytes (body (kds pds))
                     (KERN_DATA_STORE_ISNULL (kds pds) idx)
                     (Z.to_nat (tts_natts slot))) |},
           tuple)) /\
    (idx < nitems (kds pds) ->
     format (kds pds) = KDS_FORMAT_HASH \/
     format (kds pds) = KDS_FORMAT_BLOCK ->
     pgstrom_fetch_data_store slot pds idx tuple
     = Elog "Bug? unexpected data-store format").
Proof.
  intros slot pds idx tuple. unfold pgstrom_fetch_data_store.
  split; [apply fetch_out_of_range|].
  split; [apply fetch_row|].
  split; [apply fetch_slot | apply fetch_hash_block].
Qed.

End Fetch.

Lemma fetch_row_slot_or_out_of_range_witness :
  let L := sample_layout true in
  pgstrom_fetch_data_store empty_slot (sample_row_chunk true) 3
    (sample_tuple 0 0) = Done (false, empty_slot, sample_tuple 0 0) /\
  (exists view,
      pgstrom_fetch_data_store empty_slot (sample_row_chunk true) 1
        (sample_tuple 0 0) =
      Done (true, {| tts_natts := 2; tts_content := TTS_TUPLE view |}, view) /\
      t_len view = 64 /\ tuple_bytes view = tuple_bytes (sample_tuple 64 2)) /\
  (exists vals nulls,
      pgstrom_fetch_data_store empty_slot (sample_slot_chunk true 0) 1
        (sample_tuple 0 0) =
      Done (true, {| tts_natts := 2; tts_content := TTS_VIRTUAL vals nulls |},
            sample_tuple 0 0) /\
      List.length vals = 16%nat /\ List.length nulls = 2%nat) /\
  pgstrom_fetch_data_store empty_slot (sample_hash_chunk true) 0
    (sample_tuple 0 0) = Elog "Bug? unexpected data-store format".
Proof.
  intros L.
  pose proof (fetch_row_slot_or_out_of_range (L := L) empty_slot
                (sample_row_chunk true) 3 (sample_tuple 0 0))
    as (H3 & _ & _ & _).
  pose proof (fetch_row_slot_or_out_of_range (L := L) empty_slot
                (sample_row_chunk true) 1 (sample_tuple 0 0))
    as (_ & H1 & _ & _).
  pose proof (fetch_row_slot_or_out_of_range (L := L) empty_slot
                (sample_slot_chunk true 0) 1 (sample_tuple 0 0))
    as (_ & _ & H2 & _).
  pose proof (fetch_row_slot_or_out_of_range (L := L) empty_slot
                (sample_hash_chunk true) 0 (sample_tuple 0 0))
    as (_ & _ & _ & H4).
  split; [apply H3; vm_compute; discriminate|].
  split; [|split].
  - eexists. split; [apply H1; [vm_compute; reflexivity | reflexivity]|].
    split; vm_compute; reflexivity.
  - eexists _, _. split; [apply H2; [vm_compute; reflexivity | reflexivity]|].
    split; vm_compute; reflexivity.
  - apply H4; [vm_compute; reflexivity | left; reflexivity].
Defined.

(** C7, as stated, fails: on a Hash-format chunk holding one record the
    fetch of index 0 leaves through [elog(ERROR)]. *)
Lemma fetch_hash_chunk_raises_error :
  let L := sample_layout true in
  format (kds (sample_hash_chunk true)) = KDS_FORMAT_HASH /\
  nitems (kds (sample_hash_chunk true)) = 1 /\
  pgstrom_fetch_data_store empty_slot (sample_hash_chunk true) 0
    (sample_tuple 0 0) = Elog "Bug? unexpected data-store format".
Proof. vm_compute. repeat split; reflexivity. Qed.

(** *** C3: reference counting *)

Section RefCount.

Context {L : KdsLayout}.

Lemma set_refcnt_cell h p v : refcnt (cell (set_refcnt h p v) p) = v.
Proof. unfold set_refcnt; simpl. now rewrite Z.eqb_refl. Qed.

Lemma retain_ok h p :
  0 < refcnt (cell h p) ->
  PDS_retain h p = Done (set_refcnt h p (refcnt (cell h p) + 1), p).
Proof.
  intros H. unfold PDS_retain.
  replace (0 <? refcnt (cell h p)) with true by (symmetry; now apply Z.ltb_lt).
  now rewrite Assert_true.
Qed.

Lemma release_ok h p :
  0 < refcnt (cell h p) ->
  PDS_release h p =
  Done (if refcnt (cell h p) - 1 =? 0
        then dmaBufferFree (set_refcnt h p (refcnt (cell h p) - 1)) p
        else set_refcnt h p (refcnt (cell h p) - 1)).
Proof.
  intros H. unfold PDS_release.
  replace (0 <? refcnt (cell h p)) with true by (symmetry; now apply Z.ltb_lt).
  rewrite Assert_true; cbn [bind]. rewrite set_refcnt_cell.
  now destruct (_ =? 0).
Qed.

Let freed_iff_zero (h : dma_heap) (p : pds_ptr) : Prop :=
  frees h p = if refcnt (cell h p) =? 0 then 1%nat else 0%nat.

Lemma count_op_cons (o op : ref_op) (ops : list ref_op) :
  count_op o (op :: ops) =
  (match op, o with
   | OpRetain, OpRetain | OpRelease, OpRelease => 1
   | _, _ => 0
   end) + count_op o ops.
Proof.
  unfold count_op. cbn [filter].
  destruct op, o; cbn [List.length]; lia.
Qed.

(** a run that respects the precondition ends with the expected count, and
    the buffer has been freed once if the count is zero, never otherwise *)
Lemma run_ops_balance (ops : list ref_op) :
  forall (h : dma_heap) (p : pds_ptr),
    0 <= refcnt (cell h p) ->
    freed_iff_zero h p ->
    preconditions_hold ops (refcnt (cell h p)) ->
    exists h',
      run_ops ops h p = Done h' /\
      refcnt (cell h' p) =
        refcnt (cell h p) + count_op OpRetain ops - count_op OpRelease ops /\
      0 <= refcnt (cell h' p) /\
      freed_iff_zero h' p.
Proof.
  induction ops as [|op rest IH]; intros h p Hr Hf Hpre.
  - exists h. cbn. unfold count_op; simpl. repeat split; try assumption; lia.
  - destruct op; cbn [preconditions_hold] in Hpre; destruct Hpre as (Hpos & Hpre).
    + cbn [run_ops apply_op]. rewrite retain_ok by assumption. cbn [bind fst].
      set (h1 := set_refcnt h p (refcnt (cell h p) + 1)).
      assert (E1 : refcnt (cell h1 p) = refcnt (cell h p) + 1)
        by apply set_refcnt_cell.
      destruct (IH h1 p) as (h' & Hrun & Hcnt & Hge & Hfz).
      * lia.
      * unfold freed_iff_zero. rewrite E1.
        replace (refcnt (cell h p) + 1 =? 0) with false
          by (symmetry; apply Z.eqb_neq; lia).
        unfold freed_iff_zero in Hf.
        replace (refcnt (cell h p) =? 0) with false in Hf
          by (symmetry; apply Z.eqb_neq; lia).
        exact Hf.
      * now rewrite E1.
      * exists h'. rewrite !count_op_cons. repeat split; try assumption. lia.
    + cbn [run_ops apply_op]. rewrite release_ok by assumption. cbn [bind].
      set (h0 := set_refcnt h p (refcnt (cell h p) - 1)).
      assert (E0 : refcnt (cell h0 p) = refcnt (cell h p) - 1)
        by apply set_refcnt_cell.
      assert (F0 : frees h0 p = 0%nat).
      { unfold freed_iff_zero in Hf.
        replace (refcnt (cell h p) =? 0) with false in Hf
          by (symmetry; apply Z.eqb_neq; lia).
        exact Hf. }
      clearbody h0.
      set (h1 := if refcnt (cell h p) - 1 =? 0 then dmaBufferFree h0 p else h0).
      assert (E1 : refcnt (cell h1 p) = refcnt (cell h p) - 1).
      { unfold h1. destruct (_ =? 0); [|exact E0]. exact E0. }
      assert (F1 : freed_iff_zero h1 p).
      { unfold freed_iff_zero. rewrite E1. unfold h1.
        destruct (refcnt (cell h p) - 1 =? 0); [|exact F0].
        unfold dmaBufferFree; simpl. rewrite Z.eqb_refl. now rewrite F0. }
      destruct (IH h1 p) as (h' & Hrun & Hcnt & Hge & Hfz).
      * lia.
      * exact F1.
      * now rewrite E1.
      * exists h'. rewrite !count_op_cons. repeat split; try assumption. lia.
Qed.

Lemma canonical_run_valid (k j : nat) (r : Z) :
  0 < r -> Z.of_nat j <= r + Z.of_nat k ->
  preconditions_hold (repeat OpRetain k ++ repeat OpRelease j) r.
Proof.
  revert r; induction k; intros r Hr Hj.
  - cbn [repeat app]. revert r Hr Hj. induction j; intros r Hr Hj; cbn.
    + exact I.
    + split; [assumption|].
      destruct j; [exact I|]. apply IHj; lia.
  - cbn. split; [assumption|]. apply IHk; lia.
Qed.

Lemma count_op_canonical (k j : nat) :
  count_op OpRetain (repeat OpRetain k ++ repeat OpRelease j) = Z.of_nat k /\
  count_op OpRelease (repeat OpRetain k ++ repeat OpRelease j) = Z.of_nat j.
Proof.
  induction k.
  - cbn [repeat app]. induction j.
    + now cbn.
    + cbn [repeat]. rewrite !count_op_cons. lia.
  - cbn [repeat app]. rewrite !count_op_cons. lia.
Qed.

(** C3.  A store created by [PDS_create_row] has reference count 1 and a
    live buffer.  From there, over every run of retain and release calls
    that meets the precondition [refcnt > 0] before each call, the run
    returns, the count is 1 plus the retains minus the releases, and the
    buffer has been freed exactly once when that count is zero and not at
    all otherwise: K retains and K+1 releases free it once, on the release
    that reaches zero, and K retains with at most K releases leave it alive.
    K retains followed by up to K+1 releases is such a run.  A retain
    returns the pointer it was given, and with assertion checking a retain
    or a release on a count that is not positive is trapped. *)
Theorem retain_release_balanced :
  forall (h : dma_heap) (p : pds_ptr) (fresh : memory) (tupdesc : TupleDesc)
         (len : Z),
    let h0 := PDS_create_row_at h p fresh tupdesc len in
    refcnt (cell h0 p) = 1 /\ frees h0 p = 0%nat /\
    (forall ops : list ref_op,
        preconditions_hold ops 1 ->
        exists h',
          run_ops ops h0 p = Done h' /\
          refcnt (cell h' p) =
            1 + count_op OpRetain ops - count_op OpRelease ops /\
          (count_op OpRelease ops = count_op OpRetain ops + 1 ->
           frees h' p = 1%nat) /\
          (count_op OpRelease ops <= count_op OpRetain ops ->
           frees h' p = 0%nat)) /\
    (forall K j : nat,
        (j <= K + 1)%nat ->
        preconditions_hold (repeat OpRetain K ++ repeat OpRelease j) 1 /\
        count_op OpRetain (repeat OpRetain K ++ repeat OpRelease j)
          = Z.of_nat K /\
        count_op OpRelease (repeat OpRetain K ++ repeat OpRelease j)
          = Z.of_nat j) /\
    (forall (g g' : dma_heap) (q q' : pds_ptr),
        PDS_retain g q = Done (g', q') -> q' = q) /\
    (forall (g : dma_heap) (q : pds_ptr),
        USE_ASSERT_CHECKING = true -> refcnt (cell g q) <= 0 ->
        PDS_retain g q = Trap /\ PDS_release g q = Trap).
Proof.
  intros h p fresh tupdesc len h0.
  assert (R0 : refcnt (cell h0 p) = 1).
  { unfold h0, PDS_create_row_at; simpl. now rewrite Z.eqb_refl. }
  assert (F0 : frees h0 p = 0%nat).
  { unfold h0, PDS_create_row_at; simpl. now rewrite Z.eqb_refl. }
  split; [exact R0|]. split; [exact F0|]. split; [|split; [|split]].
  - intros ops Hpre.
    destruct (run_ops_balance ops h0 p) as (h' & Hrun & Hcnt & Hge & Hfz).
    + lia.
    + unfold freed_iff_zero. now rewrite R0, F0.
    + now rewrite R0.
    + exists h'. rewrite R0 in Hcnt. split; [exact Hrun|]. split; [exact Hcnt|].
      unfold freed_iff_zero in Hfz. split; intros Hc.
      * replace (refcnt (cell h' p) =? 0) with true in Hfz
          by (symmetry; apply Z.eqb_eq; lia).
        exact Hfz.
      * replace (refcnt (cell h' p) =? 0) with false in Hfz
          by (symmetry; apply Z.eqb_neq; lia).
        exact Hfz.
  - intros K j Hj. split; [apply canonical_run_valid; lia|].
    apply count_op_canonical.
  - intros g g' q q' H. unfold PDS_retain in H.
    destruct (Assert_cases (0 <? refcnt (cell g q))) as [HA | (HA & _)];
      rewrite HA in H; cbn [bind] in H; congruence.
  - intros g q Hchk Hle. unfold PDS_retain, PDS_release, Assert.
    replace (0 <? refcnt (cell g q)) with false
      by (symmetry; apply Z.ltb_ge; lia).
    rewrite Hchk. now cbn.
Qed.

End RefCount.

Lemma retain_release_balanced_witness :
  let L := sample_layout true in
  let h0 := PDS_create_row_at sample_heap 42 zero_memory sample_tupdesc 4096 in
  (exists h',
      run_ops [OpRetain; OpRetain; OpRelease; OpRelease; OpRelease] h0 42
        = Done h' /\
      refcnt (cell h' 42) = 0 /\ frees h' 42 = 1%nat) /\
  (exists h',
      run_ops [OpRetain; OpRelease; OpRetain; OpRelease] h0 42 = Done h' /\
      refcnt (cell h' 42) = 1 /\ frees h' 42 = 0%nat) /\
  (PDS_retain sample_heap 7 = Trap /\ PDS_release sample_heap 7 = Trap).
Proof.
  intros L h0.
  destruct (retain_release_balanced (L := L) sample_heap 42 zero_memory
              sample_tupdesc 4096) as (_ & _ & Hrun & _ & _ & Htrap).
  split; [|split].
  - destruct (Hrun [OpRetain; OpRetain; OpRelease; OpRelease; OpRelease])
      as (h' & H1 & H2 & H3 & _).
    + cbn. lia.
    + exists h'. split; [exact H1|]. split; [exact H2|].
      apply H3. reflexivity.
  - destruct (Hrun [OpRetain; OpRelease; OpRetain; OpRelease])
      as (h' & H1 & H2 & _ & H4).
    + cbn. lia.
    + exists h'. split; [exact H1|]. split; [exact H2|].
      apply H4. vm_compute. discriminate.
  - apply Htrap; [reflexivity | vm_compute; discriminate].
Defined.

(** ** The completion callback of GpuScan *)

Section Respond.

Variables CUDA_SUCCESS CUDA_ERROR_INVALID_CONTEXT : Z.
Variables StromError_Success StromError_CpuReCheck : Z.
Variable StromError_DataStoreNoSpace : Z.
Variable StromKernel_CudaRuntime : Z.

Let respond :=
  pgstrom_respond_gpuscan CUDA_SUCCESS CUDA_ERROR_INVALID_CONTEXT
    StromError_Success StromError_CpuReCheck StromError_DataStoreNoSpace
    StromKernel_CudaRuntime.

(** C9 (amended).  The callback bails out, touching neither the task nor the
    queues, when the status is [CUDA_ERROR_INVALID_CONTEXT] or no
    transaction is in progress.  Otherwise: when the device run succeeded
    and reported [StromError_CpuReCheck] or [StromError_DataStoreNoSpace]
    and CPU fallback is enabled, the error code is cleared and the task is
    marked for CPU fallback; when the run succeeded in any other case the
    error buffer of the kernel is recorded on the task as it is; when the
    run failed, its status is recorded as the error code; and the task goes
    to the front of the completed list when its recorded error code is not
    success (which includes every failed run), to the back when it is. *)
Theorem respond_gpuscan_disposition :
  forall (fallback_enabled in_transaction : bool) (status : Z)
         (g : pgstrom_gpuscan) (gts : GpuTaskState),
    StromError_Success = CUDA_SUCCESS ->
    StromError_CpuReCheck <> StromError_Success ->
    StromError_DataStoreNoSpace <> StromError_Success ->
    let r := respond fallback_enabled in_transaction status g gts in
    ((status = CUDA_ERROR_INVALID_CONTEXT \/ in_transaction = false) ->
     r = (g, gts)) /\
    (status <> CUDA_ERROR_INVALID_CONTEXT -> in_transaction = true ->
     (status = CUDA_SUCCESS -> fallback_enabled = true ->
      (errcode (kern_kerror g) = StromError_CpuReCheck \/
       errcode (kern_kerror g) = StromError_DataStoreNoSpace) ->
      errcode (task_kerror (fst r)) = StromError_Success /\
      task_cpu_fallback (fst r) = true /\
      completed_tasks (snd r) = completed_tasks gts ++ [fst r]) /\
     (status = CUDA_SUCCESS ->
      (fallback_enabled = false \/
       (errcode (kern_kerror g) <> StromError_CpuReCheck /\
        errcode (kern_kerror g) <> StromError_DataStoreNoSpace)) ->
      task_kerror (fst r) = kern_kerror g /\
      task_cpu_fallback (fst r) = task_cpu_fallback g) /\
     (status <> CUDA_SUCCESS ->
      task_kerror (fst r) = {| errcode := status;
                               kernel := StromKernel_CudaRuntime;
                               lineno := 0 |} /\
      task_cpu_fallback (fst r) = task_cpu_fallback g /\
      completed_tasks (snd r) = fst r :: completed_tasks gts) /\
     (errcode (task_kerror (fst r)) <> StromError_Success ->
      completed_tasks (snd r) = fst r :: completed_tasks gts) /\
     (errcode (task_kerror (fst r)) = StromError_Success ->
      completed_tasks (snd r) = completed_tasks gts ++ [fst r]) /\
     num_completed_tasks (snd r) = num_completed_tasks gts + 1).
Proof.
  intros fb txn status g gts Hsucc Hrc Hns r.
  unfold r, respond, pgstrom_respond_gpuscan, set_kerror,
    dlist_push_head, dlist_push_tail.
  destruct g as [ptr terr tfb linked kerr]; cbn [kern_kerror task_kerror
    task_cpu_fallback chain_linked task_ptr errcode kernel lineno].
  destruct (Z.eqb_spec status CUDA_ERROR_INVALID_CONTEXT) as [E1|E1];
    destruct txn; cbn [orb negb];
    (split; [intros; try reflexivity; intuition congruence
            | intros Hctx Htxn; try congruence]).
  destruct (Z.eqb_spec status CUDA_SUCCESS) as [E2|E2];
    [destruct fb;
     destruct (Z.eqb_spec (errcode kerr) StromError_CpuReCheck) as [E3|E3];
     destruct (Z.eqb_spec (errcode kerr) StromError_DataStoreNoSpace) as [E4|E4];
     cbn [andb orb errcode task_kerror]
    |];
    destruct linked;
    cbn [fst snd task_kerror task_cpu_fallback errcode completed_tasks
         num_completed_tasks];
    rewrite ?Z.eqb_refl;
    try (destruct (Z.eqb_spec (errcode kerr) StromError_Success) as [E5|E5]);
    try (destruct (Z.eqb_spec status StromError_Success) as [E6|E6]);
    cbn [fst snd task_kerror task_cpu_fallback errcode completed_tasks
         num_completed_tasks];
    repeat split; intros; try reflexivity; try congruence;
    try (exfalso; intuition congruence).
Qed.

End Respond.

Lemma respond_gpuscan_disposition_witness :
  let respond := pgstrom_respond_gpuscan 0 201 0 1000 2001 5 in
  (let r := respond true true 0 (sample_task 2001) sample_gts in
   errcode (task_kerror (fst r)) = 0 /\ task_cpu_fallback (fst r) = true /\
   completed_tasks (snd r) = [sample_task 0; fst r]) /\
  (let r := respond true true 700 (sample_task 0) sample_gts in
   errcode (task_kerror (fst r)) = 700 /\
   completed_tasks (snd r) = [fst r; sample_task 0]) /\
  respond true false 0 (sample_task 2001) sample_gts
    = (sample_task 2001, sample_gts).
Proof.
  intros respond.
  assert (H0 : (0 : Z) = 0) by reflexivity.
  assert (H1 : (1000 : Z) <> 0) by discriminate.
  assert (H2 : (2001 : Z) <> 0) by discriminate.
  split; [|split].
  - destruct (respond_gpuscan_disposition 0 201 0 1000 2001 5 true true 0
                (sample_task 2001) sample_gts H0 H1 H2) as (_ & H).
    destruct H as (Hfb & _); [discriminate | reflexivity |].
    apply Hfb; [reflexivity | reflexivity | right; reflexivity].
  - destruct (respond_gpuscan_disposition 0 201 0 1000 2001 5 true true 700
                (sample_task 0) sample_gts H0 H1 H2) as (_ & H).
    destruct H as (_ & _ & Hfail & _); [discriminate | reflexivity |].
    destruct Hfail as (Hk & _ & Hq); [discriminate|].
    split; [unfold respond; now rewrite Hk | exact Hq].
  - destruct (respond_gpuscan_disposition 0 201 0 1000 2001 5 true false 0
                (sample_task 2001) sample_gts H0 H1 H2) as (H & _).
    apply H. right; reflexivity.
Defined.

(** C9, as stated, fails: with CPU fallback disabled, a successful run that
    reported [StromError_DataStoreNoSpace] keeps its error code, is not
    marked for fallback and goes to the front of the completed list. *)
Lemma respond_keeps_recoverable_error_without_fallback :
  let r := pgstrom_respond_gpuscan 0 201 0 1000 2001 5 false true 0
             (sample_task 2001) sample_gts in
  errcode (kern_kerror (sample_task 2001)) = 2001 /\
  errcode (task_kerror (fst r)) = 2001 /\
  task_cpu_fallback (fst r) = false /\
  completed_tasks (snd r) = [fst r; sample_task 0].
Proof. vm_compute. repeat split; reflexivity. Qed.

(** ** Growing a chunk *)

Section ExpandSlot.

Context {L : KdsLayout}.

(** C5 (amended).  In a build without assertion checking, for every
    Slot-format chunk: when the new length, rounded down to the alignment,
    does not exceed the current length, the expansion hands back the chunk
    it was given, without error, whatever the usage.  When the rounded value
    exceeds the current length: with a nonzero payload usage the expansion
    leaves through [elog(ERROR)], nothing being relocated; with a usage of
    zero it returns a new buffer of the rounded length that keeps the header
    fields and holds, byte for byte, the value and null-flag rows of the
    records. *)
Theorem expand_slot_chunk :
  forall (fresh : memory) (pds : pgstrom_data_store) (new_length : Z),
    USE_ASSERT_CHECKING = false ->
    format (kds pds) = KDS_FORMAT_SLOT ->
    (STROMALIGN_DOWN new_length <= length (kds pds) ->
     PDS_expand_size fresh pds new_length = Done (SamePds pds)) /\
    (length (kds pds) < STROMALIGN_DOWN new_length ->
    (0 < usage (kds pds) ->
     PDS_expand_size fresh pds new_length =
     Elog "cannot expand KDS_FORMAT_SLOT with extra area") /\
    (usage (kds pds) = 0 ->
     exists pds',
       PDS_expand_size fresh pds new_length = Done (NewPds pds') /\
       length (kds pds') = STROMALIGN_DOWN new_length /\
       refcnt pds' = refcnt pds /\
       usage (kds pds') = 0 /\
       ncols (kds pds') = ncols (kds pds) /\
       nitems (kds pds') = nitems (kds pds) /\
       nrooms (kds pds') = nrooms (kds pds) /\
       format (kds pds') = KDS_FORMAT_SLOT /\
       forall x,
         KERN_DATA_STORE_BODY (kds pds) <= x <
         KERN_DATA_STORE_BODY (kds pds) +
         KERN_DATA_STORE_SLOT_LENGTH (kds pds) (nitems (kds pds)) ->
         body (kds pds') x = body (kds pds) x)).
Proof.
  intros fresh pds new_length Hoff Hfmt.
  unfold PDS_expand_size. rewrite !Assert_off by assumption. cbn [bind].
  split.
  { intros Hle. apply Z.leb_le in Hle. now rewrite Hle. }
  intros Hlen.
  replace (STROMALIGN_DOWN new_length <=? length (kds pds)) with false
    by (symmetry; apply Z.leb_gt; lia).
  rewrite Hfmt. split.
  - intros Hu. apply Z.ltb_lt in Hu. now rewrite Hu.
  - intros Hu. rewrite Hu. cbn [Z.ltb Z.compare].
    eexists. split; [reflexivity|].
    unfold set_length_body; cbn [kds length refcnt usage ncols nitems nrooms
                                 format body].
    repeat split; try assumption.
    intros x Hx. rewrite memcpy_inside by lia. f_equal. lia.
Qed.

End ExpandSlot.

Lemma expand_slot_chunk_witness :
  let L := sample_layout false in
  PDS_expand_size zero_memory (sample_slot_chunk false 16) 224 =
    Done (SamePds (sample_slot_chunk false 16)) /\
  PDS_expand_size zero_memory (sample_slot_chunk false 16) 4096 =
    Elog "cannot expand KDS_FORMAT_SLOT with extra area" /\
  exists pds',
    PDS_expand_size zero_memory (sample_slot_chunk false 0) 4100
      = Done (NewPds pds') /\
    length (kds pds') = 4096 /\
    body (kds pds') 130 = body (kds (sample_slot_chunk false 0)) 130.
Proof.
  intros L.
  destruct (expand_slot_chunk (L := L) zero_memory (sample_slot_chunk false 16)
              224 eq_refl eq_refl) as (H0 & _).
  destruct (expand_slot_chunk (L := L) zero_memory (sample_slot_chunk false 16)
              4096 eq_refl eq_refl) as (_ & H1).
  destruct (expand_slot_chunk (L := L) zero_memory (sample_slot_chunk false 0)
              4100 eq_refl eq_refl) as (_ & H2).
  split; [apply H0; vm_compute; discriminate|].
  destruct H1 as (H1 & _); [vm_compute; reflexivity|].
  destruct H2 as (_ & H2); [vm_compute; reflexivity|].
  split; [apply H1; vm_compute; reflexivity|].
  destruct H2 as (pds' & He & Hl & _ & _ & _ & _ & _ & _ & Hb); [reflexivity|].
  exists pds'. split; [exact He|]. split; [exact Hl|].
  apply Hb. vm_compute. split; [discriminate | reflexivity].
Defined.

(** C5, as stated, fails: a Slot-format chunk of 224 bytes with 16 bytes of
    payload in use, asked to grow to 230 bytes, a length that rounds down to
    224, is handed back as it is, without any error (in a build without
    assertion checking). *)
Lemma expand_slot_with_usage_returns_without_error :
  let L := sample_layout false in
  let pds := sample_slot_chunk false 16 in
  format (kds pds) = KDS_FORMAT_SLOT /\
  0 < usage (kds pds) /\
  length (kds pds) = 224 /\
  PDS_expand_size zero_memory pds 230 = Done (SamePds pds).
Proof. vm_compute. repeat split; reflexivity. Qed.

(** ** Items in the buffer *)

Lemma load_bytes_shift_ext m m' a a' n :
  (forall d, 0 <= d < Z.of_nat n -> m' (a' + d) = m (a + d)) ->
  load_bytes m' a' n = load_bytes m a n.
Proof.
  intros H. apply (nth_ext _ _ 0 0); [now rewrite !load_bytes_length|].
  intros i Hi. rewrite load_bytes_length in Hi.
  rewrite !load_bytes_nth by assumption. apply H. lia.
Qed.

Lemma load_uint_shift_ext n m m' a a' :
  (forall d, 0 <= d < Z.of_nat n -> m' (a' + d) = m (a + d)) ->
  load_uint n m' a' = load_uint n m a.
Proof. intros; unfold load_uint; f_equal; now apply load_bytes_shift_ext. Qed.

Lemma store_itemptr_outside m a ip x :
  x < a \/ a + 6 <= x -> store_itemptr m a ip x = m x.
Proof.
  intros H. unfold store_itemptr.
  rewrite !store_uint_outside by lia. reflexivity.
Qed.

Lemma load_itemptr_shift_ext m m' a a' :
  (forall d, 0 <= d < 6 -> m' (a' + d) = m (a + d)) ->
  load_itemptr m' a' = load_itemptr m a.
Proof.
  intros H. unfold load_itemptr. f_equal.
  - apply load_uint_shift_ext. intros; apply H; lia.
  - apply load_uint_shift_ext. intros d Hd.
    replace (a' + 2 + d) with (a' + (2 + d)) by lia.
    replace (a + 2 + d) with (a + (2 + d)) by lia. apply H; lia.
  - apply load_uint_shift_ext. intros d Hd.
    replace (a' + 4 + d) with (a' + (4 + d)) by lia.
    replace (a + 4 + d) with (a + (4 + d)) by lia. apply H; lia.
Qed.

Lemma load_store_itemptr m a ip :
  0 <= bi_hi ip < 65536 /\ 0 <= bi_lo ip < 65536 /\ 0 <= ip_posid ip < 65536 ->
  load_itemptr (store_itemptr m a ip) a = ip.
Proof.
  intros (H1 & H2 & H3). destruct ip as [hi lo pos]; cbn in *.
  unfold load_itemptr, store_itemptr; cbn [bi_hi bi_lo ip_posid]. f_equal.
  - erewrite load_uint_ext.
    + apply load_store_uint_small. cbn; lia.
    + intros x Hx. rewrite !store_uint_outside by lia. reflexivity.
  - erewrite load_uint_ext.
    + apply load_store_uint_small. cbn; lia.
    + intros x Hx. rewrite store_uint_outside by lia. reflexivity.
  - apply load_store_uint_small. cbn; lia.
Qed.

Lemma row_index_get_set_same m ri i v :
  0 <= v < 2 ^ 32 -> row_index_get (row_index_set m ri i v) ri i = v.
Proof.
  intros Hv. unfold row_index_get, row_index_set.
  apply load_store_uint_small. exact Hv.
Qed.

Lemma row_index_set_outside m ri i v x :
  x < ri + 4 * i \/ ri + 4 * i + 4 <= x -> row_index_set m ri i v x = m x.
Proof.
  intros H. unfold row_index_set. apply store_uint_outside.
  change (Z.of_nat 4) with 4. lia.
Qed.

Lemma row_index_get_ext m m' ri i :
  (forall x, ri + 4 * i <= x < ri + 4 * i + 4 -> m' x = m x) ->
  row_index_get m' ri i = row_index_get m ri i.
Proof.
  intros H. unfold row_index_get. apply load_uint_ext.
  change (Z.of_nat 4) with 4. exact H.
Qed.

Section Items.

Context {L : KdsLayout}.

Lemma same_tuple_refl a : same_tuple a a.
Proof. repeat split. Qed.

Lemma same_tuple_sym a b : same_tuple a b -> same_tuple b a.
Proof. intros (H1 & H2 & H3); repeat split; congruence. Qed.

Lemma same_tuple_trans a b c : same_tuple a b -> same_tuple b c -> same_tuple a c.
Proof. intros (H1 & H2 & H3) (H4 & H5 & H6); repeat split; congruence. Qed.

Lemma tuple_bytes_read m off :
  tuple_bytes (read_tupitem m off) =
  load_bytes m (off + offsetof_htup)
             (Z.to_nat (load_uint sizeof_t_len m off)).
Proof.
  unfold tuple_bytes, read_tupitem; cbn [t_data t_len].
  rewrite load_bytes_ptr_at. f_equal. lia.
Qed.

(** an item read at [off'] in [m'] is the item read at [off] in [m] when the
    two memories agree over its extent *)
Lemma read_tupitem_shift m m' off off' len :
  0 <= len ->
  t_len (read_tupitem m off) = len ->
  (forall d, 0 <= d < offsetof_htup + len -> m' (off' + d) = m (off + d)) ->
  same_tuple (read_tupitem m' off') (read_tupitem m off).
Proof.
  intros Hlen Ht H. destruct tupitem_layout as (Hs & Hts & Hh).
  assert (E : t_len (read_tupitem m' off') = len).
  { rewrite <- Ht. cbn [read_tupitem t_len].
    apply load_uint_shift_ext. intros; apply H; lia. }
  split; [congruence|]. split.
  - cbn [read_tupitem t_self]. apply load_itemptr_shift_ext.
    intros d Hd. rewrite <- !Z.add_assoc. apply H; lia.
  - rewrite !tuple_bytes_read.
    cbn [read_tupitem t_len] in E, Ht. rewrite E, Ht.
    apply load_bytes_shift_ext. intros d Hd.
    rewrite <- !Z.add_assoc. apply H. lia.
Qed.

Lemma read_tupitem_ext m m' off len :
  0 <= len ->
  t_len (read_tupitem m off) = len ->
  (forall x, off <= x < off + offsetof_htup + len -> m' x = m x) ->
  same_tuple (read_tupitem m' off) (read_tupitem m off).
Proof.
  intros Hlen Ht H. apply (read_tupitem_shift m m' off off len); try assumption.
  intros d Hd. apply H. lia.
Qed.

Lemma write_tupitem_outside m off tup x :
  0 <= t_len tup ->
  x < off \/ off + offsetof_htup + t_len tup <= x ->
  write_tupitem m off tup x = m x.
Proof.
  intros Hlen Hx. destruct tupitem_layout as (Hs & Hts & Hh).
  unfold write_tupitem.
  rewrite memcpy_outside by lia.
  rewrite store_itemptr_outside by lia.
  rewrite store_uint_outside by lia. reflexivity.
Qed.

Lemma read_write_tupitem m off tup :
  tuple_fits tup ->
  same_tuple (read_tupitem (write_tupitem m off tup) off) tup.
Proof.
  intros ((Hl1 & Hl2) & Hip). destruct tupitem_layout as (Hs & Hts & Hh).
  assert (E : load_uint sizeof_t_len (write_tupitem m off tup) off = t_len tup).
  { unfold write_tupitem. erewrite load_uint_ext.
    - apply load_store_uint_small. lia.
    - intros x Hx. rewrite memcpy_outside by lia.
      rewrite store_itemptr_outside by lia. reflexivity. }
  split; [exact E|]. split.
  - cbn [read_tupitem t_self]. unfold write_tupitem.
    erewrite load_itemptr_shift_ext.
    + apply load_store_itemptr. exact Hip.
    + intros d Hd. rewrite memcpy_outside by lia. reflexivity.
  - rewrite tuple_bytes_read, E. unfold tuple_bytes, write_tupitem.
    set (n := Z.to_nat (t_len tup)).
    replace (t_len tup) with (Z.of_nat n) by (unfold n; lia).
    apply load_bytes_memcpy.
Qed.

End Items.

(** ** Appending records to a Row-format chunk *)

Section InsertTuple.

Context {L : KdsLayout}.

(** what a successful [PDS_insert_tuple] has checked and written *)
Lemma insert_tuple_true_inv pds natts tup pds' :
  PDS_insert_tuple pds natts tup = Done (true, pds') ->
  let k := kds pds in
  let usage' := usage k + row_required tup in
  let tup_item := length k - usage' in
  nitems k < nrooms k /\
  format k = KDS_FORMAT_ROW /\
  KDS_CALCULATE_ROW_LENGTH (ncols k) (nitems k + 1) (row_required tup + usage k)
    <= length k /\
  pds' = {| refcnt := refcnt pds;
            kds := {| length := length k;
                      usage := usage';
                      ncols := ncols k;
                      nitems := nitems k + 1;
                      nrooms := nrooms k;
                      format := format k;
                      nslots := nslots k;
                      nrows_per_block := nrows_per_block k;
                      body := row_index_set
                                (write_tupitem (body k) tup_item tup)
                                (KERN_DATA_STORE_ROWINDEX k) (nitems k)
                                tup_item |} |}.
Proof.
  unfold PDS_insert_tuple, row_required.
  destruct (Z.leb_spec (nrooms (kds pds)) (nitems (kds pds))) as [Hr|Hr];
    [discriminate|].
  destruct (Assert_cases (ncols (kds pds) =? natts)) as [HA | (HA & _)];
    rewrite HA; cbn [bind]; [|discriminate].
  destruct (format (kds pds)) eqn:Hf; cbn [format_eqb negb]; try discriminate.
  match goal with
  | |- context [if ?c then _ else _] => destruct c eqn:Hc
  end; [discriminate|].
  apply Z.ltb_ge in Hc. intros Heq. injection Heq as <-.
  cbv zeta. auto.
Qed.

(** a successful insertion appends the record and keeps the others *)
Lemma insert_tuple_step pds natts tup pds' tuples :
  0 <= ncols (kds pds) ->
  0 <= usage (kds pds) ->
  length (kds pds) < 2 ^ 32 ->
  tuple_fits tup ->
  holds_rows (kds pds) tuples ->
  PDS_insert_tuple pds natts tup = Done (true, pds') ->
  holds_rows (kds pds') (tuples ++ [tup]) /\
  ncols (kds pds') = ncols (kds pds) /\
  length (kds pds') = length (kds pds) /\
  usage (kds pds') = usage (kds pds) + row_required tup /\
  0 <= usage (kds pds') /\
  format (kds pds') = KDS_FORMAT_ROW.
Proof.
  intros Hnc Hu Hlen Hfit (Hn & Hitems) Hins.
  apply insert_tuple_true_inv in Hins. cbv zeta in Hins.
  destruct Hins as (Hroom & Hfmt & Hchk & ->).
  set (k := kds pds) in *.
  pose proof (HEAD_LENGTH_nonneg (ncols k) Hnc) as Hhead.
  destruct Hfit as ((Hl0 & Hl1) & Hip).
  assert (Hreq : offsetof_htup + t_len tup <= row_required tup)
    by apply LONGALIGN_bounds.
  destruct tupitem_layout as (Hs & Hts & Hh).
  assert (Hn0 : 0 <= nitems k) by lia.
  unfold KDS_CALCULATE_ROW_LENGTH, KDS_CALCULATE_ROW_FRONTLEN in Hchk.
  pose proof (STROMALIGN_bounds (4 * (nitems k + 1))) as Hb1.
  pose proof (STROMALIGN_bounds (row_required tup + usage k)) as Hb2.
  set (head := KDS_CALCULATE_HEAD_LENGTH (ncols k)) in *.
  set (off' := length k - (usage k + row_required tup)).
  assert (Hoff : head + 4 * nitems k + 4 <= off') by (unfold off'; lia).
  cbn [kds length usage ncols nitems body format].
  split; [|repeat split; solve [lia | assumption]].
  split.
  - cbn [nitems]. rewrite length_app; cbn [List.length]. lia.
  - intros i tup_i Hnth. cbv zeta.
    unfold KERN_DATA_STORE_TUPITEM, KERN_DATA_STORE_ROWINDEX,
      KERN_DATA_STORE_BODY, KERN_DATA_STORE_HEAD_LENGTH.
    cbn [body ncols length usage]. fold head.
    destruct (Nat.lt_ge_cases i (List.length tuples)) as [Hi | Hi].
    + (* a record that was there before *)
      rewrite nth_error_app1 in Hnth by assumption.
      specialize (Hitems i tup_i Hnth). cbv zeta in Hitems.
      unfold KERN_DATA_STORE_TUPITEM, KERN_DATA_STORE_ROWINDEX,
        KERN_DATA_STORE_BODY, KERN_DATA_STORE_HEAD_LENGTH in Hitems.
      fold k head in Hitems.
      destruct Hitems as (Hti & Hlo & Hhi & Hsame).
      assert (Eidx : row_index_get
                       (row_index_set (write_tupitem (body k) off' tup)
                          head (nitems k) off') head (Z.of_nat i)
                     = row_index_get (body k) head (Z.of_nat i)).
      { apply row_index_get_ext. intros x Hx.
        rewrite row_index_set_outside by lia.
        apply write_tupitem_outside; lia. }
      rewrite Eidx. set (off := row_index_get (body k) head (Z.of_nat i)) in *.
      split; [assumption|]. split; [lia|]. split; [lia|].
      apply same_tuple_trans with (read_tupitem (body k) off); [|assumption].
      apply read_tupitem_ext with (len := t_len tup_i).
      * assumption.
      * apply Hsame.
      * intros x Hx. rewrite row_index_set_outside by lia.
        apply write_tupitem_outside; lia.
    + (* the record just inserted *)
      rewrite nth_error_app2 in Hnth by assumption.
      assert (Ei : i = List.length tuples).
      { destruct (i - List.length tuples)%nat eqn:E; [lia|].
        cbn in Hnth. destruct n; discriminate. }
      subst i. rewrite Nat.sub_diag in Hnth. cbn in Hnth.
      injection Hnth as <-. rewrite <- Hn.
      rewrite row_index_get_set_same by (unfold off'; lia).
      split; [assumption|]. split; [unfold off'; lia|].
      split; [unfold off'; lia|].
      apply same_tuple_trans
        with (read_tupitem (write_tupitem (body k) off' tup) off').
      * apply read_tupitem_ext with (len := t_len tup).
        -- assumption.
        -- apply (read_write_tupitem (body k) off' tup).
           split; [split|]; assumption.
        -- intros x Hx. apply row_index_set_outside. lia.
      * apply read_write_tupitem. split; [split|]; assumption.
Qed.

Lemma insert_tuples_holds natts tuples :
  forall pds prev pds',
    0 <= ncols (kds pds) ->
    0 <= usage (kds pds) ->
    length (kds pds) < 2 ^ 32 ->
    Forall tuple_fits tuples ->
    holds_rows (kds pds) prev ->
    insert_tuples pds natts tuples = Some pds' ->
    holds_rows (kds pds') (prev ++ tuples) /\
    (tuples <> [] -> format (kds pds') = KDS_FORMAT_ROW).
Proof.
  induction tuples as [|tup rest IH]; intros pds prev pds' Hnc Hu Hlen Hfit Hrows Hrun.
  - cbn in Hrun. injection Hrun as <-. rewrite app_nil_r.
    split; [assumption | congruence].
  - cbn [insert_tuples] in Hrun.
    destruct (PDS_insert_tuple pds natts tup) as [[[|] pds1]| |] eqn:Hins;
      try discriminate.
    inversion Hfit as [|? ? Hfit1 Hfit2]; subst.
    destruct (insert_tuple_step pds natts tup pds1 prev)
      as (Hrows1 & Hnc1 & Hlen1 & Hu1 & Hu1' & Hf1); try assumption.
    destruct (IH pds1 (prev ++ [tup]) pds') as (Hrows' & Hf'); try assumption.
    + lia.
    + lia.
    + rewrite <- app_assoc in Hrows'. cbn [app] in Hrows'.
      split; [assumption|]. intros _.
      destruct rest as [|t2 rest2].
      * cbn in Hrun. injection Hrun as <-. assumption.
      * apply Hf'. discriminate.
Qed.

(** C1 (amended).  Take a chunk with no record yet (as [PDS_create_row]
    makes it) and whose length is a 32-bit quantity, and tuples whose length
    fits the length field of an item (16 bits in [kern_tupitem]) and whose
    identifier is made of 16-bit words.  If every call of a run of
    [PDS_insert_tuple] over these tuples returns true, then the record count
    of the chunk is the number N of tuples, and for every i < N the fetch of
    index i returns true with a tuple of the length, the identifier and the
    bytes of the i-th inserted tuple. *)
Theorem insert_fetch_round_trip :
  forall (pds pds' : pgstrom_data_store) (natts : Z)
         (tuples : list HeapTupleData),
    nitems (kds pds) = 0 ->
    0 <= usage (kds pds) ->
    0 <= ncols (kds pds) ->
    length (kds pds) < 2 ^ 32 ->
    Forall tuple_fits tuples ->
    insert_tuples pds natts tuples = Some pds' ->
    nitems (kds pds') = Z.of_nat (List.length tuples) /\
    forall (i : nat) (tup : HeapTupleData) (slot : TupleTableSlot)
           (tuple0 : HeapTupleData),
      nth_error tuples i = Some tup ->
      exists view,
        pgstrom_fetch_data_store slot pds' (Z.of_nat i) tuple0 =
        Done (true,
              {| tts_natts := tts_natts slot; tts_content := TTS_TUPLE view |},
              view) /\
        same_tuple view tup.
Proof.
  intros pds pds' natts tuples Hn0 Hu Hnc Hlen Hfit Hrun.
  destruct (insert_tuples_holds natts tuples pds [] pds')
    as ((Hn & Hitems) & Hfmt); try assumption.
  { split; [cbn; assumption|]. intros i tup Hnth. destruct i; discriminate. }
  cbn [app] in Hn, Hitems. split; [assumption|].
  intros i tup slot tuple0 Hnth.
  assert (Hi : (i < List.length tuples)%nat)
    by (apply nth_error_Some; congruence).
  eexists. split.
  - unfold pgstrom_fetch_data_store. apply fetch_row; [lia|].
    apply Hfmt. intros ->. destruct i; discriminate.
  - apply (Hitems i tup Hnth).
Qed.

End InsertTuple.

Lemma sample_tuples_fit (assert_checking : bool) :
  Forall (tuple_fits (L := sample_layout assert_checking))
         [sample_tuple 64 1; sample_tuple 64 2; sample_tuple 64 3].
Proof.
  repeat constructor; cbn; lia.
Qed.

Lemma insert_fetch_round_trip_witness :
  let L := sample_layout true in
  nitems (kds (sample_row_chunk true)) = 3 /\
  exists view,
    pgstrom_fetch_data_store empty_slot (sample_row_chunk true) 2
      (sample_tuple 0 0) =
    Done (true, {| tts_natts := 2; tts_content := TTS_TUPLE view |}, view) /\
    same_tuple view (sample_tuple 64 3).
Proof.
  intros L.
  destruct (insert_fetch_round_trip (L := L)
              (PDS_create_row zero_memory sample_tupdesc 360)
              (sample_row_chunk true) 2
              [sample_tuple 64 1; sample_tuple 64 2; sample_tuple 64 3])
    as (Hn & Hfetch).
  - reflexivity.
  - vm_compute; discriminate.
  - vm_compute; discriminate.
  - vm_compute; reflexivity.
  - apply sample_tuples_fit.
  - vm_compute; reflexivity.
  - split; [exact Hn|].
    apply (Hfetch 2%nat (sample_tuple 64 3) empty_slot (sample_tuple 0 0)).
    reflexivity.
Defined.

(** C1, as stated, fails: a tuple of 70000 bytes is accepted by a chunk of
    200000 bytes, and the fetch of its index hands out a tuple of 4464
    bytes, the length modulo 2^16 that the item keeps. *)
Lemma long_tuple_comes_back_shorter :
  let L := sample_layout true in
  let tup := sample_tuple 70000 1 in
  exists pds' view,
    insert_tuples (PDS_create_row zero_memory sample_tupdesc 200000) 2 [tup]
    = Some pds' /\
    nitems (kds pds') = 1 /\
    pgstrom_fetch_data_store empty_slot pds' 0 (sample_tuple 0 0) =
    Done (true, {| tts_natts := 2; tts_content := TTS_TUPLE view |}, view) /\
    t_len tup = 70000 /\
    t_len view = 4464 /\
    ~ same_tuple view tup.
Proof.
  intros L tup. eexists _, _.
  split; [reflexivity|]. split; [reflexivity|]. split; [reflexivity|].
  split; [reflexivity|].
  assert (E : forall v : HeapTupleData, t_len v = 4464 -> ~ same_tuple v tup).
  { intros v Hv (Hl & _). rewrite Hv in Hl. discriminate Hl. }
  match goal with
  | |- t_len ?v = _ /\ _ =>
      assert (Hv : t_len v = 4464) by (vm_compute; reflexivity)
  end.
  split; [exact Hv | apply E; exact Hv].
Qed.

(** ** The capacity check of an insertion *)

Section Capacity.

Context {L : KdsLayout}.

Lemma insert_tuple_result pds natts tup :
  format (kds pds) = KDS_FORMAT_ROW ->
  ncols (kds pds) = natts ->
  exists pds',
    PDS_insert_tuple pds natts tup =
    Done (negb ((nrooms (kds pds) <=? nitems (kds pds)) ||
                (length (kds pds) <?
                 KDS_CALCULATE_ROW_LENGTH (ncols (kds pds))
                   (nitems (kds pds) + 1)
                   (row_required tup + usage (kds pds)))),
          pds') /\
    ncols (kds pds') = ncols (kds pds) /\
    nrooms (kds pds') = nrooms (kds pds) /\
    length (kds pds') = length (kds pds) /\
    format (kds pds') = format (kds pds) /\
    ((nrooms (kds pds) <=? nitems (kds pds)) ||
     (length (kds pds) <?
      KDS_CALCULATE_ROW_LENGTH (ncols (kds pds)) (nitems (kds pds) + 1)
        (row_required tup + usage (kds pds))) = true -> pds' = pds) /\
    ((nrooms (kds pds) <=? nitems (kds pds)) ||
     (length (kds pds) <?
      KDS_CALCULATE_ROW_LENGTH (ncols (kds pds)) (nitems (kds pds) + 1)
        (row_required tup + usage (kds pds))) = false ->
     nitems (kds pds') = nitems (kds pds) + 1 /\
     usage (kds pds') = usage (kds pds) + row_required tup).
Proof.
  intros Hf Hc. unfold PDS_insert_tuple, row_required.
  destruct (nrooms (kds pds) <=? nitems (kds pds)); cbn [orb negb].
  { exists pds. repeat split; auto; discriminate. }
  replace (ncols (kds pds) =? natts) with true by (symmetry; now apply Z.eqb_eq).
  rewrite Assert_true; cbn [bind]. rewrite Hf; cbn [format_eqb negb].
  destruct (length (kds pds) <? _); cbn [negb].
  { exists pds. repeat split; auto; discriminate. }
  eexists. split; [reflexivity|]. cbn [kds ncols nrooms length format nitems usage].
  repeat split; auto; try discriminate.
Qed.

Lemma insert_hashitem_result pds natts tup hash_value :
  format (kds pds) = KDS_FORMAT_HASH ->
  ncols (kds pds) = natts ->
  usage (kds pds) = MAXALIGN (usage (kds pds)) ->
  exists pds',
    PDS_insert_hashitem pds natts tup hash_value =
    Done (negb ((nrooms (kds pds) <=? nitems (kds pds)) ||
                (length (kds pds) <?
                 KDS_CALCULATE_HASH_LENGTH (ncols (kds pds))
                   (nitems (kds pds) + 1)
                   (hash_required tup + usage (kds pds)))),
          pds').
Proof.
  intros Hf Hc Hu. unfold PDS_insert_hashitem, hash_required.
  destruct (nrooms (kds pds) <=? nitems (kds pds)); cbn [orb negb].
  { now exists pds. }
  replace (ncols (kds pds) =? natts) with true by (symmetry; now apply Z.eqb_eq).
  rewrite Assert_true; cbn [bind]. rewrite Hf; cbn [format_eqb negb].
  replace (usage (kds pds) =? MAXALIGN (usage (kds pds))) with true
    by (symmetry; now apply Z.eqb_eq).
  rewrite Assert_true; cbn [bind].
  destruct (length (kds pds) <? _); cbn [negb].
  { now exists pds. }
  eexists. reflexivity.
Qed.

(** C2.  Take a chunk as the creation routines make it: the capacity
    [nrooms] is [INT_MAX], the length is a 32-bit quantity, the column count
    and the usage are not negative.  On such a Row-format chunk
    [PDS_insert_tuple], and on such a Hash-format chunk
    [PDS_insert_hashitem], given a slot of the chunk's column count (and,
    for Hash, an aligned usage), returns without error, and returns false
    exactly when the length needed for one more record and
    [required = align(header size + record length)] more bytes exceeds the
    length of the chunk.  In particular a chunk made by [PDS_create_row]
    whose length holds three records of 64 bytes but not four accepts three
    such records and answers the fourth with false, the chunk staying as it
    was. *)
Theorem append_rejects_when_full :
  (forall (pds : pgstrom_data_store) (natts : Z) (tup : HeapTupleData),
      format (kds pds) = KDS_FORMAT_ROW ->
      ncols (kds pds) = natts ->
      nrooms (kds pds) = INT_MAX ->
      0 <= ncols (kds pds) -> 0 <= usage (kds pds) ->
      length (kds pds) < 2 ^ 32 ->
      0 <= t_len tup ->
      exists b pds',
        PDS_insert_tuple pds natts tup = Done (b, pds') /\
        (b = false <->
         length (kds pds) <
         KDS_CALCULATE_ROW_LENGTH (ncols (kds pds)) (nitems (kds pds) + 1)
           (usage (kds pds) + LONGALIGN (offsetof_htup + t_len tup))) /\
        (b = false -> pds' = pds)) /\
  (forall (pds : pgstrom_data_store) (natts : Z) (tup : HeapTupleData)
          (hash_value : Z),
      format (kds pds) = KDS_FORMAT_HASH ->
      ncols (kds pds) = natts ->
      usage (kds pds) = MAXALIGN (usage (kds pds)) ->
      nrooms (kds pds) = INT_MAX ->
      0 <= ncols (kds pds) -> 0 <= usage (kds pds) ->
      length (kds pds) < 2 ^ 32 ->
      0 <= t_len tup ->
      exists b pds',
        PDS_insert_hashitem pds natts tup hash_value = Done (b, pds') /\
        (b = false <->
         length (kds pds) <
         KDS_CALCULATE_HASH_LENGTH (ncols (kds pds)) (nitems (kds pds) + 1)
           (usage (kds pds) +
            MAXALIGN (offsetof_t + offsetof_htup + t_len tup)))) /\
  (forall (fresh : memory) (tupdesc : TupleDesc) (len : Z)
          (t1 t2 t3 t4 : HeapTupleData),
      let required := LONGALIGN (offsetof_htup + 64) in
      0 <= natts tupdesc ->
      t_len t1 = 64 -> t_len t2 = 64 -> t_len t3 = 64 -> t_len t4 = 64 ->
      KDS_CALCULATE_ROW_LENGTH (natts tupdesc) 3 (3 * required)
        <= STROMALIGN_DOWN len
        < KDS_CALCULATE_ROW_LENGTH (natts tupdesc) 4 (4 * required) ->
      exists pds3,
        insert_tuples (PDS_create_row fresh tupdesc len) (natts tupdesc)
          [t1; t2; t3] = Some pds3 /\
        nitems (kds pds3) = 3 /\
        PDS_insert_tuple pds3 (natts tupdesc) t4 = Done (false, pds3)).
Proof.
  split; [|split].
  - intros pds natts tup Hf Hc Hr Hnc Hu H32 Ht.
    destruct (insert_tuple_result pds natts tup Hf Hc)
      as (pds' & H & _ & _ & _ & _ & Hsame & _).
    eexists _, pds'. split; [exact H|].
    unfold row_required in *. rewrite (Z.add_comm (usage (kds pds))).
    rewrite negb_false_iff. split; [|exact Hsame].
    rewrite orb_true_iff, Z.leb_le, Z.ltb_lt.
    split; [|intros Hfull; right; exact Hfull].
    intros [Hcap | Hfull]; [|exact Hfull].
    (* a record count at the capacity does not fit a 32-bit length *)
    rewrite Hr in Hcap. unfold INT_MAX in Hcap.
    unfold KDS_CALCULATE_ROW_LENGTH, KDS_CALCULATE_ROW_FRONTLEN.
    pose proof (HEAD_LENGTH_nonneg (ncols (kds pds)) Hnc).
    pose proof (STROMALIGN_bounds (4 * (nitems (kds pds) + 1))).
    pose proof (STROMALIGN_bounds
                  (LONGALIGN (offsetof_htup + t_len tup) + usage (kds pds))).
    pose proof (LONGALIGN_bounds (offsetof_htup + t_len tup)).
    destruct tupitem_layout as (_ & ? & ?).
    change (2 ^ 32) with 4294967296 in H32. lia.
  - intros pds natts tup hv Hf Hc Hal Hr Hnc Hu H32 Ht.
    destruct (insert_hashitem_result pds natts tup hv Hf Hc Hal) as (pds' & H).
    eexists _, pds'. split; [exact H|].
    unfold hash_required. rewrite (Z.add_comm (usage (kds pds))).
    rewrite negb_false_iff, orb_true_iff, Z.leb_le, Z.ltb_lt.
    split; [|intros Hfull; right; exact Hfull].
    intros [Hcap | Hfull]; [|exact Hfull].
    rewrite Hr in Hcap. unfold INT_MAX in Hcap.
    unfold KDS_CALCULATE_HASH_LENGTH, KDS_CALCULATE_HASH_FRONTLEN.
    pose proof (HEAD_LENGTH_nonneg (ncols (kds pds)) Hnc).
    pose proof (STROMALIGN_bounds (4 * (nitems (kds pds) + 1))).
    assert (Hn1 : 0 <= nitems (kds pds) + 1) by lia.
    pose proof (KDS_NSLOTS_ge (nitems (kds pds) + 1) Hn1).
    pose proof (STROMALIGN_bounds (4 * __KDS_NSLOTS (nitems (kds pds) + 1))).
    pose proof (STROMALIGN_bounds
                  (MAXALIGN (offsetof_t + offsetof_htup + t_len tup)
                   + usage (kds pds))).
    pose proof (MAXALIGN_bounds (offsetof_t + offsetof_htup + t_len tup)).
    destruct tupitem_layout as (_ & ? & ?).
    destruct hashitem_layout as (? & ? & ? & ?).
    change (2 ^ 32) with 4294967296 in H32. lia.
  - intros fresh tupdesc len t1 t2 t3 t4 required Hn H1 H2 H3 H4 (Hlo & Hhi).
    set (p0 := PDS_create_row fresh tupdesc len).
    set (nc := natts tupdesc) in *.
    assert (Hreq : 0 <= required).
    { pose proof (LONGALIGN_bounds (offsetof_htup + 64)).
      destruct tupitem_layout as (_ & ? & ?). unfold required. lia. }
    assert (Hrr : forall t, t_len t = 64 -> row_required t = required)
      by (intros t Ht; unfold row_required; now rewrite Ht).
    (* one accepted insertion, the chunk holding [n] records before it *)
    assert (Hstep : forall pds t n,
               format (kds pds) = KDS_FORMAT_ROW -> ncols (kds pds) = nc ->
               nrooms (kds pds) = INT_MAX ->
               length (kds pds) = STROMALIGN_DOWN len ->
               nitems (kds pds) = n -> usage (kds pds) = n * required ->
               0 <= n < 3 -> t_len t = 64 ->
               exists pds',
                 PDS_insert_tuple pds nc t = Done (true, pds') /\
                 format (kds pds') = KDS_FORMAT_ROW /\ ncols (kds pds') = nc /\
                 nrooms (kds pds') = INT_MAX /\
                 length (kds pds') = STROMALIGN_DOWN len /\
                 nitems (kds pds') = n + 1 /\
                 usage (kds pds') = (n + 1) * required).
    { intros pds t n Hf Hc Hr Hl Hni Hus Hn3 Ht.
      destruct (insert_tuple_result pds nc t Hf Hc)
        as (pds' & Hres & Hc' & Hr' & Hl' & Hf' & _ & Hok).
      rewrite Hrr, Hr, Hl, Hni, Hus, Hc in * by assumption.
      assert (Hfit : (INT_MAX <=? n) ||
                     (STROMALIGN_DOWN len <?
                      KDS_CALCULATE_ROW_LENGTH nc (n + 1) (required + n * required))
                     = false).
      { apply orb_false_iff. split; [apply Z.leb_gt; unfold INT_MAX; lia|].
        apply Z.ltb_ge.
        unfold KDS_CALCULATE_ROW_LENGTH, KDS_CALCULATE_ROW_FRONTLEN in *.
        pose proof (STROMALIGN_mono (4 * (n + 1)) (4 * 3) ltac:(lia)).
        pose proof (STROMALIGN_mono (required + n * required) (3 * required)
                      ltac:(nia)).
        lia. }
      rewrite Hfit in Hres. specialize (Hok Hfit). destruct Hok as (Hn' & Hu').
      exists pds'. split; [exact Hres|].
      repeat split; try congruence. rewrite Hu'. ring. }
    destruct (Hstep p0 t1 0) as (p1 & E1 & F1 & C1 & R1 & L1 & N1 & U1);
      try reflexivity; try assumption; try lia.
    destruct (Hstep p1 t2 1) as (p2 & E2 & F2 & C2 & R2 & L2 & N2 & U2);
      try assumption; try lia.
    destruct (Hstep p2 t3 2) as (p3 & E3 & F3 & C3 & R3 & L3 & N3 & U3);
      try assumption; try lia.
    exists p3. split; [|split].
    + cbn [insert_tuples]. fold p0 nc. rewrite E1, E2, E3. reflexivity.
    + exact N3.
    + destruct (insert_tuple_result p3 nc t4 F3 C3)
        as (pds' & Hres & _ & _ & _ & _ & Hsame & _).
      rewrite Hrr, R3, L3, N3, U3, C3 in * by assumption.
      assert (Hfull : (INT_MAX <=? 2 + 1) ||
                      (STROMALIGN_DOWN len <?
                       KDS_CALCULATE_ROW_LENGTH nc (2 + 1 + 1)
                         (required + (2 + 1) * required)) = true).
      { apply orb_true_iff. right. apply Z.ltb_lt.
        replace (2 + 1 + 1) with 4 by lia.
        replace (required + (2 + 1) * required) with (4 * required) by ring.
        exact Hhi. }
      rewrite Hfull in Hres. rewrite (Hsame Hfull) in Hres. exact Hres.
Qed.

End Capacity.

Lemma append_rejects_when_full_witness :
  let L := sample_layout true in
  (exists b pds',
      PDS_insert_tuple (sample_row_chunk true) 2 (sample_tuple 64 4)
        = Done (b, pds') /\ b = false /\ pds' = sample_row_chunk true) /\
  (exists b pds',
      PDS_insert_hashitem (sample_short_hash_chunk true) 2 (sample_tuple 64 4) 9
        = Done (b, pds') /\ b = false) /\
  (exists pds3,
      insert_tuples (PDS_create_row zero_memory sample_tupdesc 360) 2
        [sample_tuple 64 1; sample_tuple 64 2; sample_tuple 64 3] = Some pds3 /\
      nitems (kds pds3) = 3 /\
      PDS_insert_tuple pds3 2 (sample_tuple 64 4) = Done (false, pds3)).
Proof.
  intros L.
  destruct (append_rejects_when_full (L := L)) as (Hrow & Hhash & Hthree).
  split; [|split].
  - destruct (Hrow (sample_row_chunk true) 2 (sample_tuple 64 4))
      as (b & pds' & Hres & Hiff & Hsame);
      [reflexivity | reflexivity | reflexivity | vm_compute; discriminate
       | vm_compute; discriminate | vm_compute; reflexivity
       | vm_compute; discriminate |].
    assert (Hb : b = false) by (apply Hiff; vm_compute; reflexivity).
    exists b, pds'. split; [exact Hres|]. split; [exact Hb | exact (Hsame Hb)].
  - destruct (Hhash (sample_short_hash_chunk true) 2 (sample_tuple 64 4) 9)
      as (b & pds' & Hres & Hiff);
      [reflexivity | reflexivity | reflexivity | reflexivity
       | vm_compute; discriminate | vm_compute; discriminate
       | vm_compute; reflexivity | vm_compute; discriminate |].
    exists b, pds'. split; [exact Hres|].
    apply Hiff. vm_compute. reflexivity.
  - apply (Hthree zero_memory sample_tupdesc 360);
      try reflexivity; vm_compute; try discriminate.
    split; [discriminate | reflexivity].
Defined.

(** ** Chunks in a consistent state *)

Section ChunkFacts.

Context {L : KdsLayout}.

Lemma index_range_length n : List.length (index_range n) = Z.to_nat n.
Proof. unfold index_range. now rewrite length_map, length_seq. Qed.

Lemma index_range_succ n :
  0 <= n -> index_range (n + 1) = index_range n ++ [n].
Proof.
  intros Hn. unfold index_range.
  replace (Z.to_nat (n + 1)) with (S (Z.to_nat n)) by lia.
  rewrite seq_S, map_app. cbn [map Nat.add]. now rewrite Z2Nat.id.
Qed.

(** induction over the length of an index range *)
Lemma index_range_ind (P : Z -> Prop) :
  P 0 -> (forall n, 0 <= n -> P n -> P (n + 1)) -> forall n, 0 <= n -> P n.
Proof.
  intros H0 HS n Hn. apply natlike_ind; auto.
Qed.

Lemma front_length_bounds k :
  0 <= ncols k -> 0 <= nitems k ->
  KERN_DATA_STORE_ROWINDEX k + 4 * nitems k <= kds_front_length k /\
  0 <= KERN_DATA_STORE_ROWINDEX k.
Proof.
  intros Hc Hn.
  unfold kds_front_length, KERN_DATA_STORE_ROWINDEX, KERN_DATA_STORE_BODY,
    KERN_DATA_STORE_HEAD_LENGTH, KDS_CALCULATE_HASH_FRONTLEN,
    KDS_CALCULATE_ROW_FRONTLEN.
  pose proof (HEAD_LENGTH_nonneg (ncols k) Hc).
  pose proof (STROMALIGN_bounds (4 * nitems k)).
  pose proof (STROMALIGN_bounds (4 * __KDS_NSLOTS (nitems k))).
  pose proof (KDS_NSLOTS_ge (nitems k) Hn).
  destruct (format_eqb _ _); lia.
Qed.

Lemma min_length_front k :
  kds_min_length k = kds_front_length k + STROMALIGN (usage k).
Proof.
  unfold kds_min_length, kds_front_length, KDS_CALCULATE_HASH_LENGTH,
    KDS_CALCULATE_ROW_LENGTH.
  now destruct (format_eqb _ _).
Qed.

(** in a consistent chunk the front part ends where the payload starts, at
    the latest *)
Lemma chunk_wf_regions k :
  chunk_wf k ->
  0 <= KERN_DATA_STORE_ROWINDEX k /\
  KERN_DATA_STORE_ROWINDEX k + 4 * nitems k <= kds_front_length k /\
  kds_front_length k <= length k - usage k /\
  usage k <= length k.
Proof.
  intros (Hf & Hc & Hn & Hu & Hmin & Hlen & Hitems).
  destruct (front_length_bounds k Hc Hn) as (H1 & H2).
  rewrite min_length_front in Hmin.
  pose proof (STROMALIGN_bounds (usage k)). lia.
Qed.

Lemma chunk_wf_item k i :
  chunk_wf k -> 0 <= i < nitems k ->
  0 <= t_len (stored_tuple k i) /\
  length k - usage k <= item_start k i /\
  item_start k i <= KERN_DATA_STORE_TUPITEM k i /\
  KERN_DATA_STORE_TUPITEM k i + offsetof_htup + t_len (stored_tuple k i)
    <= length k.
Proof.
  intros (Hf & Hc & Hn & Hu & Hmin & Hlen & Hitems) Hi.
  destruct (Hitems i Hi) as (H1 & H2 & H3).
  repeat split; try assumption.
  unfold item_start. destruct hashitem_layout as (? & ? & ? & ?).
  destruct (format_eqb _ _); lia.
Qed.

End ChunkFacts.

Lemma row_index_get_set_mod m ri i v :
  row_index_get (row_index_set m ri i v) ri i = v mod 2 ^ 32.
Proof. unfold row_index_get, row_index_set. apply load_store_uint. Qed.

Section ExpandRow.

Context {L : KdsLayout}.

(** the loop that rewrites the index array of the new buffer *)
Lemma expand_index_fold (old : memory) (head shift : Z) :
  forall n, 0 <= n ->
    forall m1,
      let m2 := fold_left
                  (fun m i => row_index_set m head i
                                (row_index_get old head i + shift))
                  (index_range n) m1 in
      (forall x, x < head \/ head + 4 * n <= x -> m2 x = m1 x) /\
      (forall i, 0 <= i < n ->
                 row_index_get m2 head i
                 = (row_index_get old head i + shift) mod 2 ^ 32).
Proof.
  apply (index_range_ind
           (fun n => forall m1,
                let m2 := fold_left
                            (fun m i => row_index_set m head i
                                          (row_index_get old head i + shift))
                            (index_range n) m1 in
                (forall x, x < head \/ head + 4 * n <= x -> m2 x = m1 x) /\
                (forall i, 0 <= i < n ->
                           row_index_get m2 head i
                           = (row_index_get old head i + shift) mod 2 ^ 32))).
  - intros m1. cbn. split; [reflexivity | intros; lia].
  - intros n Hn IH m1. rewrite index_range_succ by assumption.
    rewrite fold_left_app. cbn [fold_left].
    destruct (IH m1) as (Hout & Hin). cbv zeta. split.
    + intros x Hx. rewrite row_index_set_outside by lia. apply Hout. lia.
    + intros i Hi. destruct (Z.eq_dec i n) as [-> | Hne].
      * apply row_index_get_set_mod.
      * rewrite <- Hin by lia. apply row_index_get_ext.
        intros x Hx. apply row_index_set_outside. lia.
Qed.

(** C4 (amended).  For every Row- or Hash-format chunk in a consistent
    state, with no hash table built: when the new length, rounded down to
    the alignment, does not exceed the current length, the expansion hands
    back the chunk it was given and allocates nothing; when the rounded
    value exceeds the current length (and is a 32-bit quantity), the
    expansion returns a new buffer of the rounded length.  The header fields other than the length and the bytes of the
    header are those of the old buffer; with [shift] the rounded-down
    difference of the two lengths, every byte of the used payload is found
    [shift] bytes further, every index entry is the old one plus [shift],
    and every record reads as before under its index.  When the old length
    is aligned, [shift] is exactly the difference of the lengths and the new
    chunk is again consistent. *)
Theorem expand_row_hash_chunk :
  forall (fresh : memory) (pds : pgstrom_data_store) (new_length : Z),
    let k := kds pds in
    let shift := STROMALIGN_DOWN (STROMALIGN_DOWN new_length - length k) in
    chunk_wf k ->
    nslots k = 0 ->
    (STROMALIGN_DOWN new_length <= length k ->
     PDS_expand_size fresh pds new_length = Done (SamePds pds)) /\
    (length k < STROMALIGN_DOWN new_length < 2 ^ 32 ->
    exists pds',
      PDS_expand_size fresh pds new_length = Done (NewPds pds') /\
      let k' := kds pds' in
      length k' = STROMALIGN_DOWN new_length /\
      refcnt pds' = refcnt pds /\ usage k' = usage k /\ ncols k' = ncols k /\
      nitems k' = nitems k /\ nrooms k' = nrooms k /\ format k' = format k /\
      nslots k' = nslots k /\
      (forall x, 0 <= x < KERN_DATA_STORE_HEAD_LENGTH k -> body k' x = body k x) /\
      (forall x, length k - usage k <= x < length k ->
                 body k' (x + shift) = body k x) /\
      (forall i, 0 <= i < nitems k ->
                 KERN_DATA_STORE_TUPITEM k' i
                 = KERN_DATA_STORE_TUPITEM k i + shift /\
                 same_tuple (stored_tuple k' i) (stored_tuple k i)) /\
      (STROMALIGN_DOWN (length k) = length k ->
       shift = STROMALIGN_DOWN new_length - length k /\ chunk_wf k')).
Proof.
  intros fresh pds new_length k shift Hwf Hns. split.
  { intros Hle. unfold PDS_expand_size. fold k.
    replace (format_eqb (format k) KDS_FORMAT_ROW ||
             format_eqb (format k) KDS_FORMAT_HASH) with true
      by (destruct Hwf as ([-> | ->] & _); reflexivity).
    rewrite Hns. cbn [Z.eqb]. rewrite !Assert_true. cbn [bind].
    apply Z.leb_le in Hle. now rewrite Hle. }
  intros (Hgt & H32).
  pose proof (chunk_wf_regions k Hwf) as (Hri0 & Hri & Hfront & Hul).
  pose proof Hwf as (Hf & Hc & Hn & Hu & Hmin & Hlen & Hitems).
  set (new := STROMALIGN_DOWN new_length) in *.
  assert (Hshift : 0 <= shift <= new - length k).
  { unfold shift. pose proof (STROMALIGN_DOWN_bounds (new - length k)).
    pose proof (STROMALIGN_DOWN_mono 0 (new - length k) ltac:(lia)) as Hm.
    unfold STROMALIGN_DOWN in Hm at 1.
    rewrite (TYPEALIGN_DOWN_div _ STROMALIGN_LEN_pow2) in Hm.
    rewrite Z.div_0_l, Z.mul_0_r in Hm by (pose proof STROMALIGN_LEN_pos; lia).
    lia. }
  assert (Hpow : (2 : Z) ^ 32 < 2 ^ 64) by (apply Z.pow_lt_mono_r; lia).
  unfold PDS_expand_size. fold k.
  replace (format_eqb (format k) KDS_FORMAT_ROW ||
           format_eqb (format k) KDS_FORMAT_HASH) with true
    by (destruct Hf as [-> | ->]; reflexivity).
  rewrite Hns. cbn [Z.eqb]. rewrite !Assert_true. cbn [bind]. fold new.
  replace (new <=? length k) with false by (symmetry; apply Z.leb_gt; lia).
  fold (kds_min_length k).
  replace (new <=? kds_min_length k) with false
    by (symmetry; apply Z.leb_gt; lia).
  rewrite (size_t_wrap_small (new - length k)) by lia.
  rewrite (size_t_wrap_small (length k - usage k)) by lia.
  replace (length k - (length k - usage k)) with (usage k) by lia.
  rewrite (size_t_wrap_small (usage k)) by lia. fold shift.
  set (head := KERN_DATA_STORE_HEAD_LENGTH k) in *.
  set (m0 := memcpy fresh 0 (body k) 0 head).
  set (m1 := memcpy m0 (length k - usage k + shift) (body k)
                    (length k - usage k) (usage k)).
  assert (Hidx : KERN_DATA_STORE_ROWINDEX k = head) by reflexivity.
  rewrite Hidx in *.
  destruct (expand_index_fold (body k) head shift (nitems k) Hn m1)
    as (Hout & Hin).
  set (m2 := fold_left _ (index_range (nitems k)) m1) in *.
  assert (Hres : match format k with
                 | KDS_FORMAT_ROW | KDS_FORMAT_HASH =>
                     Done (NewPds (set_length_body pds new m2))
                 | KDS_FORMAT_SLOT =>
                     if 0 <? usage k
                     then Elog "cannot expand KDS_FORMAT_SLOT with extra area"
                     else Done (NewPds (set_length_body pds new
                                  (memcpy m0 (KERN_DATA_STORE_BODY k) (body k)
                                     (KERN_DATA_STORE_BODY k)
                                     (KERN_DATA_STORE_SLOT_LENGTH k (nitems k)))))
                 | KDS_FORMAT_BLOCK => Elog "unexpected KDS format"
                 end = Done (NewPds (set_length_body pds new m2)))
    by (destruct Hf as [-> | ->]; reflexivity).
  exists (set_length_body pds new m2). split; [exact Hres|].
  cbv zeta. unfold set_length_body.
  cbn [kds length refcnt usage ncols nitems nrooms format nslots body].
  fold k.
  (* the payload, shifted *)
  assert (Hpay : forall x, length k - usage k <= x < length k ->
                           m2 (x + shift) = body k x).
  { intros x Hx. rewrite Hout by lia. unfold m1.
    rewrite memcpy_inside by lia. f_equal. lia. }
  (* the index entries *)
  assert (Hent : forall i, 0 <= i < nitems k ->
                   row_index_get m2 head i = row_index_get (body k) head i + shift).
  { intros i Hi. rewrite Hin by assumption.
    destruct (chunk_wf_item k i Hwf Hi) as (Ht0 & Hlo & Hst & Hhi).
    unfold KERN_DATA_STORE_TUPITEM in Hst, Hhi. rewrite Hidx in Hst, Hhi.
    destruct tupitem_layout as (_ & ? & ?).
    apply Z.mod_small. lia. }
  assert (Hrec : forall i, 0 <= i < nitems k ->
                   same_tuple
                     (read_tupitem m2 (row_index_get (body k) head i + shift))
                     (stored_tuple k i)).
  { intros i Hi.
    destruct (chunk_wf_item k i Hwf Hi) as (Ht0 & Hlo & Hst & Hhi).
    unfold KERN_DATA_STORE_TUPITEM in Hst, Hhi. rewrite Hidx in Hst, Hhi.
    unfold stored_tuple, KERN_DATA_STORE_TUPITEM. rewrite Hidx.
    apply read_tupitem_shift with (len := t_len (stored_tuple k i));
      [assumption | reflexivity |].
    intros d Hd.
    replace (row_index_get (body k) head i + shift + d)
      with (row_index_get (body k) head i + d + shift) by lia.
    apply Hpay. lia. }
  repeat match goal with |- _ /\ _ => split end; try reflexivity;
    try assumption.
  - intros x Hx. rewrite Hout by lia. unfold m1.
    rewrite memcpy_outside by lia. unfold m0.
    rewrite memcpy_inside by lia. f_equal. lia.
  - intros i Hi.
    assert (Et : KERN_DATA_STORE_TUPITEM
                   {| length := new; usage := usage k; ncols := ncols k;
                      nitems := nitems k; nrooms := nrooms k;
                      format := format k; nslots := nslots k;
                      nrows_per_block := nrows_per_block k; body := m2 |} i
                 = KERN_DATA_STORE_TUPITEM k i + shift).
    { unfold KERN_DATA_STORE_TUPITEM, KERN_DATA_STORE_ROWINDEX,
        KERN_DATA_STORE_BODY, KERN_DATA_STORE_HEAD_LENGTH.
      cbn [body ncols]. fold k. apply Hent. assumption. }
    split; [exact Et|].
    unfold stored_tuple at 1. rewrite Et. cbn [body].
    apply Hrec. assumption.
  - intros Hal.
    assert (Es : shift = new - length k).
    { unfold shift. fold new. rewrite <- Hal at 1. unfold new, STROMALIGN_DOWN.
      rewrite (TYPEALIGN_DOWN_sub _ STROMALIGN_LEN_pow2).
      fold (STROMALIGN_DOWN (length k)). now rewrite Hal. }
    split; [exact Es|].
    unfold chunk_wf, kds_min_length, items_in_payload, item_start, stored_tuple,
      KERN_DATA_STORE_TUPITEM, KERN_DATA_STORE_ROWINDEX, KERN_DATA_STORE_BODY,
      KERN_DATA_STORE_HEAD_LENGTH.
    cbn [kds length refcnt usage ncols nitems nrooms format nslots body].
    fold k head. fold (kds_min_length k).
    repeat match goal with |- _ /\ _ => split end; try assumption; try lia.
    intros i Hi. specialize (Hrec i Hi). rewrite Hent by assumption.
    destruct Hrec as (Hlen' & _).
    destruct (chunk_wf_item k i Hwf Hi) as (Ht0 & Hlo & Hst & Hhi).
    unfold item_start, KERN_DATA_STORE_TUPITEM in Hlo, Hhi.
    rewrite Hidx in Hlo, Hhi.
    rewrite Hlen'. repeat split; [assumption | lia | lia].
Qed.

End ExpandRow.

Lemma sample_row_chunk_wf (assert_checking : bool) :
  chunk_wf (L := sample_layout assert_checking)
           (kds (sample_row_chunk assert_checking)).
Proof.
  assert (N : nitems (kds (sample_row_chunk assert_checking)) = 3)
    by (destruct assert_checking; vm_compute; reflexivity).
  unfold chunk_wf, items_in_payload. rewrite N.
  split; [left; destruct assert_checking; reflexivity|].
  split; [destruct assert_checking; vm_compute; discriminate|].
  split; [lia|].
  split; [destruct assert_checking; vm_compute; discriminate|].
  split; [destruct assert_checking; vm_compute; discriminate|].
  split; [destruct assert_checking; vm_compute; reflexivity|].
  intros i Hi.
  assert (Hc : i = 0 \/ i = 1 \/ i = 2) by lia.
  destruct Hc as [-> | [-> | ->]]; destruct assert_checking; vm_compute;
    (split; [discriminate|]); (split; discriminate).
Qed.

Lemma expand_row_hash_chunk_witness :
  let L := sample_layout true in
  let k := kds (sample_row_chunk true) in
  PDS_expand_size zero_memory (sample_row_chunk true) 300
    = Done (SamePds (sample_row_chunk true)) /\
  exists pds',
    PDS_expand_size zero_memory (sample_row_chunk true) 1000
      = Done (NewPds pds') /\
    length (kds pds') = 992 /\
    nitems (kds pds') = 3 /\
    KERN_DATA_STORE_TUPITEM (kds pds') 1 = KERN_DATA_STORE_TUPITEM k 1 + 640 /\
    same_tuple (stored_tuple (kds pds') 1) (stored_tuple k 1) /\
    chunk_wf (kds pds').
Proof.
  intros L k.
  destruct (expand_row_hash_chunk (L := L) zero_memory (sample_row_chunk true)
              300 (sample_row_chunk_wf true) eq_refl) as (Hsame & _).
  destruct (expand_row_hash_chunk (L := L) zero_memory (sample_row_chunk true)
              1000 (sample_row_chunk_wf true) eq_refl) as (_ & Hgrow).
  split; [apply Hsame; vm_compute; discriminate|].
  destruct Hgrow
    as (pds' & Hres & Hlen & _ & _ & _ & Hn & _ & _ & _ & _ & _ & Hrec & Hal).
  - vm_compute. split; reflexivity.
  - exists pds'. split; [exact Hres|]. split; [exact Hlen|].
    split; [exact Hn|].
    destruct (Hrec 1) as (Ht & Hs); [vm_compute; split; [discriminate | reflexivity]|].
    split; [exact Ht|]. split; [exact Hs|].
    apply Hal. reflexivity.
Defined.

(** C4, as stated, fails: asked to grow from 352 to 360 bytes, a length that
    rounds down to 352, the expansion hands back the chunk it was given and
    allocates nothing; asked to grow to 1000 bytes, it moves the records by
    640 bytes, not by the 648 bytes that separate the two lengths. *)
Lemma expand_rounds_new_length_down :
  let L := sample_layout true in
  let pds := sample_row_chunk true in
  length (kds pds) = 352 /\
  PDS_expand_size zero_memory pds 360 = Done (SamePds pds) /\
  match PDS_expand_size zero_memory pds 1000 with
  | Done (NewPds pds') =>
      length (kds pds') = 992 /\
      KERN_DATA_STORE_TUPITEM (kds pds') 0
      = KERN_DATA_STORE_TUPITEM (kds pds) 0 + 640
  | _ => False
  end.
Proof. vm_compute. repeat split; reflexivity. Qed.

(** ** Loading a page into a Row-format chunk *)

Section InsertBlock.

Context {L : KdsLayout}.

(** a chunk that differs from [k] by one more record, written at [off'],
    and by nothing under the older index entries and items *)
Lemma holds_rows_append k k' tuples tup off' :
  holds_rows k tuples ->
  ncols k' = ncols k ->
  length k' = length k ->
  nitems k' = nitems k + 1 ->
  usage k <= usage k' ->
  0 <= t_len tup ->
  KERN_DATA_STORE_TUPITEM k' (nitems k) = off' ->
  length k - usage k' <= off' ->
  off' + offsetof_htup + t_len tup <= length k ->
  same_tuple (read_tupitem (body k') off') tup ->
  (forall x, KERN_DATA_STORE_ROWINDEX k <= x <
             KERN_DATA_STORE_ROWINDEX k + 4 * nitems k ->
             body k' x = body k x) ->
  (forall x, length k - usage k <= x < length k -> body k' x = body k x) ->
  holds_rows k' (tuples ++ [tup]).
Proof.
  intros (Hn & Hitems) Hc Hl Hn' Hu Ht Hent Hlo Hhi Hsame Hfi Hfp.
  split.
  - rewrite Hn', Hn, length_app. cbn [List.length]. lia.
  - intros i tup_i Hnth. cbv zeta.
    destruct (Nat.lt_ge_cases i (List.length tuples)) as [Hi | Hi].
    + rewrite nth_error_app1 in Hnth by assumption.
      destruct (Hitems i tup_i Hnth) as (Hti & Hlo_i & Hhi_i & Hs_i).
      assert (Eidx : KERN_DATA_STORE_TUPITEM k' (Z.of_nat i)
                     = KERN_DATA_STORE_TUPITEM k (Z.of_nat i)).
      { unfold KERN_DATA_STORE_TUPITEM, KERN_DATA_STORE_ROWINDEX,
          KERN_DATA_STORE_BODY, KERN_DATA_STORE_HEAD_LENGTH in *.
        rewrite Hc. apply row_index_get_ext. intros x Hx. apply Hfi. lia. }
      rewrite Eidx, Hl.
      set (off := KERN_DATA_STORE_TUPITEM k (Z.of_nat i)) in *.
      split; [assumption|]. split; [lia|]. split; [lia|].
      apply same_tuple_trans with (read_tupitem (body k) off); [|assumption].
      apply read_tupitem_ext with (len := t_len tup_i);
        [assumption | apply Hs_i |].
      intros x Hx. apply Hfp. destruct tupitem_layout as (_ & ? & ?). lia.
    + rewrite nth_error_app2 in Hnth by assumption.
      assert (Ei : i = List.length tuples).
      { destruct (i - List.length tuples)%nat eqn:E; [lia|].
        cbn in Hnth. destruct n; discriminate. }
      subst i. rewrite Nat.sub_diag in Hnth. cbn in Hnth.
      injection Hnth as <-. rewrite <- Hn, Hent, Hl.
      repeat split; try assumption; apply Hsame.
Qed.

Lemma rows_required_app a b :
  rows_required (a ++ b) = rows_required a + rows_required b.
Proof. induction a; cbn [app rows_required]; lia. Qed.

Lemma row_required_ge tup :
  offsetof_htup + t_len tup <= row_required tup.
Proof. apply LONGALIGN_bounds. Qed.

Lemma rows_required_nonneg tuples :
  Forall tuple_fits tuples -> 0 <= rows_required tuples.
Proof.
  induction 1 as [|t r ((H0 & _) & _) _ IH]; cbn [rows_required]; [lia|].
  pose proof (row_required_ge t). destruct tupitem_layout as (_ & ? & ?). lia.
Qed.

Lemma row_index_set_base m ri a b v :
  row_index_set m (ri + 4 * a) b v = row_index_set m ri (a + b) v.
Proof. unfold row_index_set. f_equal. lia. Qed.

(** the loop over the line pointers, from a state that holds [cur] *)
Lemma insert_block_loop_holds (k : kern_data_store) (blknum : Z) (av : bool) :
  0 <= ncols k -> 0 <= nitems k -> length k < 2 ^ 32 ->
  forall items lineoff st cur,
    let tuples := visible_tuples blknum av lineoff items in
    Forall tuple_fits tuples ->
    0 <= bls_ntup st ->
    usage k <= bls_usage st -> 0 <= usage k ->
    holds_rows (block_state_kds k st) cur ->
    KERN_DATA_STORE_ROWINDEX k +
      4 * (nitems k + bls_ntup st + Z.of_nat (List.length items)) +
      bls_usage st + rows_required tuples <= length k ->
    let st' := insert_block_loop k blknum av lineoff items st in
    bls_ntup st' = bls_ntup st + Z.of_nat (List.length tuples) /\
    bls_usage st' = bls_usage st + rows_required tuples /\
    holds_rows (block_state_kds k st') (cur ++ tuples).
Proof.
  intros Hc Hn H32.
  pose proof (HEAD_LENGTH_nonneg (ncols k) Hc) as Hhead.
  induction items as [|lpp rest IH]; intros lineoff st cur tuples Hfit Hnt Hus Hu0
    Hrows Hspace st'.
  - subst tuples st'. cbn [visible_tuples insert_block_loop List.length
                            rows_required].
    rewrite app_nil_r. split; [lia|]. split; [lia | exact Hrows].
  - subst tuples st'. cbn [visible_tuples insert_block_loop] in *.
    cbn [List.length] in Hspace. rewrite Nat2Z.inj_succ in Hspace.
    unfold item_valid in *. unfold insert_block_step.
    destruct (lp_normal lpp); cbn [negb andb] in *.
    2:{ cbn [app] in *. apply IH; try assumption. lia. }
    assert (Ev : (if av then true else lp_visible lpp)
                 = (if av then true else lp_visible lpp)) by reflexivity.
    destruct (if av then true else lp_visible lpp); cbn [negb] in *.
    2:{ cbn [app] in *. apply IH; try assumption. lia. }
    clear Ev. cbn [app] in Hfit, Hspace |- *.
    set (tup := heap_tuple_of blknum lineoff lpp) in *.
    inversion Hfit as [|? ? Hfit1 Hfit2]; subst.
    pose proof (rows_required_nonneg _ Hfit2) as Hrr.
    cbn [rows_required] in Hspace.
    pose proof (row_required_ge tup) as Hreq.
    destruct Hfit1 as ((Ht0 & Ht1) & Hip).
    destruct tupitem_layout as (Hs & Hts & Hh).
    set (head := KERN_DATA_STORE_ROWINDEX k) in *.
    assert (Hhead' : 0 <= head) by exact Hhead.
    set (n_s := nitems k + bls_ntup st).
    set (u' := bls_usage st + LONGALIGN (offsetof_htup + t_len tup)).
    assert (Eu : u' = bls_usage st + row_required tup) by reflexivity.
    set (off' := length k - u').
    set (m1 := row_index_set (bls_body st) (head + 4 * nitems k)
                             (bls_ntup st) off').
    set (m2 := write_tupitem m1 off' tup).
    set (st1 := {| bls_usage := u'; bls_ntup := bls_ntup st + 1;
                   bls_body := m2 |}).
    assert (Hoff : head + 4 * n_s + 4 <= off') by (unfold off', n_s; lia).
    assert (Hrows1 : holds_rows (block_state_kds k st1) (cur ++ [tup])).
    { apply (holds_rows_append (block_state_kds k st) (block_state_kds k st1)
               cur tup off'); try assumption; try reflexivity;
        unfold st1;
        cbn [block_state_kds ncols length nitems usage body bls_usage
             bls_ntup bls_body]; try lia.
      - unfold KERN_DATA_STORE_TUPITEM, KERN_DATA_STORE_ROWINDEX,
          KERN_DATA_STORE_BODY, KERN_DATA_STORE_HEAD_LENGTH.
        cbn [block_state_kds ncols body bls_body].
        change (KDS_CALCULATE_HEAD_LENGTH (ncols k)) with head. fold n_s.
        rewrite (row_index_get_ext m1 m2 head n_s).
        + unfold m1. rewrite row_index_set_base. fold n_s.
          apply row_index_get_set_same. unfold off'. lia.
        + intros x Hx. unfold m2. apply write_tupitem_outside; lia.
      - apply read_write_tupitem. split; [split|]; assumption.
      - unfold KERN_DATA_STORE_ROWINDEX, KERN_DATA_STORE_BODY,
          KERN_DATA_STORE_HEAD_LENGTH.
        cbn [block_state_kds ncols].
        change (KDS_CALCULATE_HEAD_LENGTH (ncols k)) with head. fold n_s.
        intros x Hx. unfold m2. rewrite write_tupitem_outside by lia.
        unfold m1. rewrite row_index_set_base. fold n_s.
        apply row_index_set_outside. lia.
      - intros x Hx. unfold m2. rewrite write_tupitem_outside by lia.
        unfold m1. rewrite row_index_set_base. fold n_s.
        apply row_index_set_outside. lia. }
    destruct (IH (lineoff + 1) st1 (cur ++ [tup])) as (E1 & E2 & E3);
      try assumption; unfold st1; cbn [bls_usage bls_ntup]; try lia.
    unfold st1 in *. cbn [bls_usage bls_ntup] in E1, E2.
    cbn [List.length rows_required]. rewrite <- app_assoc in E3. cbn [app] in E3.
    split; [lia|]. split; [lia | exact E3].
Qed.

Lemma holds_rows_same_fields k k' tuples :
  length k' = length k -> usage k' = usage k -> ncols k' = ncols k ->
  nitems k' = nitems k -> body k' = body k ->
  holds_rows k tuples -> holds_rows k' tuples.
Proof.
  intros Hl Hu Hc Hn Hb (H1 & H2). split; [congruence|].
  intros i tup Hnth. specialize (H2 i tup Hnth). cbv zeta in *.
  unfold KERN_DATA_STORE_TUPITEM, KERN_DATA_STORE_ROWINDEX,
    KERN_DATA_STORE_BODY, KERN_DATA_STORE_HEAD_LENGTH in *.
  rewrite Hl, Hu, Hc, Hb. exact H2.
Qed.

Lemma visible_tuples_length blknum av items :
  forall lineoff,
    (List.length (visible_tuples blknum av lineoff items)
     <= List.length items)%nat.
Proof.
  induction items as [|lpp rest IH]; intros lineoff; cbn [visible_tuples].
  - cbn. lia.
  - rewrite length_app. specialize (IH (lineoff + 1)).
    destruct (item_valid av lpp); simpl; lia.
Qed.

(** C8.  For every Row-format chunk without hash slots and every page:
    when the worst-case length computed for the page exceeds the length of
    the chunk, [PDS_insert_block] returns -1 and the chunk it leaves is the
    one it was given, record count and usage included.  Otherwise, for a
    chunk that holds the records [prev] and a page whose visible tuples fit
    the fields of an item and need no more than the worst-case estimate, it
    returns the number of visible tuples of the page; the chunk then holds
    [prev] followed by these tuples in page order, each one fetched back
    with its length, identifier and bytes, and the usage has grown by what
    they need. *)
Theorem insert_block_all_or_nothing :
  forall (pds : pgstrom_data_store) (blknum : Z) (snapshot : Snapshot)
         (page : Page) (prev : list HeapTupleData),
    let k := kds pds in
    let tuples := page_tuples blknum snapshot page in
    let lines := PageGetMaxOffsetNumber page in
    format k = KDS_FORMAT_ROW ->
    nslots k = 0 ->
    (length k < block_max_consume k page ->
     PDS_insert_block pds blknum snapshot page = Done (-1, pds)) /\
    (block_max_consume k page <= length k ->
     0 <= ncols k -> 0 <= usage k -> length k < 2 ^ 32 ->
     holds_rows k prev ->
     Forall tuple_fits tuples ->
     rows_required tuples <= offsetof_htup * lines + BLCKSZ ->
     lines <= MaxHeapTuplesPerPage ->
     nitems k + lines <= nrooms k ->
     exists pds',
       PDS_insert_block pds blknum snapshot page
         = Done (Z.of_nat (List.length tuples), pds') /\
       holds_rows (kds pds') (prev ++ tuples) /\
       nitems (kds pds') = nitems k + Z.of_nat (List.length tuples) /\
       usage (kds pds') = usage k + rows_required tuples /\
       length (kds pds') = length k /\
       format (kds pds') = KDS_FORMAT_ROW /\
       forall (j : nat) (tup : HeapTupleData) (slot : TupleTableSlot)
              (tuple0 : HeapTupleData),
         nth_error tuples j = Some tup ->
         exists view,
           pgstrom_fetch_data_store slot pds' (nitems k + Z.of_nat j) tuple0 =
           Done (true,
                 {| tts_natts := tts_natts slot;
                    tts_content := TTS_TUPLE view |},
                 view) /\
           same_tuple view tup).
Proof.
  intros pds blknum snapshot page prev k tuples lines Hf Hns.
  unfold PDS_insert_block. fold k. rewrite Hf, Hns. cbn [format_eqb Z.eqb andb].
  rewrite Assert_true. cbn [bind]. fold (block_max_consume k page).
  split.
  - intros Hfull. apply Z.ltb_lt in Hfull. now rewrite Hfull.
  - intros Hroom Hc Hu H32 Hrows Hfit Hpage Hmax Hcap.
    replace (length k <? block_max_consume k page) with false
      by (symmetry; apply Z.ltb_ge; assumption).
    pose proof Hrows as (Hn & _).
    assert (Hn0 : 0 <= nitems k) by lia.
    assert (Hl0 : 0 <= lines) by (unfold lines, PageGetMaxOffsetNumber; lia).
    set (av := PageIsAllVisible page && negb (takenDuringRecovery snapshot)).
    set (st0 := {| bls_usage := usage k; bls_ntup := 0; bls_body := body k |}).
    assert (Hspace : KERN_DATA_STORE_ROWINDEX k +
                     4 * (nitems k + bls_ntup st0 +
                          Z.of_nat (List.length (page_items page))) +
                     bls_usage st0 + rows_required tuples <= length k).
    { unfold st0; cbn [bls_ntup bls_usage]. fold (PageGetMaxOffsetNumber page).
      fold lines.
      unfold block_max_consume, KDS_CALCULATE_HASH_LENGTH,
        KDS_CALCULATE_HASH_FRONTLEN in Hroom. fold lines in Hroom.
      pose proof (STROMALIGN_bounds (4 * (nitems k + lines))).
      pose proof (STROMALIGN_bounds (4 * __KDS_NSLOTS (nitems k + lines))).
      pose proof (STROMALIGN_bounds (offsetof_htup * lines + BLCKSZ + usage k)).
      pose proof (KDS_NSLOTS_ge (nitems k + lines) ltac:(lia)).
      unfold KERN_DATA_STORE_ROWINDEX, KERN_DATA_STORE_BODY,
        KERN_DATA_STORE_HEAD_LENGTH. lia. }
    destruct (insert_block_loop_holds k blknum av Hc Hn0 H32 (page_items page)
                1 st0 prev) as (E1 & E2 & E3); try assumption.
    + unfold st0; cbn [bls_ntup]. lia.
    + unfold st0; cbn [bls_usage]. lia.
    + apply (holds_rows_same_fields k); try reflexivity; try assumption.
      unfold st0; cbn [block_state_kds nitems bls_ntup]. lia.
    + change (visible_tuples blknum av 1 (page_items page)) with tuples
        in E1, E2, E3.
      set (st := insert_block_loop k blknum av 1 (page_items page) st0) in *.
      unfold st0 in E1, E2; cbn [bls_ntup bls_usage] in E1, E2.
      assert (Hle : Z.of_nat (List.length tuples) <= lines).
      { pose proof (visible_tuples_length blknum av (page_items page) 1) as Hv.
        change (visible_tuples blknum av 1 (page_items page)) with tuples in Hv.
        unfold lines, PageGetMaxOffsetNumber. lia. }
      replace (bls_ntup st <=? MaxHeapTuplesPerPage) with true
        by (symmetry; apply Z.leb_le; lia).
      replace (nitems k + bls_ntup st <=? nrooms k) with true
        by (symmetry; apply Z.leb_le; lia).
      rewrite Assert_true. cbn [bind].
      eexists. split; [rewrite E1; reflexivity|].
      cbn [kds]. split; [exact E3|].
      cbn [block_state_kds nitems usage length format].
      split; [lia|]. split; [lia|]. split; [reflexivity|]. split; [exact Hf|].
      intros j tup slot tuple0 Hnth.
      assert (Hj : (j < List.length tuples)%nat)
        by (apply nth_error_Some; congruence).
      destruct E3 as (En & Eitems).
      specialize (Eitems (List.length prev + j)%nat tup).
      rewrite nth_error_app2 in Eitems by lia.
      replace (List.length prev + j - List.length prev)%nat with j in Eitems by lia.
      specialize (Eitems Hnth). cbv zeta in Eitems.
      replace (Z.of_nat (List.length prev + j)) with (nitems k + Z.of_nat j)
        in Eitems by lia.
      eexists. split.
      * unfold pgstrom_fetch_data_store. cbn [kds].
        apply fetch_row; [|exact Hf].
        cbn [block_state_kds nitems]. lia.
      * apply Eitems.
Qed.

End InsertBlock.

Lemma insert_block_all_or_nothing_witness :
  let L := sample_layout true in
  PDS_insert_block (sample_row_chunk true) 5 sample_snapshot sample_page
    = Done (-1, sample_row_chunk true) /\
  exists pds',
    PDS_insert_block (PDS_create_row zero_memory sample_tupdesc 16384) 5
      sample_snapshot sample_page = Done (2, pds') /\
    nitems (kds pds') = 2 /\
    exists view,
      pgstrom_fetch_data_store empty_slot pds' 1 (sample_tuple 0 0) =
      Done (true, {| tts_natts := 2; tts_content := TTS_TUPLE view |}, view) /\
      t_len view = 32 /\ ip_posid (t_self view) = 4.
Proof.
  intros L.
  destruct (insert_block_all_or_nothing (L := L) (sample_row_chunk true) 5
              sample_snapshot sample_page []) as (Hfull & _);
    [reflexivity | reflexivity |].
  destruct (insert_block_all_or_nothing (L := L)
              (PDS_create_row zero_memory sample_tupdesc 16384) 5
              sample_snapshot sample_page []) as (_ & Hroom);
    [reflexivity | reflexivity |].
  split; [apply Hfull; vm_compute; reflexivity|].
  destruct Hroom as (pds' & Hres & _ & Hn & _ & _ & _ & Hfetch).
  - vm_compute; discriminate.
  - vm_compute; discriminate.
  - vm_compute; discriminate.
  - vm_compute; reflexivity.
  - split; [reflexivity|]. intros i tup H. destruct i; discriminate.
  - repeat constructor; vm_compute; try discriminate; reflexivity.
  - vm_compute; discriminate.
  - vm_compute; discriminate.
  - vm_compute; discriminate.
  - exists pds'. split; [exact Hres|]. split; [exact Hn|].
    destruct (Hfetch 1%nat
                (heap_tuple_of 5 4 {| lp_normal := true; lp_len := 32;
                                      lp_item := fun x => (7 * x + 2) mod 256;
                                      lp_visible := true |})
                empty_slot (sample_tuple 0 0) eq_refl)
      as (view & Hv & Hl & Hs & _).
    exists view. split; [exact Hv|]. split; [exact Hl|]. now rewrite Hs.
Defined.

(** ** Shrinking a chunk *)


Lemma load_uint_zero n m a :
  (forall x, a <= x < a + Z.of_nat n -> m x = 0) -> load_uint n m a = 0.
Proof.
  unfold load_uint. revert a. induction n; intros a H; cbn [load_bytes decode_uint].
  - reflexivity.
  - rewrite H by lia. rewrite IHn; [reflexivity|]. intros x Hx. apply H. lia.
Qed.

Lemma bucket_last_ext hash_of hash_of' start start' ns b j :
  (forall i, 0 <= i < Z.of_nat j -> hash_of' i = hash_of i /\ start' i = start i) ->
  bucket_last hash_of' start' ns b j = bucket_last hash_of start ns b j.
Proof.
  induction j as [|j IH]; intros H; cbn [bucket_last]; [reflexivity|].
  destruct (H (Z.of_nat j)) as (-> & ->); [lia|].
  rewrite IH; [reflexivity|]. intros i Hi. apply H. lia.
Qed.

Section Shrink.

Context {L : KdsLayout}.

Lemma shrink_shift_wf k :
  chunk_wf k ->
  shrink_shift k = STROMALIGN_DOWN (length k - kds_min_length k) /\
  0 <= shrink_shift k <= length k - kds_min_length k.
Proof.
  intros (Hf & Hc & Hn & Hu & Hmin & Hlen & Hitems).
  assert (Hpow : (2 : Z) ^ 32 < 2 ^ 64) by (apply Z.pow_lt_mono_r; lia).
  assert (Hmin0 : 0 <= kds_min_length k).
  { rewrite min_length_front.
    destruct (front_length_bounds k Hc Hn) as (H1 & H2).
    pose proof (STROMALIGN_bounds (usage k)). lia. }
  unfold shrink_shift. fold (kds_min_length k).
  rewrite size_t_wrap_small by lia. split; [reflexivity|].
  pose proof (STROMALIGN_DOWN_bounds (length k - kds_min_length k)).
  assert (Hd : 0 <= length k - kds_min_length k) by lia.
  pose proof (STROMALIGN_DOWN_mono 0 (length k - kds_min_length k) Hd) as Hm.
  unfold STROMALIGN_DOWN in Hm at 1.
  rewrite (TYPEALIGN_DOWN_div _ STROMALIGN_LEN_pow2) in Hm.
  rewrite Z.div_0_l, Z.mul_0_r in Hm by (pose proof STROMALIGN_LEN_pos; lia).
  lia.
Qed.

Lemma shrink_noop pds :
  format (kds pds) = KDS_FORMAT_ROW \/ format (kds pds) = KDS_FORMAT_HASH ->
  shrink_shift (kds pds) < BLCKSZ \/
  shrink_shift (kds pds) < sizeof_Datum * nitems (kds pds) ->
  PDS_shrink_size pds = Done pds.
Proof.
  intros Hf Hsmall. unfold PDS_shrink_size.
  assert (E : (shrink_shift (kds pds) <? BLCKSZ) ||
              (shrink_shift (kds pds) <? sizeof_Datum * nitems (kds pds)) = true).
  { apply orb_true_iff. rewrite !Z.ltb_lt. exact Hsmall. }
  destruct Hf as [-> | ->]; now rewrite E.
Qed.

Lemma PDS_shrink_size_row_hash pds :
  format (kds pds) = KDS_FORMAT_ROW \/ format (kds pds) = KDS_FORMAT_HASH ->
  PDS_shrink_size pds =
  (let k := kds pds in
   let shift := shrink_shift k in
   if (shift <? BLCKSZ) || (shift <? sizeof_Datum * nitems k) then Done pds
   else
     let baseptr := kds_front_length k in
     m1 <- memmove_within (length k) (body k) baseptr (baseptr + shift)
                          (size_t_wrap (length k - shift)) ;;
     m2 <- (if 0 <? nslots k then
              Assert (format_eqb (format k) KDS_FORMAT_HASH) ;;;
              Done (memset m1 (KERN_DATA_STORE_HASHSLOT k) 0 (4 * nslots k))
            else Done m1) ;;
     m3 <- shrink_loop (KERN_DATA_STORE_ROWINDEX k) (KERN_DATA_STORE_HASHSLOT k)
                       (nslots k) shift (index_range (nitems k)) m2 ;;
     Assert (size_t_wrap (length k - shift) <=? length k) ;;;
     Done (set_length_body pds (size_t_wrap (length k - shift)) m3)).
Proof.
  intros [H | H]; unfold PDS_shrink_size, kds_front_length; rewrite H;
    reflexivity.
Qed.

Lemma chain_reaches_more m fuel off target :
  chain_reaches m fuel off target -> chain_reaches m (S fuel) off target.
Proof.
  revert off. induction fuel as [|f IH]; intros off H; [destruct H|].
  cbn [chain_reaches] in H |- *. destruct H as (Hnz & [He | Hc]).
  - split; [assumption | now left].
  - split; [assumption | right]. apply IH. exact Hc.
Qed.

(** when every [next] word designates the previous item of its bucket, the
    chain that starts at the last item of a bucket passes through every
    item of that bucket *)
Lemma chain_complete m hash_of start ns (n : nat) :
  (forall i, 0 <= i < Z.of_nat n -> start i <> 0) ->
  (forall i, 0 <= i < Z.of_nat n ->
             load_uint 4 m (start i + offsetof_next)
             = bucket_last hash_of start ns (hash_of i mod ns) (Z.to_nat i)) ->
  forall j, (j <= n)%nat ->
    forall i, 0 <= i < Z.of_nat j ->
      chain_reaches m j
        (bucket_last hash_of start ns (hash_of i mod ns) j) (start i).
Proof.
  intros Hnz Hnext. induction j as [|j IH]; intros Hj i Hi; [lia|].
  cbn [bucket_last].
  destruct (Z.eqb_spec (hash_of (Z.of_nat j) mod ns) (hash_of i mod ns))
    as [Eb | Nb].
  - cbn [chain_reaches]. split; [apply Hnz; lia|].
    destruct (Z.eq_dec i (Z.of_nat j)) as [-> | Hne]; [now left | right].
    rewrite Hnext by lia. rewrite Nat2Z.id, Eb. apply IH; lia.
  - apply chain_reaches_more. apply IH; [lia|].
    destruct (Z.eq_dec i (Z.of_nat j)) as [-> | Hne]; [congruence | lia].
Qed.

Lemma bind_Done_inv {A B : Type} (c : outcome A) (k : A -> outcome B)
    (r : B) :
  (x <- c ;; k x) = Done r -> exists v, c = Done v /\ k v = Done r.
Proof.
  destruct c as [v|msg|]; cbn [bind]; intros H; try discriminate.
  now exists v.
Qed.

(** the slack is a [size_t] that is not negative *)
Lemma shrink_shift_range k : 0 <= shrink_shift k < 2 ^ 64.
Proof.
  unfold shrink_shift.
  set (v := size_t_wrap _).
  assert (Hv : 0 <= v < 2 ^ 64) by (apply Z.mod_pos_bound; lia).
  pose proof (STROMALIGN_DOWN_bounds v) as Hb.
  pose proof (STROMALIGN_DOWN_mono 0 v ltac:(lia)) as Hm.
  unfold STROMALIGN_DOWN in Hm at 1.
  rewrite (TYPEALIGN_DOWN_div _ STROMALIGN_LEN_pow2) in Hm.
  rewrite Z.div_0_l, Z.mul_0_r in Hm by (pose proof STROMALIGN_LEN_pos; lia).
  lia.
Qed.

(** C6 (amended).  For every Row- or Hash-format chunk, with [shift] the
    slack the routine computes (the length minus the least length that
    holds the records, rounded down to the alignment): [PDS_shrink_size]
    leaves the chunk as it is exactly when the slack is smaller than a page
    or smaller than [sizeof(Datum)] times the record count, the measure the
    code takes where the claim names the index array.  What the routine
    does with a larger slack is not part of the statement beyond this: it
    does not hand back the chunk it was given. *)
Theorem shrink_row_hash_chunk :
  forall pds : pgstrom_data_store,
    let k := kds pds in
    let shift := shrink_shift k in
    format k = KDS_FORMAT_ROW \/ format k = KDS_FORMAT_HASH ->
    0 <= length k < 2 ^ 32 ->
    (shift < BLCKSZ \/ shift < sizeof_Datum * nitems k ->
     PDS_shrink_size pds = Done pds) /\
    (BLCKSZ <= shift -> sizeof_Datum * nitems k <= shift ->
     PDS_shrink_size pds <> Done pds) /\
    (chunk_wf k -> shift = STROMALIGN_DOWN (length k - kds_min_length k)).
Proof.
  intros pds k shift Hf Hlen.
  split; [apply shrink_noop; exact Hf|]. split.
  - intros Hb1 Hb2 Hrun.
    rewrite (PDS_shrink_size_row_hash pds Hf) in Hrun. cbv zeta in Hrun.
    fold k shift in Hrun.
    replace ((shift <? BLCKSZ) || (shift <? sizeof_Datum * nitems k))
      with false in Hrun
      by (symmetry; apply orb_false_iff; split; apply Z.ltb_ge; assumption).
    apply bind_Done_inv in Hrun. destruct Hrun as (m1 & _ & Hrun).
    apply bind_Done_inv in Hrun. destruct Hrun as (m2 & _ & Hrun).
    apply bind_Done_inv in Hrun. destruct Hrun as (m3 & _ & Hrun).
    apply bind_Done_inv in Hrun. destruct Hrun as (u & _ & Hrun).
    injection Hrun as Hrun.
    assert (E : length
                  (kds (set_length_body pds (size_t_wrap (length k - shift))
                          m3))
                = length (kds pds)) by (rewrite Hrun; reflexivity).
    unfold set_length_body in E. cbn [kds length] in E. fold k in E.
    pose proof (shrink_shift_range k) as Hs. fold shift in Hs.
    pose proof BLCKSZ_pos as Hpage.
    assert (Hpow : (2 : Z) ^ 32 < 2 ^ 64) by (apply Z.pow_lt_mono_r; lia).
    unfold size_t_wrap in E.
    destruct (Z_le_gt_dec shift (length k)) as [Hle | Hgt].
    + rewrite Z.mod_small in E by lia. lia.
    + assert (E' : (length k - shift) mod 2 ^ 64 = length k - shift + 2 ^ 64).
      { symmetry. apply (Z.mod_unique _ _ (-1)); lia. }
      lia.
  - intros Hwf. apply shrink_shift_wf. exact Hwf.
Qed.

End Shrink.

Lemma shrink_row_hash_chunk_witness :
  let L := sample_layout true in
  PDS_shrink_size (sample_row_chunk true) = Done (sample_row_chunk true) /\
  shrink_shift (kds (sample_built_hash_chunk true)) = 15920 /\
  PDS_shrink_size (sample_built_hash_chunk true)
  <> Done (sample_built_hash_chunk true).
Proof.
  intros L.
  destruct (shrink_row_hash_chunk (L := L) (sample_row_chunk true))
    as (Hnoop & _ & _);
    [left; reflexivity | vm_compute; split; [discriminate | reflexivity] |].
  destruct (shrink_row_hash_chunk (L := L) (sample_built_hash_chunk true))
    as (_ & Hmove & _);
    [right; reflexivity | vm_compute; split; [discriminate | reflexivity] |].
  split; [apply Hnoop; left; vm_compute; reflexivity|].
  split; [vm_compute; reflexivity|].
  apply Hmove; vm_compute; discriminate.
Defined.

(** C6, as stated, fails: in a chunk of 1500 records the slack of 8192 bytes
    is a page and exceeds the 6000 bytes of the index array, and the routine
    still leaves the chunk as it is, because the slack is below 8 bytes per
    record. *)
Lemma shrink_skipped_above_index_array :
  let L := sample_layout true in
  let k := kds (sample_wide_row_chunk true) in
  format k = KDS_FORMAT_ROW /\
  nitems k = 1500 /\
  shrink_shift k = 8192 /\
  BLCKSZ <= shrink_shift k /\
  STROMALIGN (4 * nitems k) = 6000 /\
  PDS_shrink_size (sample_wide_row_chunk true)
  = Done (sample_wide_row_chunk true).
Proof.
  intros L k.
  assert (F : format k = KDS_FORMAT_ROW) by (vm_compute; reflexivity).
  assert (N : nitems k = 1500) by (vm_compute; reflexivity).
  assert (S : shrink_shift k = 8192) by (vm_compute; reflexivity).
  split; [exact F|]. split; [exact N|]. split; [exact S|].
  split; [rewrite S; vm_compute; discriminate|].
  split; [rewrite N; vm_compute; reflexivity|].
  apply shrink_noop; [left; exact F|].
  right. fold k. rewrite S, N. vm_compute. reflexivity.
Qed.
(* ================================================================== *)
(** * Part II, continued.  Properties of the further routines          *)
(* ================================================================== *)

(** ** The capacity of a Block-format chunk *)

Section BlockStoreFacts.

Context {L : KdsLayout}.

Lemma STROMALIGN_zero : STROMALIGN 0 = 0.
Proof.
  pose proof STROMALIGN_LEN_pos as Hp.
  unfold STROMALIGN. rewrite (TYPEALIGN_div _ STROMALIGN_LEN_pow2).
  rewrite Z.div_small by lia. lia.
Qed.

Lemma block_rooms_fit_down natts kds_length n n' :
  0 <= n' <= n ->
  block_rooms_fit natts kds_length n -> block_rooms_fit natts kds_length n'.
Proof.
  unfold block_rooms_fit. intros Hn Hfit.
  pose proof (STROMALIGN_mono (4 * n') (4 * n) ltac:(lia)).
  pose proof BLCKSZ_pos. nia.
Qed.

Lemma block_rooms_exceed_spec natts kds_length n :
  0 <= n -> BLCKSZ * n < 2 ^ 32 ->
  block_rooms_exceed natts kds_length n = true <->
  ~ block_rooms_fit natts kds_length n.
Proof.
  intros Hn Hw. unfold block_rooms_exceed, block_rooms_fit, cl_uint_wrap.
  pose proof BLCKSZ_pos.
  rewrite Z.mod_small by nia. rewrite Z.ltb_lt. lia.
Qed.

(** the loop stops on the largest count at or below the one it starts from
    that fits *)
Lemma block_rooms_loop_spec natts kds_length :
  0 <= kds_length < 2 ^ 32 ->
  block_rooms_fit natts kds_length 0 ->
  forall (fuel : nat) (n : Z),
    0 <= n -> BLCKSZ * n <= kds_length ->
    (Z.to_nat n < fuel)%nat ->
    exists r,
      block_rooms_loop fuel natts kds_length n = Some r /\
      0 <= r <= n /\ block_rooms_fit natts kds_length r /\
      forall n', r < n' <= n -> ~ block_rooms_fit natts kds_length n'.
Proof.
  intros Hlen Hfit0. induction fuel as [|fuel IH]; intros n Hn Hb Hfuel; [lia|].
  cbn [block_rooms_loop].
  destruct (block_rooms_exceed natts kds_length n) eqn:Hex.
  - apply block_rooms_exceed_spec in Hex; [|lia|lia].
    assert (Hpos : 0 < n).
    { destruct (Z.eq_dec n 0) as [-> | Hne]; [contradiction | lia]. }
    unfold cl_uint_wrap. pose proof BLCKSZ_pos.
    rewrite Z.mod_small by nia.
    destruct (IH (n - 1)) as (r & Hrun & Hr & Hfit & Hmax); [lia | nia | lia |].
    exists r. split; [exact Hrun|]. split; [lia|]. split; [exact Hfit|].
    intros n' Hn'. destruct (Z.eq_dec n' n) as [-> | Hne]; [exact Hex|].
    apply Hmax. lia.
  - exists n. split; [reflexivity|]. split; [lia|]. split.
    + destruct (block_rooms_exceed_spec natts kds_length n Hn ltac:(lia))
        as (_ & Hback).
      unfold block_rooms_fit in *.
      destruct (Z.le_gt_cases
                  (KDS_CALCULATE_HEAD_LENGTH natts + STROMALIGN (4 * n)
                   + BLCKSZ * n) kds_length) as [Hle | Hgt]; [exact Hle|].
      rewrite Hback in Hex by lia. discriminate.
    + intros n' Hn'. lia.
Qed.

(** X1.  [PDS_create_block] raises an error when the length, rounded down
    to the alignment, is shorter than the header or leaves no room for one
    block number and one page behind it.  Otherwise it returns an empty
    Block-format chunk of the rounded length whose capacity [nrooms] is the
    largest number of blocks that fit: [nrooms] block numbers and pages fit
    behind the header, [nrooms + 1] do not. *)
Theorem create_block_capacity :
  forall (fuel : nat) (fresh : memory) (tupdesc : TupleDesc)
         (len nrows_per_tuple : Z),
    let kds_length := STROMALIGN_DOWN len in
    let head := KDS_CALCULATE_HEAD_LENGTH (natts tupdesc) in
    0 <= natts tupdesc ->
    kds_length < 2 ^ 32 ->
    (Z.to_nat ((kds_length - head) / (4 + BLCKSZ)) < fuel)%nat ->
    (~ block_rooms_fit (natts tupdesc) kds_length 1 ->
     PDS_create_block fuel fresh tupdesc len nrows_per_tuple
     = Some (Elog "Required length for KDS-Block is too short")) /\
    (block_rooms_fit (natts tupdesc) kds_length 1 ->
     exists pds,
       PDS_create_block fuel fresh tupdesc len nrows_per_tuple
       = Some (Done pds) /\
       refcnt pds = 1 /\
       format (kds pds) = KDS_FORMAT_BLOCK /\
       length (kds pds) = kds_length /\
       ncols (kds pds) = natts tupdesc /\
       nitems (kds pds) = 0 /\ usage (kds pds) = 0 /\
       nrows_per_block (kds pds) = nrows_per_tuple /\
       body (kds pds) = fresh /\
       1 <= nrooms (kds pds) /\
       block_rooms_fit (natts tupdesc) kds_length (nrooms (kds pds)) /\
       ~ block_rooms_fit (natts tupdesc) kds_length (nrooms (kds pds) + 1)).
Proof.
  intros fuel fresh tupdesc len nrows kds_length head Hnatts Hlen Hfuel.
  pose proof (HEAD_LENGTH_nonneg (natts tupdesc) Hnatts) as Hhead.
  fold head in Hhead. pose proof BLCKSZ_pos as HB.
  unfold PDS_create_block. fold kds_length head.
  destruct (Z.ltb_spec kds_length head) as [Hshort | Hok].
  - (* shorter than the header *)
    split; [reflexivity|]. intros Hfit. exfalso.
    unfold block_rooms_fit in Hfit. fold head in Hfit.
    pose proof (STROMALIGN_bounds (4 * 1)). lia.
  - set (q := (kds_length - head) / (4 + BLCKSZ)) in *.
    assert (Hq : 0 <= q) by (apply Z.div_pos; lia).
    assert (Hqm : (4 + BLCKSZ) * q <= kds_length - head)
      by (apply Z.mul_div_le; lia).
    assert (Hqs : kds_length - head < (4 + BLCKSZ) * (q + 1)).
    { assert (Hd : 0 < 4 + BLCKSZ) by lia.
      pose proof (Z.mod_pos_bound (kds_length - head) (4 + BLCKSZ) Hd) as Hm.
      assert (Hd' : 4 + BLCKSZ <> 0) by lia.
      pose proof (Z.div_mod (kds_length - head) (4 + BLCKSZ) Hd') as Hdm.
      fold q in Hdm. lia. }
    rewrite size_t_wrap_small by lia. fold q.
    unfold cl_uint_wrap. rewrite Z.mod_small by nia.
    assert (Hfit0 : block_rooms_fit (natts tupdesc) kds_length 0).
    { unfold block_rooms_fit. fold head. rewrite Z.mul_0_r, STROMALIGN_zero. lia. }
    destruct (block_rooms_loop_spec (natts tupdesc) kds_length ltac:(lia) Hfit0
                fuel q Hq ltac:(nia) Hfuel)
      as (r & Hrun & Hr & Hfit & Hmax).
    rewrite Hrun.
    assert (Hnext : ~ block_rooms_fit (natts tupdesc) kds_length (q + 1)).
    { unfold block_rooms_fit. fold head.
      pose proof (STROMALIGN_bounds (4 * (q + 1))). lia. }
    split.
    + intros Hno. destruct (Z.ltb_spec r 1) as [_ | Hr1]; [reflexivity|].
      exfalso. apply Hno.
      apply (block_rooms_fit_down _ _ r 1); [lia | exact Hfit].
    + intros Hone.
      assert (Hr1 : 1 <= r).
      { destruct (Z.le_gt_cases 1 r) as [H1 | H1]; [exact H1|].
        exfalso. destruct (Z.le_gt_cases 1 q) as [Hq1 | Hq1].
        - apply (Hmax 1); [lia | exact Hone].
        - apply Hnext. replace (q + 1) with 1 by lia. exact Hone. }
      destruct (Z.ltb_spec r 1) as [Hlt | _]; [lia|].
      eexists. split; [reflexivity|].
      cbn [refcnt kds format length ncols nitems usage nrows_per_block body
           nrooms init_kernel_data_store].
      repeat match goal with |- _ /\ _ => split end;
        try reflexivity; try assumption.
      destruct (Z.eq_dec r q) as [-> | Hne]; [exact Hnext|].
      apply Hmax. lia.
Qed.

End BlockStoreFacts.

Lemma create_block_capacity_witness :
  let L := sample_layout true in
  exists pds,
    PDS_create_block 8 zero_memory sample_tupdesc 20000 5 = Some (Done pds) /\
    1 <= nrooms (kds pds) /\
    nrows_per_block (kds pds) = 5.
Proof.
  intros L.
  destruct (create_block_capacity (L := L) 8 zero_memory sample_tupdesc 20000 5)
    as (_ & Hok).
  - vm_compute; discriminate.
  - vm_compute; reflexivity.
  - apply Nat.ltb_lt. vm_compute. reflexivity.
  - destruct Hok as (pds & Hrun & _ & _ & _ & _ & _ & _ & Hrows & _ & Hn & _).
    + vm_compute; discriminate.
    + exists pds. split; [exact Hrun|]. split; [exact Hn | exact Hrows].
Defined.

(** ** The column metadata of a chunk *)

Lemma fold_left_firstn_S {A B : Type} (f : A -> B -> A) (l : list B) (i : nat)
    (b : B) (a : A) :
  nth_error l i = Some b ->
  fold_left f (firstn (S i) l) a = f (fold_left f (firstn i l) a) b.
Proof.
  revert i a. induction l as [|x l IH]; intros i a Hnth.
  - destruct i; discriminate.
  - destruct i as [|i].
    + cbn in Hnth. injection Hnth as ->. reflexivity.
    + cbn [nth_error] in Hnth. cbn [firstn fold_left].
      rewrite <- (IH i (f a x) Hnth). reflexivity.
Qed.

Lemma fold_left_firstn_all {A B : Type} (f : A -> B -> A) (l : list B) (a : A) :
  fold_left f (firstn (List.length l) l) a = fold_left f l a.
Proof. now rewrite firstn_all. Qed.

Section ColumnMetaFacts.

Context {L : KdsLayout}.

Variable typealign_get_width : Z -> Z.
Variable NUMERICOID : Z.
Variable offsetof_t_bits : Z.

Let step := colmeta_step typealign_get_width NUMERICOID.
Let fixed := fixed_width_attr typealign_get_width.

(** the state of the loop when it reaches column [i] *)
Let state_at (tdhasoid use_internal : bool) (attrs : list Form_pg_attribute)
    (i : nat) : colmeta_state :=
  fold_left (step use_internal) (firstn i attrs)
    {| cs_attcacheoff := first_attcacheoff offsetof_t_bits tdhasoid;
       cs_has_notbyval := false;
       cs_has_numeric := false;
       cs_colmeta := [] |}.

Lemma colmeta_fold_grows ui attrs st :
  exists more,
    cs_colmeta (fold_left (step ui) attrs st) = cs_colmeta st ++ more /\
    List.length more = List.length attrs.
Proof.
  revert st. induction attrs as [|a attrs IH]; intros st; cbn [fold_left].
  - exists []. now rewrite app_nil_r.
  - destruct (IH (step ui st a)) as (more & Heq & Hlen).
    exists (List.last (cs_colmeta (step ui st a))
              {| colmeta_attbyval := false; colmeta_attalign := 0;
                 colmeta_attlen := 0; colmeta_attnum := 0;
                 colmeta_attcacheoff := 0; colmeta_atttypid := 0;
                 colmeta_atttypmod := 0 |} :: more).
    rewrite Heq. unfold step, colmeta_step. cbn [cs_colmeta].
    rewrite last_last, <- app_assoc. cbn [app List.length].
    split; [reflexivity | now rewrite Hlen].
Qed.

Lemma state_at_length tdhasoid ui attrs i :
  (i <= List.length attrs)%nat ->
  List.length (cs_colmeta (state_at tdhasoid ui attrs i)) = i.
Proof.
  intros Hi. unfold state_at.
  destruct (colmeta_fold_grows ui (firstn i attrs)
              {| cs_attcacheoff := first_attcacheoff offsetof_t_bits tdhasoid;
                 cs_has_notbyval := false; cs_has_numeric := false;
                 cs_colmeta := [] |}) as (more & -> & Hlen).
  cbn [cs_colmeta app]. rewrite Hlen, length_firstn. lia.
Qed.

Lemma state_at_S tdhasoid ui attrs i attr :
  nth_error attrs i = Some attr ->
  state_at tdhasoid ui attrs (S i)
  = step ui (state_at tdhasoid ui attrs i) attr.
Proof. intros Hnth. unfold state_at. now apply fold_left_firstn_S. Qed.

(** entry [i] of the result is the one written when the loop is at column
    [i] *)
Lemma colmeta_entry tdhasoid ui attrs i attr :
  nth_error attrs i = Some attr ->
  nth_error (cs_colmeta (init_colmeta typealign_get_width NUMERICOID
                           offsetof_t_bits tdhasoid ui attrs)) i
  = nth_error (cs_colmeta (step ui (state_at tdhasoid ui attrs i) attr)) i.
Proof.
  intros Hnth.
  assert (Hi : (i < List.length attrs)%nat)
    by (apply nth_error_Some; congruence).
  rewrite <- (state_at_S tdhasoid ui attrs i attr Hnth).
  unfold init_colmeta, state_at. fold (step ui).
  rewrite <- (firstn_skipn (S i) attrs) at 1.
  rewrite fold_left_app.
  destruct (colmeta_fold_grows ui (skipn (S i) attrs)
              (fold_left (step ui) (firstn (S i) attrs)
                 {| cs_attcacheoff := first_attcacheoff offsetof_t_bits tdhasoid;
                    cs_has_notbyval := false; cs_has_numeric := false;
                    cs_colmeta := [] |})) as (more & -> & _).
  apply nth_error_app1.
  pose proof (state_at_length tdhasoid ui attrs (S i) ltac:(lia)) as Hlen.
  unfold state_at in Hlen. rewrite Hlen. lia.
Qed.

Lemma step_entry ui st attr :
  nth_error (cs_colmeta (step ui st attr)) (List.length (cs_colmeta st))
  = Some {| colmeta_attbyval :=
              if (atttypid attr =? NUMERICOID) && ui then true
              else attbyval attr;
            colmeta_attalign := typealign_get_width (attalign attr);
            colmeta_attlen :=
              if (atttypid attr =? NUMERICOID) && ui then 8 else attlen attr;
            colmeta_attnum := attnum attr;
            colmeta_attcacheoff :=
              if 0 <? cs_attcacheoff st then
                if 0 <? (if (atttypid attr =? NUMERICOID) && ui then 8
                         else attlen attr)
                then TYPEALIGN (typealign_get_width (attalign attr))
                               (cs_attcacheoff st)
                else -1
              else cs_attcacheoff st;
            colmeta_atttypid := atttypid attr;
            colmeta_atttypmod := atttypmod attr |}.
Proof.
  unfold step, colmeta_step. cbn [cs_colmeta].
  rewrite nth_error_app2 by lia. now rewrite Nat.sub_diag.
Qed.

Lemma first_attcacheoff_pos tdhasoid :
  0 < offsetof_t_bits -> 0 < first_attcacheoff offsetof_t_bits tdhasoid.
Proof.
  intros Hp. unfold first_attcacheoff.
  pose proof (MAXALIGN_bounds (offsetof_t_bits + (if tdhasoid then 4 else 0))).
  destruct tdhasoid; lia.
Qed.

(** over a prefix of fixed-width attributes the running offset is positive *)
Lemma fixed_prefix_positive tdhasoid ui attrs i :
  0 < offsetof_t_bits ->
  (i <= List.length attrs)%nat ->
  (forall j a, (j < i)%nat -> nth_error attrs j = Some a -> fixed a) ->
  0 < cs_attcacheoff (state_at tdhasoid ui attrs i).
Proof.
  intros Hp. induction i as [|i IH]; intros Hi Hfix.
  - unfold state_at. cbn. now apply first_attcacheoff_pos.
  - destruct (nth_error attrs i) as [a|] eqn:Hnth;
      [|apply nth_error_None in Hnth; lia].
    rewrite (state_at_S tdhasoid ui attrs i a Hnth).
    specialize (IH ltac:(lia) (fun j b Hj => Hfix j b ltac:(lia))).
    destruct (Hfix i a ltac:(lia) Hnth) as (Hlen & Hpow).
    unfold step, colmeta_step. cbn [cs_attcacheoff].
    destruct (Z.ltb_spec 0 (cs_attcacheoff (state_at tdhasoid ui attrs i)));
      [|lia].
    pose proof (TYPEALIGN_bounds _ Hpow
                  (cs_attcacheoff (state_at tdhasoid ui attrs i))) as Hb.
    destruct ((atttypid a =? NUMERICOID) && ui); cbn;
      [|destruct (Z.ltb_spec 0 (attlen a)); [|lia]];
      match goal with
      | |- context [0 <=? ?x] => destruct (Z.leb_spec 0 x)
      end; lia.
Qed.

(** X2.  Over a prefix of attributes of fixed positive length, the cached
    offset [attcacheoff] that [init_kernel_data_store] records for a column
    is the first multiple of the column's alignment at or after the end of
    the column before it (the aligned end of the tuple header, for the first
    column): columns do not overlap and no gap exceeds the alignment. *)
Theorem colmeta_fixed_prefix_offsets :
  forall (tdhasoid use_internal : bool) (attrs : list Form_pg_attribute)
         (i : nat) (attr : Form_pg_attribute),
    let cms := cs_colmeta (init_colmeta typealign_get_width NUMERICOID
                             offsetof_t_bits tdhasoid use_internal attrs) in
    0 < offsetof_t_bits ->
    nth_error attrs i = Some attr ->
    (forall j a, (j <= i)%nat -> nth_error attrs j = Some a ->
                 fixed_width_attr typealign_get_width a) ->
    exists cm,
      nth_error cms i = Some cm /\
      let prev := previous_end offsetof_t_bits tdhasoid attrs cms i in
      let width := typealign_get_width (attalign attr) in
      0 < prev /\
      prev <= colmeta_attcacheoff cm < prev + width /\
      colmeta_attcacheoff cm mod width = 0.
Proof.
  intros tdhasoid ui attrs i attr cms Hp Hnth Hfix.
  assert (Hi : (i < List.length attrs)%nat)
    by (apply nth_error_Some; congruence).
  pose proof (fixed_prefix_positive tdhasoid ui attrs i Hp ltac:(lia)
                (fun j a Hj => Hfix j a ltac:(lia))) as Hpos.
  destruct (Hfix i attr ltac:(lia) Hnth) as (Hlen & Hpow).
  pose proof (state_at_length tdhasoid ui attrs i ltac:(lia)) as Hcount.
  pose proof (step_entry ui (state_at tdhasoid ui attrs i) attr) as Hentry.
  rewrite Hcount in Hentry.
  unfold cms at 1. rewrite (colmeta_entry tdhasoid ui attrs i attr Hnth), Hentry.
  eexists. split; [reflexivity|]. cbn [colmeta_attcacheoff].
  (* the running offset is the end of the previous column *)
  assert (Eprev : cs_attcacheoff (state_at tdhasoid ui attrs i)
                  = previous_end offsetof_t_bits tdhasoid attrs cms i).
  { destruct i as [|i']; [reflexivity|].
    destruct (nth_error attrs i') as [a'|] eqn:Hnth';
      [|apply nth_error_None in Hnth'; lia].
    cbn [previous_end]. unfold cms.
    rewrite (colmeta_entry tdhasoid ui attrs i' a' Hnth'), Hnth'.
    pose proof (step_entry ui (state_at tdhasoid ui attrs i') a') as He'.
    rewrite (state_at_length tdhasoid ui attrs i' ltac:(lia)) in He'.
    rewrite He'. cbn [colmeta_attcacheoff].
    rewrite (state_at_S tdhasoid ui attrs i' a' Hnth').
    pose proof (fixed_prefix_positive tdhasoid ui attrs i' Hp ltac:(lia)
                  (fun j a Hj => Hfix j a ltac:(lia))) as Hpos'.
    destruct (Hfix i' a' ltac:(lia) Hnth') as (Hlen' & Hpow').
    unfold step, colmeta_step. cbn [cs_attcacheoff].
    destruct (Z.ltb_spec 0 (cs_attcacheoff (state_at tdhasoid ui attrs i')));
      [|lia].
    pose proof (TYPEALIGN_bounds _ Hpow'
                  (cs_attcacheoff (state_at tdhasoid ui attrs i'))) as Hb.
    assert (Hl : (0 <? (if (atttypid a' =? NUMERICOID) && ui then 8
                        else attlen a')) = true).
    { apply Z.ltb_lt. destruct ((atttypid a' =? NUMERICOID) && ui); lia. }
    rewrite Hl.
    match goal with
    | |- context [0 <=? ?x] => destruct (Z.leb_spec 0 x)
    end; lia. }
  rewrite <- Eprev.
  destruct (Z.ltb_spec 0 (cs_attcacheoff (state_at tdhasoid ui attrs i)));
    [|lia].
  assert (Hl : (0 <? (if (atttypid attr =? NUMERICOID) && ui then 8
                      else attlen attr)) = true).
  { apply Z.ltb_lt. destruct ((atttypid attr =? NUMERICOID) && ui); lia. }
  rewrite Hl. cbv zeta.
  split; [assumption|]. split; [apply TYPEALIGN_bounds; exact Hpow|].
  rewrite (TYPEALIGN_div _ Hpow).
  pose proof (align_pos _ Hpow) as Hw.
  rewrite Z.mul_comm. apply Z.mod_mul. lia.
Qed.

(** once the shortcut is lost it stays lost *)
Lemma lost_shortcut_stays tdhasoid ui attrs j :
  (j <= List.length attrs)%nat ->
  cs_attcacheoff (state_at tdhasoid ui attrs j) = -1 ->
  forall i, (j <= i <= List.length attrs)%nat ->
            cs_attcacheoff (state_at tdhasoid ui attrs i) = -1.
Proof.
  intros Hj Hlost i Hi. destruct Hi as (Hji & Hi).
  induction Hji as [|i Hji IH]; [exact Hlost|].
  destruct (nth_error attrs i) as [a|] eqn:Hnth;
    [|apply nth_error_None in Hnth; lia].
  rewrite (state_at_S tdhasoid ui attrs i a Hnth).
  specialize (IH ltac:(lia)).
  unfold step, colmeta_step. cbn [cs_attcacheoff]. rewrite IH. reflexivity.
Qed.

(** X3.  When the attributes before column [j] have fixed positive length,
    column [j] has not, and column [j] is not a numeric of a chunk that
    keeps numerics in internal format (such a column is recorded with the
    length 8 and gets an offset), [init_kernel_data_store] records
    [attcacheoff = -1] for column [j] and for every column after it: no
    offset is cached past such an attribute of variable length. *)
Theorem colmeta_no_offset_past_varlena :
  forall (tdhasoid use_internal : bool) (attrs : list Form_pg_attribute)
         (j : nat) (attr : Form_pg_attribute),
    let cms := cs_colmeta (init_colmeta typealign_get_width NUMERICOID
                             offsetof_t_bits tdhasoid use_internal attrs) in
    0 < offsetof_t_bits ->
    nth_error attrs j = Some attr ->
    (forall i a, (i < j)%nat -> nth_error attrs i = Some a ->
                 fixed_width_attr typealign_get_width a) ->
    attlen attr <= 0 ->
    (use_internal = true -> atttypid attr <> NUMERICOID) ->
    forall i, (j <= i < List.length attrs)%nat ->
              exists cm, nth_error cms i = Some cm /\
                         colmeta_attcacheoff cm = -1.
Proof.
  intros tdhasoid ui attrs j attr cms Hp Hnth Hfix Hlen Hnum i Hi.
  assert (Hj : (j < List.length attrs)%nat)
    by (apply nth_error_Some; congruence).
  pose proof (fixed_prefix_positive tdhasoid ui attrs j Hp ltac:(lia) Hfix)
    as Hpos.
  assert (Hcond : (atttypid attr =? NUMERICOID) && ui = false).
  { destruct ui; [|apply andb_false_r].
    rewrite andb_true_r. apply Z.eqb_neq. now apply Hnum. }
  (* the step at column [j] loses the shortcut *)
  assert (Hlost : cs_attcacheoff (state_at tdhasoid ui attrs (S j)) = -1).
  { rewrite (state_at_S tdhasoid ui attrs j attr Hnth).
    unfold step, colmeta_step. cbn [cs_attcacheoff]. rewrite Hcond.
    destruct (Z.ltb_spec 0 (cs_attcacheoff (state_at tdhasoid ui attrs j)));
      [|lia].
    destruct (Z.ltb_spec 0 (attlen attr)); [lia|]. reflexivity. }
  destruct (nth_error attrs i) as [a|] eqn:Hnthi;
    [|apply nth_error_None in Hnthi; lia].
  pose proof (step_entry ui (state_at tdhasoid ui attrs i) a) as Hentry.
  rewrite (state_at_length tdhasoid ui attrs i ltac:(lia)) in Hentry.
  unfold cms. rewrite (colmeta_entry tdhasoid ui attrs i a Hnthi), Hentry.
  eexists. split; [reflexivity|]. cbn [colmeta_attcacheoff].
  destruct (Nat.eq_dec i j) as [-> | Hne].
  - assert (a = attr) by congruence. subst a. rewrite Hcond.
    destruct (Z.ltb_spec 0 (cs_attcacheoff (state_at tdhasoid ui attrs j)));
      [|lia].
    destruct (Z.ltb_spec 0 (attlen attr)); [lia|]. reflexivity.
  - rewrite (lost_shortcut_stays tdhasoid ui attrs (S j) ltac:(lia) Hlost i)
      by lia.
    reflexivity.
Qed.

Lemma fold_flags ui attrs st :
  cs_has_notbyval (fold_left (step ui) attrs st)
  = cs_has_notbyval st || existsb (fun a => negb (attbyval a)) attrs /\
  cs_has_numeric (fold_left (step ui) attrs st)
  = cs_has_numeric st || existsb (fun a => atttypid a =? NUMERICOID) attrs.
Proof.
  revert st. induction attrs as [|a attrs IH]; intros st;
    cbn [fold_left existsb].
  - now rewrite !orb_false_r.
  - destruct (IH (step ui st a)) as (-> & ->).
    unfold step, colmeta_step. cbn [cs_has_notbyval cs_has_numeric].
    destruct (attbyval a), (atttypid a =? NUMERICOID),
      (cs_has_notbyval st), (cs_has_numeric st); cbn; split; reflexivity.
Qed.

(** X4.  [init_kernel_data_store] writes one entry per attribute, which
    carries the number, the type, the type modifier and the alignment width
    of the attribute; a numeric attribute of a chunk in internal format is
    recorded as passed by value on 8 bytes, every other attribute with its
    own length and by-value flag.  [has_notbyval] is set exactly when some
    attribute is not passed by value, [has_numeric] exactly when some
    attribute is a numeric. *)
Theorem colmeta_entries_and_flags :
  forall (tdhasoid use_internal : bool) (attrs : list Form_pg_attribute),
    let st := init_colmeta typealign_get_width NUMERICOID offsetof_t_bits
                tdhasoid use_internal attrs in
    List.length (cs_colmeta st) = List.length attrs /\
    cs_has_notbyval st = existsb (fun a => negb (attbyval a)) attrs /\
    cs_has_numeric st = existsb (fun a => atttypid a =? NUMERICOID) attrs /\
    forall (i : nat) (attr : Form_pg_attribute),
      nth_error attrs i = Some attr ->
      exists cm,
        nth_error (cs_colmeta st) i = Some cm /\
        colmeta_attnum cm = attnum attr /\
        colmeta_atttypid cm = atttypid attr /\
        colmeta_atttypmod cm = atttypmod attr /\
        colmeta_attalign cm = typealign_get_width (attalign attr) /\
        (if (atttypid attr =? NUMERICOID) && use_internal
         then colmeta_attbyval cm = true /\ colmeta_attlen cm = 8
         else colmeta_attbyval cm = attbyval attr /\
              colmeta_attlen cm = attlen attr).
Proof.
  intros tdhasoid ui attrs st. split; [|split; [|split]].
  - pose proof (state_at_length tdhasoid ui attrs (List.length attrs)
                  ltac:(lia)) as Hlen.
    unfold state_at in Hlen. rewrite firstn_all in Hlen. exact Hlen.
  - unfold st, init_colmeta. fold (step ui).
    now destruct (fold_flags ui attrs
                    {| cs_attcacheoff := first_attcacheoff offsetof_t_bits tdhasoid;
                       cs_has_notbyval := false; cs_has_numeric := false;
                       cs_colmeta := [] |}) as (-> & _).
  - unfold st, init_colmeta. fold (step ui).
    now destruct (fold_flags ui attrs
                    {| cs_attcacheoff := first_attcacheoff offsetof_t_bits tdhasoid;
                       cs_has_notbyval := false; cs_has_numeric := false;
                       cs_colmeta := [] |}) as (_ & ->).
  - intros i attr Hnth.
    assert (Hi : (i < List.length attrs)%nat)
      by (apply nth_error_Some; congruence).
    pose proof (step_entry ui (state_at tdhasoid ui attrs i) attr) as Hentry.
    rewrite (state_at_length tdhasoid ui attrs i ltac:(lia)) in Hentry.
    unfold st. rewrite (colmeta_entry tdhasoid ui attrs i attr Hnth), Hentry.
    eexists. split; [reflexivity|].
    cbn [colmeta_attnum colmeta_atttypid colmeta_atttypmod colmeta_attalign
         colmeta_attbyval colmeta_attlen].
    repeat split; destruct ((atttypid attr =? NUMERICOID) && ui);
      split; reflexivity.
Qed.

End ColumnMetaFacts.

Lemma sample_attrs_fixed_prefix :
  forall j a, (j <= 1)%nat -> nth_error sample_attrs j = Some a ->
              fixed_width_attr sample_typealign_width a.
Proof.
  intros j a Hj Hnth.
  destruct j as [|[|j]]; [| |lia]; cbn in Hnth; injection Hnth as <-;
    (split; [cbn; lia|]).
  - exists 2. split; [lia | reflexivity].
  - exists 3. split; [lia | reflexivity].
Qed.

Lemma colmeta_fixed_prefix_offsets_witness :
  exists cm,
    nth_error (cs_colmeta (init_colmeta (L := sample_layout true)
                             sample_typealign_width 1700 23 false false
                             sample_attrs)) 1 = Some cm /\
    colmeta_attcacheoff cm = 32.
Proof.
  destruct (colmeta_fixed_prefix_offsets (L := sample_layout true)
              sample_typealign_width 1700 23 false false sample_attrs 1
              {| attnum := 2; atttypid := 20; atttypmod := -1; attlen := 8;
                 attbyval := true; attalign := 100; attisdropped := false |})
    as (cm & Hnth & _).
  - lia.
  - reflexivity.
  - exact sample_attrs_fixed_prefix.
  - exists cm. split; [exact Hnth|].
    vm_compute in Hnth. injection Hnth as <-. reflexivity.
Defined.

Lemma colmeta_no_offset_past_varlena_witness :
  exists cm,
    nth_error (cs_colmeta (init_colmeta (L := sample_layout true)
                             sample_typealign_width 1700 23 false false
                             sample_attrs)) 3 = Some cm /\
    colmeta_attcacheoff cm = -1.
Proof.
  apply (colmeta_no_offset_past_varlena (L := sample_layout true)
           sample_typealign_width 1700 23 false false sample_attrs 2
           {| attnum := 3; atttypid := 25; atttypmod := -1; attlen := -1;
              attbyval := false; attalign := 105; attisdropped := false |}).
  - lia.
  - reflexivity.
  - intros i a Hi. apply sample_attrs_fixed_prefix. lia.
  - cbn; lia.
  - discriminate.
  - cbn; lia.
Defined.

Lemma colmeta_entries_and_flags_witness :
  let st := init_colmeta (L := sample_layout true) sample_typealign_width
              1700 23 false false sample_attrs in
  cs_has_notbyval st = true /\ cs_has_numeric st = false /\
  exists cm, nth_error (cs_colmeta st) 2 = Some cm /\ colmeta_attlen cm = -1.
Proof.
  intros st.
  destruct (colmeta_entries_and_flags (L := sample_layout true)
              sample_typealign_width 1700 23 false false sample_attrs)
    as (_ & Hnb & Hnum & Hentries).
  split; [exact Hnb|]. split; [exact Hnum|].
  destruct (Hentries 2%nat
              {| attnum := 3; atttypid := 25; atttypmod := -1; attlen := -1;
                 attbyval := false; attalign := 105; attisdropped := false |}
              eq_refl)
    as (cm & Hnth & _ & _ & _ & _ & Hrest).
  exists cm. split; [exact Hnth|]. cbn in Hrest. apply Hrest.
Defined.

(** ** Consistency of a chunk under insertion *)

Section AppendItem.

Context {L : KdsLayout}.

(** a chunk [k'] obtained from a consistent chunk [k] by one more item,
    written below the payload of [k], and one more index entry *)
Lemma append_item_wf (k k' : kern_data_store) (req off : Z)
    (tup : HeapTupleData) :
  chunk_wf k ->
  format k' = format k -> ncols k' = ncols k -> length k' = length k ->
  nitems k' = nitems k + 1 -> usage k' = usage k + req -> 0 <= req ->
  kds_min_length k' <= length k' ->
  (forall x,
      x < KERN_DATA_STORE_ROWINDEX k + 4 * nitems k \/
      KERN_DATA_STORE_ROWINDEX k + 4 * nitems k + 4 <= x ->
      x < length k - usage k' \/ length k - usage k <= x ->
      body k' x = body k x) ->
  KERN_DATA_STORE_TUPITEM k' (nitems k) = off ->
  length k - usage k' <= item_start k' (nitems k) ->
  0 <= t_len tup ->
  off + offsetof_htup + t_len tup <= length k - usage k ->
  same_tuple (read_tupitem (body k') off) tup ->
  chunk_wf k' /\
  (forall i, 0 <= i < nitems k ->
             KERN_DATA_STORE_TUPITEM k' i = KERN_DATA_STORE_TUPITEM k i /\
             item_start k' i = item_start k i /\
             same_tuple (stored_tuple k' i) (stored_tuple k i)) /\
  same_tuple (stored_tuple k' (nitems k)) tup.
Proof.
  intros Hwf Ef Ec El En Eu Hreq Hmin Hframe Eoff Hstart Hlen Hend Hsame.
  pose proof (chunk_wf_regions k Hwf) as (Hr0 & Hr1 & Hr2 & Hr3).
  destruct Hwf as (Hf & Hc & Hn & Hu & Hmin0 & Hl32 & Hitems).
  assert (Eri : KERN_DATA_STORE_ROWINDEX k' = KERN_DATA_STORE_ROWINDEX k).
  { unfold KERN_DATA_STORE_ROWINDEX, KERN_DATA_STORE_BODY,
      KERN_DATA_STORE_HEAD_LENGTH. now rewrite Ec. }
  set (ri := KERN_DATA_STORE_ROWINDEX k) in *.
  assert (Hidx : ri + 4 * nitems k + 4 <= length k - usage k').
  { destruct (front_length_bounds k') as (H1 & H2); [lia | lia |].
    rewrite min_length_front in Hmin.
    pose proof (STROMALIGN_bounds (usage k')). rewrite Eri, En in H1. lia. }
  assert (Hold : forall i, 0 <= i < nitems k ->
                   KERN_DATA_STORE_TUPITEM k' i = KERN_DATA_STORE_TUPITEM k i /\
                   item_start k' i = item_start k i /\
                   same_tuple (stored_tuple k' i) (stored_tuple k i)).
  { intros i Hi.
    assert (Et : KERN_DATA_STORE_TUPITEM k' i = KERN_DATA_STORE_TUPITEM k i).
    { unfold KERN_DATA_STORE_TUPITEM. rewrite Eri. fold ri.
      apply row_index_get_ext. intros x Hx. apply Hframe; lia. }
    split; [exact Et|]. split; [unfold item_start; now rewrite Et, Ef|].
    unfold stored_tuple. rewrite Et.
    destruct (Hitems i Hi) as (Ht & Hlo & Hhi).
    apply read_tupitem_ext with (len := t_len (stored_tuple k i));
      [assumption | reflexivity |].
    intros x Hx. apply Hframe.
    - right. unfold item_start in Hlo.
      destruct hashitem_layout as (? & ? & ? & ?).
      destruct (format_eqb _ _); lia.
    - right. unfold item_start in Hlo.
      destruct hashitem_layout as (? & ? & ? & ?).
      destruct (format_eqb _ _); lia. }
  assert (Hnew : same_tuple (stored_tuple k' (nitems k)) tup)
    by (unfold stored_tuple; now rewrite Eoff).
  split; [|split; assumption].
  split; [now rewrite Ef|]. split; [lia|]. split; [lia|]. split; [lia|].
  split; [assumption|]. split; [lia|].
  intros i Hi. destruct (Z.eq_dec i (nitems k)) as [-> | Hne].
  - destruct Hnew as (Et & _). rewrite Et, Eoff, El.
    split; [assumption|]. split; lia.
  - destruct (Hold i ltac:(lia)) as (Et & Es & (Etl & _)).
    destruct (Hitems i ltac:(lia)) as (Ht & Hlo & Hhi).
    rewrite Etl, Es, Et, El. split; [assumption|]. split; lia.
Qed.

(** X5.  The chunk [PDS_create_row] makes is consistent as soon as its
    length holds the header.  An insertion that [PDS_insert_tuple] accepts,
    of a tuple whose length fits the length field of an item (16 bits in
    [kern_tupitem], so below 65536 bytes) and whose identifier is made of
    16-bit words, keeps a consistent chunk consistent: the index array and
    the payload do not meet, every item lies in the used part of the
    payload.  The records that were there keep their index entry and their
    content, the new record is stored under the next index, and the usage
    grows by the aligned size of the item. *)
Theorem insert_tuple_keeps_consistency :
  (forall (fresh : memory) (tupdesc : TupleDesc) (len : Z),
      0 <= natts tupdesc ->
      KDS_CALCULATE_HEAD_LENGTH (natts tupdesc) <= STROMALIGN_DOWN len < 2 ^ 32 ->
      chunk_wf (kds (PDS_create_row fresh tupdesc len))) /\
  (forall (pds pds' : pgstrom_data_store) (natts : Z) (tup : HeapTupleData),
      let k := kds pds in
      let k' := kds pds' in
      chunk_wf k ->
      tuple_fits tup ->
      PDS_insert_tuple pds natts tup = Done (true, pds') ->
      chunk_wf k' /\
      format k' = KDS_FORMAT_ROW /\ length k' = length k /\
      nitems k' = nitems k + 1 /\ nslots k' = nslots k /\
      usage k' = usage k + row_required tup /\
      (forall i, 0 <= i < nitems k ->
                 KERN_DATA_STORE_TUPITEM k' i = KERN_DATA_STORE_TUPITEM k i /\
                 same_tuple (stored_tuple k' i) (stored_tuple k i)) /\
      same_tuple (stored_tuple k' (nitems k)) tup).
Proof.
  split.
  - intros fresh tupdesc len Hn Hlen. unfold PDS_create_row, chunk_wf.
    cbn [kds init_kernel_data_store format ncols nitems usage length].
    split; [now left|]. split; [assumption|]. split; [lia|]. split; [lia|].
    split; [|split; [lia|intros i Hi; cbn in Hi; lia]].
    unfold kds_min_length, KDS_CALCULATE_ROW_LENGTH, KDS_CALCULATE_ROW_FRONTLEN.
    cbn [format format_eqb ncols nitems usage init_kernel_data_store].
    rewrite Z.mul_0_r, STROMALIGN_zero. lia.
  - intros pds pds' natts tup k k' Hwf Hfit Hins.
    apply insert_tuple_true_inv in Hins. cbv zeta in Hins.
    destruct Hins as (Hroom & Hfmt & Hchk & Epds).
    fold k in Hroom, Hfmt, Hchk, Epds.
    pose proof (chunk_wf_regions k Hwf) as (Hr0 & Hr1 & Hr2 & Hr3).
    pose proof Hwf as (_ & Hc & Hn & Hu & _ & Hl32 & _).
    destruct Hfit as ((Hl0 & Hl1) & Hip).
    pose proof (LONGALIGN_bounds (offsetof_htup + t_len tup)) as Hreq.
    fold (row_required tup) in Hreq.
    destruct tupitem_layout as (Hs & Hts & Hh).
    set (off := length k - (usage k + row_required tup)) in *.
    subst pds'. subst k'. cbn [kds].
    assert (Hmin' : KDS_CALCULATE_ROW_LENGTH (ncols k) (nitems k + 1)
                      (usage k + row_required tup) <= length k)
      by (rewrite (Z.add_comm (usage k)); exact Hchk).
    assert (Hidx : KERN_DATA_STORE_ROWINDEX k + 4 * nitems k + 4 <= off).
    { unfold KDS_CALCULATE_ROW_LENGTH, KDS_CALCULATE_ROW_FRONTLEN in Hmin'.
      pose proof (STROMALIGN_bounds (4 * (nitems k + 1))).
      pose proof (STROMALIGN_bounds (usage k + row_required tup)).
      unfold KERN_DATA_STORE_ROWINDEX, KERN_DATA_STORE_BODY,
        KERN_DATA_STORE_HEAD_LENGTH, off. lia. }
    match goal with
    | |- chunk_wf ?kk /\ _ =>
        destruct (append_item_wf k kk (row_required tup) off tup)
          as (Hwf' & Hold & Hnew)
    end; cbn [format ncols length nitems usage body nslots]; try reflexivity;
      try assumption; try lia.
    + unfold kds_min_length.
      cbn [format ncols length nitems usage]. rewrite Hfmt. cbn [format_eqb].
      exact Hmin'.
    + intros x Hx1 Hx2. rewrite row_index_set_outside by lia.
      apply write_tupitem_outside; [assumption|]. fold off in Hx2. lia.
    + unfold KERN_DATA_STORE_TUPITEM, KERN_DATA_STORE_ROWINDEX,
        KERN_DATA_STORE_BODY, KERN_DATA_STORE_HEAD_LENGTH.
      cbn [body ncols]. apply row_index_get_set_same.
      unfold KERN_DATA_STORE_ROWINDEX, KERN_DATA_STORE_BODY,
        KERN_DATA_STORE_HEAD_LENGTH in Hidx, Hr0. unfold off in *. lia.
    + unfold item_start, KERN_DATA_STORE_TUPITEM, KERN_DATA_STORE_ROWINDEX,
        KERN_DATA_STORE_BODY, KERN_DATA_STORE_HEAD_LENGTH.
      cbn [body ncols format]. rewrite Hfmt. cbn [format_eqb].
      rewrite row_index_get_set_same; [fold off; lia|].
      unfold KERN_DATA_STORE_ROWINDEX, KERN_DATA_STORE_BODY,
        KERN_DATA_STORE_HEAD_LENGTH in Hidx, Hr0. unfold off in *. lia.
    + apply same_tuple_trans
        with (read_tupitem (write_tupitem (body k) off tup) off).
      * apply read_tupitem_ext with (len := t_len tup).
        -- assumption.
        -- apply (read_write_tupitem (body k) off tup).
           split; [split|]; assumption.
        -- intros x Hx. apply row_index_set_outside. lia.
      * apply read_write_tupitem. split; [split|]; assumption.
    + split; [exact Hwf'|]. split; [exact Hfmt|].
      repeat match goal with |- _ /\ _ => split end; try reflexivity.
      * intros i Hi. destruct (Hold i Hi) as (H1 & _ & H3). now split.
      * exact Hnew.
Qed.

End AppendItem.

Lemma sample_tuple_fits (assert_checking : bool) (seed : Z) :
  0 <= seed < 65536 ->
  tuple_fits (L := sample_layout assert_checking) (sample_tuple 64 seed).
Proof.
  intros Hs. split; [split; [discriminate | reflexivity]|].
  unfold itemptr_fits. cbn. lia.
Qed.

Lemma insert_tuple_keeps_consistency_witness :
  let L := sample_layout true in
  exists pds',
    PDS_insert_tuple (PDS_create_row zero_memory sample_tupdesc 360) 2
      (sample_tuple 64 1) = Done (true, pds') /\
    chunk_wf (kds pds') /\ nitems (kds pds') = 1.
Proof.
  intros L.
  destruct (insert_tuple_keeps_consistency (L := L)) as (Hcreate & Hstep).
  destruct (PDS_insert_tuple (PDS_create_row zero_memory sample_tupdesc 360) 2
              (sample_tuple 64 1)) as [[[|] pds']| |] eqn:Hins;
    try (vm_compute in Hins; discriminate).
  exists pds'. split; [reflexivity|].
  destruct (Hstep _ pds' 2 (sample_tuple 64 1)
              (Hcreate zero_memory sample_tupdesc 360
                 ltac:(vm_compute; discriminate)
                 ltac:(vm_compute; split; [discriminate | reflexivity]))
              (sample_tuple_fits true 1 ltac:(lia)) Hins)
    as (Hwf & _ & _ & Hn & _).
  split; [exact Hwf | exact Hn].
Defined.

(** ** Hash-format chunks: insertion *)

Section HashInsert.

Context {L : KdsLayout}.

Lemma MAXALIGN_aligned x y :
  x = MAXALIGN x -> y = MAXALIGN y -> x + y = MAXALIGN (x + y).
Proof.
  unfold MAXALIGN. rewrite !(TYPEALIGN_div _ MAXIMUM_ALIGNOF_pow2).
  intros Hx Hy. rewrite Hx, Hy at 1.
  rewrite <- Z.mul_add_distr_l. symmetry.
  rewrite Hx, Hy at 1. rewrite <- Z.mul_add_distr_l.
  rewrite <- (TYPEALIGN_div _ MAXIMUM_ALIGNOF_pow2).
  apply (TYPEALIGN_mult _ MAXIMUM_ALIGNOF_pow2).
Qed.

Lemma MAXALIGN_idem x : MAXALIGN x = MAXALIGN (MAXALIGN x).
Proof.
  unfold MAXALIGN. rewrite (TYPEALIGN_div _ MAXIMUM_ALIGNOF_pow2 x).
  symmetry. apply (TYPEALIGN_mult _ MAXIMUM_ALIGNOF_pow2).
Qed.

(** what a successful [PDS_insert_hashitem] has checked and written *)
Lemma insert_hashitem_true_inv pds natts tup hash_value pds' :
  PDS_insert_hashitem pds natts tup hash_value = Done (true, pds') ->
  let k := kds pds in
  let khitem := length k - (usage k + hash_required tup) in
  nitems k < nrooms k /\
  format k = KDS_FORMAT_HASH /\
  KDS_CALCULATE_HASH_LENGTH (ncols k) (nitems k + 1)
    (hash_required tup + usage k) <= length k /\
  pds' = {| refcnt := refcnt pds;
            kds := {| length := length k;
                      usage := usage k + hash_required tup;
                      ncols := ncols k;
                      nitems := nitems k + 1;
                      nrooms := nrooms k;
                      format := format k;
                      nslots := nslots k;
                      nrows_per_block := nrows_per_block k;
                      body :=
                        row_index_set
                          (write_tupitem
                             (store_uint 4
                                (store_uint 4
                                   (store_uint 4 (body k)
                                      (khitem + offsetof_hash) hash_value)
                                   (khitem + offsetof_next) 2139062143)
                                (khitem + offsetof_rowid) (nitems k))
                             (khitem + offsetof_t) tup)
                          (KERN_DATA_STORE_ROWINDEX k) (nitems k)
                          (khitem + offsetof_t) |} |}.
Proof.
  unfold PDS_insert_hashitem, hash_required.
  destruct (Z.leb_spec (nrooms (kds pds)) (nitems (kds pds))) as [Hr|Hr];
    [discriminate|].
  destruct (Assert_cases (ncols (kds pds) =? natts)) as [HA | (HA & _)];
    rewrite HA; cbn [bind]; [|discriminate].
  destruct (format (kds pds)) eqn:Hf; cbn [format_eqb negb]; try discriminate.
  destruct (Assert_cases (usage (kds pds) =? MAXALIGN (usage (kds pds))))
    as [HB | (HB & _)]; rewrite HB; cbn [bind]; [|discriminate].
  match goal with
  | |- context [if ?c then _ else _] => destruct c eqn:Hc
  end; [discriminate|].
  apply Z.ltb_ge in Hc. intros Heq. injection Heq as <-.
  cbv zeta. auto.
Qed.

(** a successful insertion appends the item and keeps the others *)
Lemma insert_hashitem_step pds natts tup hash_value pds' :
  let k := kds pds in
  let k' := kds pds' in
  chunk_wf k -> hash_items_wf k ->
  tuple_fits tup -> 0 <= hash_value < 2 ^ 32 ->
  PDS_insert_hashitem pds natts tup hash_value = Done (true, pds') ->
  chunk_wf k' /\ hash_items_wf k' /\
  format k' = KDS_FORMAT_HASH /\ length k' = length k /\
  ncols k' = ncols k /\
  nitems k' = nitems k + 1 /\ nslots k' = nslots k /\
  usage k' = usage k + hash_required tup /\
  (usage k = MAXALIGN (usage k) -> usage k' = MAXALIGN (usage k')) /\
  (forall i, 0 <= i < nitems k ->
             KERN_DATA_STORE_TUPITEM k' i = KERN_DATA_STORE_TUPITEM k i /\
             same_tuple (stored_tuple k' i) (stored_tuple k i) /\
             item_hash k' i = item_hash k i) /\
  same_tuple (stored_tuple k' (nitems k)) tup /\
  item_hash k' (nitems k) = hash_value /\
  item_rowid k' (nitems k) = nitems k /\
  item_next k' (nitems k) = 2139062143.
Proof.
  intros k k' Hwf Hhwf Hfit Hhv Hins.
  apply insert_hashitem_true_inv in Hins. cbv zeta in Hins.
  destruct Hins as (Hroom & Hfmt & Hchk & Epds).
  fold k in Hroom, Hfmt, Hchk, Epds.
  pose proof (chunk_wf_regions k Hwf) as (Hr0 & Hr1 & Hr2 & Hr3).
  pose proof Hwf as (_ & Hc & Hn & Hu & _ & Hl32 & Hitems).
  destruct Hfit as ((Hl0 & Hl1) & Hip).
  pose proof (MAXALIGN_bounds (offsetof_t + offsetof_htup + t_len tup)) as Hreq.
  fold (hash_required tup) in Hreq.
  destruct tupitem_layout as (Hs & Hts & Hh).
  destruct hashitem_layout as (Hh0 & Hh1 & Hh2 & Hh3).
  set (khitem := length k - (usage k + hash_required tup)) in *.
  subst pds'. subst k'. cbn [kds].
  set (ri := KERN_DATA_STORE_ROWINDEX k) in *.
  set (m1 := store_uint 4 (body k) (khitem + offsetof_hash) hash_value).
  set (m2 := store_uint 4 m1 (khitem + offsetof_next) 2139062143).
  set (m3 := store_uint 4 m2 (khitem + offsetof_rowid) (nitems k)).
  set (m4 := write_tupitem m3 (khitem + offsetof_t) tup).
  set (m5 := row_index_set m4 ri (nitems k) (khitem + offsetof_t)).
  assert (Hmin' : KDS_CALCULATE_HASH_LENGTH (ncols k) (nitems k + 1)
                    (usage k + hash_required tup) <= length k)
    by (rewrite (Z.add_comm (usage k)); exact Hchk).
  assert (Hidx : ri + 4 * nitems k + 4 <= khitem).
  { unfold KDS_CALCULATE_HASH_LENGTH, KDS_CALCULATE_HASH_FRONTLEN in Hmin'.
    pose proof (STROMALIGN_bounds (4 * (nitems k + 1))).
    pose proof (STROMALIGN_bounds (4 * __KDS_NSLOTS (nitems k + 1))).
    pose proof (KDS_NSLOTS_ge (nitems k + 1) ltac:(lia)).
    pose proof (STROMALIGN_bounds (usage k + hash_required tup)).
    unfold ri, KERN_DATA_STORE_ROWINDEX, KERN_DATA_STORE_BODY,
      KERN_DATA_STORE_HEAD_LENGTH, khitem. lia. }
  assert (Hri0 : 0 <= ri) by exact Hr0.
  (* what the five stores leave untouched *)
  assert (Hm54 : forall x, x < ri + 4 * nitems k \/ ri + 4 * nitems k + 4 <= x ->
                           m5 x = m4 x)
    by (intros x Hx; apply row_index_set_outside; exact Hx).
  assert (Hm43 : forall x, x < khitem + offsetof_t \/
                           khitem + offsetof_t + offsetof_htup + t_len tup <= x ->
                           m4 x = m3 x)
    by (intros x Hx; apply write_tupitem_outside; assumption).
  assert (Hm32 : forall x, x < khitem + offsetof_rowid \/
                           khitem + offsetof_rowid + 4 <= x -> m3 x = m2 x)
    by (intros x Hx; apply store_uint_outside; change (Z.of_nat 4) with 4; lia).
  assert (Hm21 : forall x, x < khitem + offsetof_next \/
                           khitem + offsetof_next + 4 <= x -> m2 x = m1 x)
    by (intros x Hx; apply store_uint_outside; change (Z.of_nat 4) with 4; lia).
  assert (Hm10 : forall x, x < khitem + offsetof_hash \/
                           khitem + offsetof_hash + 4 <= x -> m1 x = body k x)
    by (intros x Hx; apply store_uint_outside; change (Z.of_nat 4) with 4; lia).
  assert (Hframe : forall x,
             x < ri + 4 * nitems k \/ ri + 4 * nitems k + 4 <= x ->
             x < khitem \/ length k - usage k <= x -> m5 x = body k x).
  { intros x Hx1 Hx2. unfold khitem in Hx2.
    rewrite Hm54, Hm43, Hm32, Hm21, Hm10 by (unfold khitem; lia).
    reflexivity. }
  assert (Etup : row_index_get m5 ri (nitems k) = khitem + offsetof_t).
  { apply row_index_get_set_same. unfold khitem in *. lia. }
  match goal with
  | |- chunk_wf ?kk /\ _ =>
      set (k' := kk);
      destruct (append_item_wf k k' (hash_required tup) (khitem + offsetof_t) tup)
        as (Hwf' & Hold & Hnew)
  end; unfold k'; cbn [format ncols length nitems usage body nslots];
    try reflexivity; try assumption; try lia.
  - unfold kds_min_length.
    cbn [format ncols length nitems usage]. rewrite Hfmt. cbn [format_eqb].
    exact Hmin'.
  - unfold item_start, KERN_DATA_STORE_TUPITEM, KERN_DATA_STORE_ROWINDEX,
      KERN_DATA_STORE_BODY, KERN_DATA_STORE_HEAD_LENGTH.
    cbn [body ncols format]. rewrite Hfmt. cbn [format_eqb].
    change (KDS_CALCULATE_HEAD_LENGTH (ncols k)) with ri.
    rewrite Etup. fold khitem. lia.
  - apply same_tuple_trans with (read_tupitem m4 (khitem + offsetof_t)).
    + apply read_tupitem_ext with (len := t_len tup).
      * assumption.
      * apply (read_write_tupitem m3 (khitem + offsetof_t) tup).
        split; [split|]; assumption.
      * intros x Hx. apply Hm54. lia.
    + apply read_write_tupitem. split; [split|]; assumption.
  - fold k' in Hwf', Hold, Hnew |- *.
    assert (Estart : item_start k' (nitems k) = khitem).
    { unfold item_start, KERN_DATA_STORE_TUPITEM, KERN_DATA_STORE_ROWINDEX,
        KERN_DATA_STORE_BODY, KERN_DATA_STORE_HEAD_LENGTH, k'.
      cbn [body ncols format]. rewrite Hfmt. cbn [format_eqb].
      change (KDS_CALCULATE_HEAD_LENGTH (ncols k)) with ri.
      rewrite Etup. lia. }
    assert (Hword : forall f, 0 <= f -> f + 4 <= offsetof_t ->
                      load_uint 4 m5 (khitem + f) = load_uint 4 m3 (khitem + f)).
    { intros f Hf0 Hf4. apply load_uint_ext. change (Z.of_nat 4) with 4.
      intros x Hx. rewrite Hm54, Hm43 by lia. reflexivity. }
    assert (Ehash : item_hash k' (nitems k) = hash_value).
    { unfold item_hash. rewrite Estart. unfold k'. cbn [body].
      rewrite Hword by lia. erewrite load_uint_ext.
      - unfold m1. apply load_store_uint_small.
        change (256 ^ Z.of_nat 4) with (2 ^ 32). exact Hhv.
      - change (Z.of_nat 4) with 4. intros x Hx.
        rewrite Hm32, Hm21 by lia. reflexivity. }
    assert (Enext : item_next k' (nitems k) = 2139062143).
    { unfold item_next. rewrite Estart. unfold k'. cbn [body].
      rewrite Hword by lia. erewrite load_uint_ext.
      - unfold m2. apply load_store_uint_small.
        change (256 ^ Z.of_nat 4) with (2 ^ 32). lia.
      - change (Z.of_nat 4) with 4. intros x Hx.
        rewrite Hm32 by lia. reflexivity. }
    assert (Erowid : item_rowid k' (nitems k) = nitems k).
    { unfold item_rowid. rewrite Estart. unfold k'. cbn [body].
      rewrite Hword by lia. unfold m3. apply load_store_uint_small.
      change (256 ^ Z.of_nat 4) with (2 ^ 32). unfold khitem in *. lia. }
    (* the header words of the items that were there *)
    assert (Hkeep : forall i f, 0 <= i < nitems k -> 0 <= f ->
                      f + 4 <= offsetof_t ->
                      load_uint 4 (body k') (item_start k' i + f)
                      = load_uint 4 (body k) (item_start k i + f)).
    { intros i f Hi Hf0 Hf4. destruct (Hold i Hi) as (_ & -> & _).
      destruct (chunk_wf_item k i Hwf Hi) as (_ & Hlo & Hle & _).
      apply load_uint_ext. change (Z.of_nat 4) with 4. intros x Hx.
      unfold k'. cbn [body]. apply Hframe; lia. }
    assert (Hend : forall i, 0 <= i < nitems k -> item_end k' i = item_end k i).
    { intros i Hi. destruct (Hold i Hi) as (Et & _ & (Etl & _)).
      unfold item_end. now rewrite Et, Etl. }
    assert (Hend_new : item_end k' (nitems k) <= length k - usage k).
    { unfold item_end. destruct Hnew as (Etl & _). rewrite Etl.
      unfold KERN_DATA_STORE_TUPITEM, k'. cbn [body].
      unfold KERN_DATA_STORE_ROWINDEX, KERN_DATA_STORE_BODY,
        KERN_DATA_STORE_HEAD_LENGTH. cbn [ncols].
      change (KDS_CALCULATE_HEAD_LENGTH (ncols k)) with ri.
      rewrite Etup. unfold khitem. lia. }
    split; [exact Hwf'|]. split.
    { (* the items carry their index and do not overlap *)
      destruct Hhwf as (Hrid & Hdisj). unfold hash_items_wf.
      replace (nitems k') with (nitems k + 1) by reflexivity. split.
      - intros i Hi. destruct (Z.eq_dec i (nitems k)) as [-> | Hne];
          [exact Erowid|].
        unfold item_rowid. rewrite Hkeep by lia. apply Hrid. lia.
      - intros i j Hi Hj Hne.
        destruct (Z.eq_dec i (nitems k)) as [-> | Hni];
          destruct (Z.eq_dec j (nitems k)) as [-> | Hnj]; try lia.
        + left. destruct (Hold j ltac:(lia)) as (_ & -> & _).
          destruct (chunk_wf_item k j Hwf ltac:(lia)) as (_ & Hlo & _). lia.
        + right. destruct (Hold i ltac:(lia)) as (_ & -> & _).
          destruct (chunk_wf_item k i Hwf ltac:(lia)) as (_ & Hlo & _). lia.
        + rewrite !Hend by lia.
          destruct (Hold i ltac:(lia)) as (_ & -> & _).
          destruct (Hold j ltac:(lia)) as (_ & -> & _).
          apply Hdisj; lia. }
    split; [exact Hfmt|].
    replace (length k') with (length k) by reflexivity.
    replace (ncols k') with (ncols k) by reflexivity.
    replace (nitems k') with (nitems k + 1) by reflexivity.
    replace (nslots k') with (nslots k) by reflexivity.
    replace (usage k') with (usage k + hash_required tup) by reflexivity.
    repeat match goal with |- _ /\ _ => split end; try reflexivity.
    + intros Hal. apply MAXALIGN_aligned; [exact Hal|].
      unfold hash_required. apply MAXALIGN_idem.
    + intros i Hi. destruct (Hold i Hi) as (H1 & _ & H3).
      split; [exact H1|]. split; [exact H3|].
      unfold item_hash. apply Hkeep; lia.
    + exact Hnew.
    + exact Ehash.
    + exact Erowid.
    + exact Enext.
Qed.

End HashInsert.

(** ** Hash-format chunks: the hash table *)

Section BuildLoop.

Context {L : KdsLayout}.

Lemma build_loop_app ri hs ns l1 l2 m :
  build_loop ri hs ns (l1 ++ l2) m =
  (m' <- build_loop ri hs ns l1 m ;; build_loop ri hs ns l2 m').
Proof.
  revert m; induction l1 as [|i l1 IH]; intros m; cbn [app build_loop bind].
  - reflexivity.
  - destruct (build_step ri hs ns m i); cbn [bind]; auto.
Qed.

(** The loop runs over a buffer [m0] whose index array, at [ri], designates
    items that start at [start i], all of them from [base] on, and whose
    hash slots, at [hs], are cleared. *)
Variables ri hs ns n base : Z.
Variable start : Z -> Z.
Variable m0 : memory.

Let hash_of (i : Z) : Z := load_uint 4 m0 (start i + offsetof_hash).
Let blast (b : Z) (j : Z) : Z := bucket_last hash_of start ns b (Z.to_nat j).

Hypothesis Hn : 0 <= n.
Hypothesis Hns : 0 < n -> 0 < ns.
Hypothesis Hregions : ri + 4 * n <= hs /\ hs + 4 * ns <= base.
Hypothesis Hitems :
  forall i, 0 <= i < n ->
            row_index_get m0 ri i = start i + offsetof_t /\ base <= start i /\
            0 <= start i < 2 ^ 32 /\
            load_uint 4 m0 (start i + offsetof_rowid) = i.
Hypothesis Hdisj :
  forall i j, 0 <= i < n -> 0 <= j < n -> i <> j ->
              start i + offsetof_t <= start j \/ start j + offsetof_t <= start i.
Hypothesis Hzero :
  forall b, 0 <= b < ns -> load_uint 4 m0 (hs + 4 * b) = 0.

(** the state of the buffer when the records before [j] have been linked *)
Let build_inv (j : Z) (m : memory) : Prop :=
  (forall b, 0 <= b < ns -> load_uint 4 m (hs + 4 * b) = blast b j) /\
  (forall i, 0 <= i < j ->
             load_uint 4 m (start i + offsetof_next)
             = blast (hash_of i mod ns) i) /\
  (forall x,
      (x < hs \/ hs + 4 * ns <= x) ->
      (forall i, 0 <= i < j ->
                 x < start i + offsetof_next \/
                 start i + offsetof_next + 4 <= x) ->
      m x = m0 x).

Lemma build_blast_succ b j :
  0 <= j ->
  blast b (j + 1) = if hash_of j mod ns =? b then start j else blast b j.
Proof.
  intros Hj. unfold blast.
  replace (Z.to_nat (j + 1)) with (S (Z.to_nat j)) by lia.
  cbn [bucket_last]. now rewrite Z2Nat.id by lia.
Qed.

Lemma build_blast_range b j :
  0 <= j <= n -> 0 <= blast b j < 2 ^ 32.
Proof.
  intros (Hj0 & Hjn). revert Hjn. pattern j.
  apply index_range_ind; [| |exact Hj0].
  - intros _. unfold blast. cbn. lia.
  - intros j' Hj' IH Hjn. rewrite build_blast_succ by assumption.
    destruct (_ =? b); [|apply IH; lia].
    destruct (Hitems j') as (_ & _ & Hr & _); [lia | exact Hr].
Qed.

(** a word of the header of item [j'], other than the [next] word of a
    linked item, is as it was when the loop started *)
Lemma build_inv_header_word j m j' f :
  j <= n ->
  build_inv j m -> 0 <= j' < n ->
  0 <= f -> f + 4 <= offsetof_t ->
  (j <= j' \/ f + 4 <= offsetof_next \/ offsetof_next + 4 <= f) ->
  load_uint 4 m (start j' + f) = load_uint 4 m0 (start j' + f).
Proof.
  intros Hjn (_ & _ & Hframe) Hj' Hf0 Hf4 Hnot.
  apply load_uint_ext. change (Z.of_nat 4) with 4. intros x Hx.
  destruct (Hitems j' Hj') as (_ & Hb & _ & _).
  destruct Hregions as (Hr1 & Hr2).
  apply Hframe; [lia |]. intros i Hi.
  destruct hashitem_layout as (? & ? & ? & ?).
  destruct (Z.eq_dec i j') as [-> | Hne]; [lia|].
  destruct (Hdisj i j' ltac:(lia) Hj' Hne) as [Hd | Hd]; lia.
Qed.

Lemma build_step_spec j m :
  0 <= j < n -> build_inv j m ->
  exists m', build_step ri hs ns m j = Done m' /\ build_inv (j + 1) m'.
Proof.
  intros Hj Hinv. pose proof Hinv as (Hslot & Hnext & Hframe).
  destruct Hregions as (Hr1 & Hr2).
  assert (Hpos : 0 < ns) by (apply Hns; lia).
  destruct (Hitems j Hj) as (Hidx & Hbase & Hsr & Hrowid).
  destruct hashitem_layout as (Hl0 & Hl1 & Hl2 & Hl3).
  unfold build_step.
  assert (Eidx : row_index_get m ri j = start j + offsetof_t).
  { rewrite <- Hidx. apply row_index_get_ext. intros x Hx.
    apply Hframe; [lia|]. intros i Hi.
    destruct (Hitems i) as (_ & Hbi & _ & _); lia. }
  rewrite Eidx. replace (start j + offsetof_t - offsetof_t) with (start j) by lia.
  assert (Hword : forall f, 0 <= f -> f + 4 <= offsetof_t ->
                    (f + 4 <= offsetof_next \/ offsetof_next + 4 <= f) ->
                    load_uint 4 m (start j + f) = load_uint 4 m0 (start j + f)).
  { intros f Hf0 Hf4 Hnot.
    apply (build_inv_header_word j m j f); try assumption; try lia. }
  rewrite (Hword offsetof_rowid) by lia. rewrite Hrowid, Z.eqb_refl.
  rewrite Assert_true. cbn [bind].
  rewrite (Hword offsetof_hash) by lia. fold (hash_of j).
  set (khindex := hash_of j mod ns).
  assert (Hkh : 0 <= khindex < ns) by (apply Z.mod_pos_bound; lia).
  rewrite (Hslot khindex Hkh).
  set (m1 := store_uint 4 m (start j + offsetof_next) (blast khindex j)).
  set (m2 := store_uint 4 m1 (hs + 4 * khindex) (start j)).
  assert (Hm1 : forall x, x < start j + offsetof_next \/
                          start j + offsetof_next + 4 <= x -> m1 x = m x)
    by (intros x Hx; apply store_uint_outside; change (Z.of_nat 4) with 4; lia).
  assert (Hm2 : forall x, x < hs + 4 * khindex \/
                          hs + 4 * khindex + 4 <= x -> m2 x = m1 x)
    by (intros x Hx; apply store_uint_outside; change (Z.of_nat 4) with 4; lia).
  exists m2. split; [reflexivity|].
  unfold build_inv. repeat match goal with |- _ /\ _ => split end.
  - intros b Hb. rewrite build_blast_succ by lia. fold khindex.
    destruct (Z.eqb_spec khindex b) as [<- | Hne].
    + unfold m2. apply load_store_uint_small.
      change (256 ^ Z.of_nat 4) with (2 ^ 32). exact Hsr.
    + rewrite <- (Hslot b Hb). apply load_uint_ext.
      change (Z.of_nat 4) with 4. intros x Hx.
      rewrite Hm2, Hm1 by lia. reflexivity.
  - intros i Hi. destruct (Z.eq_dec i j) as [-> | Hne].
    + fold khindex. erewrite load_uint_ext.
      * unfold m1. apply load_store_uint_small.
        change (256 ^ Z.of_nat 4) with (2 ^ 32).
        apply build_blast_range; lia.
      * change (Z.of_nat 4) with 4. intros x Hx. apply Hm2. lia.
    + rewrite <- (Hnext i) by lia. apply load_uint_ext.
      change (Z.of_nat 4) with 4. intros x Hx.
      destruct (Hitems i) as (_ & Hbi & _ & _); [lia|].
      destruct (Hdisj i j) as [Hd | Hd]; try lia;
        rewrite Hm2, Hm1 by lia; reflexivity.
  - intros x Hx2 Hx3.
    pose proof (Hx3 j ltac:(lia)) as Hxj.
    rewrite Hm2, Hm1 by lia.
    apply Hframe; [assumption |]. intros i Hi. apply Hx3. lia.
Qed.

Lemma build_loop_spec :
  exists m,
    build_loop ri hs ns (index_range n) m0 = Done m /\ build_inv n m.
Proof.
  assert (H : forall j, 0 <= j -> j <= n ->
                        exists m, build_loop ri hs ns (index_range j) m0
                                  = Done m /\ build_inv j m).
  { apply (index_range_ind
             (fun j => j <= n ->
                       exists m, build_loop ri hs ns (index_range j) m0
                                 = Done m /\ build_inv j m)).
    - intros _. exists m0. split; [reflexivity|].
      unfold build_inv. repeat match goal with |- _ /\ _ => split end.
      + intros b Hb. unfold blast. cbn. now apply Hzero.
      + intros; lia.
      + reflexivity.
    - intros j Hj IH Hjn. destruct IH as (m & Hrun & Hinv); [lia|].
      destruct (build_step_spec j m) as (m' & Hstep & Hinv'); [lia | assumption|].
      exists m'. split; [|assumption].
      rewrite index_range_succ, build_loop_app by assumption.
      rewrite Hrun. cbn [bind build_loop]. now rewrite Hstep. }
  apply H; [assumption | lia].
Qed.

End BuildLoop.

Section BuildHashTable.

Context {L : KdsLayout}.

(** the table [PDS_build_hashtable] builds over a consistent Hash-format
    chunk *)
Lemma build_hashtable_run pds :
  let k := kds pds in
  chunk_wf k -> format k = KDS_FORMAT_HASH -> nslots k = 0 ->
  hash_items_wf k ->
  exists pds',
    PDS_build_hashtable pds = Done pds' /\
    let k' := kds pds' in
    nslots k' = __KDS_NSLOTS (nitems k) /\
    refcnt pds' = refcnt pds /\ length k' = length k /\ usage k' = usage k /\
    ncols k' = ncols k /\ nitems k' = nitems k /\ nrooms k' = nrooms k /\
    format k' = format k /\
    (forall i, 0 <= i < nitems k ->
               KERN_DATA_STORE_TUPITEM k' i = KERN_DATA_STORE_TUPITEM k i /\
               same_tuple (stored_tuple k' i) (stored_tuple k i) /\
               item_hash k' i = item_hash k i /\ item_rowid k' i = i) /\
    (forall b, 0 <= b < nslots k' ->
               hash_slot_get k' b
               = bucket_last (item_hash k') (item_start k') (nslots k') b
                             (Z.to_nat (nitems k'))) /\
    (forall i, 0 <= i < nitems k ->
               item_next k' i
               = bucket_last (item_hash k') (item_start k') (nslots k')
                             (item_hash k' i mod nslots k') (Z.to_nat i)) /\
    (forall i, 0 <= i < nitems k ->
               chain_reaches (body k') (Z.to_nat (nitems k'))
                 (hash_slot_get k' (item_hash k' i mod nslots k'))
                 (item_start k' i)).
Proof.
  intros k Hwf Hfmt Hns0 Hhwf.
  pose proof (chunk_wf_regions k Hwf) as (Hr0 & Hr1 & Hr2 & Hr3).
  pose proof Hwf as (_ & Hc & Hn & Hu & Hmin & Hl32 & Hitems).
  destruct Hhwf as (Hrid & Hdisj).
  destruct hashitem_layout as (Hl0 & Hl1 & Hl2 & Hl3).
  destruct tupitem_layout as (Hs & Hts & Hh).
  set (ri := KERN_DATA_STORE_ROWINDEX k) in *.
  set (hs := KERN_DATA_STORE_HASHSLOT k).
  set (ns := __KDS_NSLOTS (nitems k)).
  set (base := kds_front_length k) in *.
  pose proof (KDS_NSLOTS_ge (nitems k) Hn) as Hnsge. fold ns in Hnsge.
  assert (Hhs : ri + 4 * nitems k <= hs /\ hs + 4 * ns <= base).
  { unfold hs, base, ri, ns, kds_front_length, KERN_DATA_STORE_HASHSLOT,
      KERN_DATA_STORE_ROWINDEX, KERN_DATA_STORE_BODY,
      KERN_DATA_STORE_HEAD_LENGTH, KDS_CALCULATE_HASH_FRONTLEN.
    rewrite Hfmt. cbn [format_eqb].
    pose proof (STROMALIGN_bounds (4 * nitems k)).
    pose proof (STROMALIGN_bounds (4 * __KDS_NSLOTS (nitems k))). lia. }
  destruct Hhs as (Hhs1 & Hhs2).
  assert (Estart : forall i, item_start k i
                             = KERN_DATA_STORE_TUPITEM k i - offsetof_t).
  { intros i. unfold item_start. rewrite Hfmt. reflexivity. }
  assert (Hitem : forall i, 0 <= i < nitems k ->
                    0 <= t_len (stored_tuple k i) /\
                    base <= item_start k i /\
                    item_end k i <= length k).
  { intros i Hi. destruct (chunk_wf_item k i Hwf Hi) as (H1 & H2 & H3 & H4).
    unfold item_end. repeat split; try assumption; lia. }
  assert (Hsep : forall i j, 0 <= i < nitems k -> 0 <= j < nitems k -> i <> j ->
                   item_start k i + offsetof_t <= item_start k j \/
                   item_start k j + offsetof_t <= item_start k i).
  { intros i j Hi Hj Hne.
    destruct (Hitem i Hi) as (Hti & _ & _). destruct (Hitem j Hj) as (Htj & _ & _).
    pose proof (Estart i). pose proof (Estart j). unfold item_end in Hdisj.
    destruct (Hdisj i j Hi Hj Hne) as [Hd | Hd]; [left | right]; lia. }
  set (m0 := memset (body k) hs 0 (4 * ns)).
  assert (M0 : forall x, x < hs \/ hs + 4 * ns <= x -> m0 x = body k x)
    by (intros x Hx; apply memset_outside; lia).
  destruct (build_loop_spec ri hs ns (nitems k) base (item_start k) m0)
    as (m & Hrun & Hslot & Hnext & Hframe).
  - exact Hn.
  - intros Hpos. lia.
  - split; assumption.
  - intros i Hi. destruct (Hitem i Hi) as (Hti & Hlo & Hend).
    unfold item_end in Hend. pose proof (Estart i) as Es.
    split; [|split; [exact Hlo|split; [lia|]]].
    + rewrite Es. unfold KERN_DATA_STORE_TUPITEM. fold ri.
      replace (row_index_get (body k) ri i - offsetof_t + offsetof_t)
        with (row_index_get (body k) ri i) by lia.
      apply row_index_get_ext. intros x Hx. apply M0. lia.
    + rewrite <- (Hrid i Hi) at 2. unfold item_rowid.
      apply load_uint_ext. change (Z.of_nat 4) with 4. intros x Hx.
      apply M0. lia.
  - exact Hsep.
  - intros b Hb. apply load_uint_zero. change (Z.of_nat 4) with 4.
    intros x Hx. apply memset_inside. lia.
  - unfold PDS_build_hashtable. fold k. rewrite Hfmt. cbn [format_eqb negb].
    replace (0 <? nslots k) with false by (symmetry; apply Z.ltb_ge; lia).
    fold ri hs ns m0. rewrite Hrun. cbn [bind].
    eexists. split; [reflexivity|]. cbv zeta.
    cbn [kds refcnt length usage ncols nitems nrooms format nslots body].
    match goal with
    | |- context [item_hash ?kk] => set (k' := kk)
    end.
    (* what the loop has left of the buffer *)
    assert (Hkeep : forall x, x < hs \/ base <= x ->
               (forall i, 0 <= i < nitems k ->
                          x < item_start k i + offsetof_next \/
                          item_start k i + offsetof_next + 4 <= x) ->
               m x = body k x).
    { intros x Hx Hnone. rewrite Hframe; [apply M0; lia | lia | exact Hnone]. }
    assert (Et : forall i, 0 <= i < nitems k ->
                   KERN_DATA_STORE_TUPITEM k' i = KERN_DATA_STORE_TUPITEM k i).
    { intros i Hi. unfold KERN_DATA_STORE_TUPITEM, k'. cbn [body].
      change (KERN_DATA_STORE_ROWINDEX k') with ri. fold ri.
      apply row_index_get_ext. intros x Hx. apply Hkeep; [lia|].
      intros j Hj. destruct (Hitem j Hj) as (_ & Hlo & _). lia. }
    assert (Es : forall i, 0 <= i < nitems k -> item_start k' i = item_start k i).
    { intros i Hi. unfold item_start. rewrite Et by assumption.
      rewrite Hfmt. reflexivity. }
    assert (Hword : forall i f, 0 <= i < nitems k -> 0 <= f ->
                      f + 4 <= offsetof_t ->
                      (f + 4 <= offsetof_next \/ offsetof_next + 4 <= f) ->
                      load_uint 4 m (item_start k i + f)
                      = load_uint 4 (body k) (item_start k i + f)).
    { intros i f Hi Hf0 Hf4 Hnot. apply load_uint_ext.
      change (Z.of_nat 4) with 4. intros x Hx.
      destruct (Hitem i Hi) as (_ & Hlo & _).
      apply Hkeep; [lia|]. intros j Hj.
      destruct (Z.eq_dec j i) as [-> | Hne]; [lia|].
      destruct (Hsep j i Hj Hi Hne) as [Hd | Hd]; lia. }
    assert (Eh : forall i, 0 <= i < nitems k -> item_hash k' i = item_hash k i).
    { intros i Hi. unfold item_hash. rewrite Es by assumption.
      unfold k'. cbn [body]. apply Hword; try assumption; lia. }
    assert (Ebl : forall b j, (j <= Z.to_nat (nitems k))%nat ->
              bucket_last (item_hash k') (item_start k') ns b j
              = bucket_last (fun i => load_uint 4 m0 (item_start k i + offsetof_hash))
                            (item_start k) ns b j).
    { intros b j Hj. apply bucket_last_ext. intros i Hi.
      split; [|apply Es; lia]. rewrite Eh by lia. unfold item_hash.
      symmetry. apply load_uint_ext. change (Z.of_nat 4) with 4. intros x Hx.
      destruct (Hitem i ltac:(lia)) as (_ & Hlo & _). apply M0. lia. }
    assert (Ehm0 : forall i, 0 <= i < nitems k ->
              load_uint 4 m0 (item_start k i + offsetof_hash) = item_hash k' i).
    { intros i Hi. rewrite Eh by assumption. unfold item_hash.
      apply load_uint_ext. change (Z.of_nat 4) with 4. intros x Hx.
      destruct (Hitem i Hi) as (_ & Hlo & _). apply M0. lia. }
    assert (Hslots : forall b, 0 <= b < ns ->
              hash_slot_get k' b
              = bucket_last (item_hash k') (item_start k') ns b
                            (Z.to_nat (nitems k))).
    { intros b Hb. rewrite Ebl by lia. unfold hash_slot_get.
      change (KERN_DATA_STORE_HASHSLOT k') with hs. unfold k'. cbn [body].
      apply Hslot. exact Hb. }
    assert (Hnexts : forall i, 0 <= i < nitems k ->
              item_next k' i
              = bucket_last (item_hash k') (item_start k') ns
                            (item_hash k' i mod ns) (Z.to_nat i)).
    { intros i Hi. rewrite Ebl by lia. unfold item_next.
      rewrite Es by assumption. unfold k' at 1. cbn [body].
      rewrite (Hnext i Hi). now rewrite Ehm0. }
    repeat match goal with |- _ /\ _ => split end; try reflexivity.
    + intros i Hi. split; [now apply Et|]. split; [|split; [now apply Eh|]].
      * unfold stored_tuple. rewrite Et by assumption. unfold k'. cbn [body].
        destruct (Hitem i Hi) as (Hti & Hlo & Hend). unfold item_end in Hend.
        pose proof (Estart i) as Esi.
        apply read_tupitem_ext with (len := t_len (stored_tuple k i));
          [assumption | reflexivity |].
        intros x Hx. apply Hkeep; [lia|]. intros j Hj.
        destruct (Z.eq_dec j i) as [-> | Hne]; [lia|].
        destruct (Hitem j Hj) as (Htj & _ & _). pose proof (Estart j) as Esj.
        unfold item_end in Hdisj.
        destruct (Hdisj j i Hj Hi Hne) as [Hd | Hd]; lia.
      * unfold item_rowid. rewrite Es by assumption. unfold k'. cbn [body].
        rewrite Hword by (try assumption; lia). apply Hrid. exact Hi.
    + exact Hslots.
    + exact Hnexts.
    + intros i Hi.
      assert (Hpos : 0 < ns) by lia.
      rewrite Hslots by (apply Z.mod_pos_bound; lia).
      apply (chain_complete (body k') (item_hash k') (item_start k') ns
               (Z.to_nat (nitems k))); try lia.
      * intros j Hj. rewrite Es by lia.
        destruct (Hitem j ltac:(lia)) as (_ & Hlo & _). lia.
      * intros j Hj. apply Hnexts. lia.
Qed.

(** X7.  On a consistent Hash-format chunk without a hash table, whose
    items carry their index and do not overlap, [PDS_build_hashtable]
    returns: the table gets the width [__KDS_NSLOTS(nitems)], the records
    keep their index entry, content, hash value and index, every slot
    designates the last item of its bucket and the [next] word of every item
    the previous item of the same bucket (0 when there is none), so that the
    chain of its bucket reaches every item.  On a chunk of another format,
    and on a chunk whose table is already built, it raises an error. *)
Theorem build_hashtable_links_items :
  forall pds : pgstrom_data_store,
    let k := kds pds in
    (format k <> KDS_FORMAT_HASH ->
     PDS_build_hashtable pds
     = Elog "Bug? Only KDS_FORMAT_HASH can build a hash table") /\
    (format k = KDS_FORMAT_HASH -> 0 < nslots k ->
     PDS_build_hashtable pds = Elog "Bug? hash table is already built") /\
    (chunk_wf k -> format k = KDS_FORMAT_HASH -> nslots k = 0 ->
     hash_items_wf k ->
     exists pds',
       PDS_build_hashtable pds = Done pds' /\
       let k' := kds pds' in
       nslots k' = __KDS_NSLOTS (nitems k) /\
       refcnt pds' = refcnt pds /\ length k' = length k /\ usage k' = usage k /\
       ncols k' = ncols k /\ nitems k' = nitems k /\ nrooms k' = nrooms k /\
       format k' = format k /\
       (forall i, 0 <= i < nitems k ->
                  KERN_DATA_STORE_TUPITEM k' i = KERN_DATA_STORE_TUPITEM k i /\
                  same_tuple (stored_tuple k' i) (stored_tuple k i) /\
                  item_hash k' i = item_hash k i /\ item_rowid k' i = i) /\
       (forall b, 0 <= b < nslots k' ->
                  hash_slot_get k' b
                  = bucket_last (item_hash k') (item_start k') (nslots k') b
                                (Z.to_nat (nitems k'))) /\
       (forall i, 0 <= i < nitems k ->
                  item_next k' i
                  = bucket_last (item_hash k') (item_start k') (nslots k')
                                (item_hash k' i mod nslots k') (Z.to_nat i)) /\
       (forall i, 0 <= i < nitems k ->
                  chain_reaches (body k') (Z.to_nat (nitems k'))
                    (hash_slot_get k' (item_hash k' i mod nslots k'))
                    (item_start k' i))).
Proof.
  intros pds k. split; [|split].
  - intros Hf. unfold PDS_build_hashtable. fold k.
    destruct (format k); try reflexivity. congruence.
  - intros Hf Hns. unfold PDS_build_hashtable. fold k. rewrite Hf.
    cbn [format_eqb negb].
    replace (0 <? nslots k) with true by (symmetry; now apply Z.ltb_lt).
    reflexivity.
  - intros Hwf Hf Hns Hhwf. exact (build_hashtable_run pds Hwf Hf Hns Hhwf).
Qed.

End BuildHashTable.

Section HashRoundTrip.

Context {L : KdsLayout}.

Lemma create_hash_wf fresh tupdesc len pds :
  0 <= natts tupdesc ->
  KDS_CALCULATE_HASH_LENGTH (natts tupdesc) 0 0 <= STROMALIGN_DOWN len < 2 ^ 32 ->
  PDS_create_hash fresh tupdesc len = Done pds ->
  chunk_wf (kds pds) /\ hash_items_wf (kds pds) /\
  holds_hashitems (kds pds) [] /\
  format (kds pds) = KDS_FORMAT_HASH /\ nslots (kds pds) = 0 /\
  ncols (kds pds) = natts tupdesc /\ usage (kds pds) = 0 /\
  length (kds pds) = STROMALIGN_DOWN len.
Proof.
  intros Hn Hlen. unfold PDS_create_hash.
  destruct (_ <? _); [discriminate|]. intros Heq. injection Heq as <-.
  cbn [kds init_kernel_data_store format nslots ncols usage length].
  split; [|split; [|split; [|repeat split]]].
  - unfold chunk_wf, kds_min_length, items_in_payload, init_kernel_data_store.
    cbn [format format_eqb ncols nitems usage length].
    split; [now right|]. repeat split; try lia.
  - unfold init_kernel_data_store. split; cbn [nitems]; intros; lia.
  - split; [reflexivity|]. intros i tup h Hnth. destruct i; discriminate.
Qed.

Lemma insert_hashitems_run natts items :
  forall pds prev pds',
    chunk_wf (kds pds) -> hash_items_wf (kds pds) ->
    holds_hashitems (kds pds) prev ->
    Forall hashitem_fits items ->
    insert_hashitems pds natts items = Some pds' ->
    chunk_wf (kds pds') /\ hash_items_wf (kds pds') /\
    holds_hashitems (kds pds') (prev ++ items) /\
    nslots (kds pds') = nslots (kds pds) /\
    length (kds pds') = length (kds pds) /\
    ncols (kds pds') = ncols (kds pds) /\
    format (kds pds') = format (kds pds).
Proof.
  induction items as [|[tup h] rest IH];
    intros pds prev pds' Hwf Hhwf Hholds Hfit Hrun.
  - cbn in Hrun. injection Hrun as <-. rewrite app_nil_r.
    split; [assumption|]. split; [assumption|]. split; [assumption|].
    repeat split.
  - cbn [insert_hashitems] in Hrun.
    destruct (PDS_insert_hashitem pds natts tup h) as [[[|] pds1]| |] eqn:Hins;
      try discriminate.
    inversion Hfit as [|? ? (Hfit1 & Hh1) Hfit2]; subst. cbn [fst snd] in *.
    pose proof Hins as Hinv. apply insert_hashitem_true_inv in Hinv.
    destruct Hinv as (_ & Hfmt & _).
    destruct (insert_hashitem_step pds natts tup h pds1 Hwf Hhwf Hfit1 Hh1 Hins)
      as (Hwf1 & Hhwf1 & Hf1 & Hlen1 & Hnc1 & Hn1 & Hns1 & _ & _ & Hold & Hnew
          & Ehash & _).
    destruct Hholds as (Hcount & Hprev).
    destruct (IH pds1 (prev ++ [(tup, h)]) pds' Hwf1 Hhwf1)
      as (Hwf' & Hhwf' & Hholds' & Hns' & Hlen' & Hnc' & Hf'); try assumption.
    + split.
      * rewrite Hn1, Hcount, length_app. cbn [List.length]. lia.
      * intros i tup_i h_i Hnth.
        destruct (Nat.lt_ge_cases i (List.length prev)) as [Hi | Hi].
        -- rewrite nth_error_app1 in Hnth by assumption.
           destruct (Hprev i tup_i h_i Hnth) as (Hs & Hh).
           destruct (Hold (Z.of_nat i) ltac:(lia)) as (_ & Hs' & Hh').
           split; [|congruence].
           apply same_tuple_trans with (stored_tuple (kds pds) (Z.of_nat i));
             assumption.
        -- rewrite nth_error_app2 in Hnth by assumption.
           assert (Ei : i = List.length prev).
           { destruct (i - List.length prev)%nat eqn:E; [lia|].
             cbn in Hnth. destruct n; discriminate. }
           subst i. rewrite Nat.sub_diag in Hnth. cbn in Hnth.
           injection Hnth as <- <-. rewrite <- Hcount. split; assumption.
    + rewrite <- app_assoc in Hholds'. cbn [app] in Hholds'.
      split; [assumption|]. split; [assumption|]. split; [assumption|].
      repeat split; congruence.
Qed.

(** X6.  The chunk [PDS_create_hash] makes is consistent as soon as its
    length holds the header and the smallest hash table.  An insertion that
    [PDS_insert_hashitem] accepts, of a tuple whose length fits the length
    field of an item (16 bits, so below 65536 bytes) and whose identifier is
    made of 16-bit words, with a 32-bit hash value, keeps a consistent
    Hash-format chunk consistent, with items that carry their index and do
    not overlap; an aligned usage stays aligned.  The records that were
    there keep their
    index entry, content and hash value; the new record is stored under the
    next index with the hash value given, its own index as [rowid], and a
    [next] word still to be set. *)
Theorem insert_hashitem_keeps_consistency :
  (forall (fresh : memory) (tupdesc : TupleDesc) (len : Z)
          (pds : pgstrom_data_store),
      0 <= natts tupdesc ->
      KDS_CALCULATE_HASH_LENGTH (natts tupdesc) 0 0
        <= STROMALIGN_DOWN len < 2 ^ 32 ->
      PDS_create_hash fresh tupdesc len = Done pds ->
      chunk_wf (kds pds) /\ hash_items_wf (kds pds) /\
      usage (kds pds) = MAXALIGN (usage (kds pds))) /\
  (forall (pds pds' : pgstrom_data_store) (natts : Z) (tup : HeapTupleData)
          (hash_value : Z),
      let k := kds pds in
      let k' := kds pds' in
      chunk_wf k -> hash_items_wf k ->
      tuple_fits tup -> 0 <= hash_value < 2 ^ 32 ->
      PDS_insert_hashitem pds natts tup hash_value = Done (true, pds') ->
      chunk_wf k' /\ hash_items_wf k' /\
      format k' = KDS_FORMAT_HASH /\ length k' = length k /\
      ncols k' = ncols k /\
      nitems k' = nitems k + 1 /\ nslots k' = nslots k /\
      usage k' = usage k + hash_required tup /\
      (usage k = MAXALIGN (usage k) -> usage k' = MAXALIGN (usage k')) /\
      (forall i, 0 <= i < nitems k ->
                 KERN_DATA_STORE_TUPITEM k' i = KERN_DATA_STORE_TUPITEM k i /\
                 same_tuple (stored_tuple k' i) (stored_tuple k i) /\
                 item_hash k' i = item_hash k i) /\
      same_tuple (stored_tuple k' (nitems k)) tup /\
      item_hash k' (nitems k) = hash_value /\
      item_rowid k' (nitems k) = nitems k /\
      item_next k' (nitems k) = 2139062143).
Proof.
  split.
  - intros fresh tupdesc len pds Hn Hlen Hc.
    destruct (create_hash_wf fresh tupdesc len pds Hn Hlen Hc)
      as (Hwf & Hhwf & _ & _ & _ & _ & Hu & _).
    split; [exact Hwf|]. split; [exact Hhwf|]. rewrite Hu.
    unfold MAXALIGN. rewrite (TYPEALIGN_div _ MAXIMUM_ALIGNOF_pow2).
    pose proof (align_pos _ MAXIMUM_ALIGNOF_pow2).
    rewrite Z.div_small by lia. lia.
  - intros pds pds' natts tup hash_value k k'.
    exact (insert_hashitem_step pds natts tup hash_value pds').
Qed.

(** X8.  Records whose length fits the length field of an item (16 bits,
    so below 65536 bytes), with identifiers made of 16-bit words and 32-bit
    hash values, put into a chunk made by [PDS_create_hash] through accepted
    [PDS_insert_hashitem] calls, are found again once
    [PDS_build_hashtable] has run: the build returns, the chunk holds as
    many records as were inserted, the i-th record has the content and the
    hash value of the i-th insertion, and the chain of the slot
    [hash_value mod nslots] reaches its item. *)
Theorem hash_table_finds_inserted_items :
  forall (fresh : memory) (tupdesc : TupleDesc) (len : Z)
         (items : list (HeapTupleData * Z))
         (pds0 pds1 : pgstrom_data_store),
    0 <= natts tupdesc ->
    KDS_CALCULATE_HASH_LENGTH (natts tupdesc) 0 0 <= STROMALIGN_DOWN len < 2 ^ 32 ->
    Forall hashitem_fits items ->
    PDS_create_hash fresh tupdesc len = Done pds0 ->
    insert_hashitems pds0 (natts tupdesc) items = Some pds1 ->
    exists pds2,
      PDS_build_hashtable pds1 = Done pds2 /\
      let k := kds pds2 in
      nitems k = Z.of_nat (List.length items) /\
      nslots k = __KDS_NSLOTS (nitems k) /\
      forall (i : nat) (tup : HeapTupleData) (hash_value : Z),
        nth_error items i = Some (tup, hash_value) ->
        same_tuple (stored_tuple k (Z.of_nat i)) tup /\
        item_hash k (Z.of_nat i) = hash_value /\
        chain_reaches (body k) (List.length items)
          (hash_slot_get k (hash_value mod nslots k))
          (item_start k (Z.of_nat i)).
Proof.
  intros fresh tupdesc len items pds0 pds1 Hn Hlen Hfit Hcreate Hrun.
  destruct (create_hash_wf fresh tupdesc len pds0 Hn Hlen Hcreate)
    as (Hwf0 & Hhwf0 & Hholds0 & Hf0 & Hns0 & _).
  destruct (insert_hashitems_run (natts tupdesc) items pds0 [] pds1
              Hwf0 Hhwf0 Hholds0 Hfit Hrun)
    as (Hwf1 & Hhwf1 & (Hcount & Hitems) & Hns1 & _ & _ & Hf1).
  cbn [app] in Hcount, Hitems.
  destruct (build_hashtable_run pds1 Hwf1 ltac:(congruence) ltac:(congruence)
              Hhwf1)
    as (pds2 & Hbuild & Hns2 & _ & _ & _ & _ & Hn2 & _ & _ & Hrec & _ & _
        & Hchain).
  exists pds2. split; [exact Hbuild|]. cbv zeta.
  split; [congruence|]. split; [congruence|].
  intros i tup h Hnth.
  assert (Hi : (i < List.length items)%nat)
    by (apply nth_error_Some; congruence).
  destruct (Hitems i tup h Hnth) as (Hs & Hh).
  destruct (Hrec (Z.of_nat i) ltac:(lia)) as (_ & Hs2 & Hh2 & _).
  split; [|split].
  - apply same_tuple_trans with (stored_tuple (kds pds1) (Z.of_nat i)); assumption.
  - congruence.
  - specialize (Hchain (Z.of_nat i) ltac:(lia)).
    rewrite Hn2, Hcount, Nat2Z.id in Hchain.
    rewrite Hh2, Hh in Hchain. exact Hchain.
Qed.

End HashRoundTrip.

Lemma sample_hash_items_fit :
  Forall (hashitem_fits (L := sample_layout true)) sample_hash_items.
Proof.
  repeat constructor; cbn; lia.
Qed.

Lemma sample_hash_store0_created :
  PDS_create_hash (L := sample_layout true) zero_memory sample_tupdesc 16384
  = Done sample_hash_store0.
Proof. reflexivity. Qed.

Lemma sample_hash_store1_inserted :
  insert_hashitems (L := sample_layout true) sample_hash_store0 2
    sample_hash_items = Some sample_hash_store1.
Proof. reflexivity. Qed.

Lemma sample_hash_store1_wf :
  chunk_wf (L := sample_layout true) (kds sample_hash_store1) /\
  hash_items_wf (L := sample_layout true) (kds sample_hash_store1) /\
  format (kds sample_hash_store1) = KDS_FORMAT_HASH /\
  nslots (kds sample_hash_store1) = 0.
Proof.
  destruct (create_hash_wf (L := sample_layout true) zero_memory sample_tupdesc
              16384 sample_hash_store0)
    as (Hwf0 & Hhwf0 & Hholds0 & Hf0 & Hns0 & _).
  - cbn. lia.
  - vm_compute. split; [discriminate | reflexivity].
  - exact sample_hash_store0_created.
  - destruct (insert_hashitems_run (L := sample_layout true) 2 sample_hash_items
                sample_hash_store0 [] sample_hash_store1 Hwf0 Hhwf0 Hholds0
                sample_hash_items_fit sample_hash_store1_inserted)
      as (Hwf1 & Hhwf1 & _ & Hns1 & _ & _ & Hf1).
    split; [exact Hwf1|]. split; [exact Hhwf1|]. split; congruence.
Qed.

Lemma insert_hashitem_keeps_consistency_witness :
  let L := sample_layout true in
  exists pds',
    PDS_insert_hashitem sample_hash_store0 2 (sample_tuple 64 1) 5
    = Done (true, pds') /\
    chunk_wf (kds pds') /\ item_hash (kds pds') 0 = 5.
Proof.
  intros L.
  destruct (insert_hashitem_keeps_consistency (L := L)) as (Hcreate & Hstep).
  destruct (Hcreate zero_memory sample_tupdesc 16384 sample_hash_store0)
    as (Hwf0 & Hhwf0 & _).
  - cbn. lia.
  - vm_compute. split; [discriminate | reflexivity].
  - exact sample_hash_store0_created.
  - eexists. split; [reflexivity|].
    match goal with
    | |- chunk_wf (kds ?p) /\ _ =>
        destruct (Hstep sample_hash_store0 p 2 (sample_tuple 64 1) 5 Hwf0 Hhwf0
                    (sample_tuple_fits true 1 ltac:(lia)) ltac:(lia) eq_refl)
          as (Hwf & _ & _ & _ & _ & _ & _ & _ & _ & _ & _ & Hh & _)
    end.
    split; [exact Hwf | exact Hh].
Defined.

Lemma build_hashtable_links_items_witness :
  let L := sample_layout true in
  exists pds',
    PDS_build_hashtable sample_hash_store1 = Done pds' /\
    nslots (kds pds') = 16 /\
    PDS_build_hashtable pds' = Elog "Bug? hash table is already built".
Proof.
  intros L.
  destruct sample_hash_store1_wf as (Hwf & Hhwf & Hf & Hns).
  destruct (build_hashtable_links_items (L := L) sample_hash_store1)
    as (_ & _ & Hbuild).
  destruct (Hbuild Hwf Hf Hns Hhwf)
    as (pds' & Hrun & Hns' & _ & _ & _ & _ & Hn' & _ & Hf' & _).
  exists pds'. split; [exact Hrun|].
  assert (E : nslots (kds pds') = 16) by (rewrite Hns'; vm_compute; reflexivity).
  split; [exact E|].
  destruct (build_hashtable_links_items (L := L) pds') as (_ & Hbuilt & _).
  apply Hbuilt; [congruence | lia].
Defined.

Lemma hash_table_finds_inserted_items_witness :
  let L := sample_layout true in
  exists pds2,
    PDS_build_hashtable sample_hash_store1 = Done pds2 /\
    nitems (kds pds2) = 3 /\
    chain_reaches (body (kds pds2)) 3
      (hash_slot_get (kds pds2) (5 mod nslots (kds pds2)))
      (item_start (kds pds2) 0).
Proof.
  intros L.
  destruct (hash_table_finds_inserted_items (L := L) zero_memory sample_tupdesc
              16384 sample_hash_items sample_hash_store0 sample_hash_store1)
    as (pds2 & Hbuild & Hn & _ & Hitems).
  - cbn. lia.
  - vm_compute. split; [discriminate | reflexivity].
  - exact sample_hash_items_fit.
  - exact sample_hash_store0_created.
  - exact sample_hash_store1_inserted.
  - exists pds2. split; [exact Hbuild|]. split; [exact Hn|].
    destruct (Hitems 0%nat (sample_tuple 64 1) 5 eq_refl) as (_ & _ & Hchain).
    exact Hchain.
Defined.

(** ** GpuScan: the tuples of a completed task *)

Lemma filter_none {A : Type} (p : A -> bool) (l : list A) :
  (forall x, In x l -> p x = false) -> filter p l = [].
Proof.
  induction l as [|a l IH]; intros H; [reflexivity|].
  cbn [filter]. rewrite (H a) by now left.
  apply IH. intros x Hx. apply H. now right.
Qed.

Lemma seq_split_at (c k j : nat) :
  (j < k)%nat ->
  seq c k = seq c j ++ (c + j)%nat :: seq (S (c + j)) (k - j - 1).
Proof.
  intros Hj. replace k with (j + S (k - j - 1))%nat at 1 by lia.
  rewrite seq_app. cbn [seq]. reflexivity.
Qed.

Section NextTupleFacts.

Context {L : KdsLayout}.

Variable ExecQual : TupleTableSlot -> bool.
Variable ExecProject : TupleTableSlot -> TupleTableSlot * bool.

(** Calls of [gpuscan_next_tuple] over the indices below [n]: a call made
    at index [c] returns the output of the first index from [c] on that
    passes and leaves the scan just after it, or returns [NULL] when none
    passes. *)
Section Scan.

Variables (fuel : nat) (gpuscan : gpuscan_chunks) (n : nat).
Variable pass : Z -> bool.
Variable out : Z -> TupleTableSlot.
Variable Inv : nat -> GpuScanState -> Prop.

Hypothesis Hstep :
  forall (c : nat) (gss : GpuScanState),
    Inv c gss -> (c <= n)%nat ->
    (exists (j : nat) (gss' : GpuScanState),
        (c + j < n)%nat /\
        (forall j', (j' < j)%nat -> pass (Z.of_nat (c + j')) = false) /\
        pass (Z.of_nat (c + j)) = true /\
        gpuscan_next_tuple ExecQual ExecProject fuel gpuscan gss
        = Some (Done (Some (out (Z.of_nat (c + j))), gss')) /\
        Inv (S (c + j)) gss') \/
    ((forall j, (c + j < n)%nat -> pass (Z.of_nat (c + j)) = false) /\
     exists gss',
       gpuscan_next_tuple ExecQual ExecProject fuel gpuscan gss
       = Some (Done (None, gss'))).

Lemma scan_tuples_filter :
  forall (calls c : nat) (gss : GpuScanState),
    Inv c gss -> (c <= n)%nat -> (n - c < calls)%nat ->
    exists gss',
      scan_tuples ExecQual ExecProject fuel calls gpuscan gss
      = Some (Done (map out (filter pass (map Z.of_nat (seq c (n - c)))),
                    gss')).
Proof.
  induction calls as [|calls IH]; intros c gss Hinv Hc Hcalls; [lia|].
  cbn [scan_tuples].
  destruct (Hstep c gss Hinv Hc)
    as [(j & gss' & Hj & Hfail & Hpass & Hnext & Hinv') | (Hfail & gss' & Hnext)];
    rewrite Hnext.
  - destruct (IH (S (c + j)) gss' Hinv' ltac:(lia) ltac:(lia))
      as (gss'' & Hrest).
    rewrite Hrest. exists gss''.
    assert (E : filter pass (map Z.of_nat (seq c (n - c)))
                = Z.of_nat (c + j)
                  :: filter pass (map Z.of_nat (seq (S (c + j)) (n - S (c + j))))).
    { rewrite (seq_split_at c (n - c) j) by lia.
      rewrite map_app, filter_app. cbn [map filter]. rewrite Hpass.
      rewrite (filter_none pass (map Z.of_nat (seq c j))).
      - cbn [app]. replace (n - c - j - 1)%nat with (n - S (c + j))%nat by lia.
        reflexivity.
      - intros x Hx. apply in_map_iff in Hx. destruct Hx as (i & <- & Hi).
        apply in_seq in Hi. replace i with (c + (i - c))%nat by lia.
        apply Hfail. lia. }
    rewrite E. reflexivity.
  - exists gss'. rewrite filter_none; [reflexivity|].
    intros x Hx. apply in_map_iff in Hx. destruct Hx as (i & <- & Hi).
    apply in_seq in Hi. replace i with (c + (i - c))%nat by lia.
    apply Hfail. lia.
Qed.

End Scan.

Lemma index_range_seq (n : nat) :
  index_range (Z.of_nat n) = map Z.of_nat (seq 0 n).
Proof. unfold index_range. now rewrite Nat2Z.id. Qed.

Lemma filter_all {A : Type} (l : list A) : filter (fun _ => true) l = l.
Proof. induction l as [|a l IH]; cbn; [reflexivity | now rewrite IH]. Qed.

(** X9.  Without CPU fallback, calling [gpuscan_next_tuple] until it
    returns [NULL] hands out the records the device produced, each one
    once and in order: with a Row-format destination chunk, a slot holding
    the tuple of every record of that chunk; without destination chunk, a
    slot holding the tuple found in the source chunk at each offset of the
    result buffer.  The error of a failed fetch is never raised. *)
Theorem scan_returns_device_results :
  forall (fuel calls : nat) (gpuscan : gpuscan_chunks) (gss : GpuScanState),
    task_cpu_fallback (gs_task gpuscan) = false ->
    curr_index gss = 0 ->
    (forall d : pgstrom_data_store,
        pds_dst gpuscan = Some d ->
        format (kds d) = KDS_FORMAT_ROW ->
        0 <= nitems (kds d) < 2 ^ 32 ->
        (Z.to_nat (nitems (kds d)) < calls)%nat ->
        exists gss',
          scan_tuples ExecQual ExecProject fuel calls gpuscan gss
          = Some (Done (map (fun i => ExecStoreTuple (stored_tuple (kds d) i)
                                        (ss_ScanTupleSlot gss))
                            (index_range (nitems (kds d))), gss'))) /\
    (pds_dst gpuscan = None ->
     kresults_all_visible (kresults gpuscan) = false ->
     0 <= kresults_nitems (kresults gpuscan) < 2 ^ 32 ->
     (Z.to_nat (kresults_nitems (kresults gpuscan)) < calls)%nat ->
     exists gss',
       scan_tuples ExecQual ExecProject fuel calls gpuscan gss
       = Some (Done (map (fun i =>
                            ExecStoreTuple
                              (read_tupitem (body (kds (pds_src gpuscan)))
                                 (kresults_results (kresults gpuscan) i))
                              (ss_ScanTupleSlot gss))
                         (index_range (kresults_nitems (kresults gpuscan))),
                     gss'))).
Proof.
  intros fuel calls g gss Hfb Hc0. split.
  - intros d Hdst Hfmt Hn Hcalls.
    set (n := Z.to_nat (nitems (kds d))).
    set (out := fun i => ExecStoreTuple (stored_tuple (kds d) i)
                           (ss_ScanTupleSlot gss)).
    destruct (scan_tuples_filter fuel g n (fun _ => true) out
                (fun c s => curr_index s = Z.of_nat c /\
                            tts_natts (ss_ScanTupleSlot s)
                            = tts_natts (ss_ScanTupleSlot gss)))
      with (calls := calls) (c := 0%nat) (gss := gss) as (gss' & Hscan).
    + intros c s (Hc & Hnatts) Hcn.
      unfold gpuscan_next_tuple. rewrite Hfb, Hdst. cbn [negb].
      destruct (Z.ltb_spec (curr_index s) (nitems (kds d))) as [Hlt | Hge].
      * left. exists 0%nat. eexists.
        split; [lia|]. split; [intros; lia|]. split; [reflexivity|].
        unfold pgstrom_fetch_data_store.
        rewrite fetch_row by assumption. cbn [negb]. split.
        -- unfold out, ExecStoreTuple, ExecClearTuple, stored_tuple.
           cbn [tts_natts]. rewrite Hnatts, Hc, Nat.add_0_r. reflexivity.
        -- cbn [curr_index ss_ScanTupleSlot tts_natts ExecClearTuple].
           split; [|first [exact Hnatts | reflexivity]].
           unfold cl_uint_wrap. rewrite Z.mod_small by lia. lia.
      * right. split; [intros j Hj; unfold n in *; lia|].
        exists s. reflexivity.
    + split; [exact Hc0 | reflexivity].
    + lia.
    + lia.
    + exists gss'. rewrite Hscan. rewrite filter_all, Nat.sub_0_r.
      rewrite <- index_range_seq. unfold n. rewrite Z2Nat.id by lia.
      reflexivity.
  - intros Hdst Hvis Hn Hcalls.
    set (n := Z.to_nat (kresults_nitems (kresults g))).
    set (out := fun i => ExecStoreTuple
                           (read_tupitem (body (kds (pds_src g)))
                              (kresults_results (kresults g) i))
                           (ss_ScanTupleSlot gss)).
    destruct (scan_tuples_filter fuel g n (fun _ => true) out
                (fun c s => curr_index s = Z.of_nat c /\
                            tts_natts (ss_ScanTupleSlot s)
                            = tts_natts (ss_ScanTupleSlot gss)))
      with (calls := calls) (c := 0%nat) (gss := gss) as (gss' & Hscan).
    + intros c s (Hc & Hnatts) Hcn.
      unfold gpuscan_next_tuple. rewrite Hfb, Hdst, Hvis. cbn [negb].
      rewrite Assert_true.
      destruct (Z.ltb_spec (curr_index s) (kresults_nitems (kresults g)))
        as [Hlt | Hge].
      * left. exists 0%nat. eexists.
        split; [lia|]. split; [intros; lia|]. split; [reflexivity|]. split.
        -- unfold out, ExecStoreTuple. rewrite Hnatts, Hc, Nat.add_0_r.
           reflexivity.
        -- cbn [curr_index ss_ScanTupleSlot tts_natts ExecStoreTuple].
           split; [|first [exact Hnatts | reflexivity]].
           unfold cl_uint_wrap. rewrite Z.mod_small by lia. lia.
      * right. split; [intros j Hj; unfold n in *; lia|].
        exists s. reflexivity.
    + split; [exact Hc0 | reflexivity].
    + lia.
    + lia.
    + exists gss'. rewrite Hscan. rewrite filter_all, Nat.sub_0_r.
      rewrite <- index_range_seq. unfold n. rewrite Z2Nat.id by lia.
      reflexivity.
Qed.

(** the run of the fallback loop from index [c], over a Row-format source
    chunk of [n] records *)
Lemma fallback_loop_finds (g : gpuscan_chunks) (gss0 : GpuScanState) (n : nat) :
  format (kds (pds_src g)) = KDS_FORMAT_ROW ->
  nitems (kds (pds_src g)) = Z.of_nat n -> Z.of_nat n < 2 ^ 32 ->
  let Inv := fun (c : nat) (s : GpuScanState) =>
               curr_index s = Z.of_nat c /\
               tts_natts (base_slot s) = tts_natts (base_slot gss0) /\
               has_dev_quals s = has_dev_quals gss0 /\
               has_base_proj s = has_base_proj gss0 in
  forall (k fuel c : nat) (s : GpuScanState),
    (c + k = n)%nat -> (k < fuel)%nat -> Inv c s ->
    (exists (j : nat) (s' : GpuScanState),
        (c + j < n)%nat /\
        (forall j', (j' < j)%nat ->
                    fallback_passes ExecQual ExecProject g gss0
                      (Z.of_nat (c + j')) = false) /\
        fallback_passes ExecQual ExecProject g gss0 (Z.of_nat (c + j)) = true /\
        fallback_loop ExecQual ExecProject fuel (pds_src g) s
        = Some (Done (Some (fallback_output ExecProject g gss0
                              (Z.of_nat (c + j))), s')) /\
        Inv (S (c + j)) s') \/
    ((forall j, (c + j < n)%nat ->
                fallback_passes ExecQual ExecProject g gss0
                  (Z.of_nat (c + j)) = false) /\
     exists s',
       fallback_loop ExecQual ExecProject fuel (pds_src g) s
       = Some (Done (None, s')) /\ curr_index s' = Z.of_nat n).
Proof.
  intros Hfmt Hn Hn32 Inv.
  induction k as [|k IH]; intros fuel c s Hck Hfuel (Hc & Hnatts & Hdq & Hbp);
    (destruct fuel as [|fuel]; [lia|]); cbn [fallback_loop].
  - right. split; [intros j Hj; lia|].
    replace (curr_index s <? nitems (kds (pds_src g))) with false
      by (symmetry; apply Z.ltb_ge; lia).
    exists s. split; [reflexivity | lia].
  - replace (curr_index s <? nitems (kds (pds_src g))) with true
      by (symmetry; apply Z.ltb_lt; lia).
    unfold pgstrom_fetch_data_store.
    rewrite fetch_row by (try assumption; lia). cbn [negb].
    cbn [tts_natts ExecClearTuple].
    (* the slot of record [c] *)
    assert (Eslot : {| tts_natts := tts_natts (base_slot s);
                       tts_content :=
                         TTS_TUPLE
                           (read_tupitem (body (kds (pds_src g)))
                              (KERN_DATA_STORE_TUPITEM (kds (pds_src g))
                                 (curr_index s))) |}
                    = fallback_slot g gss0 (Z.of_nat c)).
    { unfold fallback_slot, ExecStoreTuple, stored_tuple.
      now rewrite Hnatts, Hc. }
    rewrite Eslot.
    set (gss1 := {| curr_index := cl_uint_wrap (curr_index s + 1);
                    scan_tuple := _;
                    ss_ScanTupleSlot := ss_ScanTupleSlot s;
                    base_slot := fallback_slot g gss0 (Z.of_nat c);
                    has_dev_quals := has_dev_quals s;
                    has_base_proj := has_base_proj s |}).
    assert (Hinv1 : Inv (S c) gss1).
    { unfold Inv, gss1.
      cbn [curr_index base_slot has_dev_quals has_base_proj].
      unfold cl_uint_wrap. rewrite Z.mod_small by lia.
      split; [lia|]. split; [reflexivity|]. split; assumption. }
    (* a record that does not pass: the loop goes on *)
    assert (Hskip : fallback_passes ExecQual ExecProject g gss0 (Z.of_nat c)
                    = false ->
              (exists (j : nat) (s' : GpuScanState),
                  (c + j < n)%nat /\
                  (forall j', (j' < j)%nat ->
                              fallback_passes ExecQual ExecProject g gss0
                                (Z.of_nat (c + j')) = false) /\
                  fallback_passes ExecQual ExecProject g gss0
                    (Z.of_nat (c + j)) = true /\
                  fallback_loop ExecQual ExecProject fuel (pds_src g) gss1
                  = Some (Done (Some (fallback_output ExecProject g gss0
                                        (Z.of_nat (c + j))), s')) /\
                  Inv (S (c + j)) s') \/
              ((forall j, (c + j < n)%nat ->
                          fallback_passes ExecQual ExecProject g gss0
                            (Z.of_nat (c + j)) = false) /\
               exists s',
                 fallback_loop ExecQual ExecProject fuel (pds_src g) gss1
                 = Some (Done (None, s')) /\ curr_index s' = Z.of_nat n)).
    { intros Hno.
      destruct (IH fuel (S c) gss1 ltac:(lia) ltac:(lia) Hinv1)
        as [(j & s' & Hj & Hfail & Hpass & Hrun & Hinv')
           | (Hfail & s' & Hrun & Hend)].
      - left. exists (S j), s'. split; [lia|]. split; [|split; [|split]].
        + intros j' Hj'. destruct j' as [|j'].
          * now rewrite Nat.add_0_r.
          * replace (c + S j')%nat with (S c + j')%nat by lia.
            apply Hfail. lia.
        + now replace (c + S j)%nat with (S c + j)%nat by lia.
        + now replace (c + S j)%nat with (S c + j)%nat by lia.
        + now replace (c + S j)%nat with (S c + j)%nat by lia.
      - right. split; [|exists s'; split; assumption].
        intros j Hj. destruct j as [|j].
        + now rewrite Nat.add_0_r.
        + replace (c + S j)%nat with (S c + j)%nat by lia. apply Hfail. lia. }
    set (slot_c := fallback_slot g gss0 (Z.of_nat c)) in *.
    assert (Epass : fallback_passes ExecQual ExecProject g gss0 (Z.of_nat c)
                    = (negb (has_dev_quals s) || ExecQual slot_c) &&
                      (negb (has_base_proj s) ||
                       negb (snd (ExecProject slot_c))))
      by (unfold fallback_passes; now rewrite Hdq, Hbp).
    assert (Eout : fallback_output ExecProject g gss0 (Z.of_nat c)
                   = if has_base_proj s then fst (ExecProject slot_c)
                     else slot_c)
      by (unfold fallback_output; now rewrite Hbp).
    assert (Hfound : forall slot,
              fallback_passes ExecQual ExecProject g gss0 (Z.of_nat c) = true ->
              fallback_output ExecProject g gss0 (Z.of_nat c) = slot ->
              exists (j : nat) (s' : GpuScanState),
                (c + j < n)%nat /\
                (forall j', (j' < j)%nat ->
                            fallback_passes ExecQual ExecProject g gss0
                              (Z.of_nat (c + j')) = false) /\
                fallback_passes ExecQual ExecProject g gss0
                  (Z.of_nat (c + j)) = true /\
                Some (Done (Some slot, gss1))
                = Some (Done (Some (fallback_output ExecProject g gss0
                                      (Z.of_nat (c + j))), s')) /\
                Inv (S (c + j)) s').
    { intros slot Hp Ho. exists 0%nat, gss1. rewrite Nat.add_0_r.
      split; [lia|]. split; [intros; lia|]. split; [exact Hp|].
      split; [now rewrite Ho | exact Hinv1]. }
    destruct (has_dev_quals s), (ExecQual slot_c), (has_base_proj s),
      (ExecProject slot_c) as [pslot [|]];
      cbn [andb orb negb fst snd] in Epass, Eout |- *;
      first [ apply Hskip; exact Epass
            | left; apply Hfound; [exact Epass | exact Eout] ].
Qed.

(** X10.  With CPU fallback, over a Row-format source chunk,
    [gpuscan_next_tuple] evaluates the records from [curr_index] on and
    returns the first one that passes the device qualifiers (when there are
    any) and whose projection (when there is one) does not end: the slot
    holding that tuple, or its projection, with [curr_index] left just
    after it.  When no record passes it returns [NULL] with [curr_index] at
    the record count.  The loop ends within the number of records left. *)
Theorem fallback_returns_first_passing :
  forall (fuel : nat) (gpuscan : gpuscan_chunks) (gss : GpuScanState),
    let k := kds (pds_src gpuscan) in
    task_cpu_fallback (gs_task gpuscan) = true ->
    format k = KDS_FORMAT_ROW ->
    0 <= curr_index gss <= nitems k -> nitems k < 2 ^ 32 ->
    (Z.to_nat (nitems k - curr_index gss) < fuel)%nat ->
    (exists (i : Z) (gss' : GpuScanState),
        curr_index gss <= i < nitems k /\
        (forall i', curr_index gss <= i' < i ->
                    fallback_passes ExecQual ExecProject gpuscan gss i' = false) /\
        fallback_passes ExecQual ExecProject gpuscan gss i = true /\
        gpuscan_next_tuple ExecQual ExecProject fuel gpuscan gss
        = Some (Done (Some (fallback_output ExecProject gpuscan gss i), gss')) /\
        curr_index gss' = i + 1) \/
    ((forall i, curr_index gss <= i < nitems k ->
                fallback_passes ExecQual ExecProject gpuscan gss i = false) /\
     exists gss',
       gpuscan_next_tuple ExecQual ExecProject fuel gpuscan gss
       = Some (Done (None, gss')) /\
       curr_index gss' = nitems k).
Proof.
  intros fuel g gss k Hfb Hfmt Hc Hn32 Hfuel.
  unfold gpuscan_next_tuple. rewrite Hfb. cbn [negb].
  destruct (fallback_loop_finds g gss (Z.to_nat (nitems k)) Hfmt
              ltac:(fold k; lia) ltac:(lia)
              (Z.to_nat (nitems k - curr_index gss)) fuel
              (Z.to_nat (curr_index gss)) gss ltac:(lia) Hfuel)
    as [(j & s' & Hj & Hfail & Hpass & Hrun & Hinv) | (Hfail & s' & Hrun & Hend)].
  - repeat split; try reflexivity. lia.
  - left. exists (Z.of_nat (Z.to_nat (curr_index gss) + j)), s'.
    split; [lia|]. split; [|split; [exact Hpass|split; [exact Hrun|]]].
    + intros i' Hi'.
      replace i' with (Z.of_nat (Z.to_nat (curr_index gss)
                                 + Z.to_nat (i' - curr_index gss))) by lia.
      apply Hfail. lia.
    + destruct Hinv as (-> & _). lia.
  - right. split.
    + intros i Hi.
      replace i with (Z.of_nat (Z.to_nat (curr_index gss)
                                + Z.to_nat (i - curr_index gss))) by lia.
      apply Hfail. lia.
    + exists s'. split; [exact Hrun | lia].
Qed.

(** X11.  With CPU fallback, over a Row-format source chunk, calling
    [gpuscan_next_tuple] until it returns [NULL] hands out, in the order of
    the chunk, exactly the records that pass the device qualifiers and
    whose projection does not end: the rows the device could not decide are
    filtered and projected on the host. *)
Theorem fallback_scan_filters_source :
  forall (fuel calls : nat) (gpuscan : gpuscan_chunks) (gss : GpuScanState),
    let k := kds (pds_src gpuscan) in
    task_cpu_fallback (gs_task gpuscan) = true ->
    format k = KDS_FORMAT_ROW ->
    curr_index gss = 0 -> 0 <= nitems k < 2 ^ 32 ->
    (Z.to_nat (nitems k) < fuel)%nat ->
    (Z.to_nat (nitems k) < calls)%nat ->
    exists gss',
      scan_tuples ExecQual ExecProject fuel calls gpuscan gss
      = Some (Done (map (fallback_output ExecProject gpuscan gss)
                        (filter (fallback_passes ExecQual ExecProject gpuscan gss)
                                (index_range (nitems k))),
                    gss')).
Proof.
  intros fuel calls g gss k Hfb Hfmt Hc0 Hn Hfuel Hcalls.
  set (n := Z.to_nat (nitems k)).
  destruct (scan_tuples_filter fuel g n
              (fallback_passes ExecQual ExecProject g gss)
              (fallback_output ExecProject g gss)
              (fun c s => curr_index s = Z.of_nat c /\
                          tts_natts (base_slot s) = tts_natts (base_slot gss) /\
                          has_dev_quals s = has_dev_quals gss /\
                          has_base_proj s = has_base_proj gss))
    with (calls := calls) (c := 0%nat) (gss := gss) as (gss' & Hscan).
  - intros c s Hinv Hcn.
    unfold gpuscan_next_tuple. rewrite Hfb. cbn [negb].
    destruct (fallback_loop_finds g gss n Hfmt ltac:(fold k; unfold n; lia)
                ltac:(unfold n; lia) (n - c) fuel c s ltac:(lia)
                ltac:(unfold n in *; lia) Hinv)
      as [(j & s' & Hj & Hfail & Hpass & Hrun & Hinv')
         | (Hfail & s' & Hrun & Hend)].
    + left. exists j, s'. repeat split; try assumption; apply Hinv'.
    + right. split; [exact Hfail|]. exists s'. exact Hrun.
  - repeat split; try reflexivity. exact Hc0.
  - lia.
  - lia.
  - exists gss'. rewrite Hscan, Nat.sub_0_r, <- index_range_seq.
    unfold n. rewrite Z2Nat.id by lia. reflexivity.
Qed.

End NextTupleFacts.

Lemma scan_returns_device_results_witness :
  let L := sample_layout true in
  exists gss',
    scan_tuples sample_qual sample_project 4 4 (sample_scan_task false true)
      sample_gss
    = Some (Done (map (fun i => ExecStoreTuple
                                  (stored_tuple (kds (sample_row_chunk true)) i)
                                  empty_slot)
                      (index_range 3), gss')).
Proof.
  intros L.
  destruct (scan_returns_device_results (L := L) sample_qual sample_project
              4 4 (sample_scan_task false true) sample_gss eq_refl eq_refl)
    as (Hdst & _).
  destruct (Hdst (sample_row_chunk true) eq_refl) as (gss' & Hscan).
  - vm_compute. reflexivity.
  - vm_compute. split; [discriminate | reflexivity].
  - apply Nat.ltb_lt. vm_compute. reflexivity.
  - exists gss'. rewrite Hscan. reflexivity.
Defined.

Lemma fallback_returns_first_passing_witness :
  let L := sample_layout true in
  exists gss',
    gpuscan_next_tuple sample_qual sample_project 4
      (sample_scan_task true true) sample_gss
    = Some (Done (Some (fallback_output sample_project
                          (sample_scan_task true true) sample_gss 0), gss')) /\
    curr_index gss' = 1.
Proof.
  intros L.
  destruct (fallback_returns_first_passing (L := L) sample_qual sample_project
              4 (sample_scan_task true true) sample_gss eq_refl)
    as [(i & gss' & Hi & Hfail & Hpass & Hrun & Hc) | (Hfail & _)].
  - vm_compute. reflexivity.
  - vm_compute. split; discriminate.
  - vm_compute. reflexivity.
  - apply Nat.ltb_lt. vm_compute. reflexivity.
  - assert (E : i = 0).
    { destruct (Z.eq_dec i 0) as [-> | Hne]; [reflexivity|]. exfalso.
      assert (H0 : fallback_passes sample_qual sample_project
                     (sample_scan_task true true) sample_gss 0 = true)
        by (vm_compute; reflexivity).
      rewrite Hfail in H0; [discriminate|].
      change (curr_index sample_gss) with 0 in *. lia. }
    subst i. exists gss'. split; [exact Hrun | exact Hc].
  - exfalso.
    assert (H0 : fallback_passes sample_qual sample_project
                   (sample_scan_task true true) sample_gss 0 = true)
      by (vm_compute; reflexivity).
    rewrite Hfail in H0; [discriminate|].
    change (curr_index sample_gss) with 0.
    assert (N : nitems (kds (pds_src (sample_scan_task true true))) = 3)
      by (vm_compute; reflexivity).
    rewrite N. lia.
Defined.

Lemma fallback_scan_filters_source_witness :
  let L := sample_layout true in
  exists gss',
    scan_tuples sample_qual sample_project 4 4 (sample_scan_task true true)
      sample_gss
    = Some (Done ([fallback_output sample_project (sample_scan_task true true)
                     sample_gss 0;
                   fallback_output sample_project (sample_scan_task true true)
                     sample_gss 2], gss')).
Proof.
  intros L.
  destruct (fallback_scan_filters_source (L := L) sample_qual sample_project
              4 4 (sample_scan_task true true) sample_gss eq_refl)
    as (gss' & Hscan).
  - vm_compute. reflexivity.
  - reflexivity.
  - vm_compute. split; [discriminate | reflexivity].
  - apply Nat.ltb_lt. vm_compute. reflexivity.
  - apply Nat.ltb_lt. vm_compute. reflexivity.
  - exists gss'. rewrite Hscan.
    assert (N : nitems (kds (pds_src (sample_scan_task true true))) = 3)
      by (vm_compute; reflexivity).
    rewrite N.
    assert (P0 : fallback_passes sample_qual sample_project
                   (sample_scan_task true true) sample_gss 0 = true)
      by (vm_compute; reflexivity).
    assert (P1 : fallback_passes sample_qual sample_project
                   (sample_scan_task true true) sample_gss 1 = false)
      by (vm_compute; reflexivity).
    assert (P2 : fallback_passes sample_qual sample_project
                   (sample_scan_task true true) sample_gss 2 = true)
      by (vm_compute; reflexivity).
    change (index_range 3) with [0; 1; 2]. cbn [filter].
    rewrite P0, P1, P2. reflexivity.
Defined.

(** ** GpuScan: the target list of the device projection *)

Section ProjectionFacts.

Context {L : KdsLayout}.

Variable Expr : Type.
Variable equal : Expr -> Expr -> bool.
Variable as_Var : Expr -> option Var.
Variable Var_expr : Var -> Expr.
Variable pgstrom_device_expression : Expr -> bool.
Variable pull_vars_of_level : Expr -> list Var.
Variable pull_vars_of_quals : list Expr -> list Var.

(** [equal()] compares nodes field by field *)
Hypothesis equal_refl : forall a, equal a a = true.
Hypothesis equal_sym : forall a b, equal a b = equal b a.

Let add := add_unique_expression equal.
Let has := tlist_has equal.
Let unique := tlist_unique equal.

Lemma tlist_has_existsb (tl : list (TargetEntry Expr)) (expr : Expr) :
  existsb (fun tle => equal expr (tle_expr tle)) tl = true <-> has tl expr.
Proof.
  unfold has, tlist_has. rewrite existsb_exists. reflexivity.
Qed.

Lemma tlist_has_app (tl more : list (TargetEntry Expr)) (expr : Expr) :
  has tl expr -> has (tl ++ more) expr.
Proof.
  intros (tle & Hin & Heq). exists tle. split; [|exact Heq].
  apply in_or_app. now left.
Qed.

Lemma add_unique_cases (expr : Expr) (tl : list (TargetEntry Expr))
    (junk : bool) :
  (has tl expr /\ add expr tl junk = (false, tl)) \/
  (~ has tl expr /\
   add expr tl junk
   = (true, tl ++ [{| tle_expr := expr;
                      resno := Z.of_nat (List.length tl) + 1;
                      resjunk := junk |}])).
Proof.
  unfold add, add_unique_expression.
  destruct (existsb (fun tle => equal expr (tle_expr tle)) tl) eqn:E.
  - left. split; [now apply tlist_has_existsb | reflexivity].
  - right. split; [|reflexivity]. intros H. apply tlist_has_existsb in H.
    congruence.
Qed.

Lemma add_unique_keeps (expr : Expr) (tl : list (TargetEntry Expr))
    (junk : bool) :
  has (snd (add expr tl junk)) expr /\
  (forall x, has tl x -> has (snd (add expr tl junk)) x) /\
  (unique tl -> unique (snd (add expr tl junk))).
Proof.
  destruct (add_unique_cases expr tl junk) as [(Hhas & ->) | (Hnot & ->)];
    cbn [snd].
  - split; [exact Hhas|]. split; auto.
  - split; [|split].
    + eexists. split; [apply in_or_app; right; left; reflexivity|].
      cbn [tle_expr]. apply equal_refl.
    + intros x Hx. now apply tlist_has_app.
    + intros (Huniq & Hnum). split.
      * intros i j a b Ha Hb Heq.
        assert (Hlast : forall (i' : nat) (c : TargetEntry Expr),
                   nth_error (tl ++ [{| tle_expr := expr;
                                        resno := Z.of_nat (List.length tl) + 1;
                                        resjunk := junk |}]) i' = Some c ->
                   (i' < List.length tl)%nat /\ nth_error tl i' = Some c \/
                   i' = List.length tl /\ tle_expr c = expr).
        { intros i' c Hc.
          destruct (Nat.lt_ge_cases i' (List.length tl)) as [Hlt | Hge].
          - left. split; [exact Hlt|]. now rewrite nth_error_app1 in Hc.
          - right. rewrite nth_error_app2 in Hc by assumption.
            destruct (i' - List.length tl)%nat as [|m] eqn:Em.
            + cbn in Hc. injection Hc as <-. split; [lia | reflexivity].
            + cbn in Hc. destruct m; discriminate. }
        destruct (Hlast i a Ha) as [(Hi & Ha') | (Hi & Ea)];
          destruct (Hlast j b Hb) as [(Hj & Hb') | (Hj & Eb)]; try lia.
        -- exact (Huniq i j a b Ha' Hb' Heq).
        -- exfalso. apply Hnot. exists a.
           split; [eapply nth_error_In; exact Ha'|].
           rewrite equal_sym, <- Eb. exact Heq.
        -- exfalso. apply Hnot. exists b.
           split; [eapply nth_error_In; exact Hb'|].
           rewrite <- Ea. exact Heq.
      * intros i a Ha.
        destruct (Nat.lt_ge_cases i (List.length tl)) as [Hlt | Hge].
        -- rewrite nth_error_app1 in Ha by assumption. now apply Hnum.
        -- rewrite nth_error_app2 in Ha by assumption.
           destruct (i - List.length tl)%nat as [|m] eqn:Em.
           ++ cbn in Ha. injection Ha as <-. cbn [resno]. lia.
           ++ cbn in Ha. destruct m; discriminate.
Qed.

(** X12.  [add_unique_expression] returns false, leaving the target list
    as it is, exactly when the list already has an entry whose expression
    is [equal] to the one given; otherwise it appends one entry, numbered
    with the new length of the list and flagged as asked.  Either way the
    list then has the expression, a list without duplicates and numbered
    from 1 stays so, and adding the same expression again changes
    nothing. *)
Theorem add_unique_expression_no_duplicates :
  forall (expr : Expr) (tl : list (TargetEntry Expr)) (junk : bool),
    let r := add_unique_expression equal expr tl junk in
    (fst r = false <-> tlist_has equal tl expr) /\
    (fst r = false -> snd r = tl) /\
    (fst r = true ->
     snd r = tl ++ [{| tle_expr := expr;
                       resno := Z.of_nat (List.length tl) + 1;
                       resjunk := junk |}]) /\
    tlist_has equal (snd r) expr /\
    (tlist_unique equal tl -> tlist_unique equal (snd r)) /\
    (forall junk', add_unique_expression equal expr (snd r) junk'
                   = (false, snd r)).
Proof.
  intros expr tl junk r. subst r.
  pose proof (add_unique_keeps expr tl junk) as (Hhas & _ & Huniq).
  assert (Hagain : forall junk',
             add expr (snd (add expr tl junk)) junk'
             = (false, snd (add expr tl junk))).
  { intros junk'.
    destruct (add_unique_cases expr (snd (add expr tl junk)) junk')
      as [(_ & E) | (Hnot & _)]; [exact E | contradiction]. }
  unfold has, unique, add in *.
  destruct (add_unique_cases expr tl junk) as [(Hin & E) | (Hnot & E)];
    unfold has, add in Hin || unfold has, add in Hnot; unfold add in E;
    rewrite E in *; cbn [fst snd] in *.
  - split; [split; auto|]. split; [auto|]. split; [discriminate|].
    split; [exact Hhas|]. split; [exact Huniq | exact Hagain].
  - split; [split; [discriminate | intros Hin; contradiction]|].
    split; [discriminate|]. split; [reflexivity|].
    split; [exact Hhas|]. split; [exact Huniq | exact Hagain].
Qed.

Lemma add_vars_spec (vars : list Var) (junk : bool) :
  forall tl tl',
    add_vars equal Var_expr vars tl junk = Some tl' ->
    (forall x, has tl x -> has tl' x) /\
    (unique tl -> unique tl') /\
    (forall v, In v vars -> varattno v <> 0 /\ has tl' (Var_expr v)).
Proof.
  induction vars as [|v vars IH]; intros tl tl' Hrun; cbn [add_vars] in Hrun.
  - injection Hrun as <-.
    split; [auto|]. split; [auto|]. intros v [].
  - destruct (Z.eqb_spec (varattno v) 0) as [Hz | Hnz]; [discriminate|].
    destruct (add_unique_keeps (Var_expr v) tl junk) as (Hnew & Hmono & Huniq).
    destruct (IH _ _ Hrun) as (Hmono' & Huniq' & Hvars).
    split; [auto|]. split; [auto|].
    intros w [<- | Hw]; [split; [exact Hnz | auto] | now apply Hvars].
Qed.

Lemma projection_step_spec scanrelid attrs st tle st' :
  projection_step equal as_Var Var_expr pgstrom_device_expression
    pull_vars_of_level scanrelid attrs st tle = Done (Some st') ->
  (forall x, has (ps_tlist_dev st) x -> has (ps_tlist_dev st') x) /\
  (unique (ps_tlist_dev st) -> unique (ps_tlist_dev st')) /\
  (forall e, In e (tle_needs as_Var Var_expr pgstrom_device_expression
                     pull_vars_of_level tle) ->
             has (ps_tlist_dev st') e) /\
  (forall v, as_Var (tle_expr tle) = Some v -> varattno v <> 0) /\
  (as_Var (tle_expr tle) = None ->
   pgstrom_device_expression (tle_expr tle) = false ->
   forall v, In v (pull_vars_of_level (tle_expr tle)) -> varattno v <> 0).
Proof.
  unfold projection_step, tle_needs.
  destruct (add_unique_keeps (tle_expr tle) (ps_tlist_dev st) false)
    as (Hnew & Hmono & Huniq).
  destruct (as_Var (tle_expr tle)) as [var|] eqn:Evar.
  - destruct (Assert (varno var =? scanrelid)); cbn [bind]; try discriminate.
    destruct (Assert (varlevelsup var =? 0)); cbn [bind]; try discriminate.
    destruct (Z.eqb_spec (varattno var) 0) as [Hz | Hnz]; [discriminate|].
    match goal with
    | |- (x <- ?c ;; _) = _ -> _ => destruct c as [compatible1| |]
    end; cbn [bind]; try discriminate.
    fold add. destruct (add (tle_expr tle) (ps_tlist_dev st) false)
      as [added tl1] eqn:Eadd.
    cbn [snd] in Hnew, Hmono, Huniq.
    intros Heq. injection Heq as <-. cbn [ps_tlist_dev].
    split; [exact Hmono|]. split; [exact Huniq|]. split.
    + intros e [<- | []]. exact Hnew.
    + split; [|discriminate]. intros v Hv. injection Hv as <-. exact Hnz.
  - destruct (pgstrom_device_expression (tle_expr tle)) eqn:Edev.
    + intros Heq. injection Heq as <-. cbn [ps_tlist_dev].
      split; [exact Hmono|]. split; [exact Huniq|]. split.
      * intros e [<- | []]. exact Hnew.
      * split; discriminate.
    + destruct (add_vars equal Var_expr (pull_vars_of_level (tle_expr tle))
                  (ps_tlist_dev st) false) as [tl1|] eqn:Evars;
        [|discriminate].
      intros Heq. injection Heq as <-. cbn [ps_tlist_dev].
      destruct (add_vars_spec _ _ _ _ Evars) as (Hm & Hu & Hv).
      split; [exact Hm|]. split; [exact Hu|]. split.
      * intros e He. apply in_map_iff in He. destruct He as (v & <- & Hin).
        now apply Hv.
      * split; [discriminate|]. intros _ _ v Hin. now apply Hv.
Qed.

Lemma projection_loop_spec scanrelid attrs tlist :
  forall st st',
    projection_loop equal as_Var Var_expr pgstrom_device_expression
      pull_vars_of_level scanrelid attrs tlist st = Done (Some st') ->
    (forall x, has (ps_tlist_dev st) x -> has (ps_tlist_dev st') x) /\
    (unique (ps_tlist_dev st) -> unique (ps_tlist_dev st')) /\
    (forall tle e,
        In tle tlist ->
        In e (tle_needs as_Var Var_expr pgstrom_device_expression
                pull_vars_of_level tle) ->
        has (ps_tlist_dev st') e) /\
    (forall tle v, In tle tlist -> as_Var (tle_expr tle) = Some v ->
                   varattno v <> 0) /\
    (forall tle v,
        In tle tlist -> as_Var (tle_expr tle) = None ->
        pgstrom_device_expression (tle_expr tle) = false ->
        In v (pull_vars_of_level (tle_expr tle)) -> varattno v <> 0) /\
    ps_attnum st' = ps_attnum st + Z.of_nat (List.length tlist).
Proof.
  induction tlist as [|tle rest IH]; intros st st' Hrun;
    cbn [projection_loop] in Hrun.
  - injection Hrun as <-.
    split; [auto|]. split; [auto|].
    split; [intros ? ? []|]. split; [intros ? ? []|].
    split; [intros ? ? []|]. cbn [List.length]. lia.
  - destruct (projection_step equal as_Var Var_expr pgstrom_device_expression
                pull_vars_of_level scanrelid attrs st tle)
      as [[st1|]| |] eqn:Estep; cbn [bind] in Hrun; try discriminate.
    assert (Eattnum : ps_attnum st1 = ps_attnum st + 1).
    { revert Estep. unfold projection_step.
      destruct (as_Var (tle_expr tle)) as [var|].
      - destruct (Assert (varno var =? scanrelid)); cbn [bind]; try discriminate.
        destruct (Assert (varlevelsup var =? 0)); cbn [bind]; try discriminate.
        destruct (varattno var =? 0); [discriminate|].
        match goal with
        | |- (x <- ?c ;; _) = _ -> _ => destruct c as [compatible1| |]
        end; cbn [bind]; try discriminate.
        destruct (add_unique_expression equal (tle_expr tle) (ps_tlist_dev st)
                    false).
        intros Heq. injection Heq as <-. reflexivity.
      - destruct (pgstrom_device_expression (tle_expr tle)).
        + intros Heq. injection Heq as <-. reflexivity.
        + destruct (add_vars equal Var_expr _ _ _); [|discriminate].
          intros Heq. injection Heq as <-. reflexivity. }
    destruct (projection_step_spec _ _ _ _ _ Estep)
      as (Hm1 & Hu1 & Hn1 & Hw1 & Hp1).
    destruct (IH st1 st' Hrun) as (Hm & Hu & Hn & Hw & Hp & Ha).
    split; [auto|]. split; [auto|]. split; [|split; [|split]].
    + intros t e [<- | Hin] He; [apply Hm; now apply Hn1 | now apply (Hn t)].
    + intros t v [<- | Hin] Hv; [now apply Hw1 | now apply (Hw t)].
    + intros t v [<- | Hin] Hv Hd Hi; [now apply Hp1 | now apply (Hp t)].
    + rewrite Ha, Eattnum. cbn [List.length]. lia.
Qed.

(** X13.  When [build_gpuscan_projection] returns a device target list
    that is not empty, no two of its entries have [equal] expressions and
    the entries are numbered from 1 on; it has an entry for every [Var] and
    every device-executable expression of the target list of the plan, for
    every variable the other expressions of that list refer to, and for
    every variable of the host and of the device qualifiers; and none of
    these variables is a whole-row reference. *)
Theorem gpuscan_projection_covers_references :
  forall (scanrelid : Z) (relation : Relation)
         (tlist : list (TargetEntry Expr)) (host_quals dev_quals : list Expr)
         (tlist_dev : list (TargetEntry Expr)),
    build_gpuscan_projection equal as_Var Var_expr pgstrom_device_expression
      pull_vars_of_level pull_vars_of_quals scanrelid relation tlist
      host_quals dev_quals = Done tlist_dev ->
    tlist_dev <> [] ->
    tlist_unique equal tlist_dev /\
    (forall tle e,
        In tle tlist ->
        In e (tle_needs as_Var Var_expr pgstrom_device_expression
                pull_vars_of_level tle) ->
        tlist_has equal tlist_dev e) /\
    (forall tle v, In tle tlist -> as_Var (tle_expr tle) = Some v ->
                   varattno v <> 0) /\
    (forall tle v,
        In tle tlist -> as_Var (tle_expr tle) = None ->
        pgstrom_device_expression (tle_expr tle) = false ->
        In v (pull_vars_of_level (tle_expr tle)) -> varattno v <> 0) /\
    (host_quals <> [] ->
     forall v, In v (pull_vars_of_quals host_quals) ->
               varattno v <> 0 /\ tlist_has equal tlist_dev (Var_expr v)) /\
    (dev_quals <> [] ->
     forall v, In v (pull_vars_of_quals dev_quals) ->
               varattno v <> 0 /\ tlist_has equal tlist_dev (Var_expr v)).
Proof.
  intros scanrelid relation tlist host_quals dev_quals tl Hrun Hne.
  unfold build_gpuscan_projection in Hrun.
  destruct (projection_loop equal as_Var Var_expr pgstrom_device_expression
              pull_vars_of_level scanrelid (rd_att relation) tlist _)
    as [[st|]| |] eqn:Eloop; cbn [bind] in Hrun; try discriminate;
    [|injection Hrun as <-; contradiction].
  destruct (projection_loop_spec _ _ _ _ _ Eloop)
    as (_ & Hu & Hn & Hw & Hp & _).
  cbn [ps_tlist_dev] in Hu.
  assert (Hu0 : unique (ps_tlist_dev st)).
  { apply Hu. split; intros i; intros; destruct i; discriminate. }
  (* the variables of the host qualifiers *)
  assert (Hhost : forall tl1,
             match host_quals with
             | [] => Some (ps_tlist_dev st)
             | _ :: _ => add_vars equal Var_expr (pull_vars_of_quals host_quals)
                           (ps_tlist_dev st) false
             end = Some tl1 ->
             (forall x, has (ps_tlist_dev st) x -> has tl1 x) /\ unique tl1 /\
             (host_quals <> [] ->
              forall v, In v (pull_vars_of_quals host_quals) ->
                        varattno v <> 0 /\ has tl1 (Var_expr v))).
  { intros tl1 E. destruct host_quals as [|q qs].
    - injection E as <-. split; [auto|]. split; [assumption|]. congruence.
    - destruct (add_vars_spec _ _ _ _ E) as (Hm & Hu1 & Hv).
      split; [exact Hm|]. split; [auto|]. intros _. exact Hv. }
  destruct (match host_quals with
            | [] => Some (ps_tlist_dev st)
            | _ :: _ => _
            end) as [tl1|] eqn:E1;
    [|injection Hrun as <-; contradiction].
  destruct (Hhost tl1 eq_refl) as (Hm1 & Hu1 & Hv1).
  assert (Hdev : forall tl2,
             match dev_quals with
             | [] => Some tl1
             | _ :: _ => add_vars equal Var_expr (pull_vars_of_quals dev_quals)
                           tl1 true
             end = Some tl2 ->
             (forall x, has tl1 x -> has tl2 x) /\ unique tl2 /\
             (dev_quals <> [] ->
              forall v, In v (pull_vars_of_quals dev_quals) ->
                        varattno v <> 0 /\ has tl2 (Var_expr v))).
  { intros tl2 E. destruct dev_quals as [|q qs].
    - injection E as <-. split; [auto|]. split; [assumption|]. congruence.
    - destruct (add_vars_spec _ _ _ _ E) as (Hm & Hu2 & Hv).
      split; [exact Hm|]. split; [auto|]. intros _. exact Hv. }
  destruct (match dev_quals with
            | [] => Some tl1
            | _ :: _ => _
            end) as [tl2|] eqn:E2;
    [|injection Hrun as <-; contradiction].
  destruct (Hdev tl2 eq_refl) as (Hm2 & Hu2 & Hv2).
  destruct (if negb (relnatts relation =? ps_attnum st) then false
            else ps_compatible_tlist st);
    injection Hrun as <-; [contradiction|].
  split; [exact Hu2|]. split; [|split; [exact Hw|split; [exact Hp|split]]].
  - intros tle e Hin He. apply Hm2, Hm1. now apply (Hn tle).
  - intros Hq v Hv. destruct (Hv1 Hq v Hv) as (Hnz & Hh).
    split; [exact Hnz | now apply Hm2].
  - exact Hv2.
Qed.

Lemma add_vars_some (vars : list Var) (junk : bool) :
  forall tl,
    (forall v, In v vars -> varattno v <> 0) ->
    exists tl', add_vars equal Var_expr vars tl junk = Some tl'.
Proof.
  induction vars as [|v vars IH]; intros tl Hv; cbn [add_vars].
  - now exists tl.
  - destruct (Z.eqb_spec (varattno v) 0) as [Hz | Hnz].
    + exfalso. apply (Hv v); [now left | exact Hz].
    + apply IH. intros w Hw. apply Hv. now right.
Qed.

Lemma projection_step_some scanrelid attrs st tle :
  (forall v, as_Var (tle_expr tle) = Some v -> varattno v <> 0) ->
  (as_Var (tle_expr tle) = None ->
   pgstrom_device_expression (tle_expr tle) = false ->
   forall v, In v (pull_vars_of_level (tle_expr tle)) -> varattno v <> 0) ->
  projection_step equal as_Var Var_expr pgstrom_device_expression
    pull_vars_of_level scanrelid attrs st tle <> Done None.
Proof.
  intros Hw Hp. unfold projection_step.
  destruct (as_Var (tle_expr tle)) as [var|] eqn:Evar.
  - destruct (Assert (varno var =? scanrelid)); cbn [bind]; try discriminate.
    destruct (Assert (varlevelsup var =? 0)); cbn [bind]; try discriminate.
    destruct (Z.eqb_spec (varattno var) 0) as [Hz | Hnz].
    + exfalso. now apply (Hw var).
    + match goal with
      | |- (x <- ?c ;; _) <> _ => destruct c as [compatible1| |]
      end; cbn [bind]; try discriminate.
      destruct (add_unique_expression equal (tle_expr tle) (ps_tlist_dev st)
                  false). discriminate.
  - destruct (pgstrom_device_expression (tle_expr tle)) eqn:Edev;
      [discriminate|].
    destruct (add_vars_some (pull_vars_of_level (tle_expr tle)) false
                (ps_tlist_dev st)) as (tl' & ->); [|discriminate].
    now apply Hp.
Qed.

Lemma projection_loop_some scanrelid attrs tlist :
  forall st,
    (forall tle v, In tle tlist -> as_Var (tle_expr tle) = Some v ->
                   varattno v <> 0) ->
    (forall tle v,
        In tle tlist -> as_Var (tle_expr tle) = None ->
        pgstrom_device_expression (tle_expr tle) = false ->
        In v (pull_vars_of_level (tle_expr tle)) -> varattno v <> 0) ->
    projection_loop equal as_Var Var_expr pgstrom_device_expression
      pull_vars_of_level scanrelid attrs tlist st <> Done None.
Proof.
  induction tlist as [|tle rest IH]; intros st Hw Hp;
    cbn [projection_loop]; [discriminate|].
  pose proof (projection_step_some scanrelid attrs st tle) as Hstep.
  destruct (projection_step equal as_Var Var_expr pgstrom_device_expression
              pull_vars_of_level scanrelid attrs st tle)
    as [[st1|]| |]; cbn [bind]; try discriminate.
  - apply IH.
    + intros t v Hin. apply Hw. now right.
    + intros t v Hin. apply Hp. now right.
  - exfalso. apply Hstep; [| |reflexivity].
    + intros v. apply Hw. now left.
    + intros Hn Hd v. apply Hp; [now left | exact Hn | exact Hd].
Qed.

(** X14.  The test that closes the loop of [build_gpuscan_projection]
    compares the number of attributes of the relation with the counter
    [attnum], which is by then one more than the number of entries of the
    target list.  So, unless the relation has exactly one attribute more
    than the target list has entries, the routine never takes the list for
    a physically compatible one: when no whole-row reference occurs it
    returns the device target list, with an entry for everything the
    target list and the qualifiers need, and this list is not empty when
    the target list has a [Var].  A target list that names all the columns
    of the relation in order is such a case. *)
Theorem gpuscan_projection_built_unless_one_attribute_more :
  forall (scanrelid : Z) (relation : Relation)
         (tlist : list (TargetEntry Expr)) (host_quals dev_quals : list Expr)
         (tlist_dev : list (TargetEntry Expr)),
    relnatts relation <> Z.of_nat (List.length tlist) + 1 ->
    (forall tle v, In tle tlist -> as_Var (tle_expr tle) = Some v ->
                   varattno v <> 0) ->
    (forall tle v,
        In tle tlist -> as_Var (tle_expr tle) = None ->
        pgstrom_device_expression (tle_expr tle) = false ->
        In v (pull_vars_of_level (tle_expr tle)) -> varattno v <> 0) ->
    (forall v, In v (pull_vars_of_quals host_quals) -> varattno v <> 0) ->
    (forall v, In v (pull_vars_of_quals dev_quals) -> varattno v <> 0) ->
    build_gpuscan_projection equal as_Var Var_expr pgstrom_device_expression
      pull_vars_of_level pull_vars_of_quals scanrelid relation tlist
      host_quals dev_quals = Done tlist_dev ->
    tlist_unique equal tlist_dev /\
    (forall tle e,
        In tle tlist ->
        In e (tle_needs as_Var Var_expr pgstrom_device_expression
                pull_vars_of_level tle) ->
        tlist_has equal tlist_dev e) /\
    (host_quals <> [] ->
     forall v, In v (pull_vars_of_quals host_quals) ->
               tlist_has equal tlist_dev (Var_expr v)) /\
    (dev_quals <> [] ->
     forall v, In v (pull_vars_of_quals dev_quals) ->
               tlist_has equal tlist_dev (Var_expr v)) /\
    (forall tle v, In tle tlist -> as_Var (tle_expr tle) = Some v ->
                   tlist_dev <> []).
Proof.
  intros scanrelid relation tlist host_quals dev_quals tl Hoff Hw Hp Hhq Hdq
    Hrun.
  unfold build_gpuscan_projection in Hrun.
  pose proof (projection_loop_some scanrelid (rd_att relation) tlist
                {| ps_tlist_dev := []; ps_attnum := 1;
                   ps_compatible_tlist := true |} Hw Hp) as Hsome.
  destruct (projection_loop equal as_Var Var_expr pgstrom_device_expression
              pull_vars_of_level scanrelid (rd_att relation) tlist _)
    as [[st|]| |] eqn:Eloop; cbn [bind] in Hrun; try discriminate;
    [|contradiction].
  destruct (projection_loop_spec _ _ _ _ _ Eloop)
    as (_ & Hu & Hn & _ & _ & Hattnum).
  cbn [ps_tlist_dev ps_attnum] in Hu, Hattnum.
  assert (Hu0 : unique (ps_tlist_dev st)).
  { apply Hu. split; intros i; intros; destruct i; discriminate. }
  replace (relnatts relation =? ps_attnum st) with false in Hrun
    by (symmetry; apply Z.eqb_neq; lia).
  cbn [negb] in Hrun.
  assert (Hhost : exists tl1,
             match host_quals with
             | [] => Some (ps_tlist_dev st)
             | _ :: _ => add_vars equal Var_expr (pull_vars_of_quals host_quals)
                           (ps_tlist_dev st) false
             end = Some tl1 /\
             (forall x, has (ps_tlist_dev st) x -> has tl1 x) /\ unique tl1 /\
             (host_quals <> [] ->
              forall v, In v (pull_vars_of_quals host_quals) ->
                        has tl1 (Var_expr v))).
  { destruct host_quals as [|q qs].
    - exists (ps_tlist_dev st). split; [reflexivity|]. split; [auto|].
      split; [assumption|]. congruence.
    - destruct (add_vars_some (pull_vars_of_quals (q :: qs)) false
                  (ps_tlist_dev st) Hhq) as (tl1 & E).
      exists tl1. split; [exact E|].
      destruct (add_vars_spec _ _ _ _ E) as (Hm & Hu1 & Hv).
      split; [exact Hm|]. split; [auto|]. intros _ v Hin. now apply Hv. }
  destruct Hhost as (tl1 & E1 & Hm1 & Hu1 & Hv1).
  rewrite E1 in Hrun.
  assert (Hdev : exists tl2,
             match dev_quals with
             | [] => Some tl1
             | _ :: _ => add_vars equal Var_expr (pull_vars_of_quals dev_quals)
                           tl1 true
             end = Some tl2 /\
             (forall x, has tl1 x -> has tl2 x) /\ unique tl2 /\
             (dev_quals <> [] ->
              forall v, In v (pull_vars_of_quals dev_quals) ->
                        has tl2 (Var_expr v))).
  { destruct dev_quals as [|q qs].
    - exists tl1. split; [reflexivity|]. split; [auto|].
      split; [assumption|]. congruence.
    - destruct (add_vars_some (pull_vars_of_quals (q :: qs)) true tl1 Hdq)
        as (tl2 & E).
      exists tl2. split; [exact E|].
      destruct (add_vars_spec _ _ _ _ E) as (Hm & Hu2 & Hv).
      split; [exact Hm|]. split; [auto|]. intros _ v Hin. now apply Hv. }
  destruct Hdev as (tl2 & E2 & Hm2 & Hu2 & Hv2).
  rewrite E2 in Hrun. injection Hrun as <-.
  assert (Hneeds : forall tle e,
             In tle tlist ->
             In e (tle_needs as_Var Var_expr pgstrom_device_expression
                     pull_vars_of_level tle) ->
             has tl2 e).
  { intros tle e Hin He. apply Hm2, Hm1. now apply (Hn tle). }
  split; [exact Hu2|]. split; [exact Hneeds|].
  split; [intros Hq v Hv; apply Hm2; now apply Hv1|].
  split; [exact Hv2|].
  intros tle v Hin Ev Enil.
  destruct (Hneeds tle (tle_expr tle) Hin) as (t & Ht & _).
  - unfold tle_needs. rewrite Ev. now left.
  - rewrite Enil in Ht. contradiction.
Qed.

End ProjectionFacts.

Lemma sample_var_equal_refl (a : Var) : sample_var_equal a a = true.
Proof.
  unfold sample_var_equal. now rewrite !Z.eqb_refl.
Qed.

Lemma sample_var_equal_sym (a b : Var) :
  sample_var_equal a b = sample_var_equal b a.
Proof.
  unfold sample_var_equal.
  now rewrite (Z.eqb_sym (varno a)), (Z.eqb_sym (varattno a)),
    (Z.eqb_sym (vartype a)), (Z.eqb_sym (vartypmod a)),
    (Z.eqb_sym (varlevelsup a)).
Qed.

Lemma sample_equal_refl (a : sample_expr) : sample_equal a a = true.
Proof.
  destruct a; cbn; now rewrite !sample_var_equal_refl.
Qed.

Lemma sample_equal_sym (a b : sample_expr) :
  sample_equal a b = sample_equal b a.
Proof.
  destruct a, b; cbn; try reflexivity.
  - apply sample_var_equal_sym.
  - now rewrite (sample_var_equal_sym a), (sample_var_equal_sym b).
  - apply sample_var_equal_sym.
Qed.

Lemma add_unique_expression_no_duplicates_witness :
  let tl := [ {| tle_expr := SampleVar (sample_column 1 23); resno := 1;
                 resjunk := false |} ] in
  let r := add_unique_expression sample_equal (SampleVar (sample_column 2 20))
             tl true in
  fst r = true /\
  tlist_unique sample_equal (snd r) /\
  add_unique_expression sample_equal (SampleVar (sample_column 2 20)) (snd r)
    false = (false, snd r).
Proof.
  intros tl r.
  destruct (add_unique_expression_no_duplicates sample_expr sample_equal
              sample_equal_refl sample_equal_sym
              (SampleVar (sample_column 2 20)) tl true)
    as (_ & _ & _ & _ & Huniq & Hagain).
  split; [reflexivity|]. split; [|apply Hagain].
  apply Huniq. split.
  - intros [|[|i]] [|[|j]] a b Ha Hb; try discriminate; reflexivity.
  - intros [|[|i]] a Ha; try discriminate. cbn in Ha. injection Ha as <-.
    reflexivity.
Defined.

Lemma gpuscan_projection_covers_references_witness :
  let L := sample_layout true in
  exists tlist_dev,
    build_gpuscan_projection sample_equal sample_as_Var SampleVar
      sample_device_expression sample_pull_vars sample_pull_quals
      1 sample_relation sample_tlist
      [SampleHostFunc (sample_column 2 20)]
      [SamplePlus (sample_column 1 23) (sample_column 2 20)]
    = Done tlist_dev /\
    tlist_unique sample_equal tlist_dev /\
    tlist_has sample_equal tlist_dev (SampleVar (sample_column 1 23)) /\
    tlist_has sample_equal tlist_dev (SampleVar (sample_column 2 20)).
Proof.
  intros L. eexists. split; [reflexivity|].
  match goal with
  | |- tlist_unique _ ?tl /\ _ =>
      destruct (gpuscan_projection_covers_references (L := L) sample_expr
                  sample_equal sample_as_Var SampleVar sample_device_expression
                  sample_pull_vars sample_pull_quals sample_equal_refl
                  sample_equal_sym 1 sample_relation sample_tlist
                  [SampleHostFunc (sample_column 2 20)]
                  [SamplePlus (sample_column 1 23) (sample_column 2 20)]
                  tl eq_refl)
        as (Hu & Hn & _ & _ & Hh & _)
  end.
  - discriminate.
  - split; [exact Hu|]. split.
    + apply (Hn (nth 0 sample_tlist (mk_tle (SampleVar (sample_column 1 23)) 0
                                       false)));
        cbn; auto.
    + apply Hh; [discriminate | cbn; auto].
Defined.

(** ** GpuScan: loading the blocks of the relation chunk by chunk *)

Section InsertBlockSteps.

Context {L : KdsLayout}.

(** a page that does not fit leaves the chunk as it is *)
Lemma insert_block_full (pds : pgstrom_data_store) (blknum : Z)
    (snapshot : Snapshot) (page : Page) :
  format (kds pds) = KDS_FORMAT_ROW -> nslots (kds pds) = 0 ->
  length (kds pds) < block_max_consume (kds pds) page ->
  PDS_insert_block pds blknum snapshot page = Done (-1, pds).
Proof.
  intros Hf Hns Hfull. unfold PDS_insert_block.
  rewrite Hf, Hns. cbn [format_eqb Z.eqb andb].
  rewrite Assert_true. cbn [bind]. fold (block_max_consume (kds pds) page).
  apply Z.ltb_lt in Hfull. now rewrite Hfull.
Qed.

(** a page that fits is appended as a whole *)
Lemma insert_block_fits (pds : pgstrom_data_store) (blknum : Z)
    (snapshot : Snapshot) (page : Page) (prev : list HeapTupleData) :
  let k := kds pds in
  let tuples := page_tuples blknum snapshot page in
  let lines := PageGetMaxOffsetNumber page in
  format k = KDS_FORMAT_ROW -> nslots k = 0 ->
  block_max_consume k page <= length k ->
  0 <= ncols k -> 0 <= usage k -> length k < 2 ^ 32 ->
  nrooms k = INT_MAX ->
  holds_rows k prev ->
  Forall tuple_fits tuples ->
  rows_required tuples <= offsetof_htup * lines + BLCKSZ ->
  lines <= MaxHeapTuplesPerPage ->
  exists pds',
    PDS_insert_block pds blknum snapshot page
      = Done (Z.of_nat (List.length tuples), pds') /\
    holds_rows (kds pds') (prev ++ tuples) /\
    usage (kds pds') = usage k + rows_required tuples /\
    length (kds pds') = length k /\
    format (kds pds') = format k /\
    ncols (kds pds') = ncols k /\
    nslots (kds pds') = nslots k /\
    nrooms (kds pds') = nrooms k /\
    refcnt pds' = refcnt pds.
Proof.
  intros k tuples lines Hf Hns Hroom Hc Hu H32 Hnr Hrows Hfit Hpage Hmax.
  unfold PDS_insert_block. fold k. rewrite Hf, Hns.
  cbn [format_eqb Z.eqb andb].
  rewrite Assert_true. cbn [bind]. fold (block_max_consume k page).
  replace (length k <? block_max_consume k page) with false
    by (symmetry; apply Z.ltb_ge; assumption).
  pose proof Hrows as (Hn & _).
  assert (Hn0 : 0 <= nitems k) by lia.
  assert (Hl0 : 0 <= lines) by (unfold lines, PageGetMaxOffsetNumber; lia).
  set (av := PageIsAllVisible page && negb (takenDuringRecovery snapshot)).
  set (st0 := {| bls_usage := usage k; bls_ntup := 0; bls_body := body k |}).
  assert (Hspace : KERN_DATA_STORE_ROWINDEX k +
                   4 * (nitems k + bls_ntup st0 +
                        Z.of_nat (List.length (page_items page))) +
                   bls_usage st0 + rows_required tuples <= length k).
  { unfold st0; cbn [bls_ntup bls_usage]. fold (PageGetMaxOffsetNumber page).
    fold lines.
    unfold block_max_consume, KDS_CALCULATE_HASH_LENGTH,
      KDS_CALCULATE_HASH_FRONTLEN in Hroom. fold lines in Hroom.
    pose proof (STROMALIGN_bounds (4 * (nitems k + lines))).
    pose proof (STROMALIGN_bounds (4 * __KDS_NSLOTS (nitems k + lines))).
    pose proof (STROMALIGN_bounds (offsetof_htup * lines + BLCKSZ + usage k)).
    assert (Hnl : 0 <= nitems k + lines) by lia.
    pose proof (KDS_NSLOTS_ge (nitems k + lines) Hnl).
    unfold KERN_DATA_STORE_ROWINDEX, KERN_DATA_STORE_BODY,
      KERN_DATA_STORE_HEAD_LENGTH. lia. }
  destruct (insert_block_loop_holds k blknum av Hc Hn0 H32 (page_items page)
              1 st0 prev) as (E1 & E2 & E3); try assumption.
  - unfold st0; cbn [bls_ntup]. lia.
  - unfold st0; cbn [bls_usage]. lia.
  - apply (holds_rows_same_fields k); try reflexivity; try assumption.
    unfold st0; cbn [block_state_kds nitems bls_ntup]. lia.
  - change (visible_tuples blknum av 1 (page_items page)) with tuples
      in E1, E2, E3.
    set (st := insert_block_loop k blknum av 1 (page_items page) st0) in *.
    unfold st0 in E1, E2; cbn [bls_ntup bls_usage] in E1, E2.
    assert (Hle : Z.of_nat (List.length tuples) <= lines).
    { pose proof (visible_tuples_length blknum av (page_items page) 1) as Hv.
      change (visible_tuples blknum av 1 (page_items page)) with tuples in Hv.
      unfold lines, PageGetMaxOffsetNumber. lia. }
    assert (Hcap : nitems k + bls_ntup st <= nrooms k).
    { rewrite Hnr. unfold INT_MAX.
      pose proof (HEAD_LENGTH_nonneg (ncols k) Hc) as Hhead.
      unfold KERN_DATA_STORE_ROWINDEX, KERN_DATA_STORE_BODY,
        KERN_DATA_STORE_HEAD_LENGTH in Hspace.
      unfold st0 in Hspace; cbn [bls_ntup bls_usage] in Hspace.
      fold (PageGetMaxOffsetNumber page) in Hspace. fold lines in Hspace.
      pose proof (rows_required_nonneg _ Hfit). lia. }
    replace (bls_ntup st <=? MaxHeapTuplesPerPage) with true
      by (symmetry; apply Z.leb_le; lia).
    replace (nitems k + bls_ntup st <=? nrooms k) with true
      by (symmetry; apply Z.leb_le; lia).
    rewrite Assert_true. cbn [bind].
    eexists. split; [rewrite E1; reflexivity|].
    cbn [kds refcnt block_state_kds nitems usage length format ncols nslots
         nrooms].
    split; [exact E3|]. split; [lia|].
    repeat split; first [reflexivity | symmetry; assumption | assumption].
Qed.

End InsertBlockSteps.

Lemma flat_map_map {A B C : Type} (f : B -> list C) (g : A -> B)
    (l : list A) :
  flat_map f (map g l) = flat_map (fun x => f (g x)) l.
Proof.
  induction l as [|a l IH]; cbn [map flat_map]; [reflexivity|].
  now rewrite IH.
Qed.

Section ScanChunkFacts.

Context {L : KdsLayout}.

Variable pages : Z -> Page.

Lemma block_after_range (nblocks c : Z) (i : nat) :
  0 < nblocks -> 0 <= block_after nblocks c i < nblocks.
Proof. intros H. unfold block_after. apply Z.mod_pos_bound. exact H. Qed.

Lemma block_after_0 (nblocks c : Z) :
  0 <= c < nblocks -> block_after nblocks c 0 = c.
Proof.
  intros H. unfold block_after. rewrite Z.add_0_r. now apply Z.mod_small.
Qed.

Lemma block_after_add (nblocks c : Z) (i j : nat) :
  block_after nblocks (block_after nblocks c i) j
  = block_after nblocks c (i + j).
Proof.
  unfold block_after. rewrite Zplus_mod_idemp_l. f_equal. lia.
Qed.

Lemma block_after_1 (nblocks c : Z) :
  0 <= c < nblocks ->
  block_after nblocks c 1 = if nblocks <=? c + 1 then 0 else c + 1.
Proof.
  intros H. unfold block_after. change (Z.of_nat 1) with 1.
  destruct (Z.leb_spec nblocks (c + 1)) as [Hle | Hlt].
  - replace (c + 1) with nblocks by lia. apply Z_mod_same_full.
  - apply Z.mod_small. lia.
Qed.

Lemma run_tuples_0 snapshot nblocks c :
  run_tuples pages snapshot nblocks c 0 = [].
Proof. reflexivity. Qed.

Lemma run_tuples_S snapshot nblocks c (n : nat) :
  0 <= c < nblocks ->
  run_tuples pages snapshot nblocks c (S n)
  = page_tuples c snapshot (pages c) ++
    run_tuples pages snapshot nblocks (block_after nblocks c 1) n.
Proof.
  intros Hc. unfold run_tuples. cbn [seq flat_map].
  rewrite (block_after_0 nblocks c Hc). f_equal.
  rewrite <- seq_shift, flat_map_map. apply flat_map_ext. intros i.
  now rewrite block_after_add.
Qed.

Lemma run_tuples_app snapshot nblocks (n m : nat) :
  forall c,
    0 <= c < nblocks ->
    run_tuples pages snapshot nblocks c (n + m)
    = run_tuples pages snapshot nblocks c n ++
      run_tuples pages snapshot nblocks (block_after nblocks c n) m.
Proof.
  induction n as [|n IH]; intros c Hc.
  - cbn [Nat.add]. rewrite run_tuples_0, block_after_0 by assumption.
    reflexivity.
  - cbn [Nat.add]. rewrite !run_tuples_S by assumption.
    rewrite IH by (apply block_after_range; lia).
    rewrite block_after_add, <- app_assoc. reflexivity.
Qed.

(** from a block [c] the cursor comes back to the start block after a
    number of steps between 1 and the number of blocks, and not before *)
Lemma distance_to_start (nblocks start c : Z) :
  0 <= start < nblocks -> 0 <= c < nblocks ->
  exists r : nat,
    (1 <= r)%nat /\ Z.of_nat r <= nblocks /\
    (c = start -> Z.of_nat r = nblocks) /\
    block_after nblocks c r = start /\
    forall i : nat, (0 < i < r)%nat -> block_after nblocks c i <> start.
Proof.
  intros Hs Hc.
  assert (Hwrap : forall x, nblocks <= x < 2 * nblocks ->
                            x mod nblocks = x - nblocks).
  { intros x Hx. symmetry. apply (Z.mod_unique x nblocks 1); lia. }
  destruct (Z_lt_le_dec c start) as [Hlt | Hge].
  - exists (Z.to_nat (start - c)). split; [lia|]. split; [lia|].
    split; [lia|]. unfold block_after. split.
    + rewrite Z.mod_small by lia. lia.
    + intros i Hi. rewrite Z.mod_small by lia. lia.
  - exists (Z.to_nat (nblocks - c + start)). split; [lia|]. split; [lia|].
    split; [lia|]. unfold block_after. split.
    + rewrite Hwrap by lia. lia.
    + intros i Hi.
      destruct (Z_lt_le_dec (c + Z.of_nat i) nblocks) as [Hsmall | Hbig].
      * rewrite Z.mod_small by lia. lia.
      * rewrite Hwrap by lia. lia.
Qed.

(** [block_max_consume] reads the column count, the record count and the
    usage of the chunk *)
Lemma block_max_consume_empty (pds : pgstrom_data_store) (tupdesc : TupleDesc)
    (chunk_length : Z) (page : Page) :
  ncols (kds pds) = natts tupdesc ->
  length (kds pds) = STROMALIGN_DOWN chunk_length ->
  nitems (kds pds) = 0 -> usage (kds pds) = 0 ->
  page_fits_empty_chunk tupdesc chunk_length page ->
  block_max_consume (kds pds) page <= length (kds pds).
Proof.
  intros Hc Hl Hn Hu Hfit. unfold block_max_consume.
  rewrite Hc, Hl, Hn, Hu, Z.add_0_l, Z.add_0_r. exact Hfit.
Qed.

Lemma scan_chunk_loop_spec :
  forall (r fuel : nat) (scan : HeapScanDescData) (pds : pgstrom_data_store)
         (prev : list HeapTupleData),
    let nblocks := rs_nblocks scan in
    let start := rs_startblock scan in
    let c := rs_cblock scan in
    let snapshot := rs_snapshot scan in
    (1 <= r <= fuel)%nat ->
    0 <= start < nblocks -> nblocks < InvalidBlockNumber ->
    0 <= c < nblocks ->
    1 <= rs_numblocks scan <= InvalidBlockNumber ->
    (forall i : nat, (0 < i < r)%nat -> block_after nblocks c i <> start) ->
    block_after nblocks c r = start ->
    (forall b, 0 <= b < nblocks -> page_ok pages snapshot b) ->
    row_chunk_holds pds prev ->
    exists (n : nat) (scan' : HeapScanDescData) (pds' : pgstrom_data_store),
      scan_chunk_loop pages fuel scan pds = Some (Done (scan', pds')) /\
      (n <= r)%nat /\
      row_chunk_holds pds' (prev ++ run_tuples pages snapshot nblocks c n) /\
      length (kds pds') = length (kds pds) /\
      ncols (kds pds') = ncols (kds pds) /\
      refcnt pds' = refcnt pds /\
      rs_nblocks scan' = nblocks /\
      rs_startblock scan' = start /\
      rs_snapshot scan' = snapshot /\
      rs_syncscan scan' = rs_syncscan scan /\
      rs_cblock scan' = block_after nblocks c n /\
      (rs_numblocks scan = InvalidBlockNumber ->
       rs_numblocks scan' = InvalidBlockNumber) /\
      (rs_numblocks scan <> InvalidBlockNumber ->
       Z.of_nat n <= rs_numblocks scan /\
       rs_numblocks scan - Z.of_nat n <= rs_numblocks scan'
       <= rs_numblocks scan) /\
      (n = 0%nat -> pds' = pds) /\
      ((n < r)%nat /\
       length (kds pds')
       < block_max_consume (kds pds') (pages (block_after nblocks c n)) \/
       n = r \/
       (1 <= n)%nat /\ rs_numblocks scan' = 0).
Proof.
  induction r as [|r IH]; intros fuel scan pds prev nblocks start c snapshot
    Hr Hs Hnb Hc Hnum Hbefore Hback Hpages Hholds; [lia|].
  destruct fuel as [|fuel]; [lia|].
  pose proof Hholds as (Hf & Hns & Hnr & Hnc & H32 & Hu0 & Hu & Hrows).
  cbn [scan_chunk_loop]. fold c snapshot.
  destruct (Z_lt_le_dec (length (kds pds))
              (block_max_consume (kds pds) (pages c))) as [Hfull | Hroom].
  - (* the page does not fit *)
    rewrite (insert_block_full pds c snapshot (pages c) Hf Hns Hfull).
    change (-1 <? 0) with true. cbv iota.
    exists 0%nat, scan, pds. rewrite run_tuples_0, app_nil_r.
    rewrite block_after_0 by assumption.
    split; [reflexivity|]. split; [lia|].
    split; [exact Hholds|].
    do 8 (split; [reflexivity|]). split; [auto|].
    split; [intros _; cbn; lia|]. split; [reflexivity|].
    left. split; [lia | exact Hfull].
  - (* the page is appended *)
    destruct (Hpages c Hc) as (Hfit & Hreq & Hlines).
    destruct (insert_block_fits pds c snapshot (pages c) prev Hf Hns Hroom
                Hnc Hu0 H32 Hnr Hrows Hfit Hreq Hlines)
      as (pds1 & Hins & Hrows1 & Hu1 & Hl1 & Hf1 & Hc1 & Hns1 & Hnr1 & Hrc1).
    rewrite Hins.
    replace (Z.of_nat (List.length (page_tuples c snapshot (pages c))) <? 0)
      with false by (symmetry; apply Z.ltb_ge; lia).
    cbv iota.
    assert (Hholds1 : row_chunk_holds pds1
                        (prev ++ page_tuples c snapshot (pages c))).
    { pose proof (rows_required_nonneg _ Hfit) as Hnn.
      unfold row_chunk_holds. rewrite Hf1, Hns1, Hnr1, Hc1, Hl1, Hu1.
      rewrite rows_required_app.
      split; [assumption|]. split; [assumption|]. split; [assumption|].
      split; [assumption|]. split; [assumption|]. split; [lia|].
      split; [lia | exact Hrows1]. }
    assert (Hnext : block_after nblocks c 1
                    = if nblocks <=? c + 1 then 0 else c + 1)
      by (apply block_after_1; assumption).
    assert (Hc1r : 0 <= block_after nblocks c 1 < nblocks)
      by (apply block_after_range; lia).
    unfold scan_next_block. fold c nblocks.
    assert (Ewrap : cl_uint_wrap (c + 1) = c + 1).
    { unfold cl_uint_wrap. apply Z.mod_small.
      unfold InvalidBlockNumber in Hnb. lia. }
    rewrite Ewrap, <- Hnext.
    cbn [set_rs_cblock rs_cblock rs_startblock rs_numblocks]. fold start.
    set (scan1 := set_rs_cblock scan (block_after nblocks c 1)).
    (* what the loop gives from the next block on *)
    assert (Hrest : forall scan2,
               (1 < S r)%nat ->
               rs_nblocks scan2 = nblocks -> rs_startblock scan2 = start ->
               rs_snapshot scan2 = snapshot ->
               rs_syncscan scan2 = rs_syncscan scan ->
               rs_cblock scan2 = block_after nblocks c 1 ->
               1 <= rs_numblocks scan2 <= InvalidBlockNumber ->
               (rs_numblocks scan = InvalidBlockNumber ->
                rs_numblocks scan2 = InvalidBlockNumber) ->
               (rs_numblocks scan <> InvalidBlockNumber ->
                rs_numblocks scan2 = rs_numblocks scan - 1) ->
               exists (n : nat) (scan' : HeapScanDescData)
                      (pds' : pgstrom_data_store),
                 scan_chunk_loop pages fuel scan2 pds1
                 = Some (Done (scan', pds')) /\
                 (n <= S r)%nat /\
                 row_chunk_holds pds'
                   (prev ++ run_tuples pages snapshot nblocks c n) /\
                 length (kds pds') = length (kds pds) /\
                 ncols (kds pds') = ncols (kds pds) /\
                 refcnt pds' = refcnt pds /\
                 rs_nblocks scan' = nblocks /\
                 rs_startblock scan' = start /\
                 rs_snapshot scan' = snapshot /\
                 rs_syncscan scan' = rs_syncscan scan /\
                 rs_cblock scan' = block_after nblocks c n /\
                 (rs_numblocks scan = InvalidBlockNumber ->
                  rs_numblocks scan' = InvalidBlockNumber) /\
                 (rs_numblocks scan <> InvalidBlockNumber ->
                  Z.of_nat n <= rs_numblocks scan /\
                  rs_numblocks scan - Z.of_nat n <= rs_numblocks scan'
                  <= rs_numblocks scan) /\
                 (n = 0%nat -> pds' = pds) /\
                 ((n < S r)%nat /\
                  length (kds pds')
                  < block_max_consume (kds pds')
                      (pages (block_after nblocks c n)) \/
                  n = S r \/
                  (1 <= n)%nat /\ rs_numblocks scan' = 0)).
    { intros scan2 Hr1 E1 E2 E3 E4 E5 Hnum2 Hinv Hdec.
      destruct (IH fuel scan2 pds1 (prev ++ page_tuples c snapshot (pages c)))
        as (n & scan' & pds' & Hrun & Hn & Hh & Hl' & Hc' & Hrc' & F1 & F2
            & F3 & F4 & F5 & F6 & F7 & F8 & Hstop);
        rewrite ?E1, ?E2, ?E3, ?E5; try assumption; try lia.
      - intros i Hi. rewrite block_after_add. apply Hbefore. lia.
      - rewrite block_after_add. replace (1 + r)%nat with (S r) by lia.
        exact Hback.
      - rewrite E1, E2, E3, E5 in *.
        rewrite block_after_add in F5, Hstop.
        rewrite <- app_assoc, <- run_tuples_S in Hh by assumption.
        exists (S n), scan', pds'.
        split; [exact Hrun|]. split; [lia|]. split; [exact Hh|].
        split; [congruence|]. split; [congruence|]. split; [congruence|].
        split; [exact F1|]. split; [exact F2|]. split; [exact F3|].
        split; [congruence|]. split; [exact F5|].
        split; [intros Hi; apply F6; auto|].
        split.
        { intros Hlim. specialize (Hdec Hlim).
          assert (Hlim2 : rs_numblocks scan2 <> InvalidBlockNumber) by lia.
          specialize (F7 Hlim2). lia. }
        split; [discriminate|].
        destruct Hstop as [(Hlt & Hfull') | [-> | (Hn1 & Hzero)]].
        + left. split; [lia | exact Hfull'].
        + right. left. reflexivity.
        + right. right. split; [lia | exact Hzero]. }
    (* the answers when the loop is left after this block *)
    assert (Hone : forall scan',
               rs_nblocks scan' = nblocks -> rs_startblock scan' = start ->
               rs_snapshot scan' = snapshot ->
               rs_syncscan scan' = rs_syncscan scan ->
               rs_cblock scan' = block_after nblocks c 1 ->
               (rs_numblocks scan = InvalidBlockNumber ->
                rs_numblocks scan' = InvalidBlockNumber) ->
               (rs_numblocks scan <> InvalidBlockNumber ->
                rs_numblocks scan - 1 <= rs_numblocks scan'
                <= rs_numblocks scan) ->
               (1%nat = S r \/ rs_numblocks scan' = 0) ->
               exists (n : nat) (scan'' : HeapScanDescData)
                      (pds' : pgstrom_data_store),
                 Some (Done (scan', pds1)) = Some (Done (scan'', pds')) /\
                 (n <= S r)%nat /\
                 row_chunk_holds pds'
                   (prev ++ run_tuples pages snapshot nblocks c n) /\
                 length (kds pds') = length (kds pds) /\
                 ncols (kds pds') = ncols (kds pds) /\
                 refcnt pds' = refcnt pds /\
                 rs_nblocks scan'' = nblocks /\
                 rs_startblock scan'' = start /\
                 rs_snapshot scan'' = snapshot /\
                 rs_syncscan scan'' = rs_syncscan scan /\
                 rs_cblock scan'' = block_after nblocks c n /\
                 (rs_numblocks scan = InvalidBlockNumber ->
                  rs_numblocks scan'' = InvalidBlockNumber) /\
                 (rs_numblocks scan <> InvalidBlockNumber ->
                  Z.of_nat n <= rs_numblocks scan /\
                  rs_numblocks scan - Z.of_nat n <= rs_numblocks scan''
                  <= rs_numblocks scan) /\
                 (n = 0%nat -> pds' = pds) /\
                 ((n < S r)%nat /\
                  length (kds pds')
                  < block_max_consume (kds pds')
                      (pages (block_after nblocks c n)) \/
                  n = S r \/
                  (1 <= n)%nat /\ rs_numblocks scan'' = 0)).
    { intros scan' E1 E2 E3 E4 E5 Hinv Hdec Hwhy.
      exists 1%nat, scan', pds1.
      rewrite run_tuples_S, run_tuples_0, app_nil_r by assumption.
      split; [reflexivity|]. split; [lia|]. split; [exact Hholds1|].
      split; [exact Hl1|]. split; [exact Hc1|]. split; [exact Hrc1|].
      split; [exact E1|]. split; [exact E2|]. split; [exact E3|].
      split; [exact E4|]. split; [exact E5|]. split; [exact Hinv|].
      split; [intros Hlim; specialize (Hdec Hlim);
              change (Z.of_nat 1) with 1; lia|].
      split; [discriminate|].
      destruct Hwhy as [E | E]; [right; left; exact E|].
      right. right. split; [lia | exact E]. }
    subst scan1.
    destruct (Z.eqb_spec (block_after nblocks c 1) start) as [Estart | Nstart].
    + (* the cursor is back at the start block *)
      apply Hone; cbn [set_rs_cblock rs_numblocks]; try reflexivity;
        try (intros; lia).
      left. destruct r as [|r']; [reflexivity|].
      exfalso. apply (Hbefore 1%nat); [lia | exact Estart].
    + assert (Hr1 : (1 < S r)%nat).
      { destruct r as [|r']; [|lia]. exfalso. apply Nstart. exact Hback. }
      destruct (Z.eqb_spec (rs_numblocks scan) InvalidBlockNumber)
        as [Einv | Nlim]; cbn [negb].
      * apply Hrest; cbn [set_rs_cblock rs_numblocks]; try reflexivity;
          try assumption; try (intros; lia).
      * cbn [set_rs_numblocks rs_numblocks].
        assert (Edec : cl_uint_wrap (rs_numblocks scan - 1)
                       = rs_numblocks scan - 1).
        { unfold cl_uint_wrap. apply Z.mod_small.
          unfold InvalidBlockNumber in *. lia. }
        rewrite Edec.
        destruct (Z.eqb_spec (rs_numblocks scan - 1) 0) as [Ez | Enz].
        -- apply Hone; try reflexivity;
             cbn [set_rs_cblock set_rs_numblocks rs_numblocks];
             try (intros; lia).
        -- apply Hrest; try reflexivity; try assumption;
             cbn [set_rs_cblock set_rs_numblocks rs_numblocks];
             try (intros; lia).
Qed.

(** every block of the relation is met once on the way round *)
Lemma block_after_once (nblocks start b : Z) :
  0 <= start < nblocks -> 0 <= b < nblocks ->
  exists i : nat,
    Z.of_nat i < nblocks /\ block_after nblocks start i = b /\
    forall j : nat,
      Z.of_nat j < nblocks -> block_after nblocks start j = b -> j = i.
Proof.
  intros Hs Hb.
  assert (Hwrap : forall x, nblocks <= x < 2 * nblocks ->
                            x mod nblocks = x - nblocks).
  { intros x Hx. symmetry. apply (Z.mod_unique x nblocks 1); lia. }
  assert (Hval : forall j : nat,
             Z.of_nat j < nblocks ->
             block_after nblocks start j
             = if start + Z.of_nat j <? nblocks then start + Z.of_nat j
               else start + Z.of_nat j - nblocks).
  { intros j Hj. unfold block_after.
    destruct (Z.ltb_spec (start + Z.of_nat j) nblocks).
    - apply Z.mod_small. lia.
    - apply Hwrap. lia. }
  destruct (Z_lt_le_dec b start) as [Hlt | Hge].
  - exists (Z.to_nat (b - start + nblocks)). split; [lia|]. split.
    + rewrite Hval by lia.
      destruct (Z.ltb_spec (start + Z.of_nat (Z.to_nat (b - start + nblocks)))
                  nblocks); lia.
    + intros j Hj. rewrite (Hval j Hj).
      destruct (Z.ltb_spec (start + Z.of_nat j) nblocks); lia.
  - exists (Z.to_nat (b - start)). split; [lia|]. split.
    + rewrite Hval by lia.
      destruct (Z.ltb_spec (start + Z.of_nat (Z.to_nat (b - start)))
                  nblocks); lia.
    + intros j Hj. rewrite (Hval j Hj).
      destruct (Z.ltb_spec (start + Z.of_nat j) nblocks); lia.
Qed.

(** a scan that is over gives no chunk and stays as it is *)
Lemma exec_scan_chunk_over fuel fresh tupdesc scan chunk_length :
  rs_nblocks scan = 0 \/ rs_startblock scan <> InvalidBlockNumber ->
  scan_over scan ->
  pgstrom_exec_scan_chunk pages fuel fresh tupdesc scan chunk_length
  = Some (Done (None, scan)).
Proof.
  intros Hs Hover. unfold pgstrom_exec_scan_chunk.
  destruct (Z.eqb_spec (rs_nblocks scan) 0) as [E0 | N0]; [reflexivity|].
  destruct (Z.eqb_spec (rs_numblocks scan) 0) as [E1 | N1]; [reflexivity|].
  cbn [orb].
  destruct Hover as [H | [H | H]]; try contradiction.
  destruct Hs as [Hs | Hs]; [contradiction|].
  destruct (Z.eqb_spec (rs_cblock scan) InvalidBlockNumber) as [E2 | N2];
    [congruence|].
  rewrite H, Z.eqb_refl. reflexivity.
Qed.

(** one call of the routine on a scan that is not over, [r] blocks before
    the cursor is back at the start block *)
Lemma exec_scan_chunk_run :
  forall (r fuel : nat) (fresh : memory) (tupdesc : TupleDesc)
         (scan : HeapScanDescData) (chunk_length c : Z),
    let nblocks := rs_nblocks scan in
    let start := rs_startblock scan in
    let snapshot := rs_snapshot scan in
    (1 <= r <= fuel)%nat ->
    0 <= start < nblocks -> nblocks < InvalidBlockNumber ->
    1 <= rs_numblocks scan <= InvalidBlockNumber ->
    (rs_cblock scan = InvalidBlockNumber /\ c = start \/
     rs_cblock scan = c /\ 0 <= c < nblocks /\ c <> start) ->
    (forall i : nat, (0 < i < r)%nat -> block_after nblocks c i <> start) ->
    block_after nblocks c r = start ->
    (forall b, 0 <= b < nblocks -> page_ok pages snapshot b) ->
    0 <= natts tupdesc -> STROMALIGN_DOWN chunk_length < 2 ^ 32 ->
    exists (n : nat) (res : option pgstrom_data_store)
           (scan' : HeapScanDescData),
      pgstrom_exec_scan_chunk pages fuel fresh tupdesc scan chunk_length
      = Some (Done (res, scan')) /\
      (n <= r)%nat /\
      rs_nblocks scan' = nblocks /\
      rs_startblock scan' = start /\
      rs_snapshot scan' = snapshot /\
      rs_syncscan scan' = rs_syncscan scan /\
      rs_cblock scan' = block_after nblocks c n /\
      (rs_numblocks scan = InvalidBlockNumber ->
       rs_numblocks scan' = InvalidBlockNumber) /\
      (rs_numblocks scan <> InvalidBlockNumber ->
       Z.of_nat n <= rs_numblocks scan /\
       rs_numblocks scan - Z.of_nat n <= rs_numblocks scan'
       <= rs_numblocks scan) /\
      match res with
      | Some pds =>
          run_tuples pages snapshot nblocks c n <> [] /\
          row_chunk_holds pds (run_tuples pages snapshot nblocks c n) /\
          length (kds pds) = STROMALIGN_DOWN chunk_length /\
          ncols (kds pds) = natts tupdesc
      | None => run_tuples pages snapshot nblocks c n = []
      end /\
      ((n < r)%nat /\
       STROMALIGN_DOWN chunk_length
       < block_max_consume
           (kds (match res with
                 | Some pds => pds
                 | None => PDS_create_row fresh tupdesc chunk_length
                 end))
           (pages (block_after nblocks c n)) \/
       n = r \/
       (1 <= n)%nat /\ rs_numblocks scan' = 0).
Proof.
  intros r fuel fresh tupdesc scan chunk_length c nblocks start snapshot
    Hr Hs Hnb Hnum Hentry Hbefore Hback Hpages Hnatts Hlen.
  unfold pgstrom_exec_scan_chunk. fold nblocks start.
  replace (nblocks =? 0) with false by (symmetry; apply Z.eqb_neq; lia).
  replace (rs_numblocks scan =? 0) with false
    by (symmetry; apply Z.eqb_neq; lia).
  cbn [orb].
  set (pds0 := PDS_create_row fresh tupdesc chunk_length).
  assert (Hc : 0 <= c < nblocks) by (destruct Hentry as [(_ & ->) | (_ & H & _)]; lia).
  (* the scan with which the loop is entered *)
  assert (Hent : exists scan1,
             (if rs_cblock scan =? InvalidBlockNumber
              then Some (set_rs_cblock scan start)
              else if rs_cblock scan =? start then None else Some scan)
             = Some scan1 /\
             rs_nblocks scan1 = nblocks /\ rs_startblock scan1 = start /\
             rs_snapshot scan1 = snapshot /\
             rs_syncscan scan1 = rs_syncscan scan /\
             rs_numblocks scan1 = rs_numblocks scan /\
             rs_cblock scan1 = c).
  { destruct Hentry as [(E & ->) | (E & _ & Hne)].
    - rewrite E, Z.eqb_refl. eexists. split; [reflexivity|].
      repeat split; reflexivity.
    - replace (rs_cblock scan =? InvalidBlockNumber) with false
        by (symmetry; apply Z.eqb_neq; lia).
      replace (rs_cblock scan =? start) with false
        by (symmetry; apply Z.eqb_neq; lia).
      exists scan. repeat split; try reflexivity. exact E. }
  destruct Hent as (scan1 & -> & E1 & E2 & E3 & E4 & E5 & E6).
  rewrite E1, E6.
  replace (c <? nblocks) with true by (symmetry; apply Z.ltb_lt; lia).
  rewrite Assert_true.
  assert (Hholds0 : row_chunk_holds pds0 []).
  { unfold row_chunk_holds, pds0, PDS_create_row, init_kernel_data_store.
    cbn [kds format nslots nrooms ncols length usage rows_required].
    split; [reflexivity|]. split; [reflexivity|]. split; [reflexivity|].
    split; [assumption|]. split; [assumption|]. split; [lia|].
    split; [reflexivity|]. split; [reflexivity|].
    intros i tup Hnth. destruct i; discriminate. }
  destruct (scan_chunk_loop_spec r fuel scan1 pds0 [])
    as (n & scan2 & pds2 & Hrun & Hn & Hh & Hl2 & Hc2 & Hrc2 & F1 & F2 & F3
        & F4 & F5 & F6 & F7 & F8 & Hstop);
    rewrite ?E1, ?E2, ?E3, ?E5, ?E6; try assumption.
  rewrite E1, E2, E3, E4, E5, E6 in *. cbn [app] in Hh.
  rewrite Hrun.
  pose proof Hh as (_ & _ & _ & _ & _ & _ & Hu2 & Hn2 & _).
  exists n.
  destruct (Z.eqb_spec (nitems (kds pds2)) 0) as [Ez | Enz].
  - (* no record: the chunk is released *)
    assert (Enil : run_tuples pages snapshot nblocks c n = []).
    { apply length_zero_iff_nil. lia. }
    replace (0 <? refcnt pds2) with true
      by (rewrite Hrc2; reflexivity).
    rewrite Assert_true.
    exists None, scan2. split; [reflexivity|]. split; [exact Hn|].
    split; [exact F1|]. split; [exact F2|]. split; [exact F3|].
    split; [exact F4|]. split; [exact F5|]. split; [exact F6|].
    split; [exact F7|]. split; [exact Enil|].
    destruct Hstop as [(Hlt & Hfull) | [E | H0]]; [left | now right; left
                                                   | now right; right].
    split; [exact Hlt|]. fold pds0.
    rewrite Enil in Hu2. cbn [rows_required] in Hu2.
    unfold block_max_consume in Hfull |- *.
    rewrite Hc2, Ez, Hu2, Hl2 in Hfull. exact Hfull.
  - exists (Some pds2), scan2. split; [reflexivity|]. split; [exact Hn|].
    split; [exact F1|]. split; [exact F2|]. split; [exact F3|].
    split; [exact F4|]. split; [exact F5|]. split; [exact F6|].
    split; [exact F7|]. split.
    + split; [|split; [exact Hh|split; [exact Hl2 | exact Hc2]]].
      intros Enil. rewrite Enil in Hn2. cbn in Hn2. contradiction.
    + destruct Hstop as [(Hlt & Hfull) | [E | H0]]; [left | now right; left
                                                     | now right; right].
      split; [exact Hlt|]. rewrite Hl2 in Hfull. exact Hfull.
Qed.

(** X15.  One call of [pgstrom_exec_scan_chunk]: a scan that is over gives
    no chunk and is left as it is.  Otherwise the call loads a run of [n]
    consecutive blocks, read in a circle from the block of the cursor (the
    start block when the scan begins), and moves the cursor behind them;
    the chunk it returns holds the visible tuples of these blocks and
    nothing else, in the order of the scan, and no chunk is returned when
    there is none.  The run ends only where the scan is over or where the
    next block does not fit the chunk any more, it never exceeds the number
    of blocks asked for, and it has a block at least when the first page
    fits an empty chunk. *)
Theorem exec_scan_chunk_loads_block_run :
  forall (fuel : nat) (fresh : memory) (tupdesc : TupleDesc)
         (scan : HeapScanDescData) (chunk_length : Z),
    let nblocks := rs_nblocks scan in
    let start := rs_startblock scan in
    let snapshot := rs_snapshot scan in
    let c := if rs_cblock scan =? InvalidBlockNumber then start
             else rs_cblock scan in
    scan_wf scan ->
    (forall b, 0 <= b < nblocks -> page_ok pages snapshot b) ->
    0 <= natts tupdesc -> STROMALIGN_DOWN chunk_length < 2 ^ 32 ->
    (Z.to_nat nblocks <= fuel)%nat ->
    (scan_over scan ->
     pgstrom_exec_scan_chunk pages fuel fresh tupdesc scan chunk_length
     = Some (Done (None, scan))) /\
    (~ scan_over scan ->
     exists (n : nat) (res : option pgstrom_data_store)
            (scan' : HeapScanDescData),
       pgstrom_exec_scan_chunk pages fuel fresh tupdesc scan chunk_length
       = Some (Done (res, scan')) /\
       Z.of_nat n <= nblocks /\
       (rs_numblocks scan <> InvalidBlockNumber ->
        Z.of_nat n <= rs_numblocks scan) /\
       scan_wf scan' /\
       rs_nblocks scan' = nblocks /\
       rs_startblock scan' = start /\
       rs_cblock scan' = block_after nblocks c n /\
       match res with
       | Some pds =>
           run_tuples pages snapshot nblocks c n <> [] /\
           row_chunk_holds pds (run_tuples pages snapshot nblocks c n) /\
           length (kds pds) = STROMALIGN_DOWN chunk_length
       | None => run_tuples pages snapshot nblocks c n = []
       end /\
       (scan_over scan' \/
        STROMALIGN_DOWN chunk_length
        < block_max_consume
            (kds (match res with
                  | Some pds => pds
                  | None => PDS_create_row fresh tupdesc chunk_length
                  end))
            (pages (rs_cblock scan'))) /\
       (page_fits_empty_chunk tupdesc chunk_length (pages c) ->
        (1 <= n)%nat)).
Proof.
  intros fuel fresh tupdesc scan chunk_length nblocks start snapshot c
    (Hnb & Hstart & Hcur & Hnum) Hpages Hnatts Hlen Hfuel.
  fold nblocks start in Hnb, Hstart, Hcur.
  split.
  - intros Hover. apply exec_scan_chunk_over; [|exact Hover].
    destruct Hstart as [H0 | H0]; [left; exact H0 | right].
    fold start. unfold InvalidBlockNumber in *. lia.
  - intros Hnot. unfold scan_over in Hnot. fold nblocks start in Hnot.
    assert (Hnb0 : nblocks <> 0) by tauto.
    assert (Hnum0 : rs_numblocks scan <> 0) by tauto.
    assert (Hcs : rs_cblock scan <> start) by tauto.
    destruct Hstart as [? | Hstart]; [contradiction|].
    assert (Hentry : rs_cblock scan = InvalidBlockNumber /\ c = start \/
                     rs_cblock scan = c /\ 0 <= c < nblocks /\ c <> start).
    { unfold c.
      destruct (Z.eqb_spec (rs_cblock scan) InvalidBlockNumber) as [E | N].
      - left. split; [exact E | reflexivity].
      - right. destruct Hcur as [? | Hcur]; [contradiction|].
        split; [reflexivity|]. split; assumption. }
    assert (Hc : 0 <= c < nblocks)
      by (destruct Hentry as [(_ & ->) | (_ & H & _)]; lia).
    destruct (distance_to_start nblocks start c Hstart Hc)
      as (r & Hr1 & Hr2 & _ & Hback & Hbefore).
    destruct (exec_scan_chunk_run r fuel fresh tupdesc scan chunk_length c)
      as (n & res & scan' & Hrun & Hn & F1 & F2 & F3 & F4 & F5 & F6 & F7
          & Hres & Hstop); try assumption; try lia.
    exists n, res, scan'. split; [exact Hrun|]. split; [lia|].
    split; [intros Hlim; apply F7; exact Hlim|].
    assert (Hc' : 0 <= block_after nblocks c n < nblocks)
      by (apply block_after_range; lia).
    split.
    { unfold scan_wf. rewrite F1, F2, F5.
      split; [lia|]. split; [right; exact Hstart|]. split; [right; exact Hc'|].
      destruct (Z.eq_dec (rs_numblocks scan) InvalidBlockNumber) as [E | N].
      - rewrite (F6 E). unfold InvalidBlockNumber. lia.
      - specialize (F7 N). lia. }
    split; [exact F1|]. split; [exact F2|]. split; [exact F5|].
    split.
    { destruct res as [pds|]; [|exact Hres].
      destruct Hres as (H1 & H2 & H3 & _).
      split; [exact H1|]. split; [exact H2 | exact H3]. }
    split.
    { rewrite F5.
      destruct Hstop as [(Hlt & Hfull) | [E | (Hn1 & H0)]].
      - right. exact Hfull.
      - left. right. right. rewrite F5, F2, E. exact Hback.
      - left. right. left. exact H0. }
    intros Hfit.
    destruct n as [|n']; [|lia]. exfalso.
    destruct Hstop as [(Hlt & Hfull) | [E | (Hn1 & H0)]]; try lia.
    rewrite block_after_0 in Hfull by assumption.
    rewrite run_tuples_0 in Hres.
    destruct res as [pds|]; [destruct Hres as (Hne & _); now apply Hne|].
    pose proof (block_max_consume_empty
                  (PDS_create_row fresh tupdesc chunk_length) tupdesc
                  chunk_length (pages c) eq_refl eq_refl eq_refl eq_refl Hfit)
      as Hle.
    change (length (kds (PDS_create_row fresh tupdesc chunk_length)))
      with (STROMALIGN_DOWN chunk_length) in Hle.
    lia.
Qed.

(** the calls that follow until the cursor is back at the start block,
    [r] blocks ahead *)
Lemma scan_chunks_from :
  forall (calls r fuel : nat) (fresh : nat -> memory) (tupdesc : TupleDesc)
         (scan : HeapScanDescData) (chunk_length c : Z),
    let nblocks := rs_nblocks scan in
    let start := rs_startblock scan in
    let snapshot := rs_snapshot scan in
    (r < calls)%nat -> (1 <= r <= fuel)%nat ->
    0 <= start < nblocks -> nblocks < InvalidBlockNumber ->
    rs_numblocks scan = InvalidBlockNumber ->
    (rs_cblock scan = InvalidBlockNumber /\ c = start \/
     rs_cblock scan = c /\ 0 <= c < nblocks /\ c <> start) ->
    (forall i : nat, (0 < i < r)%nat -> block_after nblocks c i <> start) ->
    block_after nblocks c r = start ->
    (forall b, 0 <= b < nblocks -> page_ok pages snapshot b) ->
    (forall b, 0 <= b < nblocks ->
               page_fits_empty_chunk tupdesc chunk_length (pages b)) ->
    0 <= natts tupdesc -> STROMALIGN_DOWN chunk_length < 2 ^ 32 ->
    exists (chunks : list pgstrom_data_store)
           (tss : list (list HeapTupleData)) (scan' : HeapScanDescData),
      scan_chunks pages calls fuel fresh tupdesc scan chunk_length
      = Some (Done (chunks, scan')) /\
      Forall2 (fun pds ts => row_chunk_holds pds ts /\ ts <> []) chunks tss /\
      List.concat tss = run_tuples pages snapshot nblocks c r /\
      rs_cblock scan' = start /\
      rs_nblocks scan' = nblocks /\ rs_startblock scan' = start.
Proof.
  induction calls as [|calls IH];
    intros r fuel fresh tupdesc scan chunk_length c nblocks start snapshot
      Hcalls Hr Hs Hnb Hnum Hentry Hbefore Hback Hpages Hfits Hnatts Hlen;
    [lia|].
  assert (Hc : 0 <= c < nblocks)
    by (destruct Hentry as [(_ & ->) | (_ & H & _)]; lia).
  cbn [scan_chunks].
  destruct (exec_scan_chunk_run r fuel (fresh calls) tupdesc scan chunk_length
              c)
    as (n & res & scan1 & Hrun & Hn & F1 & F2 & F3 & F4 & F5 & F6 & _
        & Hres & Hstop); try assumption;
    [rewrite Hnum; unfold InvalidBlockNumber; lia|].
  fold nblocks start snapshot in F1, F2, F3, F5, Hres, Hstop.
  specialize (F6 Hnum). rewrite Hrun.
  assert (Hcn : 0 <= block_after nblocks c n < nblocks)
    by (apply block_after_range; lia).
  destruct res as [pds|].
  - destruct Hres as (Hne & Hholds & Hl & Hnc).
    destruct Hstop as [(Hlt & Hfull) | [E | (_ & H0)]].
    + (* the chunk is full: the scan goes on behind the run *)
      assert (Hn1 : (1 <= n)%nat).
      { destruct n; [|lia]. exfalso. apply Hne. apply run_tuples_0. }
      destruct (IH (r - n)%nat fuel fresh tupdesc scan1 chunk_length
                  (block_after nblocks c n))
        as (chunks & tss & scan2 & Hrest & Hall & Hcat & G1 & G2 & G3);
        rewrite ?F1, ?F2, ?F3; try assumption; try lia.
      * right. split; [exact F5|]. split; [exact Hcn|].
        apply Hbefore. lia.
      * intros i Hi. rewrite block_after_add. apply Hbefore. lia.
      * rewrite block_after_add.
        replace (n + (r - n))%nat with r by lia. exact Hback.
      * rewrite Hrest. rewrite F3, F1 in Hcat. rewrite F2 in G1, G3.
        rewrite F1 in G2.
        exists (pds :: chunks),
          (run_tuples pages snapshot nblocks c n :: tss), scan2.
        split; [reflexivity|].
        split; [constructor; [split; assumption | exact Hall]|].
        split.
        { cbn [List.concat]. rewrite Hcat, <- run_tuples_app by assumption.
          f_equal. lia. }
        split; [exact G1|]. split; assumption.
    + (* the cursor is back at the start block: the next call gives none *)
      subst n.
      destruct calls as [|calls']; [lia|].
      cbn [scan_chunks].
      rewrite exec_scan_chunk_over.
      * exists [pds], [run_tuples pages snapshot nblocks c r], scan1.
        split; [reflexivity|].
        split; [constructor; [split; assumption | constructor]|].
        split; [cbn [List.concat]; apply app_nil_r|].
        split; [rewrite F5; exact Hback|]. split; assumption.
      * right. rewrite F2. unfold InvalidBlockNumber in *. lia.
      * right. right. rewrite F5, F2. exact Hback.
    + rewrite F6 in H0. discriminate H0.
  - destruct Hstop as [(Hlt & Hfull) | [E | (_ & H0)]].
    + (* impossible: an empty chunk takes any page *)
      exfalso.
      pose proof (block_max_consume_empty
                    (PDS_create_row (fresh calls) tupdesc chunk_length) tupdesc
                    chunk_length (pages (block_after nblocks c n))
                    eq_refl eq_refl eq_refl eq_refl (Hfits _ Hcn)) as Hle.
      change (length (kds (PDS_create_row (fresh calls) tupdesc chunk_length)))
        with (STROMALIGN_DOWN chunk_length) in Hle.
      lia.
    + subst n. exists [], [], scan1.
      split; [reflexivity|]. split; [constructor|].
      split; [symmetry; exact Hres|].
      split; [rewrite F5; exact Hback|]. split; assumption.
    + rewrite F6 in H0. discriminate H0.
Qed.

(** X16.  A scan of the whole relation: when every page fits a chunk
    without records, the calls of [pgstrom_exec_scan_chunk] that
    [gpuscan_next_chunk] makes until it gets [NULL] return chunks that are
    not empty and that hold, one after the other, the visible tuples of the
    blocks [start], [start + 1], ... read in a circle, every block of the
    relation being loaded once; the scan is over afterwards. *)
Theorem scan_chunks_cover_relation :
  forall (calls fuel : nat) (fresh : nat -> memory) (tupdesc : TupleDesc)
         (scan : HeapScanDescData) (chunk_length : Z),
    let nblocks := rs_nblocks scan in
    let start := rs_startblock scan in
    let snapshot := rs_snapshot scan in
    scan_wf scan ->
    rs_cblock scan = InvalidBlockNumber ->
    rs_numblocks scan = InvalidBlockNumber ->
    (forall b, 0 <= b < nblocks -> page_ok pages snapshot b) ->
    (forall b, 0 <= b < nblocks ->
               page_fits_empty_chunk tupdesc chunk_length (pages b)) ->
    0 <= natts tupdesc -> STROMALIGN_DOWN chunk_length < 2 ^ 32 ->
    (Z.to_nat nblocks <= fuel)%nat -> (Z.to_nat nblocks < calls)%nat ->
    exists (chunks : list pgstrom_data_store)
           (tss : list (list HeapTupleData)) (scan' : HeapScanDescData),
      scan_chunks pages calls fuel fresh tupdesc scan chunk_length
      = Some (Done (chunks, scan')) /\
      Forall2 (fun pds ts => row_chunk_holds pds ts /\ ts <> []) chunks tss /\
      List.concat tss
      = run_tuples pages snapshot nblocks start (Z.to_nat nblocks) /\
      scan_over scan' /\
      forall b, 0 <= b < nblocks ->
        exists i : nat,
          (i < Z.to_nat nblocks)%nat /\ block_after nblocks start i = b /\
          forall j : nat,
            (j < Z.to_nat nblocks)%nat ->
            block_after nblocks start j = b -> j = i.
Proof.
  intros calls fuel fresh tupdesc scan chunk_length nblocks start snapshot
    (Hnb & Hstart & _ & _) Hcur Hnum Hpages Hfits Hnatts Hlen Hfuel Hcalls.
  fold nblocks start in Hnb, Hstart.
  destruct Hstart as [E0 | Hstart].
  - (* no block at all *)
    destruct calls as [|calls']; [lia|]. cbn [scan_chunks].
    rewrite exec_scan_chunk_over; [| left; exact E0 | left; exact E0].
    exists [], [], scan. split; [reflexivity|]. split; [constructor|].
    rewrite E0. split; [reflexivity|]. split; [left; exact E0|].
    intros b Hb. lia.
  - destruct (distance_to_start nblocks start start Hstart Hstart)
      as (r & Hr1 & Hr2 & Hfull & Hback & Hbefore).
    specialize (Hfull eq_refl).
    assert (Er : Z.to_nat nblocks = r) by lia. rewrite Er in *.
    destruct (scan_chunks_from calls r fuel fresh tupdesc scan chunk_length
                start)
      as (chunks & tss & scan' & Hrun & Hall & Hcat & G1 & G2 & G3);
      try assumption; try lia;
      try (left; split; [exact Hcur | reflexivity]).
    exists chunks, tss, scan'. split; [exact Hrun|]. split; [exact Hall|].
    split; [exact Hcat|]. split; [right; right; congruence|].
    intros b Hb.
    destruct (block_after_once nblocks start b Hstart Hb)
      as (i & Hi & Hval & Huniq).
    exists i. split; [lia|]. split; [exact Hval|].
    intros j Hj. apply Huniq. lia.
Qed.

End ScanChunkFacts.

Lemma sample_pages_ok :
  let L := sample_layout true in
  forall b, 0 <= b < 3 -> page_ok sample_pages sample_snapshot b.
Proof.
  intros L b Hb.
  assert (E : b = 0 \/ b = 1 \/ b = 2) by lia.
  destruct E as [-> | [-> | ->]];
    (split; [repeat constructor; vm_compute; try discriminate; reflexivity|]);
    split; vm_compute; discriminate.
Qed.

Lemma sample_pages_fit :
  let L := sample_layout true in
  forall b, 0 <= b < 3 ->
            page_fits_empty_chunk sample_tupdesc 16384 (sample_pages b).
Proof.
  intros L b Hb. vm_compute. discriminate.
Qed.

Lemma exec_scan_chunk_loads_block_run_witness :
  let L := sample_layout true in
  exists (n : nat) (res : option pgstrom_data_store)
         (scan' : HeapScanDescData),
    pgstrom_exec_scan_chunk sample_pages 3 zero_memory sample_tupdesc
      sample_scan 16384 = Some (Done (res, scan')) /\
    (1 <= n)%nat /\
    rs_cblock scan' = block_after 3 1 n.
Proof.
  intros L.
  destruct (exec_scan_chunk_loads_block_run (L := L) sample_pages 3
              zero_memory sample_tupdesc sample_scan 16384) as (_ & Hrun).
  - unfold scan_wf, sample_scan, InvalidBlockNumber.
    cbn [rs_nblocks rs_startblock rs_cblock rs_numblocks].
    split; [lia|]. split; [right; lia|]. split; [left; reflexivity | lia].
  - apply sample_pages_ok.
  - vm_compute. discriminate.
  - vm_compute. reflexivity.
  - vm_compute. lia.
  - destruct Hrun as (n & res & scan' & Hexec & _ & _ & _ & _ & _ & Hc & _
                      & _ & Hn).
    + intros [H | [H | H]]; discriminate H.
    + exists n, res, scan'. split; [exact Hexec|]. split; [|exact Hc].
      apply Hn. apply (sample_pages_fit 1). lia.
Defined.

Lemma scan_chunks_cover_relation_witness :
  let L := sample_layout true in
  exists (chunks : list pgstrom_data_store)
         (tss : list (list HeapTupleData)) (scan' : HeapScanDescData),
    scan_chunks sample_pages 4 3 (fun _ => zero_memory) sample_tupdesc
      sample_scan 16384 = Some (Done (chunks, scan')) /\
    Forall2 (fun pds ts => row_chunk_holds pds ts /\ ts <> []) chunks tss /\
    List.concat tss = run_tuples sample_pages sample_snapshot 3 1 3.
Proof.
  intros L.
  destruct (scan_chunks_cover_relation (L := L) sample_pages 4 3
              (fun _ => zero_memory) sample_tupdesc sample_scan 16384)
    as (chunks & tss & scan' & Hrun & Hall & Hcat & _).
  - unfold scan_wf, sample_scan, InvalidBlockNumber.
    cbn [rs_nblocks rs_startblock rs_cblock rs_numblocks].
    split; [lia|]. split; [right; lia|]. split; [left; reflexivity | lia].
  - reflexivity.
  - reflexivity.
  - apply sample_pages_ok.
  - apply sample_pages_fit.
  - vm_compute. discriminate.
  - vm_compute. reflexivity.
  - vm_compute. lia.
  - vm_compute. lia.
  - exists chunks, tss, scan'. split; [exact Hrun|]. split; [exact Hall|].
    exact Hcat.
Defined.

Lemma gpuscan_projection_built_unless_one_attribute_more_witness :
  let L := sample_layout true in
  exists tlist_dev,
    build_gpuscan_projection sample_equal sample_as_Var SampleVar
      sample_device_expression sample_pull_vars sample_pull_quals
      1 sample_relation sample_identity_tlist [] [] = Done tlist_dev /\
    tlist_dev <> [] /\
    tlist_has sample_equal tlist_dev (SampleVar (sample_column 2 20)).
Proof.
  intros L. eexists. split; [reflexivity|].
  match goal with
  | |- ?tl <> [] /\ _ =>
      destruct (gpuscan_projection_built_unless_one_attribute_more (L := L)
                  sample_expr sample_equal sample_as_Var SampleVar
                  sample_device_expression sample_pull_vars sample_pull_quals
                  sample_equal_refl sample_equal_sym 1 sample_relation
                  sample_identity_tlist [] [] tl)
        as (_ & Hn & _ & _ & Hne)
  end.
  - cbn. lia.
  - intros tle v [<- | [<- | []]] Hv; injection Hv as <-; discriminate.
  - intros tle v [<- | [<- | []]] Hv; discriminate Hv.
  - intros v [].
  - intros v [].
  - reflexivity.
  - split.
    + apply (Hne (mk_tle (SampleVar (sample_column 1 23)) 1 false)
               (sample_column 1 23)); [now left | reflexivity].
    + apply (Hn (mk_tle (SampleVar (sample_column 2 20)) 2 false));
        [right; now left | now left].
Defined.

(** ** Growing a chunk and shrinking it again *)

Section ExpandShrink.

Context {L : KdsLayout}.

(** the expansion of a consistent chunk of aligned length *)
Lemma expand_row_run (fresh : memory) (pds : pgstrom_data_store)
    (new_length : Z) :
  let k := kds pds in
  chunk_wf k -> nslots k = 0 ->
  STROMALIGN_DOWN (length k) = length k ->
  length k < STROMALIGN_DOWN new_length < 2 ^ 32 ->
  exists pds',
    PDS_expand_size fresh pds new_length = Done (NewPds pds') /\
    length (kds pds') = STROMALIGN_DOWN new_length /\
    refcnt pds' = refcnt pds /\ usage (kds pds') = usage k /\
    ncols (kds pds') = ncols k /\ nitems (kds pds') = nitems k /\
    nrooms (kds pds') = nrooms k /\ format (kds pds') = format k /\
    nslots (kds pds') = nslots k /\
    (forall i, 0 <= i < nitems k ->
               KERN_DATA_STORE_TUPITEM (kds pds') i
               = KERN_DATA_STORE_TUPITEM k i
                 + (STROMALIGN_DOWN new_length - length k) /\
               same_tuple (stored_tuple (kds pds') i) (stored_tuple k i)) /\
    chunk_wf (kds pds').
Proof.
  intros k Hwf Hns Hal (Hgt & H32).
  pose proof (chunk_wf_regions k Hwf) as (Hri0 & Hri & Hfront & Hul).
  pose proof Hwf as (Hf & Hc & Hn & Hu & Hmin & Hlen & Hitems).
  set (new := STROMALIGN_DOWN new_length) in *.
  set (shift := STROMALIGN_DOWN (new - length k)).
  assert (Es : shift = new - length k).
  { unfold shift. rewrite <- Hal at 1. unfold new, STROMALIGN_DOWN.
    rewrite (TYPEALIGN_DOWN_sub _ STROMALIGN_LEN_pow2).
    fold (STROMALIGN_DOWN (length k)). now rewrite Hal. }
  assert (Hpow : (2 : Z) ^ 32 < 2 ^ 64) by (apply Z.pow_lt_mono_r; lia).
  unfold PDS_expand_size. fold k.
  replace (format_eqb (format k) KDS_FORMAT_ROW ||
           format_eqb (format k) KDS_FORMAT_HASH) with true
    by (destruct Hf as [-> | ->]; reflexivity).
  rewrite Hns. cbn [Z.eqb]. rewrite !Assert_true. cbn [bind]. fold new.
  replace (new <=? length k) with false by (symmetry; apply Z.leb_gt; lia).
  fold (kds_min_length k).
  replace (new <=? kds_min_length k) with false
    by (symmetry; apply Z.leb_gt; lia).
  rewrite (size_t_wrap_small (new - length k)) by lia.
  rewrite (size_t_wrap_small (length k - usage k)) by lia.
  replace (length k - (length k - usage k)) with (usage k) by lia.
  rewrite (size_t_wrap_small (usage k)) by lia. fold shift.
  set (head := KERN_DATA_STORE_HEAD_LENGTH k) in *.
  set (m0 := memcpy fresh 0 (body k) 0 head).
  set (m1 := memcpy m0 (length k - usage k + shift) (body k)
                    (length k - usage k) (usage k)).
  assert (Hidx : KERN_DATA_STORE_ROWINDEX k = head) by reflexivity.
  rewrite Hidx in *.
  destruct (expand_index_fold (body k) head shift (nitems k) Hn m1)
    as (Hout & Hin).
  set (m2 := fold_left _ (index_range (nitems k)) m1) in *.
  assert (Hres : match format k with
                 | KDS_FORMAT_ROW | KDS_FORMAT_HASH =>
                     Done (NewPds (set_length_body pds new m2))
                 | KDS_FORMAT_SLOT =>
                     if 0 <? usage k
                     then Elog "cannot expand KDS_FORMAT_SLOT with extra area"
                     else Done (NewPds (set_length_body pds new
                                  (memcpy m0 (KERN_DATA_STORE_BODY k) (body k)
                                     (KERN_DATA_STORE_BODY k)
                                     (KERN_DATA_STORE_SLOT_LENGTH k (nitems k)))))
                 | KDS_FORMAT_BLOCK => Elog "unexpected KDS format"
                 end = Done (NewPds (set_length_body pds new m2)))
    by (destruct Hf as [-> | ->]; reflexivity).
  exists (set_length_body pds new m2). split; [exact Hres|].
  unfold set_length_body.
  cbn [kds length refcnt usage ncols nitems nrooms format nslots body].
  fold k.
  assert (Hpay : forall x, length k - usage k <= x < length k ->
                           m2 (x + shift) = body k x).
  { intros x Hx. rewrite Hout by lia. unfold m1.
    rewrite memcpy_inside by lia. f_equal. lia. }
  assert (Hent : forall i, 0 <= i < nitems k ->
                   row_index_get m2 head i
                   = row_index_get (body k) head i + shift).
  { intros i Hi. rewrite Hin by assumption.
    destruct (chunk_wf_item k i Hwf Hi) as (Ht0 & Hlo & Hst & Hhi).
    unfold KERN_DATA_STORE_TUPITEM in Hst, Hhi. rewrite Hidx in Hst, Hhi.
    destruct tupitem_layout as (_ & ? & ?).
    apply Z.mod_small. lia. }
  assert (Hrec : forall i, 0 <= i < nitems k ->
                   same_tuple
                     (read_tupitem m2 (row_index_get (body k) head i + shift))
                     (stored_tuple k i)).
  { intros i Hi.
    destruct (chunk_wf_item k i Hwf Hi) as (Ht0 & Hlo & Hst & Hhi).
    unfold KERN_DATA_STORE_TUPITEM in Hst, Hhi. rewrite Hidx in Hst, Hhi.
    unfold stored_tuple, KERN_DATA_STORE_TUPITEM. rewrite Hidx.
    apply read_tupitem_shift with (len := t_len (stored_tuple k i));
      [assumption | reflexivity |].
    intros d Hd.
    replace (row_index_get (body k) head i + shift + d)
      with (row_index_get (body k) head i + d + shift) by lia.
    apply Hpay. lia. }
  do 8 (split; [first [reflexivity | exact Hns | symmetry; exact Hns]|]).
  split.
  - intros i Hi.
    assert (Et : KERN_DATA_STORE_TUPITEM
                   {| length := new; usage := usage k; ncols := ncols k;
                      nitems := nitems k; nrooms := nrooms k;
                      format := format k; nslots := nslots k;
                      nrows_per_block := nrows_per_block k; body := m2 |} i
                 = KERN_DATA_STORE_TUPITEM k i + shift).
    { unfold KERN_DATA_STORE_TUPITEM, KERN_DATA_STORE_ROWINDEX,
        KERN_DATA_STORE_BODY, KERN_DATA_STORE_HEAD_LENGTH.
      cbn [body ncols]. fold k. apply Hent. assumption. }
    rewrite <- Es. split; [exact Et|].
    unfold stored_tuple at 1. rewrite Et. cbn [body].
    apply Hrec. assumption.
  - unfold chunk_wf, kds_min_length, items_in_payload, item_start, stored_tuple,
      KERN_DATA_STORE_TUPITEM, KERN_DATA_STORE_ROWINDEX, KERN_DATA_STORE_BODY,
      KERN_DATA_STORE_HEAD_LENGTH.
    cbn [kds length refcnt usage ncols nitems nrooms format nslots body].
    fold k head. fold (kds_min_length k).
    repeat match goal with |- _ /\ _ => split end; try assumption; try lia.
    intros i Hi. specialize (Hrec i Hi). rewrite Hent by assumption.
    destruct Hrec as (Hlen' & _).
    destruct (chunk_wf_item k i Hwf Hi) as (Ht0 & Hlo & Hst & Hhi).
    unfold item_start, KERN_DATA_STORE_TUPITEM in Hlo, Hhi.
    rewrite Hidx in Hlo, Hhi.
    rewrite Hlen'. repeat split; [assumption | lia | lia].
Qed.

(** when the slack is worth reclaiming, the [memmove] of [PDS_shrink_size]
    reads up to the end of the buffer and as many bytes further as the
    front part has *)
Lemma shrink_leaves_buffer (pds : pgstrom_data_store) :
  let k := kds pds in
  chunk_wf k -> 0 < kds_front_length k ->
  BLCKSZ <= shrink_shift k -> sizeof_Datum * nitems k <= shrink_shift k ->
  PDS_shrink_size pds = Trap.
Proof.
  intros k Hwf Hfront Hb1 Hb2.
  pose proof Hwf as (Hf & Hc & Hn & Hu & Hmin & Hlen & Hitems).
  destruct (shrink_shift_wf k Hwf) as (_ & Hs0 & Hs1).
  assert (Hmin0 : 0 <= kds_min_length k).
  { rewrite min_length_front.
    pose proof (STROMALIGN_bounds (usage k)). lia. }
  assert (Hpow : (2 : Z) ^ 32 < 2 ^ 64) by (apply Z.pow_lt_mono_r; lia).
  rewrite (PDS_shrink_size_row_hash pds Hf). cbv zeta. fold k.
  replace ((shrink_shift k <? BLCKSZ) ||
           (shrink_shift k <? sizeof_Datum * nitems k)) with false
    by (symmetry; apply orb_false_iff; split; apply Z.ltb_ge; assumption).
  rewrite (size_t_wrap_small (length k - shrink_shift k)) by lia.
  unfold memmove_within.
  replace (kds_front_length k + shrink_shift k
           + (length k - shrink_shift k) <=? length k) with false
    by (symmetry; apply Z.leb_gt; lia).
  rewrite andb_false_r. reflexivity.
Qed.

(** X17.  [PDS_expand_size] followed by [PDS_shrink_size] does not give the
    chunk back.  Take a consistent Row- or Hash-format chunk of aligned
    length, without hash table, and grow it by a page at least and by
    [sizeof(Datum)] per record at least.  The expansion returns a consistent
    chunk in which every record reads as before.  The shrink that follows
    finds a slack worth reclaiming and calls [memmove] for
    [length - shift] bytes from [baseptr + shift]: this range ends beyond
    the buffer, by the length of the front part, and the call has no
    defined result. *)
Theorem expand_then_shrink_leaves_buffer :
  forall (fresh : memory) (pds : pgstrom_data_store) (new_length : Z),
    let k := kds pds in
    let grown := STROMALIGN_DOWN new_length in
    chunk_wf k -> nslots k = 0 ->
    STROMALIGN_DOWN (length k) = length k ->
    0 < kds_front_length k ->
    grown < 2 ^ 32 ->
    BLCKSZ <= grown - length k ->
    sizeof_Datum * nitems k <= grown - length k ->
    exists pds1,
      PDS_expand_size fresh pds new_length = Done (NewPds pds1) /\
      length (kds pds1) = grown /\
      nitems (kds pds1) = nitems k /\
      chunk_wf (kds pds1) /\
      (forall i, 0 <= i < nitems k ->
                 same_tuple (stored_tuple (kds pds1) i) (stored_tuple k i)) /\
      grown - length k <= shrink_shift (kds pds1) /\
      PDS_shrink_size pds1 = Trap.
Proof.
  intros fresh pds new_length k grown Hwf Hns Hal Hfront H32 Hb1 Hb2.
  pose proof BLCKSZ_pos as Hpage.
  destruct (expand_row_run fresh pds new_length Hwf Hns Hal)
    as (pds1 & Hexp & Hl1 & Hrc1 & Hu1 & Hc1 & Hn1 & Hnr1 & Hf1 & Hns1
        & Hrec1 & Hwf1); [fold k grown; lia|].
  fold k grown in Hl1, Hu1, Hc1, Hn1, Hf1, Hrec1.
  assert (Emin : kds_min_length (kds pds1) = kds_min_length k).
  { unfold kds_min_length. now rewrite Hf1, Hc1, Hn1, Hu1. }
  assert (Efront : kds_front_length (kds pds1) = kds_front_length k).
  { unfold kds_front_length. now rewrite Hf1, Hc1, Hn1. }
  assert (Ediff : STROMALIGN_DOWN (grown - length k) = grown - length k).
  { rewrite <- Hal at 1. unfold grown, STROMALIGN_DOWN.
    rewrite (TYPEALIGN_DOWN_sub _ STROMALIGN_LEN_pow2).
    fold (STROMALIGN_DOWN (length k)). now rewrite Hal. }
  assert (Hshift : grown - length k <= shrink_shift (kds pds1)).
  { destruct (shrink_shift_wf (kds pds1) Hwf1) as (-> & _).
    rewrite Hl1, Emin, <- Ediff.
    apply STROMALIGN_DOWN_mono.
    destruct Hwf as (_ & _ & _ & _ & Hmin & _). lia. }
  exists pds1. split; [exact Hexp|]. split; [exact Hl1|].
  split; [exact Hn1|]. split; [exact Hwf1|].
  split; [intros i Hi; apply Hrec1; exact Hi|]. split; [exact Hshift|].
  apply shrink_leaves_buffer; [exact Hwf1 | | | ]; rewrite ?Efront, ?Hn1; lia.
Qed.

End ExpandShrink.

Lemma expand_then_shrink_leaves_buffer_witness :
  let L := sample_layout true in
  let k := kds (sample_row_chunk true) in
  exists pds1,
    PDS_expand_size zero_memory (sample_row_chunk true) 20000
      = Done (NewPds pds1) /\
    nitems (kds pds1) = 3 /\
    same_tuple (stored_tuple (kds pds1) 1) (stored_tuple k 1) /\
    PDS_shrink_size pds1 = Trap.
Proof.
  intros L k.
  destruct (expand_then_shrink_leaves_buffer (L := L) zero_memory
              (sample_row_chunk true) 20000 (sample_row_chunk_wf true) eq_refl)
    as (pds1 & Hexp & _ & Hn & _ & Hrec & _ & Hshr).
  - vm_compute. reflexivity.
  - vm_compute. reflexivity.
  - vm_compute. reflexivity.
  - vm_compute. discriminate.
  - vm_compute. discriminate.
  - exists pds1. split; [exact Hexp|].
    assert (N : nitems k = 3) by (vm_compute; reflexivity).
    split; [rewrite Hn; exact N|]. split; [|exact Hshr].
    apply Hrec. fold k. rewrite N. lia.
Defined.
